(* ===== verification/_CoqProject ===== *)
-Q . S2P
Prelude.v
Machine.v
KState.v
Spinlock.v
Kalloc.v
Swap.v
Walk.v
FrameTable.v
Vm.v
Sched.v
Strings.v
Printf.v
Print.v
Bio.v
BufCache.v
BufRules.v
Log.v
Recovery.v
Fs.v
Txn.v
Content.v
Trunc.v
Dirs.v
Names.v
Console.v
Pipe.v
File.v
Proc.v
Sysarg.v
Exec.v
Sysfile.v
Sysproc.v
Virtio.v
Trap.v
Mlfq.v
Wf.v
WfOps.v
PipeFifo.v
System.v
Grep.v
Utils.v
GrepMain.v
Demos.v
Umalloc.v
Riscv.v
Asm.v
Start.v
Sh.v
ShRun.v
