(* ===== verification/Prelude.v ===== *)
(** * xv6 (RISC-V, MLFQ scheduler and demand paging): verification development

    The program is a small Unix: the kernel under [src/kernel/], with a
    multi-level feedback queue scheduler, page replacement by the clock
    algorithm and a swap area added to xv6, and the user programs under
    [src/user/]. This library translates the C and assembly code into Rocq
    definitions and proves what makes its parts correct.

    ** The kernel's code as a monad

    Kernel code is a function of the kernel's state ([kst], [KState.v]: one
    field per global variable, structures with the source's fields, physical
    memory as bytes, the registers of the hart) in the monad [K] of this file.
    Running it gives [Done] with a result, [Panic] with the message, [Swtch]
    where the code calls [swtch()], with the rest of the thread as a
    continuation that gets the state found when the thread is resumed, or
    [Spin] where a loop used up its fuel. Integers are [Z] with the wrap-around
    of their C type written out ([u8], [u32], [u64], [i32] of [Machine.v]);
    page tables, free pages, trapframes and the on-disk structures are the bytes
    the code reads and writes. One C function is one definition of the same
    name; a loop's body is a definition of its own when theorems need it.

    ** Files

    - [Prelude.v] (this file), [Machine.v], [KState.v]: the monad, its rules
      and tactics, shared lemmas; machine words, memory, riscv.h's page-table
      macros; the kernel's structures and constants.
    - [Spinlock.v]: spinlock.c, for the code on one CPU a list of held locks,
      and in [Module SMP] statement by statement for all CPUs interleaved.
    - [Kalloc.v], [Swap.v], [Walk.v], [FrameTable.v], [Vm.v]: kalloc.c, swap.c,
      vm.c, frametable.c: physical pages, swap slots, page tables, the clock
      algorithm, user memory and page faults.
    - [Sched.v], [Proc.v]: proc.c: scheduling, sleep and wakeup; the life cycle
      of processes. [Mlfq.v]: theorems on the feedback queue.
    - [Strings.v], [Printf.v], [Print.v]: string.c and the user library's string
      functions; both printf; messages of the kernel.
    - [Bio.v], [Log.v], [Fs.v], [File.v], [Pipe.v], [Console.v], [Exec.v],
      [Virtio.v]: sleep locks and bio.c, log.c, fs.c, file.c, pipe.c, console.c
      and uart.c, exec.c, virtio_disk.c. The disk driver is used by the layers
      above through the class [BlockDev]; [Virtio.v] is its implementation.
      [BufCache.v] and [BufRules.v] (the buffer cache as a map, and rules for
      its clients), [Recovery.v] (crash safety), [PipeFifo.v]: theorems.
    - [Txn.v], [Content.v], [Trunc.v], [Dirs.v], [Names.v]: theorems on fs.c. [tx] is the
      view a process has of the blocks inside a transaction; on top of it the
      block allocator, the content of a file as a list of bytes, truncation,
      directories as lists of entries, and path names resolved in the tree
      that the directories on the disk form.
    - [Sysarg.v], [Sysfile.v], [Sysproc.v], [Trap.v]: syscall.c, sysfile.c,
      sysproc.c, trap.c, plic.c, main.c.
    - [Wf.v], [WfOps.v], [System.v]: a logic of well-formed states and lock
      balance, its specification of every kernel operation, and the system as a
      transition system of threads, traps, interrupts and outside events.
    - [Riscv.v], [Asm.v], [Start.v]: a hart with its registers and Sv39
      translation; trampoline.S, swtch.S, kernelvec.S as instruction sequences;
      entry.S, start.c and the register accessors of riscv.h.
    - [Grep.v], [Umalloc.v], [Sh.v], [ShRun.v]: the matcher and the scan of
      grep.c; umalloc.c; the parser of sh.c; runcmd and main of sh.c.
    - [Utils.v], [GrepMain.v]: cat.c, echo.c, init.c, kill.c, ln.c, ls.c, mkdir.c,
      rm.c, wc.c, zombie.c and grep.c as interaction trees of system calls, run
      against what a process sees of the kernel. [Demos.v]: the programs that
      show the added system calls.

    ** What the theorems show

    - Memory: the page allocator is a stack of pages that boot fills with all of
      RAM; mappages maps exactly its range and panics on a remap; swap_in
      returns what swap_out stored; the clock algorithm evicts the frame its
      policy selects, and an evicted page comes back unchanged at the next
      fault; copyin returns what copyout stored, across pages.
    - Concurrency: spinlocks exclude under every interleaving of the CPUs; no
      wakeup is lost by sleep; a CPU that enters any kernel operation in a
      well-formed state keeps the state well-formed at every switch and return
      and balances its locks, so through any sequence of traps, interrupts,
      switches and device events no spinlock is held in user mode.
    - Scheduling: the accounting of ticks and quanta, the boost every 128
      ticks, round robin within a level.
    - Storage: the buffer cache is a map of blocks; a transaction is atomic under
      crashes at any block write of commit and of recovery; log_write absorbs.
    - Files: balloc gives out free blocks and itrunc gives back exactly the
      blocks of a file; readi and writei read and change the file's bytes and
      nothing else, across direct and indirect blocks, allocating what is
      missing, and log no more blocks than a transaction may; dirlink adds a
      name, dirlookup finds it, and namei follows a path.
    - Input and output: console line editing, pipes as bounded queues, path name
      elements, printf, the string functions.
    - Below C: registers survive traps and switches; boot enters main.
    - User space: malloc and free are safe; the shell's parser inverts printing
      and ends on every line, and runcmd runs a command's programs with the
      right descriptors; grep prints the matching lines, wc counts, cat copies,
      ls lists a directory and init restarts the shell, however read cuts the
      input.
    - Flaws of the code, as theorems: a fault on a mapped page panics; copyin on
      a swapped page loses it; a full transaction cannot be committed; the
      scheduler does not prefer the higher levels; malloc of 2 GB and more;
      cd on a last line without a newline.

    ** Bounds and fuel

    Loops that the C code bounds (by a count, a length, a table) have exactly
    that bound as fuel plus one, and the theorems on them show that it is
    enough. A loop that waits ([sleep] inside [while]) has the fuel
    [sleep_fuel], which is arbitrary ([Class SleepFuel]): the invariants hold
    for all of them, and results are proved for runs that need a known number of
    rounds. [scheduler] has the number of rounds as an argument. In the user
    programs fuel is a function of the input that the theorems give: one read
    per byte (grep), four calls per character (the shell's parser), twice the
    length of the free list plus four (malloc). The interaction trees need no
    fuel: their theorems say that the program exits, or comes back to the start
    of its loop ([init]).

    ** Parameters

    The addresses of kernel symbols ([Class KernelImage]), the disk's and the
    device registers' answers ([BlockDev], [VirtioRegs], the events of
    [System.v]), how [read] cuts what it returns and what other system calls answer, whether
    the kernel grants [sbrk], and the
    C functions called from assembly are parameters; what is assumed of them is
    a hypothesis of the theorems that need it, with an instance in a witness.

    ** Not modelled

    - The busy wait for the UART's transmitter, what [panic] prints, TLB and
      instruction fetch, accessed and dirty bits, weak memory: [acquire] is
      sequentially consistent.
    - True parallelism of kernel code outside of spinlock.c: a thread runs alone
      between two switches; what other threads do in between is arbitrary within
      the invariant.
    - [kernel.ld], [Makefile], [usys.pl] and [user.ld]: no code that runs. The
      system call stubs are generated.
    - [kernel/temp.c], [test-progs/test1.c] and the file named [=]: fragments that
      are not compiled, and empty files.
    - The test programs ([usertests.c], [grind.c], [stressfs.c], [logstress.c],
      [forktest.c], [Vmtest.c], [pa2_*.c], [test*.c], [test-xv6.py]): they
      exercise the system and have no contract of their own.
    - [user/mlfq.c], busy loops and a table of statistics, which exercises the
      scheduler like the test programs; [sbrklazy] of ulib.c. *)

From stdpp Require Export base tactics numbers list list_numbers gmap strings.
From Stdlib Require Export ZArith Lia.
From Stdlib Require Import FunctionalExtensionality.

#[export] Set Default Goal Selector "!".

(* ------------------------------------------------------------------ *)
(** ** Results of running kernel code *)

(** What a piece of C code does when it is run from a state:
    - [Done a s]: it returns [a] and leaves the state [s];
    - [Panic msg s]: it calls [panic(msg)] and the machine stops;
    - [Swtch s k]: it switches to another context with [swtch()]; the
      rest of the code is [k], run from the state found at resumption;
    - [Spin]: a loop bounded by fuel in the model used up its fuel. *)
Inductive res (S A : Type) : Type :=
| Done (a : A) (s : S)
| Panic (msg : string) (s : S)
| Swtch (s : S) (k : S -> res S A)
| Spin.

Arguments Done {S A} a s.
Arguments Panic {S A} msg s.
Arguments Swtch {S A} s k.
Arguments Spin {S A}.

Definition M (S A : Type) : Type := S -> res S A.

Declare Scope kern_scope.
Delimit Scope kern_scope with kern.
Bind Scope kern_scope with M.

Section Monad.
Context {St : Type}.

Fixpoint rbind {A B} (r : res St A) (f : A -> M St B) : res St B :=
  match r with
  | Done a s => f a s
  | Panic msg s => Panic msg s
  | Swtch s k => Swtch s (fun s' => rbind (k s') f)
  | Spin => Spin
  end.

Definition ret {A} (a : A) : M St A := fun s => Done a s.
Definition bind {A B} (m : M St A) (f : A -> M St B) : M St B :=
  fun s => rbind (m s) f.
Definition gets {A} (f : St -> A) : M St A := fun s => Done (f s) s.
Definition modify (f : St -> St) : M St unit := fun s => Done tt (f s).
Definition panic {A} (msg : string) : M St A := fun s => Panic msg s.
Definition swtch : M St unit := fun s => Swtch s (fun s' => Done tt s').
Definition when (b : bool) (m : M St unit) : M St unit :=
  if b then m else ret tt.

(** [for (x in xs) body], no early exit. *)
Fixpoint for_each {X} (xs : list X) (body : X -> M St unit) : M St unit :=
  match xs with
  | [] => ret tt
  | x :: xs => bind (body x) (fun _ => for_each xs body)
  end.

(** [for (x in xs)] whose body may leave the loop with a value
    ([break], [goto] or [return] in the source). *)
Fixpoint for_find {X R} (xs : list X) (body : X -> M St (option R)) :
    M St (option R) :=
  match xs with
  | [] => ret None
  | x :: xs =>
      bind (body x) (fun o =>
        match o with
        | Some r => ret (Some r)
        | None => for_find xs body
        end)
  end.

(** [for(;;)] and [while] loops: the body maps the loop variables to new
    ones ([inl], next iteration) or to the loop's result ([inr], exit). *)
Fixpoint loop {X R} (fuel : nat) (body : X -> M St (X + R)) (x : X) : M St R :=
  match fuel with
  | O => fun _ => Spin
  | S fuel =>
      bind (body x) (fun r =>
        match r with
        | inl x' => loop fuel body x'
        | inr v => ret v
        end)
  end.
End Monad.

Notation "x <- m ;; k" := (bind m (fun x => k))
  (at level 100, m at next level, k at level 200, right associativity)
  : kern_scope.
Notation "m ;;; k" := (bind m (fun _ => k))
  (at level 100, k at level 200, right associativity) : kern_scope.

(* ------------------------------------------------------------------ *)
(** ** Reasoning about runs *)

(** [runs m s Q]: from [s] the code [m] returns, without panicking and
    without giving up the CPU, in a state that satisfies [Q]. *)
Definition runs {S A} (m : M S A) (s : S) (Q : A -> S -> Prop) : Prop :=
  match m s with Done a s' => Q a s' | _ => False end.

(** [always P m s]: every state in which [m], started in [s], gives up the
    CPU or stops satisfies [P], provided that the other contexts hand the
    CPU back in states that satisfy [P]. *)
Fixpoint rall {S A} (P : S -> Prop) (r : res S A) : Prop :=
  match r with
  | Done _ s => P s
  | Panic _ s => P s
  | Swtch s k => P s /\ forall s', P s' -> rall P (k s')
  | Spin => True
  end.
Definition always {S A} (P : S -> Prop) (m : M S A) : Prop :=
  forall s, P s -> rall P (m s).

Section Rules.
Context {St : Type}.

Lemma bind_done {A B} (m : M St A) (f : A -> M St B) s a s' :
  m s = Done a s' -> bind m f s = f a s'.
Proof. unfold bind. by intros ->. Qed.

Lemma bind_panic {A B} (m : M St A) (f : A -> M St B) s e s' :
  m s = Panic e s' -> bind m f s = Panic e s'.
Proof. unfold bind. by intros ->. Qed.

Lemma bind_gets {A B} (g : St -> A) (f : A -> M St B) s :
  bind (gets g) f s = f (g s) s.
Proof. done. Qed.

Lemma bind_ret {A B} (a : A) (f : A -> M St B) s : bind (ret a) f s = f a s.
Proof. done. Qed.

Lemma bind_modify {B} g (f : unit -> M St B) s :
  bind (modify g) f s = f tt (g s).
Proof. done. Qed.

Lemma bind_bind {A B C} (m : M St A) (f : A -> M St B) (g : B -> M St C) s a s' :
  m s = Done a s' -> bind (bind m f) g s = bind (f a) g s'.
Proof. unfold bind. by intros ->. Qed.

Lemma rbind_ext {A B} (r : res St A) (f g : A -> M St B) :
  (forall a s, f a s = g a s) -> rbind r f = rbind r g.
Proof.
  intros H. induction r as [a s|e s|s k IH|]; simpl; auto.
  f_equal. apply functional_extensionality. auto.
Qed.

Lemma bind_ext {A B} (m : M St A) (f g : A -> M St B) s :
  (forall a s, f a s = g a s) -> bind m f s = bind m g s.
Proof. apply rbind_ext. Qed.

Lemma runs_done {A} (m : M St A) s a s' (Q : A -> St -> Prop) :
  m s = Done a s' -> Q a s' -> runs m s Q.
Proof. unfold runs. by intros ->. Qed.

Lemma runs_inv {A} (m : M St A) s (Q : A -> St -> Prop) :
  runs m s Q -> exists a s', m s = Done a s' /\ Q a s'.
Proof. unfold runs. destruct (m s); eauto; done. Qed.

Lemma runs_ret {A} (a : A) s (Q : A -> St -> Prop) : Q a s -> runs (ret a) s Q.
Proof. done. Qed.

Lemma runs_bind {A B} (m : M St A) (f : A -> M St B) s (Q : B -> St -> Prop) :
  runs m s (fun a s' => runs (f a) s' Q) -> runs (bind m f) s Q.
Proof. unfold runs, bind. by destruct (m s). Qed.

Lemma runs_bind_done {A B} (m : M St A) (f : A -> M St B) s a s' (Q : B -> St -> Prop) :
  m s = Done a s' -> runs (f a) s' Q -> runs (bind m f) s Q.
Proof. unfold runs, bind. by intros ->. Qed.

Lemma runs_gets {A B} (g : St -> A) (f : A -> M St B) s (Q : B -> St -> Prop) :
  runs (f (g s)) s Q -> runs (bind (gets g) f) s Q.
Proof. done. Qed.

Lemma runs_mono {A} (m : M St A) s (P Q : A -> St -> Prop) :
  runs m s P -> (forall a s', P a s' -> Q a s') -> runs m s Q.
Proof. unfold runs. destruct (m s); auto. Qed.

Lemma for_each_app {X} (xs ys : list X) (body : X -> M St unit) s s' :
  for_each xs body s = Done tt s' ->
  for_each (xs ++ ys) body s = for_each ys body s'.
Proof.
  revert s; induction xs as [|x xs IH]; intros s; simpl.
  - unfold ret. by intros [= ->].
  - unfold bind. destruct (body x s); simpl; try discriminate. apply IH.
Qed.

(** A loop whose body only updates the state is a fold. *)
Lemma for_each_modify {X} (xs : list X) (g : X -> St -> St) (body : X -> M St unit)
    (s : St) :
  (forall x t, x ∈ xs -> body x t = Done tt (g x t)) ->
  for_each xs body s = Done tt (foldl (fun t x => g x t) s xs).
Proof.
  revert s. induction xs as [|x xs IH]; intros s H; simpl; [done|].
  unfold bind. rewrite H by set_solver. simpl. apply IH. set_solver.
Qed.

(** A loop with an invariant on the elements done so far. *)
Lemma runs_for_each {X} (I : list X -> St -> Prop) (xs : list X) (body : X -> M St unit) s
    (Q : unit -> St -> Prop) :
  I [] s ->
  (forall pre x post t, xs = pre ++ x :: post -> I pre t ->
     runs (body x) t (fun _ t' => I (pre ++ [x]) t')) ->
  (forall t, I xs t -> Q tt t) -> runs (for_each xs body) s Q.
Proof.
  intros H0 Hb HQ.
  assert (forall post pre t, xs = pre ++ post -> I pre t -> runs (for_each post body) t Q) as Hl;
    [|by apply (Hl xs [])].
  induction post as [|x post IH]; intros pre t Hx Ht; cbn [for_each].
  - rewrite app_nil_r in Hx. subst. by apply HQ.
  - apply runs_bind. eapply runs_mono; [by eapply Hb|]. intros [] t' Ht'. apply (IH (pre ++ [x])); [|done].
    by rewrite <- app_assoc.
Qed.

(** The same for a search that has found nothing so far. *)
Lemma runs_for_find {X R} (I : list X -> St -> Prop) (xs : list X) (body : X -> M St (option R)) s
    (Q : option R -> St -> Prop) :
  I [] s ->
  (forall pre x post t, xs = pre ++ x :: post -> I pre t ->
     runs (body x) t (fun o t' => match o with Some r => Q (Some r) t' | None => I (pre ++ [x]) t' end)) ->
  (forall t, I xs t -> Q None t) -> runs (for_find xs body) s Q.
Proof.
  intros H0 Hb HQ.
  assert (forall post pre t, xs = pre ++ post -> I pre t -> runs (for_find post body) t Q) as Hl;
    [|by apply (Hl xs [])].
  induction post as [|x post IH]; intros pre t Hx Ht; cbn [for_find].
  - apply HQ. by rewrite Hx, app_nil_r.
  - apply runs_bind. eapply runs_mono; [by eapply Hb|]. intros [r|] t' Ht'; [done|].
    apply (IH (pre ++ [x])); [|done]. by rewrite <- app_assoc.
Qed.

(** The same when the body behaves so only in states that satisfy an
    invariant. *)
Lemma for_each_inv {X} (I : St -> Prop) (xs : list X) (g : X -> St -> St) (body : X -> M St unit)
    (s : St) :
  (forall x t, x ∈ xs -> I t -> body x t = Done tt (g x t) /\ I (g x t)) -> I s ->
  for_each xs body s = Done tt (foldl (fun t x => g x t) s xs) /\ I (foldl (fun t x => g x t) s xs).
Proof.
  revert s. induction xs as [|x xs IH]; intros s H Hs; simpl; [done|].
  destruct (H x s) as [E Hg]; [constructor|done|]. unfold bind. rewrite E. simpl.
  apply IH; [|done]. intros y t Hy. apply H. by constructor.
Qed.

(** Searching loops: every element before the one that stops the loop
    leaves the state alone. *)
Lemma for_find_none {X R} (xs : list X) (body : X -> M St (option R)) s :
  (forall x, x ∈ xs -> body x s = Done None s) -> for_find xs body s = Done None s.
Proof.
  induction xs as [|x xs IH]; intros H; simpl; [done|].
  erewrite bind_done; [|apply H; constructor]. apply IH. intros; apply H. by constructor.
Qed.

Lemma for_find_some {X R} (xs ys : list X) x (body : X -> M St (option R)) s r s' :
  (forall y, y ∈ xs -> body y s = Done None s) -> body x s = Done (Some r) s' ->
  for_find (xs ++ x :: ys) body s = Done (Some r) s'.
Proof.
  induction xs as [|y xs IH]; intros H Hx; simpl.
  - by rewrite (bind_done _ _ _ _ _ Hx).
  - erewrite bind_done; [|apply H; constructor]. apply IH; [|done].
    intros; apply H. by constructor.
Qed.

(** The same for a loop over the indices of an array. *)
Lemma for_find_seq_none {R} n (body : nat -> M St (option R)) s :
  (forall i, (i < n)%nat -> body i s = Done None s) ->
  for_find (seq 0 n) body s = Done None s.
Proof. intros H. apply for_find_none. intros i Hi%elem_of_seq. apply H. lia. Qed.

Lemma for_find_seq_some {R} n i (body : nat -> M St (option R)) s r s' :
  (i < n)%nat -> (forall j, (j < i)%nat -> body j s = Done None s) ->
  body i s = Done (Some r) s' ->
  for_find (seq 0 n) body s = Done (Some r) s'.
Proof.
  intros Hi Hj Hx. replace n with (i + S (n - S i))%nat by lia.
  rewrite seq_app. simpl. apply for_find_some; [|done].
  intros j Hin%elem_of_seq. apply Hj. lia.
Qed.

Lemma rall_bind {A B} (P : St -> Prop) (r : res St A) (f : A -> M St B) :
  rall P r -> (forall a s, P s -> rall P (f a s)) -> rall P (rbind r f).
Proof.
  intros Hr Hf. induction r as [a s|e s|s k IH|]; simpl in *; auto.
  destruct Hr as [Hs Hk]. split; [done|]. intros s' Hs'. apply IH; auto.
Qed.

Lemma always_bind {A B} (P : St -> Prop) (m : M St A) (f : A -> M St B) :
  always P m -> (forall a, always P (f a)) -> always P (bind m f).
Proof. intros Hm Hf s Hs. apply rall_bind; [by apply Hm|]. intros; by apply Hf. Qed.

Lemma always_ret {A} (P : St -> Prop) (a : A) : always P (ret a).
Proof. by intros s Hs. Qed.

Lemma always_panic {A} (P : St -> Prop) msg : always P (@panic St A msg).
Proof. by intros s Hs. Qed.

Lemma always_gets {A} (P : St -> Prop) (f : St -> A) : always P (gets f).
Proof. by intros s Hs. Qed.

Lemma always_modify (P : St -> Prop) f : (forall s, P s -> P (f s)) -> always P (modify f).
Proof. intros H s Hs. simpl. auto. Qed.

Lemma always_swtch (P : St -> Prop) : always P swtch.
Proof. intros s Hs. simpl. auto. Qed.

Lemma always_when (P : St -> Prop) b m : always P m -> always P (when b m).
Proof. intros H. destruct b; [done|apply always_ret]. Qed.

Lemma always_for_each {X} (P : St -> Prop) (xs : list X) body :
  (forall x, always P (body x)) -> always P (for_each xs body).
Proof.
  intros H. induction xs as [|x xs IH]; simpl; [apply always_ret|].
  apply always_bind; auto.
Qed.

Lemma always_for_find {X R} (P : St -> Prop) (xs : list X) (body : X -> M St (option R)) :
  (forall x, always P (body x)) -> always P (for_find xs body).
Proof.
  intros H. induction xs as [|x xs IH]; simpl; [apply always_ret|].
  apply always_bind; [done|]. intros [r|]; [apply always_ret|done].
Qed.

Lemma always_loop {X R} (P : St -> Prop) fuel (body : X -> M St (X + R)) x :
  (forall x, always P (body x)) -> always P (loop fuel body x).
Proof.
  intros H. revert x. induction fuel as [|n IH]; intros x; simpl; [done|].
  apply always_bind; [done|]. intros [y|r]; [apply IH|apply always_ret].
Qed.
End Rules.

Create HintDb kern.
#[export] Hint Resolve always_bind always_ret always_panic always_gets
  always_swtch always_when always_for_each always_for_find always_loop : kern.

(* ------------------------------------------------------------------ *)
(** ** Tables as lists *)

(** Index of the first element that satisfies a test: what a scan of a
    table finds. *)
Fixpoint index_of {A} (f : A -> bool) (l : list A) : option nat :=
  match l with
  | [] => None
  | x :: l => if f x then Some O else S <$> index_of f l
  end.

Lemma index_of_Some {A} (f : A -> bool) l i :
  index_of f l = Some i <->
  (exists x, l !! i = Some x /\ f x = true) /\
  forall j y, (j < i)%nat -> l !! j = Some y -> f y = false.
Proof.
  revert i. induction l as [|x l IH]; intros i; simpl.
  { split; [done|]. by intros [(y & Hy & _) _]. }
  destruct (f x) eqn:E.
  - split.
    + intros [= <-]. split; [eauto|]. intros j y ?. lia.
    + intros [_ H]. destruct i as [|i]; [done|]. specialize (H O x). rewrite E in H.
      discriminate H; [lia|done].
  - destruct i as [|i].
    + split; [by destruct (index_of f l)|]. intros [(y & [= <-] & ?) _]. congruence.
    + rewrite fmap_Some. setoid_rewrite (inj_iff S). split.
      * intros (k & Hk & <-). apply IH in Hk as [Hx Hlt]. split; [done|].
        intros [|j] y Hj Hy; [by injection Hy as <-|]. apply (Hlt j y); [lia|done].
      * intros [Hx Hlt]. exists i. split; [|done]. apply IH. split; [done|].
        intros j y Hj Hy. apply (Hlt (S j) y); [lia|done].
Qed.

Lemma index_of_None {A} (f : A -> bool) l :
  index_of f l = None <-> Forall (fun x => f x = false) l.
Proof.
  induction l as [|x l IH]; simpl; [by split|]. destruct (f x) eqn:E.
  - split; [done|]. rewrite Forall_cons. intros [? _]. congruence.
  - rewrite fmap_None, IH, Forall_cons. tauto.
Qed.

Lemma index_of_lt {A} (f : A -> bool) l i : index_of f l = Some i -> (i < length l)%nat.
Proof. intros [(x & Hx & _) _]%index_of_Some. by eapply lookup_lt_Some. Qed.

(** A loop over the indices of a table that leaves at the first element that
    satisfies a test. *)
Lemma for_find_index {St E R} (tbl : list E) (f : E -> bool) n (body : nat -> M St (option R)) s :
  length tbl = n ->
  (forall i e, tbl !! i = Some e -> f e = false -> body i s = Done None s) ->
  match index_of f tbl with
  | None => for_find (seq 0 n) body s = Done None s
  | Some i => forall r s', body i s = Done (Some r) s' ->
      for_find (seq 0 n) body s = Done (Some r) s'
  end.
Proof.
  intros Hn Hb. destruct (index_of f tbl) as [i|] eqn:Hi.
  - pose proof (index_of_lt _ _ _ Hi) as Hlt. apply index_of_Some in Hi as [_ Hj].
    intros r s' Hr. apply (for_find_seq_some _ i); [lia| |done].
    intros j Hlj. destruct (lookup_lt_is_Some_2 tbl j) as [e He]; [lia|].
    by eapply Hb, Hj.
  - apply index_of_None in Hi. rewrite Forall_lookup in Hi.
    apply for_find_seq_none. intros i Hlt.
    destruct (lookup_lt_is_Some_2 tbl i) as [e He]; [lia|]. by eapply Hb, Hi.
Qed.

(** Updating every element of a table in turn. *)
Lemma lookup_foldl_alter {A} (f : nat -> A -> A) (l : list A) a n j :
  foldl (fun l i => alter (f i) i l) l (seq a n) !! j =
    if decide (a <= j < a + n)%nat then f j <$> l !! j else l !! j.
Proof.
  revert l a. induction n as [|n IH]; intros l a; cbn [seq foldl].
  { rewrite decide_False by lia. done. }
  rewrite IH. destruct (decide (j = a)) as [->|Hne].
  - rewrite decide_False, decide_True, list_lookup_alter_eq by lia. done.
  - rewrite list_lookup_alter_ne by done.
    destruct (decide (S a <= j < S a + n)%nat), (decide (a <= j < a + S n)%nat); done || lia.
Qed.

Lemma foldl_alter_imap {A} (f : nat -> A -> A) (l : list A) n :
  length l = n -> foldl (fun l i => alter (f i) i l) l (seq 0 n) = imap f l.
Proof.
  intros Hn. apply list_eq. intros j. rewrite lookup_foldl_alter, list_lookup_imap.
  destruct (l !! j) eqn:E; [|by case_decide]. apply lookup_lt_Some in E.
  rewrite decide_True; [done|lia].
Qed.

(* ------------------------------------------------------------------ *)
(** ** Linked lists *)

(** Consecutive elements of [l] are linked by [f]. *)
Fixpoint nexts {A} (f : A -> A) (l : list A) : Prop :=
  match l with
  | a :: ((b :: _) as l') => f a = b /\ nexts f l'
  | _ => True
  end.

Lemma nexts_ext {A} (f g : A -> A) l z : (forall a, a ∈ l -> f a = g a) -> nexts f (l ++ [z]) -> nexts g (l ++ [z]).
Proof.
  induction l as [|a l IH]; intros He; [done|]. destruct l as [|b l].
  - intros [H _]. split; [|done]. rewrite <- He; [done|set_solver].
  - intros [H Hn]. split; [|apply IH; [set_solver|done]]. rewrite <- He; [done|set_solver].
Qed.

Lemma nexts_app {A} (f : A -> A) l1 a l2 : nexts f (l1 ++ a :: l2) <-> nexts f (l1 ++ [a]) /\ nexts f (a :: l2).
Proof.
  induction l1 as [|x l1 IH]; [simpl; tauto|]. destruct l1 as [|y l1].
  - simpl. destruct l2; tauto.
  - cbn [app nexts] in *. rewrite IH. tauto.
Qed.
