(* ===== verification/Machine.v ===== *)
(** * Machine words, physical memory and the constants of the hardware

    C integer types as [Z] with their wrap-around, byte-addressed memory
    with little-endian loads and stores, and the macros of
    [kernel/riscv.h] and [kernel/memlayout.h] the kernel computes with. *)

From S2P Require Import Prelude.
Local Open Scope Z_scope.

(* ------------------------------------------------------------------ *)
(** ** Integers *)

Definition u8 (x : Z) : Z := x mod 2 ^ 8.
Definition u16 (x : Z) : Z := x mod 2 ^ 16.
Definition u32 (x : Z) : Z := x mod 2 ^ 32.
Definition u64 (x : Z) : Z := x mod 2 ^ 64.
Definition sext (w x : Z) : Z :=
  let y := x mod 2 ^ w in if y <? 2 ^ (w - 1) then y else y - 2 ^ w.
Definition i16 (x : Z) : Z := sext 16 x.
Definition i32 (x : Z) : Z := sext 32 x.

Lemma u32_small x : 0 <= x < 2 ^ 32 -> u32 x = x.
Proof. apply Z.mod_small. Qed.
Lemma u64_small x : 0 <= x < 2 ^ 64 -> u64 x = x.
Proof. apply Z.mod_small. Qed.
Lemma u64_range x : 0 <= u64 x < 2 ^ 64.
Proof. apply Z.mod_pos_bound. lia. Qed.
Lemma u32_range x : 0 <= u32 x < 2 ^ 32.
Proof. apply Z.mod_pos_bound. lia. Qed.
Lemma i32_small x : - 2 ^ 31 <= x < 2 ^ 31 -> i32 x = x.
Proof.
  intros H. unfold i32, sext. simpl (32 - 1).
  destruct (decide (0 <= x)).
  - rewrite Z.mod_small by lia. rewrite (proj2 (Z.ltb_lt _ _)); lia.
  - replace (x mod 2 ^ 32) with (x + 2 ^ 32).
    + rewrite (proj2 (Z.ltb_ge _ _)); lia.
    + rewrite <- (Z.mod_add x 1 (2 ^ 32)) by lia.
      rewrite Z.mod_small; lia.
Qed.

(** [b] as the C truth value. *)
Definition zb (b : bool) : Z := if b then 1 else 0.
(** C's test of an integer. *)
Definition nz (x : Z) : bool := negb (x =? 0).

Lemma nz_true x : nz x = true <-> x <> 0.
Proof. unfold nz. rewrite negb_true_iff. lia. Qed.
Lemma nz_false x : nz x = false <-> x = 0.
Proof. unfold nz. rewrite negb_false_iff. lia. Qed.

(** Disjoint [or] is addition. *)
Lemma lor_add a b : Z.land a b = 0 -> Z.lor a b = a + b.
Proof. intros H. rewrite <- Z.add_lor_land. lia. Qed.

Lemma land_shiftl_low a b n : 0 <= n -> 0 <= b < 2 ^ n -> Z.land (Z.shiftl a n) b = 0.
Proof.
  intros Hn Hb. apply Z.bits_inj'. intros i Hi.
  rewrite Z.land_spec, Z.bits_0, Z.shiftl_spec by done.
  destruct (decide (i < n)).
  - rewrite (Z.testbit_neg_r a) by lia. done.
  - replace (Z.testbit b i) with false; [apply andb_false_r|].
    symmetry. rewrite <- (Z.mod_small b (2 ^ n)) by lia.
    apply Z.mod_pow2_bits_high. lia.
Qed.

Lemma lor_shiftl_low a b n :
  0 <= n -> 0 <= b < 2 ^ n -> Z.lor (Z.shiftl a n) b = a * 2 ^ n + b.
Proof.
  intros. rewrite lor_add by (by apply land_shiftl_low).
  by rewrite Z.shiftl_mul_pow2.
Qed.

(** Testing one bit with [&]. *)
Lemma land_pow2 x n : 0 <= n -> Z.land x (2 ^ n) = if Z.testbit x n then 2 ^ n else 0.
Proof.
  intros Hn. apply Z.bits_inj'. intros i Hi.
  rewrite Z.land_spec, Z.pow2_bits_eqb by done.
  destruct (Z.eqb_spec n i) as [->|Hne].
  - rewrite andb_true_r. destruct (Z.testbit x i); [|by rewrite Z.bits_0].
    by rewrite Z.pow2_bits_true.
  - rewrite andb_false_r. destruct (Z.testbit x n); [|by rewrite Z.bits_0].
    by rewrite Z.pow2_bits_false by lia.
Qed.

Lemma nz_land_pow2 x n : 0 <= n -> nz (Z.land x (2 ^ n)) = Z.testbit x n.
Proof.
  intros Hn. rewrite land_pow2 by done. destruct (Z.testbit x n); [|done].
  apply nz_true. pose proof (Z.pow_pos_nonneg 2 n). lia.
Qed.

(* ------------------------------------------------------------------ *)
(** ** Memory *)

(** The kernel's address space, byte by byte: RAM is direct-mapped, so
    physical addresses of RAM are kernel addresses. *)
Definition mem : Type := Z -> Z.

Definition mread (m : mem) (a n : Z) : list Z :=
  map (fun i => m (a + i)) (seqZ 0 n).

Definition mwrite (m : mem) (a : Z) (bs : list Z) : mem := fun x =>
  if (a <=? x) && (x <? a + Z.of_nat (length bs))
  then nth (Z.to_nat (x - a)) bs 0 else m x.

(** Block fill and block copy: what [memset] and [memmove] compute. *)
Definition mset (m : mem) (a c n : Z) : mem := fun x =>
  if (a <=? x) && (x <? a + n) then u8 c else m x.
Definition mcopy (m : mem) (dst src n : Z) : mem := fun x =>
  if (dst <=? x) && (x <? dst + n) then m (src + (x - dst)) else m x.

Fixpoint le_split (n : nat) (v : Z) : list Z :=
  match n with
  | O => []
  | S n => v mod 256 :: le_split n (v / 256)
  end.
Fixpoint le_combine (bs : list Z) : Z :=
  match bs with
  | [] => 0
  | b :: bs => b + 256 * le_combine bs
  end.

Definition load (n : nat) (m : mem) (a : Z) : Z := le_combine (mread m a (Z.of_nat n)).
Definition store (n : nat) (m : mem) (a v : Z) : mem := mwrite m a (le_split n v).
Abbreviation load64 := (load 8).
Abbreviation store64 := (store 8).
Abbreviation load32 := (load 4).
Abbreviation store32 := (store 4).
Abbreviation load16 := (load 2).

Definition mem_ok (m : mem) : Prop := forall x, 0 <= m x < 256.

Lemma length_mread m a n : length (mread m a n) = Z.to_nat n.
Proof. unfold mread. by rewrite length_map, length_seqZ. Qed.

Lemma mread_ext m m' a n :
  (forall x, a <= x < a + n -> m x = m' x) -> mread m a n = mread m' a n.
Proof.
  intros H. unfold mread. apply map_ext_in. intros i Hi.
  apply list_elem_of_In, elem_of_seqZ in Hi. apply H. lia.
Qed.

Lemma nth_mread m a n i :
  0 <= i < n -> nth (Z.to_nat i) (mread m a n) 0 = m (a + i).
Proof.
  intros Hi. unfold mread.
  rewrite (nth_indep _ 0 (m (a + 0))) by (rewrite length_map, length_seqZ; lia).
  rewrite (map_nth (fun i => m (a + i))). do 2 f_equal.
  apply nth_lookup_Some. rewrite lookup_seqZ. lia.
Qed.

Lemma mread_eq_at m m' a n x :
  mread m a n = mread m' a n -> a <= x < a + n -> m x = m' x.
Proof.
  intros E Hx. apply (f_equal (fun l => nth (Z.to_nat (x - a)) l 0)) in E.
  rewrite !nth_mread in E by lia. by replace (a + (x - a)) with x in E by lia.
Qed.

Lemma mwrite_in m a bs x :
  a <= x < a + Z.of_nat (length bs) -> mwrite m a bs x = nth (Z.to_nat (x - a)) bs 0.
Proof.
  intros H. unfold mwrite.
  by rewrite (proj2 (Z.leb_le _ _)), (proj2 (Z.ltb_lt _ _)) by lia.
Qed.

Lemma mwrite_out m a bs x :
  x < a \/ a + Z.of_nat (length bs) <= x -> mwrite m a bs x = m x.
Proof.
  intros H. unfold mwrite.
  destruct (Z.leb_spec a x), (Z.ltb_spec x (a + Z.of_nat (length bs))); simpl; done || lia.
Qed.

Lemma mwrite_mread m m' a b n x :
  a <= x < a + n -> mwrite m a (mread m' b n) x = m' (b + (x - a)).
Proof.
  intros H. rewrite mwrite_in by (rewrite length_mread; lia).
  apply nth_mread. lia.
Qed.

Lemma mread_mwrite m a bs : mread (mwrite m a bs) a (Z.of_nat (length bs)) = bs.
Proof.
  apply (nth_ext _ _ 0 0); rewrite length_mread; [lia|].
  intros i Hi. rewrite <- (Nat2Z.id i) at 1. rewrite nth_mread by lia.
  rewrite mwrite_in by lia. f_equal. lia.
Qed.

Lemma mread_mwrite_disj m a bs b n :
  b + n <= a \/ a + Z.of_nat (length bs) <= b -> mread (mwrite m a bs) b n = mread m b n.
Proof. intros H. apply mread_ext. intros x Hx. apply mwrite_out. lia. Qed.

Lemma mset_in m a c n x : a <= x < a + n -> mset m a c n x = u8 c.
Proof.
  intros H. unfold mset.
  by rewrite (proj2 (Z.leb_le _ _)), (proj2 (Z.ltb_lt _ _)) by lia.
Qed.

Lemma mset_out m a c n x : x < a \/ a + n <= x -> mset m a c n x = m x.
Proof.
  intros H. unfold mset.
  destruct (Z.leb_spec a x), (Z.ltb_spec x (a + n)); simpl; done || lia.
Qed.

Lemma mcopy_in m d s n x : d <= x < d + n -> mcopy m d s n x = m (s + (x - d)).
Proof.
  intros H. unfold mcopy.
  by rewrite (proj2 (Z.leb_le _ _)), (proj2 (Z.ltb_lt _ _)) by lia.
Qed.

Lemma mcopy_out m d s n x : x < d \/ d + n <= x -> mcopy m d s n x = m x.
Proof.
  intros H. unfold mcopy.
  destruct (Z.leb_spec d x), (Z.ltb_spec x (d + n)); simpl; done || lia.
Qed.

Lemma length_le_split n v : length (le_split n v) = n.
Proof. revert v. induction n; intros v; simpl; auto. Qed.

Lemma le_combine_split n v : le_combine (le_split n v) = v mod 2 ^ (8 * Z.of_nat n).
Proof.
  revert v. induction n as [|n IH]; intros v.
  - simpl. by rewrite Z.mod_1_r.
  - cbn [le_split le_combine]. rewrite IH.
    replace (8 * Z.of_nat (S n)) with (8 + 8 * Z.of_nat n) by lia.
    rewrite Z.pow_add_r by lia. change (2 ^ 8) with 256.
    rewrite Z.rem_mul_r by lia. lia.
Qed.

Lemma le_combine_range bs :
  Forall (fun b => 0 <= b < 256) bs ->
  0 <= le_combine bs < 2 ^ (8 * Z.of_nat (length bs)).
Proof.
  induction 1 as [|b bs Hb _ IH]; [simpl; lia|].
  cbn [le_combine length].
  replace (8 * Z.of_nat (S (length bs))) with (8 + 8 * Z.of_nat (length bs)) by lia.
  rewrite Z.pow_add_r by lia. change (2 ^ 8) with 256. lia.
Qed.

Lemma le_split_range n v : Forall (fun b => 0 <= b < 256) (le_split n v).
Proof.
  revert v. induction n as [|n IH]; intros v; simpl; constructor; auto.
  apply Z.mod_pos_bound. lia.
Qed.

Lemma le_split_combine bs :
  Forall (fun b => 0 <= b < 256) bs -> le_split (length bs) (le_combine bs) = bs.
Proof.
  induction 1 as [|b bs Hb _ IH]; [done|]. cbn [length le_combine le_split].
  replace (b + 256 * le_combine bs) with (le_combine bs * 256 + b) by lia.
  f_equal.
  - rewrite Z.add_comm, Z.mod_add by lia. apply Z.mod_small; lia.
  - rewrite Z.div_add_l by lia. rewrite Z.div_small by lia.
    by rewrite Z.add_0_r.
Qed.

Lemma load_ext n m m' a :
  (forall x, a <= x < a + Z.of_nat n -> m x = m' x) -> load n m a = load n m' a.
Proof. intros H. unfold load. by rewrite (mread_ext m m'). Qed.

Lemma load_store n m a v : load n (store n m a v) a = v mod 2 ^ (8 * Z.of_nat n).
Proof.
  unfold load, store.
  pose proof (mread_mwrite m a (le_split n v)) as H.
  rewrite length_le_split in H. rewrite H. apply le_combine_split.
Qed.

Lemma store_out n m a v x :
  x < a \/ a + Z.of_nat n <= x -> store n m a v x = m x.
Proof. intros H. unfold store. apply mwrite_out. by rewrite length_le_split. Qed.

Lemma load_store_disj n k m a v b :
  b + Z.of_nat n <= a \/ a + Z.of_nat k <= b -> load n (store k m a v) b = load n m b.
Proof. intros H. apply load_ext. intros x Hx. apply store_out. lia. Qed.

Lemma load_mset_disj n m a c k b :
  b + Z.of_nat n <= a \/ a + k <= b -> load n (mset m a c k) b = load n m b.
Proof. intros H. apply load_ext. intros x Hx. apply mset_out. lia. Qed.

Lemma load_mset0 n m a k b :
  a <= b -> b + Z.of_nat n <= a + k -> load n (mset m a 0 k) b = 0.
Proof.
  intros H1 H2. unfold load, mread.
  assert (forall l, (forall i, In i l -> 0 <= i < Z.of_nat n) ->
    le_combine (map (fun i => mset m a 0 k (b + i)) l) = 0) as Hl.
  { induction l as [|i l IH]; intros Hl; [done|]. cbn [map le_combine].
    rewrite IH by (intros; apply Hl; by right).
    rewrite mset_in; [done|]. specialize (Hl i (or_introl eq_refl)). lia. }
  apply Hl. intros i Hi. apply list_elem_of_In, elem_of_seqZ in Hi. lia.
Qed.

Lemma load_range n m a : mem_ok m -> 0 <= load n m a < 2 ^ (8 * Z.of_nat n).
Proof.
  intros Hm. unfold load.
  pose proof (le_combine_range (mread m a (Z.of_nat n))) as H.
  rewrite length_mread, Nat2Z.id in H. apply H.
  unfold mread. apply Forall_map, Forall_forall. intros; apply Hm.
Qed.

Lemma mset_ok m a c n : mem_ok m -> mem_ok (mset m a c n).
Proof.
  intros Hm x. unfold mset. destruct (_ && _); [|apply Hm].
  apply Z.mod_pos_bound. lia.
Qed.

Lemma mwrite_ok m a bs :
  mem_ok m -> Forall (fun b => 0 <= b < 256) bs -> mem_ok (mwrite m a bs).
Proof.
  intros Hm Hb x. unfold mwrite. destruct (_ && _) eqn:E; [|apply Hm].
  destruct (nth_in_or_default (Z.to_nat (x - a)) bs 0) as [Hin| ->]; [|lia].
  rewrite Forall_forall in Hb. apply Hb. by apply list_elem_of_In.
Qed.

Lemma store_ok n m a v : mem_ok m -> mem_ok (store n m a v).
Proof. intros Hm. apply mwrite_ok; [done|]. apply le_split_range. Qed.

Lemma mcopy_ok m d s n : mem_ok m -> mem_ok (mcopy m d s n).
Proof. intros Hm x. unfold mcopy. destruct (_ && _); apply Hm. Qed.

#[export] Hint Resolve mset_ok mwrite_ok store_ok mcopy_ok : kern.

(* ------------------------------------------------------------------ *)
(** ** Pages and page-table entries ([kernel/riscv.h]) *)

Abbreviation PGSIZE := 4096%Z.
Abbreviation PGSHIFT := 12%Z.

Definition PGROUNDUP (sz : Z) : Z := Z.land (u64 (sz + PGSIZE - 1)) (Z.lnot (PGSIZE - 1)).
Definition PGROUNDDOWN (a : Z) : Z := Z.land a (Z.lnot (PGSIZE - 1)).

Abbreviation PTE_V := 1%Z.
Abbreviation PTE_R := 2%Z.
Abbreviation PTE_W := 4%Z.
Abbreviation PTE_X := 8%Z.
Abbreviation PTE_U := 16%Z.
Abbreviation SSTATUS_SPP := 256%Z.
Abbreviation SSTATUS_SPIE := 32%Z.
Abbreviation SSTATUS_SIE := 2%Z.
Abbreviation PTE_SWAPPED := 256%Z.

Definition PTE_SWAP_SLOT (pte : Z) : Z := Z.land (Z.shiftr (u64 pte) 10) 0x3FFFF.
Definition PA2PTE (pa : Z) : Z := u64 (Z.shiftl (Z.shiftr pa 12) 10).
Definition PTE2PA (pte : Z) : Z := u64 (Z.shiftl (Z.shiftr pte 10) 12).
Definition PTE_FLAGS (pte : Z) : Z := Z.land pte 0x3FF.
Definition PXSHIFT (level : Z) : Z := PGSHIFT + 9 * level.
Definition PX (level va : Z) : Z := Z.land (Z.shiftr va (PXSHIFT level)) 0x1FF.
Abbreviation MAXVA := (2 ^ 38)%Z.

(** Memory layout ([kernel/memlayout.h]). *)
Abbreviation KERNBASE := 0x80000000%Z.
Abbreviation PHYSTOP := (0x80000000 + 128 * 1024 * 1024)%Z.
Abbreviation TRAMPOLINE := (MAXVA - PGSIZE)%Z.
Abbreviation TRAPFRAME := (TRAMPOLINE - PGSIZE)%Z.
Abbreviation UART0 := 0x10000000%Z.
Abbreviation VIRTIO0 := 0x10001000%Z.
Abbreviation PLIC := 0x0c000000%Z.
Definition KSTACK (p : Z) : Z := TRAMPOLINE - (p + 1) * 2 * PGSIZE.

Definition aligned (a : Z) : Prop := a mod PGSIZE = 0.
(** Two page-aligned pages are the same page or do not overlap. *)
Lemma page_disj a b : aligned a -> aligned b -> a <> b -> a + PGSIZE <= b \/ b + PGSIZE <= a.
Proof. unfold aligned. intros Ha Hb Hne. Z.div_mod_to_equations. lia. Qed.

Lemma land_lnot_4095 x : Z.land x (Z.lnot 4095) = x - x mod 4096.
Proof.
  rewrite <- Z.ldiff_land. change 4095 with (Z.ones 12).
  rewrite Z.ldiff_ones_r by lia. rewrite Z.shiftl_mul_pow2, Z.shiftr_div_pow2 by lia.
  change (2 ^ 12) with 4096. rewrite (Z.div_mod x 4096) at 2 by lia. lia.
Qed.

Lemma PGROUNDDOWN_eq a : PGROUNDDOWN a = a - a mod PGSIZE.
Proof. apply land_lnot_4095. Qed.

Lemma PGROUNDUP_eq a :
  0 <= a -> a + PGSIZE <= 2 ^ 64 -> PGROUNDUP a = (a + 4095) / 4096 * 4096.
Proof.
  intros H1 H2. unfold PGROUNDUP. change (PGSIZE - 1) with 4095.
  rewrite land_lnot_4095, u64_small by lia.
  replace (a + 4096 - 1) with (a + 4095) by lia.
  rewrite (Z.div_mod (a + 4095) 4096) at 1 by lia. lia.
Qed.

Lemma PGROUNDDOWN_aligned a : aligned (PGROUNDDOWN a).
Proof.
  unfold aligned. rewrite PGROUNDDOWN_eq. Z.div_mod_to_equations. lia.
Qed.

Lemma PGROUNDDOWN_le a : PGROUNDDOWN a <= a < PGROUNDDOWN a + PGSIZE.
Proof. rewrite PGROUNDDOWN_eq. pose proof (Z.mod_pos_bound a PGSIZE). lia. Qed.

Lemma PGROUNDDOWN_id a : aligned a -> PGROUNDDOWN a = a.
Proof. unfold aligned. rewrite PGROUNDDOWN_eq. lia. Qed.

Lemma PX_range level va : 0 <= PX level va < 512.
Proof.
  unfold PX. change 0x1FF with (Z.ones 9). rewrite Z.land_ones by lia.
  apply Z.mod_pos_bound. lia.
Qed.

Lemma PX_eq level va : 0 <= level -> PX level va = (va / 2 ^ (12 + 9 * level)) mod 512.
Proof.
  intros H. unfold PX, PXSHIFT. change 0x1FF with (Z.ones 9).
  rewrite Z.land_ones, Z.shiftr_div_pow2 by lia. done.
Qed.

(** The three indices determine a page of the Sv39 space below [MAXVA]. *)
Lemma PX_inj a b :
  0 <= a < MAXVA -> 0 <= b < MAXVA -> aligned a -> aligned b ->
  PX 2 a = PX 2 b -> PX 1 a = PX 1 b -> PX 0 a = PX 0 b -> a = b.
Proof.
  intros Ha Hb HA HB H2 H1 H0. unfold aligned in *.
  rewrite !PX_eq in * by lia. simpl in *.
  Z.div_mod_to_equations. lia.
Qed.

Lemma PA2PTE_eq pa : 0 <= pa < 2 ^ 56 -> PA2PTE pa = pa / 4096 * 1024.
Proof.
  intros H. unfold PA2PTE. rewrite Z.shiftl_mul_pow2, Z.shiftr_div_pow2 by lia.
  change (2 ^ 12) with 4096. change (2 ^ 10) with 1024. apply u64_small.
  Z.div_mod_to_equations. lia.
Qed.

Lemma PTE_decode pa fl :
  0 <= pa < 2 ^ 56 -> aligned pa -> 0 <= fl < 1024 ->
  PTE2PA (Z.lor (PA2PTE pa) fl) = pa /\ PTE_FLAGS (Z.lor (PA2PTE pa) fl) = fl /\
  0 <= Z.lor (PA2PTE pa) fl < 2 ^ 64.
Proof.
  intros Hpa Hal Hfl. unfold aligned in Hal.
  assert (Z.lor (PA2PTE pa) fl = pa / 4096 * 1024 + fl) as ->.
  { transitivity (Z.lor (Z.shiftl (pa / 4096) 10) fl).
    - by rewrite PA2PTE_eq, Z.shiftl_mul_pow2.
    - by apply lor_shiftl_low. }
  repeat split.
  - unfold PTE2PA. rewrite Z.shiftl_mul_pow2, Z.shiftr_div_pow2 by lia.
    change (2 ^ 10) with 1024. change (2 ^ 12) with 4096.
    rewrite Z.div_add_l, (Z.div_small fl), Z.add_0_r by lia.
    rewrite u64_small; Z.div_mod_to_equations; lia.
  - unfold PTE_FLAGS. change 0x3FF with (Z.ones 10). rewrite Z.land_ones by lia.
    change (2 ^ 10) with 1024. rewrite Z.add_comm, Z.mod_add by lia.
    apply Z.mod_small; lia.
  - Z.div_mod_to_equations; lia.
  - Z.div_mod_to_equations; lia.
Qed.

(** The flag bits of an entry are read from [PTE_FLAGS]. *)
Lemma PTE_FLAGS_bit pte n : 0 <= n < 10 -> Z.testbit (PTE_FLAGS pte) n = Z.testbit pte n.
Proof.
  intros H. unfold PTE_FLAGS. rewrite Z.land_spec. change 0x3FF with (Z.ones 10).
  rewrite Z.ones_spec_low by lia. apply andb_true_r.
Qed.

Lemma PTE2PA_aligned pte : aligned (PTE2PA pte).
Proof.
  unfold PTE2PA, aligned, u64. rewrite Z.shiftl_mul_pow2 by lia.
  change (2 ^ 64) with (2 ^ 52 * 4096). change (2 ^ 12) with 4096.
  rewrite Z.mul_mod_distr_r by lia. apply Z.mod_mul. lia.
Qed.

(* ------------------------------------------------------------------ *)
(** ** Loops over 64-bit addresses *)

(** [for(a = lo; a < hi; a += step)] on [uint64], with a body that may
    leave the loop. *)
Fixpoint for_upto {St R} (fuel : nat) (a hi step : Z) (body : Z -> M St (option R)) :
    M St (option R) :=
  match fuel with
  | O => fun _ => Spin
  | S fuel =>
      if a <? hi then
        bind (body a) (fun o =>
          match o with
          | Some r => ret (Some r)
          | None => for_upto fuel (u64 (a + step)) hi step body
          end)
      else ret None
  end.

(** The values the loop variable takes. *)
Definition range_step (lo step : Z) (n : nat) : list Z :=
  map (fun i => lo + step * i) (seqZ 0 (Z.of_nat n)).

Lemma range_step_S lo step n : range_step lo step (S n) = lo :: range_step (lo + step) step n.
Proof.
  unfold range_step. rewrite seqZ_cons by lia. cbn [map]. f_equal; [lia|].
  replace (Z.pred (Z.of_nat (S n))) with (Z.of_nat n) by lia.
  rewrite <- (fmap_add_seqZ 1 0). rewrite <- list_fmap_compose.
  apply map_ext. intros i. simpl. lia.
Qed.

(** With enough fuel the loop is a search over those values. *)
Lemma for_upto_list {St R} n fuel lo hi step (body : Z -> M St (option R)) s :
  (n < fuel)%nat -> 0 < step -> 0 <= lo -> hi + step <= 2 ^ 64 ->
  (n = O \/ lo + step * Z.of_nat n < hi + step) -> hi <= lo + step * Z.of_nat n ->
  for_upto fuel lo hi step body s = for_find (range_step lo step n) body s.
Proof.
  revert fuel lo s. induction n as [|n IH]; intros [|fuel] lo s Hf Hst Hlo Hmax Hn Hhi;
    try lia; cbn [for_upto].
  - rewrite (proj2 (Z.ltb_ge _ _)) by lia. done.
  - rewrite (proj2 (Z.ltb_lt _ _)) by lia. rewrite range_step_S. cbn [for_find].
    apply bind_ext. intros [r|] s'; [done|]. rewrite u64_small by lia. apply IH; lia.
Qed.

(* ------------------------------------------------------------------ *)
(** ** Fields of byte arrays *)

Definition lget (bs : list Z) (off n : Z) : list Z :=
  take (Z.to_nat n) (drop (Z.to_nat off) bs).
Definition lset (bs : list Z) (off : Z) (new : list Z) : list Z :=
  take (Z.to_nat off) bs ++ new ++ drop (Z.to_nat off + length new) bs.
Definition ld32 (bs : list Z) (off : Z) : Z := le_combine (lget bs off 4).
Definition ld16 (bs : list Z) (off : Z) : Z := le_combine (lget bs off 2).
Definition st32 (bs : list Z) (off v : Z) : list Z := lset bs off (le_split 4 v).
Definition st16 (bs : list Z) (off v : Z) : list Z := lset bs off (le_split 2 v).

Lemma length_lset bs off new :
  0 <= off -> off + Z.of_nat (length new) <= Z.of_nat (length bs) ->
  length (lset bs off new) = length bs.
Proof.
  intros Ho Hn. unfold lset. rewrite !length_app, length_take, length_drop. lia.
Qed.

Lemma lookup_lset bs off new i :
  0 <= off -> off + Z.of_nat (length new) <= Z.of_nat (length bs) ->
  lset bs off new !! i =
    if decide (off <= Z.of_nat i < off + Z.of_nat (length new))
    then new !! (i - Z.to_nat off)%nat else bs !! i.
Proof.
  intros Ho Hn. unfold lset. destruct (decide (Z.of_nat i < off)) as [Hlt|Hge].
  - rewrite decide_False by lia. rewrite lookup_app_l by (rewrite length_take; lia).
    apply lookup_take_lt. lia.
  - rewrite lookup_app_r by (rewrite length_take; lia). rewrite length_take, Nat.min_l by lia.
    destruct (decide (Z.of_nat i < off + Z.of_nat (length new))).
    + rewrite decide_True by lia. by rewrite lookup_app_l by lia.
    + rewrite decide_False by lia. rewrite lookup_app_r, lookup_drop by lia. f_equal. lia.
Qed.

Lemma lget_lset_eq bs off new :
  0 <= off -> off + Z.of_nat (length new) <= Z.of_nat (length bs) ->
  lget (lset bs off new) off (Z.of_nat (length new)) = new.
Proof.
  intros Ho Hn. unfold lget, lset. rewrite drop_app_length' by (rewrite length_take; lia).
  rewrite Nat2Z.id. by rewrite take_app_length.
Qed.

Lemma lget_lset_ne bs off new o n :
  0 <= off -> off + Z.of_nat (length new) <= Z.of_nat (length bs) ->
  0 <= o -> o + n <= off \/ off + Z.of_nat (length new) <= o ->
  lget (lset bs off new) o n = lget bs o n.
Proof.
  intros Ho Hn Ho2 Hd. apply list_eq. intros i. unfold lget.
  destruct (decide (i < Z.to_nat n)%nat).
  - rewrite !lookup_take_lt, !lookup_drop, lookup_lset, decide_False by lia. done.
  - rewrite !lookup_take_ge by lia. done.
Qed.

Lemma length_st32 bs off v :
  0 <= off -> off + 4 <= Z.of_nat (length bs) -> length (st32 bs off v) = length bs.
Proof. intros Ho Hn. unfold st32. apply length_lset; rewrite ?length_le_split; lia. Qed.

Lemma ld32_st32_eq bs off v :
  0 <= off -> off + 4 <= Z.of_nat (length bs) -> ld32 (st32 bs off v) off = u32 v.
Proof.
  intros Ho Hn. unfold ld32, st32.
  pose proof (lget_lset_eq bs off (le_split 4 v)) as H. rewrite length_le_split in H.
  change (Z.of_nat 4) with 4 in H. rewrite H by lia. apply (le_combine_split 4).
Qed.

Lemma ld32_st32_ne bs off v o :
  0 <= off -> off + 4 <= Z.of_nat (length bs) -> 0 <= o -> o + 4 <= off \/ off + 4 <= o ->
  ld32 (st32 bs off v) o = ld32 bs o.
Proof.
  intros Ho Hn Ho2 Hd. unfold ld32, st32. rewrite lget_lset_ne; rewrite ?length_le_split; lia || done.
Qed.
