(* ===== verification/KState.v ===== *)
(** * The kernel's data

    The constants of [kernel/param.h] and the structures of the kernel's
    headers and source files, as records with the source's field names
    (prefixed by the structure's initials), each field with its update
    function; and [kst], the record of the kernel's global variables. *)

From S2P Require Import Prelude Machine.
Local Open Scope Z_scope.

(* ------------------------------------------------------------------ *)
(** ** Constants ([kernel/param.h], [kernel/fs.h], ...) *)

Abbreviation NPROC := 64%nat.
Abbreviation NCPU := 8%nat.
Abbreviation NOFILE := 16%nat.
Abbreviation NFILE := 100%nat.
Abbreviation NINODE := 50%nat.
Abbreviation NDEV := 10%Z.
Abbreviation ROOTDEV := 1%Z.
Abbreviation MAXARG := 32%Z.
Abbreviation MAXOPBLOCKS := 10%Z.
Abbreviation LOGBLOCKS := 30%Z.
Abbreviation NBUF := 30%nat.
Abbreviation MAXPATH := 128%Z.
Abbreviation USERSTACK := 1%Z.
Abbreviation MAXFRAMES := 128%nat.
Abbreviation MAX_SWAP_SLOTS := 512%nat.
Abbreviation BSIZE := 1024%Z.
Abbreviation PIPESIZE := 512%Z.
Abbreviation INPUT_BUF_SIZE := 128%Z.

(* ------------------------------------------------------------------ *)
(** ** Names of locks and wait channels *)

(** A sleep lock is the [lock] field of a buffer or of an inode. *)
Inductive slid : Type :=
| SLbuf (i : nat)
| SLinode (i : nat).

(** The kernel's spinlocks. *)
Inductive lockid : Type :=
| Lkmem | Lftlock | Lswap_lock | Lpid_lock | Lwait_lock
| Lproc (i : nat)
| Ltickslock | Lbcache | Llog | Litable | Lftable | Lcons
| Lpipe (pi : Z)
| Lsleep (l : slid)
| Lpr | Ltx_lock | Lvdisk_lock.

(** What a process sleeps on: the address passed to [sleep] and [wakeup];
    [ChNone] is the null pointer. *)
Inductive chan : Type :=
| ChNone
| ChProc (i : nat)
| ChTicks
| ChLog
| ChSleep (l : slid)
| ChNread (pi : Z)
| ChNwrite (pi : Z)
| ChCons
| ChTx
| ChDiskFree
| ChBuf (i : nat).

#[export] Instance slid_eq_dec : EqDecision slid.
Proof. solve_decision. Defined.
#[export] Instance lockid_eq_dec : EqDecision lockid.
Proof. solve_decision. Defined.
#[export] Instance chan_eq_dec : EqDecision chan.
Proof. solve_decision. Defined.

(** [enum procstate] (proc.h). *)
Inductive procstate : Type :=
| UNUSED | USED | SLEEPING | RUNNABLE | RUNNING | ZOMBIE.
#[export] Instance procstate_eq_dec : EqDecision procstate.
Proof. solve_decision. Defined.

(** The [type] of a [struct file] (file.h). *)
Inductive fdtype : Type :=
| FD_NONE | FD_PIPE | FD_INODE | FD_DEVICE.
#[export] Instance fdtype_eq_dec : EqDecision fdtype.
Proof. solve_decision. Defined.

(* ------------------------------------------------------------------ *)
(** ** Structures *)

(** Saved registers of a kernel thread ([struct context], proc.h). *)
Record context : Type := mkcontext {
  ctx_ra : Z;
  ctx_sp : Z;
  ctx_s : list Z
}.

Definition set_ctx_ra (v : Z) (r : context) : context :=
  mkcontext v (ctx_sp r) (ctx_s r).
Definition set_ctx_sp (v : Z) (r : context) : context :=
  mkcontext (ctx_ra r) v (ctx_s r).
Definition set_ctx_s (v : list Z) (r : context) : context :=
  mkcontext (ctx_ra r) (ctx_sp r) v.

(** [struct proc] (proc.h). Process pointers are indices into the table
    [proc], file and inode pointers indices into their tables. *)
Record proc : Type := mkproc {
  p_mlfq_level : Z;
  p_ticks_at_level : Z;
  p_ticks_per_level : list Z;
  p_times_scheduled : Z;
  p_syscalls_at_level : Z;
  p_state : procstate;
  p_chan : chan;
  p_killed : Z;
  p_xstate : Z;
  p_pid : Z;
  p_parent : option nat;
  p_kstack : Z;
  p_sz : Z;
  p_pagetable : Z;
  p_trapframe : Z;
  p_context : context;
  p_ofile : list (option nat);
  p_cwd : option nat;
  p_name : list Z;
  p_syscount : Z;
  p_page_faults : Z;
  p_pages_evicted : Z;
  p_pages_swapped_in : Z;
  p_pages_swapped_out : Z;
  p_resident_pages : Z
}.

Definition set_p_mlfq_level (v : Z) (r : proc) : proc :=
  mkproc v (p_ticks_at_level r) (p_ticks_per_level r) (p_times_scheduled r) (p_syscalls_at_level r) (p_state r) (p_chan r) (p_killed r) (p_xstate r) (p_pid r) (p_parent r) (p_kstack r) (p_sz r) (p_pagetable r) (p_trapframe r) (p_context r) (p_ofile r) (p_cwd r) (p_name r) (p_syscount r) (p_page_faults r) (p_pages_evicted r) (p_pages_swapped_in r) (p_pages_swapped_out r) (p_resident_pages r).
Definition set_p_ticks_at_level (v : Z) (r : proc) : proc :=
  mkproc (p_mlfq_level r) v (p_ticks_per_level r) (p_times_scheduled r) (p_syscalls_at_level r) (p_state r) (p_chan r) (p_killed r) (p_xstate r) (p_pid r) (p_parent r) (p_kstack r) (p_sz r) (p_pagetable r) (p_trapframe r) (p_context r) (p_ofile r) (p_cwd r) (p_name r) (p_syscount r) (p_page_faults r) (p_pages_evicted r) (p_pages_swapped_in r) (p_pages_swapped_out r) (p_resident_pages r).
Definition set_p_ticks_per_level (v : list Z) (r : proc) : proc :=
  mkproc (p_mlfq_level r) (p_ticks_at_level r) v (p_times_scheduled r) (p_syscalls_at_level r) (p_state r) (p_chan r) (p_killed r) (p_xstate r) (p_pid r) (p_parent r) (p_kstack r) (p_sz r) (p_pagetable r) (p_trapframe r) (p_context r) (p_ofile r) (p_cwd r) (p_name r) (p_syscount r) (p_page_faults r) (p_pages_evicted r) (p_pages_swapped_in r) (p_pages_swapped_out r) (p_resident_pages r).
Definition set_p_times_scheduled (v : Z) (r : proc) : proc :=
  mkproc (p_mlfq_level r) (p_ticks_at_level r) (p_ticks_per_level r) v (p_syscalls_at_level r) (p_state r) (p_chan r) (p_killed r) (p_xstate r) (p_pid r) (p_parent r) (p_kstack r) (p_sz r) (p_pagetable r) (p_trapframe r) (p_context r) (p_ofile r) (p_cwd r) (p_name r) (p_syscount r) (p_page_faults r) (p_pages_evicted r) (p_pages_swapped_in r) (p_pages_swapped_out r) (p_resident_pages r).
Definition set_p_syscalls_at_level (v : Z) (r : proc) : proc :=
  mkproc (p_mlfq_level r) (p_ticks_at_level r) (p_ticks_per_level r) (p_times_scheduled r) v (p_state r) (p_chan r) (p_killed r) (p_xstate r) (p_pid r) (p_parent r) (p_kstack r) (p_sz r) (p_pagetable r) (p_trapframe r) (p_context r) (p_ofile r) (p_cwd r) (p_name r) (p_syscount r) (p_page_faults r) (p_pages_evicted r) (p_pages_swapped_in r) (p_pages_swapped_out r) (p_resident_pages r).
Definition set_p_state (v : procstate) (r : proc) : proc :=
  mkproc (p_mlfq_level r) (p_ticks_at_level r) (p_ticks_per_level r) (p_times_scheduled r) (p_syscalls_at_level r) v (p_chan r) (p_killed r) (p_xstate r) (p_pid r) (p_parent r) (p_kstack r) (p_sz r) (p_pagetable r) (p_trapframe r) (p_context r) (p_ofile r) (p_cwd r) (p_name r) (p_syscount r) (p_page_faults r) (p_pages_evicted r) (p_pages_swapped_in r) (p_pages_swapped_out r) (p_resident_pages r).
Definition set_p_chan (v : chan) (r : proc) : proc :=
  mkproc (p_mlfq_level r) (p_ticks_at_level r) (p_ticks_per_level r) (p_times_scheduled r) (p_syscalls_at_level r) (p_state r) v (p_killed r) (p_xstate r) (p_pid r) (p_parent r) (p_kstack r) (p_sz r) (p_pagetable r) (p_trapframe r) (p_context r) (p_ofile r) (p_cwd r) (p_name r) (p_syscount r) (p_page_faults r) (p_pages_evicted r) (p_pages_swapped_in r) (p_pages_swapped_out r) (p_resident_pages r).
Definition set_p_killed (v : Z) (r : proc) : proc :=
  mkproc (p_mlfq_level r) (p_ticks_at_level r) (p_ticks_per_level r) (p_times_scheduled r) (p_syscalls_at_level r) (p_state r) (p_chan r) v (p_xstate r) (p_pid r) (p_parent r) (p_kstack r) (p_sz r) (p_pagetable r) (p_trapframe r) (p_context r) (p_ofile r) (p_cwd r) (p_name r) (p_syscount r) (p_page_faults r) (p_pages_evicted r) (p_pages_swapped_in r) (p_pages_swapped_out r) (p_resident_pages r).
Definition set_p_xstate (v : Z) (r : proc) : proc :=
  mkproc (p_mlfq_level r) (p_ticks_at_level r) (p_ticks_per_level r) (p_times_scheduled r) (p_syscalls_at_level r) (p_state r) (p_chan r) (p_killed r) v (p_pid r) (p_parent r) (p_kstack r) (p_sz r) (p_pagetable r) (p_trapframe r) (p_context r) (p_ofile r) (p_cwd r) (p_name r) (p_syscount r) (p_page_faults r) (p_pages_evicted r) (p_pages_swapped_in r) (p_pages_swapped_out r) (p_resident_pages r).
Definition set_p_pid (v : Z) (r : proc) : proc :=
  mkproc (p_mlfq_level r) (p_ticks_at_level r) (p_ticks_per_level r) (p_times_scheduled r) (p_syscalls_at_level r) (p_state r) (p_chan r) (p_killed r) (p_xstate r) v (p_parent r) (p_kstack r) (p_sz r) (p_pagetable r) (p_trapframe r) (p_context r) (p_ofile r) (p_cwd r) (p_name r) (p_syscount r) (p_page_faults r) (p_pages_evicted r) (p_pages_swapped_in r) (p_pages_swapped_out r) (p_resident_pages r).
Definition set_p_parent (v : option nat) (r : proc) : proc :=
  mkproc (p_mlfq_level r) (p_ticks_at_level r) (p_ticks_per_level r) (p_times_scheduled r) (p_syscalls_at_level r) (p_state r) (p_chan r) (p_killed r) (p_xstate r) (p_pid r) v (p_kstack r) (p_sz r) (p_pagetable r) (p_trapframe r) (p_context r) (p_ofile r) (p_cwd r) (p_name r) (p_syscount r) (p_page_faults r) (p_pages_evicted r) (p_pages_swapped_in r) (p_pages_swapped_out r) (p_resident_pages r).
Definition set_p_kstack (v : Z) (r : proc) : proc :=
  mkproc (p_mlfq_level r) (p_ticks_at_level r) (p_ticks_per_level r) (p_times_scheduled r) (p_syscalls_at_level r) (p_state r) (p_chan r) (p_killed r) (p_xstate r) (p_pid r) (p_parent r) v (p_sz r) (p_pagetable r) (p_trapframe r) (p_context r) (p_ofile r) (p_cwd r) (p_name r) (p_syscount r) (p_page_faults r) (p_pages_evicted r) (p_pages_swapped_in r) (p_pages_swapped_out r) (p_resident_pages r).
Definition set_p_sz (v : Z) (r : proc) : proc :=
  mkproc (p_mlfq_level r) (p_ticks_at_level r) (p_ticks_per_level r) (p_times_scheduled r) (p_syscalls_at_level r) (p_state r) (p_chan r) (p_killed r) (p_xstate r) (p_pid r) (p_parent r) (p_kstack r) v (p_pagetable r) (p_trapframe r) (p_context r) (p_ofile r) (p_cwd r) (p_name r) (p_syscount r) (p_page_faults r) (p_pages_evicted r) (p_pages_swapped_in r) (p_pages_swapped_out r) (p_resident_pages r).
Definition set_p_pagetable (v : Z) (r : proc) : proc :=
  mkproc (p_mlfq_level r) (p_ticks_at_level r) (p_ticks_per_level r) (p_times_scheduled r) (p_syscalls_at_level r) (p_state r) (p_chan r) (p_killed r) (p_xstate r) (p_pid r) (p_parent r) (p_kstack r) (p_sz r) v (p_trapframe r) (p_context r) (p_ofile r) (p_cwd r) (p_name r) (p_syscount r) (p_page_faults r) (p_pages_evicted r) (p_pages_swapped_in r) (p_pages_swapped_out r) (p_resident_pages r).
Definition set_p_trapframe (v : Z) (r : proc) : proc :=
  mkproc (p_mlfq_level r) (p_ticks_at_level r) (p_ticks_per_level r) (p_times_scheduled r) (p_syscalls_at_level r) (p_state r) (p_chan r) (p_killed r) (p_xstate r) (p_pid r) (p_parent r) (p_kstack r) (p_sz r) (p_pagetable r) v (p_context r) (p_ofile r) (p_cwd r) (p_name r) (p_syscount r) (p_page_faults r) (p_pages_evicted r) (p_pages_swapped_in r) (p_pages_swapped_out r) (p_resident_pages r).
Definition set_p_context (v : context) (r : proc) : proc :=
  mkproc (p_mlfq_level r) (p_ticks_at_level r) (p_ticks_per_level r) (p_times_scheduled r) (p_syscalls_at_level r) (p_state r) (p_chan r) (p_killed r) (p_xstate r) (p_pid r) (p_parent r) (p_kstack r) (p_sz r) (p_pagetable r) (p_trapframe r) v (p_ofile r) (p_cwd r) (p_name r) (p_syscount r) (p_page_faults r) (p_pages_evicted r) (p_pages_swapped_in r) (p_pages_swapped_out r) (p_resident_pages r).
Definition set_p_ofile (v : list (option nat)) (r : proc) : proc :=
  mkproc (p_mlfq_level r) (p_ticks_at_level r) (p_ticks_per_level r) (p_times_scheduled r) (p_syscalls_at_level r) (p_state r) (p_chan r) (p_killed r) (p_xstate r) (p_pid r) (p_parent r) (p_kstack r) (p_sz r) (p_pagetable r) (p_trapframe r) (p_context r) v (p_cwd r) (p_name r) (p_syscount r) (p_page_faults r) (p_pages_evicted r) (p_pages_swapped_in r) (p_pages_swapped_out r) (p_resident_pages r).
Definition set_p_cwd (v : option nat) (r : proc) : proc :=
  mkproc (p_mlfq_level r) (p_ticks_at_level r) (p_ticks_per_level r) (p_times_scheduled r) (p_syscalls_at_level r) (p_state r) (p_chan r) (p_killed r) (p_xstate r) (p_pid r) (p_parent r) (p_kstack r) (p_sz r) (p_pagetable r) (p_trapframe r) (p_context r) (p_ofile r) v (p_name r) (p_syscount r) (p_page_faults r) (p_pages_evicted r) (p_pages_swapped_in r) (p_pages_swapped_out r) (p_resident_pages r).
Definition set_p_name (v : list Z) (r : proc) : proc :=
  mkproc (p_mlfq_level r) (p_ticks_at_level r) (p_ticks_per_level r) (p_times_scheduled r) (p_syscalls_at_level r) (p_state r) (p_chan r) (p_killed r) (p_xstate r) (p_pid r) (p_parent r) (p_kstack r) (p_sz r) (p_pagetable r) (p_trapframe r) (p_context r) (p_ofile r) (p_cwd r) v (p_syscount r) (p_page_faults r) (p_pages_evicted r) (p_pages_swapped_in r) (p_pages_swapped_out r) (p_resident_pages r).
Definition set_p_syscount (v : Z) (r : proc) : proc :=
  mkproc (p_mlfq_level r) (p_ticks_at_level r) (p_ticks_per_level r) (p_times_scheduled r) (p_syscalls_at_level r) (p_state r) (p_chan r) (p_killed r) (p_xstate r) (p_pid r) (p_parent r) (p_kstack r) (p_sz r) (p_pagetable r) (p_trapframe r) (p_context r) (p_ofile r) (p_cwd r) (p_name r) v (p_page_faults r) (p_pages_evicted r) (p_pages_swapped_in r) (p_pages_swapped_out r) (p_resident_pages r).
Definition set_p_page_faults (v : Z) (r : proc) : proc :=
  mkproc (p_mlfq_level r) (p_ticks_at_level r) (p_ticks_per_level r) (p_times_scheduled r) (p_syscalls_at_level r) (p_state r) (p_chan r) (p_killed r) (p_xstate r) (p_pid r) (p_parent r) (p_kstack r) (p_sz r) (p_pagetable r) (p_trapframe r) (p_context r) (p_ofile r) (p_cwd r) (p_name r) (p_syscount r) v (p_pages_evicted r) (p_pages_swapped_in r) (p_pages_swapped_out r) (p_resident_pages r).
Definition set_p_pages_evicted (v : Z) (r : proc) : proc :=
  mkproc (p_mlfq_level r) (p_ticks_at_level r) (p_ticks_per_level r) (p_times_scheduled r) (p_syscalls_at_level r) (p_state r) (p_chan r) (p_killed r) (p_xstate r) (p_pid r) (p_parent r) (p_kstack r) (p_sz r) (p_pagetable r) (p_trapframe r) (p_context r) (p_ofile r) (p_cwd r) (p_name r) (p_syscount r) (p_page_faults r) v (p_pages_swapped_in r) (p_pages_swapped_out r) (p_resident_pages r).
Definition set_p_pages_swapped_in (v : Z) (r : proc) : proc :=
  mkproc (p_mlfq_level r) (p_ticks_at_level r) (p_ticks_per_level r) (p_times_scheduled r) (p_syscalls_at_level r) (p_state r) (p_chan r) (p_killed r) (p_xstate r) (p_pid r) (p_parent r) (p_kstack r) (p_sz r) (p_pagetable r) (p_trapframe r) (p_context r) (p_ofile r) (p_cwd r) (p_name r) (p_syscount r) (p_page_faults r) (p_pages_evicted r) v (p_pages_swapped_out r) (p_resident_pages r).
Definition set_p_pages_swapped_out (v : Z) (r : proc) : proc :=
  mkproc (p_mlfq_level r) (p_ticks_at_level r) (p_ticks_per_level r) (p_times_scheduled r) (p_syscalls_at_level r) (p_state r) (p_chan r) (p_killed r) (p_xstate r) (p_pid r) (p_parent r) (p_kstack r) (p_sz r) (p_pagetable r) (p_trapframe r) (p_context r) (p_ofile r) (p_cwd r) (p_name r) (p_syscount r) (p_page_faults r) (p_pages_evicted r) (p_pages_swapped_in r) v (p_resident_pages r).
Definition set_p_resident_pages (v : Z) (r : proc) : proc :=
  mkproc (p_mlfq_level r) (p_ticks_at_level r) (p_ticks_per_level r) (p_times_scheduled r) (p_syscalls_at_level r) (p_state r) (p_chan r) (p_killed r) (p_xstate r) (p_pid r) (p_parent r) (p_kstack r) (p_sz r) (p_pagetable r) (p_trapframe r) (p_context r) (p_ofile r) (p_cwd r) (p_name r) (p_syscount r) (p_page_faults r) (p_pages_evicted r) (p_pages_swapped_in r) (p_pages_swapped_out r) v.

(** [struct frame_entry] (frametable.h). *)
Record frame_entry : Type := mkframe {
  fe_used : Z;
  fe_pid : Z;
  fe_owner : option nat;
  fe_va : Z;
  fe_pa : Z;
  fe_ref_bit : Z;
  fe_swap_slot : Z
}.

Definition set_fe_used (v : Z) (r : frame_entry) : frame_entry :=
  mkframe v (fe_pid r) (fe_owner r) (fe_va r) (fe_pa r) (fe_ref_bit r) (fe_swap_slot r).
Definition set_fe_pid (v : Z) (r : frame_entry) : frame_entry :=
  mkframe (fe_used r) v (fe_owner r) (fe_va r) (fe_pa r) (fe_ref_bit r) (fe_swap_slot r).
Definition set_fe_owner (v : option nat) (r : frame_entry) : frame_entry :=
  mkframe (fe_used r) (fe_pid r) v (fe_va r) (fe_pa r) (fe_ref_bit r) (fe_swap_slot r).
Definition set_fe_va (v : Z) (r : frame_entry) : frame_entry :=
  mkframe (fe_used r) (fe_pid r) (fe_owner r) v (fe_pa r) (fe_ref_bit r) (fe_swap_slot r).
Definition set_fe_pa (v : Z) (r : frame_entry) : frame_entry :=
  mkframe (fe_used r) (fe_pid r) (fe_owner r) (fe_va r) v (fe_ref_bit r) (fe_swap_slot r).
Definition set_fe_ref_bit (v : Z) (r : frame_entry) : frame_entry :=
  mkframe (fe_used r) (fe_pid r) (fe_owner r) (fe_va r) (fe_pa r) v (fe_swap_slot r).
Definition set_fe_swap_slot (v : Z) (r : frame_entry) : frame_entry :=
  mkframe (fe_used r) (fe_pid r) (fe_owner r) (fe_va r) (fe_pa r) (fe_ref_bit r) v.

(** [struct swap_slot] (swap.h). *)
Record swap_slot : Type := mkslot {
  ss_used : Z;
  ss_pid : Z;
  ss_va : Z;
  ss_data : list Z
}.

Definition set_ss_used (v : Z) (r : swap_slot) : swap_slot :=
  mkslot v (ss_pid r) (ss_va r) (ss_data r).
Definition set_ss_pid (v : Z) (r : swap_slot) : swap_slot :=
  mkslot (ss_used r) v (ss_va r) (ss_data r).
Definition set_ss_va (v : Z) (r : swap_slot) : swap_slot :=
  mkslot (ss_used r) (ss_pid r) v (ss_data r).
Definition set_ss_data (v : list Z) (r : swap_slot) : swap_slot :=
  mkslot (ss_used r) (ss_pid r) (ss_va r) v.

(** [struct sleeplock] (sleeplock.h); its inner spinlock is a [lockid]. *)
Record sleeplock : Type := mksleeplock {
  sl_locked : Z;
  sl_pid : Z
}.

Definition set_sl_locked (v : Z) (r : sleeplock) : sleeplock :=
  mksleeplock v (sl_pid r).
Definition set_sl_pid (v : Z) (r : sleeplock) : sleeplock :=
  mksleeplock (sl_locked r) v.

(** [struct buf] (buf.h). [prev] and [next] are indices into the buffer
    array, the list head [bcache.head] being its last element. *)
Record buf : Type := mkbuf {
  b_valid : Z;
  b_disk : Z;
  b_dev : Z;
  b_blockno : Z;
  b_lock : sleeplock;
  b_refcnt : Z;
  b_prev : nat;
  b_next : nat;
  b_data : list Z
}.

Definition set_b_valid (v : Z) (r : buf) : buf :=
  mkbuf v (b_disk r) (b_dev r) (b_blockno r) (b_lock r) (b_refcnt r) (b_prev r) (b_next r) (b_data r).
Definition set_b_disk (v : Z) (r : buf) : buf :=
  mkbuf (b_valid r) v (b_dev r) (b_blockno r) (b_lock r) (b_refcnt r) (b_prev r) (b_next r) (b_data r).
Definition set_b_dev (v : Z) (r : buf) : buf :=
  mkbuf (b_valid r) (b_disk r) v (b_blockno r) (b_lock r) (b_refcnt r) (b_prev r) (b_next r) (b_data r).
Definition set_b_blockno (v : Z) (r : buf) : buf :=
  mkbuf (b_valid r) (b_disk r) (b_dev r) v (b_lock r) (b_refcnt r) (b_prev r) (b_next r) (b_data r).
Definition set_b_lock (v : sleeplock) (r : buf) : buf :=
  mkbuf (b_valid r) (b_disk r) (b_dev r) (b_blockno r) v (b_refcnt r) (b_prev r) (b_next r) (b_data r).
Definition set_b_refcnt (v : Z) (r : buf) : buf :=
  mkbuf (b_valid r) (b_disk r) (b_dev r) (b_blockno r) (b_lock r) v (b_prev r) (b_next r) (b_data r).
Definition set_b_prev (v : nat) (r : buf) : buf :=
  mkbuf (b_valid r) (b_disk r) (b_dev r) (b_blockno r) (b_lock r) (b_refcnt r) v (b_next r) (b_data r).
Definition set_b_next (v : nat) (r : buf) : buf :=
  mkbuf (b_valid r) (b_disk r) (b_dev r) (b_blockno r) (b_lock r) (b_refcnt r) (b_prev r) v (b_data r).
Definition set_b_data (v : list Z) (r : buf) : buf :=
  mkbuf (b_valid r) (b_disk r) (b_dev r) (b_blockno r) (b_lock r) (b_refcnt r) (b_prev r) (b_next r) v.

(** The disk: the block writes it has seen, the newest first. *)
Definition disk : Type := list (Z * list Z).

(** [struct log] with its [struct logheader] (log.c). *)
Record log : Type := mklog {
  lg_start : Z;
  lg_outstanding : Z;
  lg_committing : Z;
  lg_dev : Z;
  lg_n : Z;
  lg_block : list Z
}.

Definition set_lg_start (v : Z) (r : log) : log :=
  mklog v (lg_outstanding r) (lg_committing r) (lg_dev r) (lg_n r) (lg_block r).
Definition set_lg_outstanding (v : Z) (r : log) : log :=
  mklog (lg_start r) v (lg_committing r) (lg_dev r) (lg_n r) (lg_block r).
Definition set_lg_committing (v : Z) (r : log) : log :=
  mklog (lg_start r) (lg_outstanding r) v (lg_dev r) (lg_n r) (lg_block r).
Definition set_lg_dev (v : Z) (r : log) : log :=
  mklog (lg_start r) (lg_outstanding r) (lg_committing r) v (lg_n r) (lg_block r).
Definition set_lg_n (v : Z) (r : log) : log :=
  mklog (lg_start r) (lg_outstanding r) (lg_committing r) (lg_dev r) v (lg_block r).
Definition set_lg_block (v : list Z) (r : log) : log :=
  mklog (lg_start r) (lg_outstanding r) (lg_committing r) (lg_dev r) (lg_n r) v.

(** [struct superblock] (fs.h). *)
Record superblock : Type := mksb {
  sb_magic : Z;
  sb_size : Z;
  sb_nblocks : Z;
  sb_ninodes : Z;
  sb_nlog : Z;
  sb_logstart : Z;
  sb_inodestart : Z;
  sb_bmapstart : Z
}.

Definition set_sb_magic (v : Z) (r : superblock) : superblock :=
  mksb v (sb_size r) (sb_nblocks r) (sb_ninodes r) (sb_nlog r) (sb_logstart r) (sb_inodestart r) (sb_bmapstart r).
Definition set_sb_size (v : Z) (r : superblock) : superblock :=
  mksb (sb_magic r) v (sb_nblocks r) (sb_ninodes r) (sb_nlog r) (sb_logstart r) (sb_inodestart r) (sb_bmapstart r).
Definition set_sb_nblocks (v : Z) (r : superblock) : superblock :=
  mksb (sb_magic r) (sb_size r) v (sb_ninodes r) (sb_nlog r) (sb_logstart r) (sb_inodestart r) (sb_bmapstart r).
Definition set_sb_ninodes (v : Z) (r : superblock) : superblock :=
  mksb (sb_magic r) (sb_size r) (sb_nblocks r) v (sb_nlog r) (sb_logstart r) (sb_inodestart r) (sb_bmapstart r).
Definition set_sb_nlog (v : Z) (r : superblock) : superblock :=
  mksb (sb_magic r) (sb_size r) (sb_nblocks r) (sb_ninodes r) v (sb_logstart r) (sb_inodestart r) (sb_bmapstart r).
Definition set_sb_logstart (v : Z) (r : superblock) : superblock :=
  mksb (sb_magic r) (sb_size r) (sb_nblocks r) (sb_ninodes r) (sb_nlog r) v (sb_inodestart r) (sb_bmapstart r).
Definition set_sb_inodestart (v : Z) (r : superblock) : superblock :=
  mksb (sb_magic r) (sb_size r) (sb_nblocks r) (sb_ninodes r) (sb_nlog r) (sb_logstart r) v (sb_bmapstart r).
Definition set_sb_bmapstart (v : Z) (r : superblock) : superblock :=
  mksb (sb_magic r) (sb_size r) (sb_nblocks r) (sb_ninodes r) (sb_nlog r) (sb_logstart r) (sb_inodestart r) v.

(** [struct inode] (file.h), the in-memory copy of an inode. *)
Record inode : Type := mkinode {
  i_dev : Z;
  i_inum : Z;
  i_ref : Z;
  i_lock : sleeplock;
  i_valid : Z;
  i_type : Z;
  i_major : Z;
  i_minor : Z;
  i_nlink : Z;
  i_size : Z;
  i_addrs : list Z
}.

Definition set_i_dev (v : Z) (r : inode) : inode :=
  mkinode v (i_inum r) (i_ref r) (i_lock r) (i_valid r) (i_type r) (i_major r) (i_minor r) (i_nlink r) (i_size r) (i_addrs r).
Definition set_i_inum (v : Z) (r : inode) : inode :=
  mkinode (i_dev r) v (i_ref r) (i_lock r) (i_valid r) (i_type r) (i_major r) (i_minor r) (i_nlink r) (i_size r) (i_addrs r).
Definition set_i_ref (v : Z) (r : inode) : inode :=
  mkinode (i_dev r) (i_inum r) v (i_lock r) (i_valid r) (i_type r) (i_major r) (i_minor r) (i_nlink r) (i_size r) (i_addrs r).
Definition set_i_lock (v : sleeplock) (r : inode) : inode :=
  mkinode (i_dev r) (i_inum r) (i_ref r) v (i_valid r) (i_type r) (i_major r) (i_minor r) (i_nlink r) (i_size r) (i_addrs r).
Definition set_i_valid (v : Z) (r : inode) : inode :=
  mkinode (i_dev r) (i_inum r) (i_ref r) (i_lock r) v (i_type r) (i_major r) (i_minor r) (i_nlink r) (i_size r) (i_addrs r).
Definition set_i_type (v : Z) (r : inode) : inode :=
  mkinode (i_dev r) (i_inum r) (i_ref r) (i_lock r) (i_valid r) v (i_major r) (i_minor r) (i_nlink r) (i_size r) (i_addrs r).
Definition set_i_major (v : Z) (r : inode) : inode :=
  mkinode (i_dev r) (i_inum r) (i_ref r) (i_lock r) (i_valid r) (i_type r) v (i_minor r) (i_nlink r) (i_size r) (i_addrs r).
Definition set_i_minor (v : Z) (r : inode) : inode :=
  mkinode (i_dev r) (i_inum r) (i_ref r) (i_lock r) (i_valid r) (i_type r) (i_major r) v (i_nlink r) (i_size r) (i_addrs r).
Definition set_i_nlink (v : Z) (r : inode) : inode :=
  mkinode (i_dev r) (i_inum r) (i_ref r) (i_lock r) (i_valid r) (i_type r) (i_major r) (i_minor r) v (i_size r) (i_addrs r).
Definition set_i_size (v : Z) (r : inode) : inode :=
  mkinode (i_dev r) (i_inum r) (i_ref r) (i_lock r) (i_valid r) (i_type r) (i_major r) (i_minor r) (i_nlink r) v (i_addrs r).
Definition set_i_addrs (v : list Z) (r : inode) : inode :=
  mkinode (i_dev r) (i_inum r) (i_ref r) (i_lock r) (i_valid r) (i_type r) (i_major r) (i_minor r) (i_nlink r) (i_size r) v.

(** [struct file] (file.h). *)
Record file : Type := mkfile {
  f_type : fdtype;
  f_ref : Z;
  f_readable : Z;
  f_writable : Z;
  f_pipe : Z;
  f_ip : option nat;
  f_off : Z;
  f_major : Z
}.

Definition set_f_type (v : fdtype) (r : file) : file :=
  mkfile v (f_ref r) (f_readable r) (f_writable r) (f_pipe r) (f_ip r) (f_off r) (f_major r).
Definition set_f_ref (v : Z) (r : file) : file :=
  mkfile (f_type r) v (f_readable r) (f_writable r) (f_pipe r) (f_ip r) (f_off r) (f_major r).
Definition set_f_readable (v : Z) (r : file) : file :=
  mkfile (f_type r) (f_ref r) v (f_writable r) (f_pipe r) (f_ip r) (f_off r) (f_major r).
Definition set_f_writable (v : Z) (r : file) : file :=
  mkfile (f_type r) (f_ref r) (f_readable r) v (f_pipe r) (f_ip r) (f_off r) (f_major r).
Definition set_f_pipe (v : Z) (r : file) : file :=
  mkfile (f_type r) (f_ref r) (f_readable r) (f_writable r) v (f_ip r) (f_off r) (f_major r).
Definition set_f_ip (v : option nat) (r : file) : file :=
  mkfile (f_type r) (f_ref r) (f_readable r) (f_writable r) (f_pipe r) v (f_off r) (f_major r).
Definition set_f_off (v : Z) (r : file) : file :=
  mkfile (f_type r) (f_ref r) (f_readable r) (f_writable r) (f_pipe r) (f_ip r) v (f_major r).
Definition set_f_major (v : Z) (r : file) : file :=
  mkfile (f_type r) (f_ref r) (f_readable r) (f_writable r) (f_pipe r) (f_ip r) (f_off r) v.

(** [struct pipe] (pipe.c). *)
Record pipe : Type := mkpipe {
  pi_data : list Z;
  pi_nread : Z;
  pi_nwrite : Z;
  pi_readopen : Z;
  pi_writeopen : Z
}.

Definition set_pi_data (v : list Z) (r : pipe) : pipe :=
  mkpipe v (pi_nread r) (pi_nwrite r) (pi_readopen r) (pi_writeopen r).
Definition set_pi_nread (v : Z) (r : pipe) : pipe :=
  mkpipe (pi_data r) v (pi_nwrite r) (pi_readopen r) (pi_writeopen r).
Definition set_pi_nwrite (v : Z) (r : pipe) : pipe :=
  mkpipe (pi_data r) (pi_nread r) v (pi_readopen r) (pi_writeopen r).
Definition set_pi_readopen (v : Z) (r : pipe) : pipe :=
  mkpipe (pi_data r) (pi_nread r) (pi_nwrite r) v (pi_writeopen r).
Definition set_pi_writeopen (v : Z) (r : pipe) : pipe :=
  mkpipe (pi_data r) (pi_nread r) (pi_nwrite r) (pi_readopen r) v.

(** The console input buffer [cons] (console.c). *)
Record console : Type := mkcons {
  c_buf : list Z;
  c_r : Z;
  c_w : Z;
  c_e : Z
}.

Definition set_c_buf (v : list Z) (r : console) : console :=
  mkcons v (c_r r) (c_w r) (c_e r).
Definition set_c_r (v : Z) (r : console) : console :=
  mkcons (c_buf r) v (c_w r) (c_e r).
Definition set_c_w (v : Z) (r : console) : console :=
  mkcons (c_buf r) (c_r r) v (c_e r).
Definition set_c_e (v : Z) (r : console) : console :=
  mkcons (c_buf r) (c_r r) (c_w r) v.

(** The supervisor control registers and the devices' sides the kernel
    reads and writes: pending external interrupt, UART receive queue, UART
    transmit log, whether the transmitter is idle; [h_mmio]: the stores to the
    registers of the PLIC and of the disk, newest first. *)
Record hw : Type := mkhw {
  h_sstatus : Z;
  h_sepc : Z;
  h_scause : Z;
  h_stval : Z;
  h_stvec : Z;
  h_satp : Z;
  h_stimecmp : Z;
  h_time : Z;
  h_tp : Z;
  h_irq : Z;
  h_uart_rx : list Z;
  h_uart_tx : list Z;
  h_uart_idle : bool;
  h_mmio : list (Z * Z)
}.

Definition set_h_sstatus (v : Z) (r : hw) : hw :=
  mkhw v (h_sepc r) (h_scause r) (h_stval r) (h_stvec r) (h_satp r) (h_stimecmp r) (h_time r) (h_tp r) (h_irq r) (h_uart_rx r) (h_uart_tx r) (h_uart_idle r) (h_mmio r).
Definition set_h_sepc (v : Z) (r : hw) : hw :=
  mkhw (h_sstatus r) v (h_scause r) (h_stval r) (h_stvec r) (h_satp r) (h_stimecmp r) (h_time r) (h_tp r) (h_irq r) (h_uart_rx r) (h_uart_tx r) (h_uart_idle r) (h_mmio r).
Definition set_h_scause (v : Z) (r : hw) : hw :=
  mkhw (h_sstatus r) (h_sepc r) v (h_stval r) (h_stvec r) (h_satp r) (h_stimecmp r) (h_time r) (h_tp r) (h_irq r) (h_uart_rx r) (h_uart_tx r) (h_uart_idle r) (h_mmio r).
Definition set_h_stval (v : Z) (r : hw) : hw :=
  mkhw (h_sstatus r) (h_sepc r) (h_scause r) v (h_stvec r) (h_satp r) (h_stimecmp r) (h_time r) (h_tp r) (h_irq r) (h_uart_rx r) (h_uart_tx r) (h_uart_idle r) (h_mmio r).
Definition set_h_stvec (v : Z) (r : hw) : hw :=
  mkhw (h_sstatus r) (h_sepc r) (h_scause r) (h_stval r) v (h_satp r) (h_stimecmp r) (h_time r) (h_tp r) (h_irq r) (h_uart_rx r) (h_uart_tx r) (h_uart_idle r) (h_mmio r).
Definition set_h_satp (v : Z) (r : hw) : hw :=
  mkhw (h_sstatus r) (h_sepc r) (h_scause r) (h_stval r) (h_stvec r) v (h_stimecmp r) (h_time r) (h_tp r) (h_irq r) (h_uart_rx r) (h_uart_tx r) (h_uart_idle r) (h_mmio r).
Definition set_h_stimecmp (v : Z) (r : hw) : hw :=
  mkhw (h_sstatus r) (h_sepc r) (h_scause r) (h_stval r) (h_stvec r) (h_satp r) v (h_time r) (h_tp r) (h_irq r) (h_uart_rx r) (h_uart_tx r) (h_uart_idle r) (h_mmio r).
Definition set_h_time (v : Z) (r : hw) : hw :=
  mkhw (h_sstatus r) (h_sepc r) (h_scause r) (h_stval r) (h_stvec r) (h_satp r) (h_stimecmp r) v (h_tp r) (h_irq r) (h_uart_rx r) (h_uart_tx r) (h_uart_idle r) (h_mmio r).
Definition set_h_tp (v : Z) (r : hw) : hw :=
  mkhw (h_sstatus r) (h_sepc r) (h_scause r) (h_stval r) (h_stvec r) (h_satp r) (h_stimecmp r) (h_time r) v (h_irq r) (h_uart_rx r) (h_uart_tx r) (h_uart_idle r) (h_mmio r).
Definition set_h_irq (v : Z) (r : hw) : hw :=
  mkhw (h_sstatus r) (h_sepc r) (h_scause r) (h_stval r) (h_stvec r) (h_satp r) (h_stimecmp r) (h_time r) (h_tp r) v (h_uart_rx r) (h_uart_tx r) (h_uart_idle r) (h_mmio r).
Definition set_h_uart_rx (v : list Z) (r : hw) : hw :=
  mkhw (h_sstatus r) (h_sepc r) (h_scause r) (h_stval r) (h_stvec r) (h_satp r) (h_stimecmp r) (h_time r) (h_tp r) (h_irq r) v (h_uart_tx r) (h_uart_idle r) (h_mmio r).
Definition set_h_uart_tx (v : list Z) (r : hw) : hw :=
  mkhw (h_sstatus r) (h_sepc r) (h_scause r) (h_stval r) (h_stvec r) (h_satp r) (h_stimecmp r) (h_time r) (h_tp r) (h_irq r) (h_uart_rx r) v (h_uart_idle r) (h_mmio r).
Definition set_h_uart_idle (v : bool) (r : hw) : hw :=
  mkhw (h_sstatus r) (h_sepc r) (h_scause r) (h_stval r) (h_stvec r) (h_satp r) (h_stimecmp r) (h_time r) (h_tp r) (h_irq r) (h_uart_rx r) (h_uart_tx r) v (h_mmio r).
Definition set_h_mmio (v : list (Z * Z)) (r : hw) : hw :=
  mkhw (h_sstatus r) (h_sepc r) (h_scause r) (h_stval r) (h_stvec r) (h_satp r) (h_stimecmp r) (h_time r) (h_tp r) (h_irq r) (h_uart_rx r) (h_uart_tx r) (h_uart_idle r) v.

(** What a descriptor's address points to: a command header [disk.ops[i]],
    the data of a buffer, the status byte [disk.info[i].status]. *)
Inductive dma : Type :=
| DmaNull
| DmaOp (i : Z)
| DmaData (b : nat)
| DmaStatus (i : Z).

(** [struct virtq_desc] (virtio.h). *)
Record vdesc : Type := mkvdesc {
  vd_addr : dma;
  vd_len : Z;
  vd_flags : Z;
  vd_next : Z
}.

Definition set_vd_addr (v : dma) (r : vdesc) : vdesc :=
  mkvdesc v (vd_len r) (vd_flags r) (vd_next r).
Definition set_vd_len (v : Z) (r : vdesc) : vdesc :=
  mkvdesc (vd_addr r) v (vd_flags r) (vd_next r).
Definition set_vd_flags (v : Z) (r : vdesc) : vdesc :=
  mkvdesc (vd_addr r) (vd_len r) v (vd_next r).
Definition set_vd_next (v : Z) (r : vdesc) : vdesc :=
  mkvdesc (vd_addr r) (vd_len r) (vd_flags r) v.

(** [struct disk] (virtio_disk.c). The descriptor table and the two rings,
    which the driver shares with the device, are in the pages [desc_pa],
    [avail_pa] and [used_pa]; [avail], [avail_ring]: [avail->idx] and
    [avail->ring]; [used], [used_ring]: [used->idx] and the [id]s of
    [used->ring]; [info_b], [info_status]: [info]; [ops]: type and sector of
    the command headers. *)
Record vdisk : Type := mkvdisk {
  v_desc_pa : Z;
  v_avail_pa : Z;
  v_used_pa : Z;
  v_desc : list vdesc;
  v_avail : Z;
  v_avail_ring : list Z;
  v_used : Z;
  v_used_ring : list Z;
  v_free : list Z;
  v_used_idx : Z;
  v_info_b : list (option nat);
  v_info_status : list Z;
  v_ops : list (Z * Z)
}.

Definition set_v_desc_pa (v : Z) (r : vdisk) : vdisk :=
  mkvdisk v (v_avail_pa r) (v_used_pa r) (v_desc r) (v_avail r) (v_avail_ring r) (v_used r) (v_used_ring r) (v_free r) (v_used_idx r) (v_info_b r) (v_info_status r) (v_ops r).
Definition set_v_avail_pa (v : Z) (r : vdisk) : vdisk :=
  mkvdisk (v_desc_pa r) v (v_used_pa r) (v_desc r) (v_avail r) (v_avail_ring r) (v_used r) (v_used_ring r) (v_free r) (v_used_idx r) (v_info_b r) (v_info_status r) (v_ops r).
Definition set_v_used_pa (v : Z) (r : vdisk) : vdisk :=
  mkvdisk (v_desc_pa r) (v_avail_pa r) v (v_desc r) (v_avail r) (v_avail_ring r) (v_used r) (v_used_ring r) (v_free r) (v_used_idx r) (v_info_b r) (v_info_status r) (v_ops r).
Definition set_v_desc (v : list vdesc) (r : vdisk) : vdisk :=
  mkvdisk (v_desc_pa r) (v_avail_pa r) (v_used_pa r) v (v_avail r) (v_avail_ring r) (v_used r) (v_used_ring r) (v_free r) (v_used_idx r) (v_info_b r) (v_info_status r) (v_ops r).
Definition set_v_avail (v : Z) (r : vdisk) : vdisk :=
  mkvdisk (v_desc_pa r) (v_avail_pa r) (v_used_pa r) (v_desc r) v (v_avail_ring r) (v_used r) (v_used_ring r) (v_free r) (v_used_idx r) (v_info_b r) (v_info_status r) (v_ops r).
Definition set_v_avail_ring (v : list Z) (r : vdisk) : vdisk :=
  mkvdisk (v_desc_pa r) (v_avail_pa r) (v_used_pa r) (v_desc r) (v_avail r) v (v_used r) (v_used_ring r) (v_free r) (v_used_idx r) (v_info_b r) (v_info_status r) (v_ops r).
Definition set_v_used (v : Z) (r : vdisk) : vdisk :=
  mkvdisk (v_desc_pa r) (v_avail_pa r) (v_used_pa r) (v_desc r) (v_avail r) (v_avail_ring r) v (v_used_ring r) (v_free r) (v_used_idx r) (v_info_b r) (v_info_status r) (v_ops r).
Definition set_v_used_ring (v : list Z) (r : vdisk) : vdisk :=
  mkvdisk (v_desc_pa r) (v_avail_pa r) (v_used_pa r) (v_desc r) (v_avail r) (v_avail_ring r) (v_used r) v (v_free r) (v_used_idx r) (v_info_b r) (v_info_status r) (v_ops r).
Definition set_v_free (v : list Z) (r : vdisk) : vdisk :=
  mkvdisk (v_desc_pa r) (v_avail_pa r) (v_used_pa r) (v_desc r) (v_avail r) (v_avail_ring r) (v_used r) (v_used_ring r) v (v_used_idx r) (v_info_b r) (v_info_status r) (v_ops r).
Definition set_v_used_idx (v : Z) (r : vdisk) : vdisk :=
  mkvdisk (v_desc_pa r) (v_avail_pa r) (v_used_pa r) (v_desc r) (v_avail r) (v_avail_ring r) (v_used r) (v_used_ring r) (v_free r) v (v_info_b r) (v_info_status r) (v_ops r).
Definition set_v_info_b (v : list (option nat)) (r : vdisk) : vdisk :=
  mkvdisk (v_desc_pa r) (v_avail_pa r) (v_used_pa r) (v_desc r) (v_avail r) (v_avail_ring r) (v_used r) (v_used_ring r) (v_free r) (v_used_idx r) v (v_info_status r) (v_ops r).
Definition set_v_info_status (v : list Z) (r : vdisk) : vdisk :=
  mkvdisk (v_desc_pa r) (v_avail_pa r) (v_used_pa r) (v_desc r) (v_avail r) (v_avail_ring r) (v_used r) (v_used_ring r) (v_free r) (v_used_idx r) (v_info_b r) v (v_ops r).
Definition set_v_ops (v : list (Z * Z)) (r : vdisk) : vdisk :=
  mkvdisk (v_desc_pa r) (v_avail_pa r) (v_used_pa r) (v_desc r) (v_avail r) (v_avail_ring r) (v_used r) (v_used_ring r) (v_free r) (v_used_idx r) (v_info_b r) (v_info_status r) v.

(** The kernel's global state.
    [k_mem]: memory; [k_freelist]: [kmem.freelist]; [k_ft], [k_hand]:
    [ftable] and [clock_hand] of frametable.c; [k_swap]: [swap_area];
    [k_proc], [k_cur], [k_initproc], [k_nextpid]: process table, [mycpu()->proc],
    [initproc], [nextpid]; [k_held]: the spinlocks this CPU holds; [k_first]:
    the static of [forkret]; [k_disk]: the disk; [k_bcache]: the
    buffers, the last one being [bcache.head]; [k_pipes]: the pipes, by the
    address of their page; [k_devsw]: which major numbers have a driver;
    [k_hw]: registers and devices; [k_kpgtbl]: [kernel_pagetable];
    [k_vdisk]: [disk] of virtio_disk.c; [k_started]: [started] of main.c. *)
Record kst : Type := mkkst {
  k_mem : mem;
  k_freelist : Z;
  k_ft : list frame_entry;
  k_hand : Z;
  k_swap : list swap_slot;
  k_proc : list proc;
  k_cur : option nat;
  k_initproc : option nat;
  k_nextpid : Z;
  k_held : list lockid;
  k_first : Z;
  k_ticks : Z;
  k_disk : disk;
  k_bcache : list buf;
  k_log : log;
  k_sb : superblock;
  k_itable : list inode;
  k_ftable : list file;
  k_pipes : gmap Z pipe;
  k_devsw : list bool;
  k_cons : console;
  k_tx_busy : Z;
  k_hw : hw;
  k_kpgtbl : Z;
  k_vdisk : vdisk;
  k_started : Z
}.

Definition set_k_mem (v : mem) (r : kst) : kst :=
  mkkst v (k_freelist r) (k_ft r) (k_hand r) (k_swap r) (k_proc r) (k_cur r) (k_initproc r) (k_nextpid r) (k_held r) (k_first r) (k_ticks r) (k_disk r) (k_bcache r) (k_log r) (k_sb r) (k_itable r) (k_ftable r) (k_pipes r) (k_devsw r) (k_cons r) (k_tx_busy r) (k_hw r) (k_kpgtbl r) (k_vdisk r) (k_started r).
Definition set_k_freelist (v : Z) (r : kst) : kst :=
  mkkst (k_mem r) v (k_ft r) (k_hand r) (k_swap r) (k_proc r) (k_cur r) (k_initproc r) (k_nextpid r) (k_held r) (k_first r) (k_ticks r) (k_disk r) (k_bcache r) (k_log r) (k_sb r) (k_itable r) (k_ftable r) (k_pipes r) (k_devsw r) (k_cons r) (k_tx_busy r) (k_hw r) (k_kpgtbl r) (k_vdisk r) (k_started r).
Definition set_k_ft (v : list frame_entry) (r : kst) : kst :=
  mkkst (k_mem r) (k_freelist r) v (k_hand r) (k_swap r) (k_proc r) (k_cur r) (k_initproc r) (k_nextpid r) (k_held r) (k_first r) (k_ticks r) (k_disk r) (k_bcache r) (k_log r) (k_sb r) (k_itable r) (k_ftable r) (k_pipes r) (k_devsw r) (k_cons r) (k_tx_busy r) (k_hw r) (k_kpgtbl r) (k_vdisk r) (k_started r).
Definition set_k_hand (v : Z) (r : kst) : kst :=
  mkkst (k_mem r) (k_freelist r) (k_ft r) v (k_swap r) (k_proc r) (k_cur r) (k_initproc r) (k_nextpid r) (k_held r) (k_first r) (k_ticks r) (k_disk r) (k_bcache r) (k_log r) (k_sb r) (k_itable r) (k_ftable r) (k_pipes r) (k_devsw r) (k_cons r) (k_tx_busy r) (k_hw r) (k_kpgtbl r) (k_vdisk r) (k_started r).
Definition set_k_swap (v : list swap_slot) (r : kst) : kst :=
  mkkst (k_mem r) (k_freelist r) (k_ft r) (k_hand r) v (k_proc r) (k_cur r) (k_initproc r) (k_nextpid r) (k_held r) (k_first r) (k_ticks r) (k_disk r) (k_bcache r) (k_log r) (k_sb r) (k_itable r) (k_ftable r) (k_pipes r) (k_devsw r) (k_cons r) (k_tx_busy r) (k_hw r) (k_kpgtbl r) (k_vdisk r) (k_started r).
Definition set_k_proc (v : list proc) (r : kst) : kst :=
  mkkst (k_mem r) (k_freelist r) (k_ft r) (k_hand r) (k_swap r) v (k_cur r) (k_initproc r) (k_nextpid r) (k_held r) (k_first r) (k_ticks r) (k_disk r) (k_bcache r) (k_log r) (k_sb r) (k_itable r) (k_ftable r) (k_pipes r) (k_devsw r) (k_cons r) (k_tx_busy r) (k_hw r) (k_kpgtbl r) (k_vdisk r) (k_started r).
Definition set_k_cur (v : option nat) (r : kst) : kst :=
  mkkst (k_mem r) (k_freelist r) (k_ft r) (k_hand r) (k_swap r) (k_proc r) v (k_initproc r) (k_nextpid r) (k_held r) (k_first r) (k_ticks r) (k_disk r) (k_bcache r) (k_log r) (k_sb r) (k_itable r) (k_ftable r) (k_pipes r) (k_devsw r) (k_cons r) (k_tx_busy r) (k_hw r) (k_kpgtbl r) (k_vdisk r) (k_started r).
Definition set_k_initproc (v : option nat) (r : kst) : kst :=
  mkkst (k_mem r) (k_freelist r) (k_ft r) (k_hand r) (k_swap r) (k_proc r) (k_cur r) v (k_nextpid r) (k_held r) (k_first r) (k_ticks r) (k_disk r) (k_bcache r) (k_log r) (k_sb r) (k_itable r) (k_ftable r) (k_pipes r) (k_devsw r) (k_cons r) (k_tx_busy r) (k_hw r) (k_kpgtbl r) (k_vdisk r) (k_started r).
Definition set_k_nextpid (v : Z) (r : kst) : kst :=
  mkkst (k_mem r) (k_freelist r) (k_ft r) (k_hand r) (k_swap r) (k_proc r) (k_cur r) (k_initproc r) v (k_held r) (k_first r) (k_ticks r) (k_disk r) (k_bcache r) (k_log r) (k_sb r) (k_itable r) (k_ftable r) (k_pipes r) (k_devsw r) (k_cons r) (k_tx_busy r) (k_hw r) (k_kpgtbl r) (k_vdisk r) (k_started r).
Definition set_k_held (v : list lockid) (r : kst) : kst :=
  mkkst (k_mem r) (k_freelist r) (k_ft r) (k_hand r) (k_swap r) (k_proc r) (k_cur r) (k_initproc r) (k_nextpid r) v (k_first r) (k_ticks r) (k_disk r) (k_bcache r) (k_log r) (k_sb r) (k_itable r) (k_ftable r) (k_pipes r) (k_devsw r) (k_cons r) (k_tx_busy r) (k_hw r) (k_kpgtbl r) (k_vdisk r) (k_started r).
Definition set_k_first (v : Z) (r : kst) : kst :=
  mkkst (k_mem r) (k_freelist r) (k_ft r) (k_hand r) (k_swap r) (k_proc r) (k_cur r) (k_initproc r) (k_nextpid r) (k_held r) v (k_ticks r) (k_disk r) (k_bcache r) (k_log r) (k_sb r) (k_itable r) (k_ftable r) (k_pipes r) (k_devsw r) (k_cons r) (k_tx_busy r) (k_hw r) (k_kpgtbl r) (k_vdisk r) (k_started r).
Definition set_k_ticks (v : Z) (r : kst) : kst :=
  mkkst (k_mem r) (k_freelist r) (k_ft r) (k_hand r) (k_swap r) (k_proc r) (k_cur r) (k_initproc r) (k_nextpid r) (k_held r) (k_first r) v (k_disk r) (k_bcache r) (k_log r) (k_sb r) (k_itable r) (k_ftable r) (k_pipes r) (k_devsw r) (k_cons r) (k_tx_busy r) (k_hw r) (k_kpgtbl r) (k_vdisk r) (k_started r).
Definition set_k_disk (v : disk) (r : kst) : kst :=
  mkkst (k_mem r) (k_freelist r) (k_ft r) (k_hand r) (k_swap r) (k_proc r) (k_cur r) (k_initproc r) (k_nextpid r) (k_held r) (k_first r) (k_ticks r) v (k_bcache r) (k_log r) (k_sb r) (k_itable r) (k_ftable r) (k_pipes r) (k_devsw r) (k_cons r) (k_tx_busy r) (k_hw r) (k_kpgtbl r) (k_vdisk r) (k_started r).
Definition set_k_bcache (v : list buf) (r : kst) : kst :=
  mkkst (k_mem r) (k_freelist r) (k_ft r) (k_hand r) (k_swap r) (k_proc r) (k_cur r) (k_initproc r) (k_nextpid r) (k_held r) (k_first r) (k_ticks r) (k_disk r) v (k_log r) (k_sb r) (k_itable r) (k_ftable r) (k_pipes r) (k_devsw r) (k_cons r) (k_tx_busy r) (k_hw r) (k_kpgtbl r) (k_vdisk r) (k_started r).
Definition set_k_log (v : log) (r : kst) : kst :=
  mkkst (k_mem r) (k_freelist r) (k_ft r) (k_hand r) (k_swap r) (k_proc r) (k_cur r) (k_initproc r) (k_nextpid r) (k_held r) (k_first r) (k_ticks r) (k_disk r) (k_bcache r) v (k_sb r) (k_itable r) (k_ftable r) (k_pipes r) (k_devsw r) (k_cons r) (k_tx_busy r) (k_hw r) (k_kpgtbl r) (k_vdisk r) (k_started r).
Definition set_k_sb (v : superblock) (r : kst) : kst :=
  mkkst (k_mem r) (k_freelist r) (k_ft r) (k_hand r) (k_swap r) (k_proc r) (k_cur r) (k_initproc r) (k_nextpid r) (k_held r) (k_first r) (k_ticks r) (k_disk r) (k_bcache r) (k_log r) v (k_itable r) (k_ftable r) (k_pipes r) (k_devsw r) (k_cons r) (k_tx_busy r) (k_hw r) (k_kpgtbl r) (k_vdisk r) (k_started r).
Definition set_k_itable (v : list inode) (r : kst) : kst :=
  mkkst (k_mem r) (k_freelist r) (k_ft r) (k_hand r) (k_swap r) (k_proc r) (k_cur r) (k_initproc r) (k_nextpid r) (k_held r) (k_first r) (k_ticks r) (k_disk r) (k_bcache r) (k_log r) (k_sb r) v (k_ftable r) (k_pipes r) (k_devsw r) (k_cons r) (k_tx_busy r) (k_hw r) (k_kpgtbl r) (k_vdisk r) (k_started r).
Definition set_k_ftable (v : list file) (r : kst) : kst :=
  mkkst (k_mem r) (k_freelist r) (k_ft r) (k_hand r) (k_swap r) (k_proc r) (k_cur r) (k_initproc r) (k_nextpid r) (k_held r) (k_first r) (k_ticks r) (k_disk r) (k_bcache r) (k_log r) (k_sb r) (k_itable r) v (k_pipes r) (k_devsw r) (k_cons r) (k_tx_busy r) (k_hw r) (k_kpgtbl r) (k_vdisk r) (k_started r).
Definition set_k_pipes (v : gmap Z pipe) (r : kst) : kst :=
  mkkst (k_mem r) (k_freelist r) (k_ft r) (k_hand r) (k_swap r) (k_proc r) (k_cur r) (k_initproc r) (k_nextpid r) (k_held r) (k_first r) (k_ticks r) (k_disk r) (k_bcache r) (k_log r) (k_sb r) (k_itable r) (k_ftable r) v (k_devsw r) (k_cons r) (k_tx_busy r) (k_hw r) (k_kpgtbl r) (k_vdisk r) (k_started r).
Definition set_k_devsw (v : list bool) (r : kst) : kst :=
  mkkst (k_mem r) (k_freelist r) (k_ft r) (k_hand r) (k_swap r) (k_proc r) (k_cur r) (k_initproc r) (k_nextpid r) (k_held r) (k_first r) (k_ticks r) (k_disk r) (k_bcache r) (k_log r) (k_sb r) (k_itable r) (k_ftable r) (k_pipes r) v (k_cons r) (k_tx_busy r) (k_hw r) (k_kpgtbl r) (k_vdisk r) (k_started r).
Definition set_k_cons (v : console) (r : kst) : kst :=
  mkkst (k_mem r) (k_freelist r) (k_ft r) (k_hand r) (k_swap r) (k_proc r) (k_cur r) (k_initproc r) (k_nextpid r) (k_held r) (k_first r) (k_ticks r) (k_disk r) (k_bcache r) (k_log r) (k_sb r) (k_itable r) (k_ftable r) (k_pipes r) (k_devsw r) v (k_tx_busy r) (k_hw r) (k_kpgtbl r) (k_vdisk r) (k_started r).
Definition set_k_tx_busy (v : Z) (r : kst) : kst :=
  mkkst (k_mem r) (k_freelist r) (k_ft r) (k_hand r) (k_swap r) (k_proc r) (k_cur r) (k_initproc r) (k_nextpid r) (k_held r) (k_first r) (k_ticks r) (k_disk r) (k_bcache r) (k_log r) (k_sb r) (k_itable r) (k_ftable r) (k_pipes r) (k_devsw r) (k_cons r) v (k_hw r) (k_kpgtbl r) (k_vdisk r) (k_started r).
Definition set_k_hw (v : hw) (r : kst) : kst :=
  mkkst (k_mem r) (k_freelist r) (k_ft r) (k_hand r) (k_swap r) (k_proc r) (k_cur r) (k_initproc r) (k_nextpid r) (k_held r) (k_first r) (k_ticks r) (k_disk r) (k_bcache r) (k_log r) (k_sb r) (k_itable r) (k_ftable r) (k_pipes r) (k_devsw r) (k_cons r) (k_tx_busy r) v (k_kpgtbl r) (k_vdisk r) (k_started r).
Definition set_k_kpgtbl (v : Z) (r : kst) : kst :=
  mkkst (k_mem r) (k_freelist r) (k_ft r) (k_hand r) (k_swap r) (k_proc r) (k_cur r) (k_initproc r) (k_nextpid r) (k_held r) (k_first r) (k_ticks r) (k_disk r) (k_bcache r) (k_log r) (k_sb r) (k_itable r) (k_ftable r) (k_pipes r) (k_devsw r) (k_cons r) (k_tx_busy r) (k_hw r) v (k_vdisk r) (k_started r).
Definition set_k_vdisk (v : vdisk) (r : kst) : kst :=
  mkkst (k_mem r) (k_freelist r) (k_ft r) (k_hand r) (k_swap r) (k_proc r) (k_cur r) (k_initproc r) (k_nextpid r) (k_held r) (k_first r) (k_ticks r) (k_disk r) (k_bcache r) (k_log r) (k_sb r) (k_itable r) (k_ftable r) (k_pipes r) (k_devsw r) (k_cons r) (k_tx_busy r) (k_hw r) (k_kpgtbl r) v (k_started r).
Definition set_k_started (v : Z) (r : kst) : kst :=
  mkkst (k_mem r) (k_freelist r) (k_ft r) (k_hand r) (k_swap r) (k_proc r) (k_cur r) (k_initproc r) (k_nextpid r) (k_held r) (k_first r) (k_ticks r) (k_disk r) (k_bcache r) (k_log r) (k_sb r) (k_itable r) (k_ftable r) (k_pipes r) (k_devsw r) (k_cons r) (k_tx_busy r) (k_hw r) (k_kpgtbl r) (k_vdisk r) v.

(** Reduction of field accesses and updates. *)
Ltac ksimp := cbn [ctx_ra set_ctx_ra ctx_sp set_ctx_sp ctx_s set_ctx_s p_mlfq_level
  set_p_mlfq_level p_ticks_at_level set_p_ticks_at_level p_ticks_per_level
  set_p_ticks_per_level p_times_scheduled set_p_times_scheduled p_syscalls_at_level
  set_p_syscalls_at_level p_state set_p_state p_chan set_p_chan p_killed set_p_killed
  p_xstate set_p_xstate p_pid set_p_pid p_parent set_p_parent p_kstack set_p_kstack p_sz
  set_p_sz p_pagetable set_p_pagetable p_trapframe set_p_trapframe p_context set_p_context
  p_ofile set_p_ofile p_cwd set_p_cwd p_name set_p_name p_syscount set_p_syscount
  p_page_faults set_p_page_faults p_pages_evicted set_p_pages_evicted p_pages_swapped_in
  set_p_pages_swapped_in p_pages_swapped_out set_p_pages_swapped_out p_resident_pages
  set_p_resident_pages fe_used set_fe_used fe_pid set_fe_pid fe_owner set_fe_owner fe_va
  set_fe_va fe_pa set_fe_pa fe_ref_bit set_fe_ref_bit fe_swap_slot set_fe_swap_slot ss_used
  set_ss_used ss_pid set_ss_pid ss_va set_ss_va ss_data set_ss_data sl_locked set_sl_locked
  sl_pid set_sl_pid b_valid set_b_valid b_disk set_b_disk b_dev set_b_dev b_blockno
  set_b_blockno b_lock set_b_lock b_refcnt set_b_refcnt b_prev set_b_prev b_next set_b_next
  b_data set_b_data lg_start set_lg_start lg_outstanding set_lg_outstanding lg_committing
  set_lg_committing lg_dev set_lg_dev lg_n set_lg_n lg_block set_lg_block sb_magic
  set_sb_magic sb_size set_sb_size sb_nblocks set_sb_nblocks sb_ninodes set_sb_ninodes
  sb_nlog set_sb_nlog sb_logstart set_sb_logstart sb_inodestart set_sb_inodestart
  sb_bmapstart set_sb_bmapstart i_dev set_i_dev i_inum set_i_inum i_ref set_i_ref i_lock
  set_i_lock i_valid set_i_valid i_type set_i_type i_major set_i_major i_minor set_i_minor
  i_nlink set_i_nlink i_size set_i_size i_addrs set_i_addrs f_type set_f_type f_ref
  set_f_ref f_readable set_f_readable f_writable set_f_writable f_pipe set_f_pipe f_ip
  set_f_ip f_off set_f_off f_major set_f_major pi_data set_pi_data pi_nread set_pi_nread
  pi_nwrite set_pi_nwrite pi_readopen set_pi_readopen pi_writeopen set_pi_writeopen c_buf
  set_c_buf c_r set_c_r c_w set_c_w c_e set_c_e h_sstatus set_h_sstatus h_sepc set_h_sepc
  h_scause set_h_scause h_stval set_h_stval h_stvec set_h_stvec h_satp set_h_satp h_stimecmp
  set_h_stimecmp h_time set_h_time h_tp set_h_tp h_irq set_h_irq h_uart_rx set_h_uart_rx
  h_uart_tx set_h_uart_tx h_uart_idle set_h_uart_idle k_mem set_k_mem k_freelist
  set_k_freelist k_ft set_k_ft k_hand set_k_hand k_swap set_k_swap k_proc set_k_proc k_cur
  set_k_cur k_initproc set_k_initproc k_nextpid set_k_nextpid k_held set_k_held k_first
  set_k_first k_ticks set_k_ticks k_disk set_k_disk k_bcache set_k_bcache k_log set_k_log
  k_sb set_k_sb k_itable set_k_itable k_ftable set_k_ftable k_pipes set_k_pipes k_devsw
  set_k_devsw k_cons set_k_cons k_tx_busy set_k_tx_busy k_hw set_k_hw k_kpgtbl
  set_k_kpgtbl
  h_mmio set_h_mmio vd_addr set_vd_addr vd_len set_vd_len vd_flags set_vd_flags vd_next
  set_vd_next v_desc_pa set_v_desc_pa v_avail_pa set_v_avail_pa v_used_pa set_v_used_pa
  v_desc set_v_desc v_avail set_v_avail v_avail_ring set_v_avail_ring v_used set_v_used
  v_used_ring set_v_used_ring v_free set_v_free v_used_idx set_v_used_idx v_info_b
  set_v_info_b v_info_status set_v_info_status v_ops set_v_ops k_vdisk set_k_vdisk
  k_started set_k_started].
Tactic Notation "ksimp" "in" hyp(H) := cbn [ctx_ra set_ctx_ra ctx_sp set_ctx_sp ctx_s
  set_ctx_s p_mlfq_level set_p_mlfq_level p_ticks_at_level set_p_ticks_at_level
  p_ticks_per_level set_p_ticks_per_level p_times_scheduled set_p_times_scheduled
  p_syscalls_at_level set_p_syscalls_at_level p_state set_p_state p_chan set_p_chan p_killed
  set_p_killed p_xstate set_p_xstate p_pid set_p_pid p_parent set_p_parent p_kstack
  set_p_kstack p_sz set_p_sz p_pagetable set_p_pagetable p_trapframe set_p_trapframe
  p_context set_p_context p_ofile set_p_ofile p_cwd set_p_cwd p_name set_p_name p_syscount
  set_p_syscount p_page_faults set_p_page_faults p_pages_evicted set_p_pages_evicted
  p_pages_swapped_in set_p_pages_swapped_in p_pages_swapped_out set_p_pages_swapped_out
  p_resident_pages set_p_resident_pages fe_used set_fe_used fe_pid set_fe_pid fe_owner
  set_fe_owner fe_va set_fe_va fe_pa set_fe_pa fe_ref_bit set_fe_ref_bit fe_swap_slot
  set_fe_swap_slot ss_used set_ss_used ss_pid set_ss_pid ss_va set_ss_va ss_data set_ss_data
  sl_locked set_sl_locked sl_pid set_sl_pid b_valid set_b_valid b_disk set_b_disk b_dev
  set_b_dev b_blockno set_b_blockno b_lock set_b_lock b_refcnt set_b_refcnt b_prev
  set_b_prev b_next set_b_next b_data set_b_data lg_start set_lg_start lg_outstanding
  set_lg_outstanding lg_committing set_lg_committing lg_dev set_lg_dev lg_n set_lg_n
  lg_block set_lg_block sb_magic set_sb_magic sb_size set_sb_size sb_nblocks set_sb_nblocks
  sb_ninodes set_sb_ninodes sb_nlog set_sb_nlog sb_logstart set_sb_logstart sb_inodestart
  set_sb_inodestart sb_bmapstart set_sb_bmapstart i_dev set_i_dev i_inum set_i_inum i_ref
  set_i_ref i_lock set_i_lock i_valid set_i_valid i_type set_i_type i_major set_i_major
  i_minor set_i_minor i_nlink set_i_nlink i_size set_i_size i_addrs set_i_addrs f_type
  set_f_type f_ref set_f_ref f_readable set_f_readable f_writable set_f_writable f_pipe
  set_f_pipe f_ip set_f_ip f_off set_f_off f_major set_f_major pi_data set_pi_data pi_nread
  set_pi_nread pi_nwrite set_pi_nwrite pi_readopen set_pi_readopen pi_writeopen
  set_pi_writeopen c_buf set_c_buf c_r set_c_r c_w set_c_w c_e set_c_e h_sstatus
  set_h_sstatus h_sepc set_h_sepc h_scause set_h_scause h_stval set_h_stval h_stvec
  set_h_stvec h_satp set_h_satp h_stimecmp set_h_stimecmp h_time set_h_time h_tp set_h_tp
  h_irq set_h_irq h_uart_rx set_h_uart_rx h_uart_tx set_h_uart_tx h_uart_idle
  set_h_uart_idle k_mem set_k_mem k_freelist set_k_freelist k_ft set_k_ft k_hand set_k_hand
  k_swap set_k_swap k_proc set_k_proc k_cur set_k_cur k_initproc set_k_initproc k_nextpid
  set_k_nextpid k_held set_k_held k_first set_k_first k_ticks set_k_ticks k_disk set_k_disk
  k_bcache set_k_bcache k_log set_k_log k_sb set_k_sb k_itable set_k_itable k_ftable
  set_k_ftable k_pipes set_k_pipes k_devsw set_k_devsw k_cons set_k_cons k_tx_busy
  set_k_tx_busy k_hw set_k_hw k_kpgtbl set_k_kpgtbl
  h_mmio set_h_mmio vd_addr set_vd_addr vd_len set_vd_len vd_flags set_vd_flags vd_next
  set_vd_next v_desc_pa set_v_desc_pa v_avail_pa set_v_avail_pa v_used_pa set_v_used_pa
  v_desc set_v_desc v_avail set_v_avail v_avail_ring set_v_avail_ring v_used set_v_used
  v_used_ring set_v_used_ring v_free set_v_free v_used_idx set_v_used_idx v_info_b
  set_v_info_b v_info_status set_v_info_status v_ops set_v_ops k_vdisk set_k_vdisk
  k_started set_k_started] in H.
Tactic Notation "ksimp" "in" "*" := cbn [ctx_ra set_ctx_ra ctx_sp set_ctx_sp ctx_s
  set_ctx_s p_mlfq_level set_p_mlfq_level p_ticks_at_level set_p_ticks_at_level
  p_ticks_per_level set_p_ticks_per_level p_times_scheduled set_p_times_scheduled
  p_syscalls_at_level set_p_syscalls_at_level p_state set_p_state p_chan set_p_chan p_killed
  set_p_killed p_xstate set_p_xstate p_pid set_p_pid p_parent set_p_parent p_kstack
  set_p_kstack p_sz set_p_sz p_pagetable set_p_pagetable p_trapframe set_p_trapframe
  p_context set_p_context p_ofile set_p_ofile p_cwd set_p_cwd p_name set_p_name p_syscount
  set_p_syscount p_page_faults set_p_page_faults p_pages_evicted set_p_pages_evicted
  p_pages_swapped_in set_p_pages_swapped_in p_pages_swapped_out set_p_pages_swapped_out
  p_resident_pages set_p_resident_pages fe_used set_fe_used fe_pid set_fe_pid fe_owner
  set_fe_owner fe_va set_fe_va fe_pa set_fe_pa fe_ref_bit set_fe_ref_bit fe_swap_slot
  set_fe_swap_slot ss_used set_ss_used ss_pid set_ss_pid ss_va set_ss_va ss_data set_ss_data
  sl_locked set_sl_locked sl_pid set_sl_pid b_valid set_b_valid b_disk set_b_disk b_dev
  set_b_dev b_blockno set_b_blockno b_lock set_b_lock b_refcnt set_b_refcnt b_prev
  set_b_prev b_next set_b_next b_data set_b_data lg_start set_lg_start lg_outstanding
  set_lg_outstanding lg_committing set_lg_committing lg_dev set_lg_dev lg_n set_lg_n
  lg_block set_lg_block sb_magic set_sb_magic sb_size set_sb_size sb_nblocks set_sb_nblocks
  sb_ninodes set_sb_ninodes sb_nlog set_sb_nlog sb_logstart set_sb_logstart sb_inodestart
  set_sb_inodestart sb_bmapstart set_sb_bmapstart i_dev set_i_dev i_inum set_i_inum i_ref
  set_i_ref i_lock set_i_lock i_valid set_i_valid i_type set_i_type i_major set_i_major
  i_minor set_i_minor i_nlink set_i_nlink i_size set_i_size i_addrs set_i_addrs f_type
  set_f_type f_ref set_f_ref f_readable set_f_readable f_writable set_f_writable f_pipe
  set_f_pipe f_ip set_f_ip f_off set_f_off f_major set_f_major pi_data set_pi_data pi_nread
  set_pi_nread pi_nwrite set_pi_nwrite pi_readopen set_pi_readopen pi_writeopen
  set_pi_writeopen c_buf set_c_buf c_r set_c_r c_w set_c_w c_e set_c_e h_sstatus
  set_h_sstatus h_sepc set_h_sepc h_scause set_h_scause h_stval set_h_stval h_stvec
  set_h_stvec h_satp set_h_satp h_stimecmp set_h_stimecmp h_time set_h_time h_tp set_h_tp
  h_irq set_h_irq h_uart_rx set_h_uart_rx h_uart_tx set_h_uart_tx h_uart_idle
  set_h_uart_idle k_mem set_k_mem k_freelist set_k_freelist k_ft set_k_ft k_hand set_k_hand
  k_swap set_k_swap k_proc set_k_proc k_cur set_k_cur k_initproc set_k_initproc k_nextpid
  set_k_nextpid k_held set_k_held k_first set_k_first k_ticks set_k_ticks k_disk set_k_disk
  k_bcache set_k_bcache k_log set_k_log k_sb set_k_sb k_itable set_k_itable k_ftable
  set_k_ftable k_pipes set_k_pipes k_devsw set_k_devsw k_cons set_k_cons k_tx_busy
  set_k_tx_busy k_hw set_k_hw k_kpgtbl set_k_kpgtbl
  h_mmio set_h_mmio vd_addr set_vd_addr vd_len set_vd_len vd_flags set_vd_flags vd_next
  set_vd_next v_desc_pa set_v_desc_pa v_avail_pa set_v_avail_pa v_used_pa set_v_used_pa
  v_desc set_v_desc v_avail set_v_avail v_avail_ring set_v_avail_ring v_used set_v_used
  v_used_ring set_v_used_ring v_free set_v_free v_used_idx set_v_used_idx v_info_b
  set_v_info_b v_info_status set_v_info_status v_ops set_v_ops k_vdisk set_k_vdisk
  k_started set_k_started] in *.

(* ------------------------------------------------------------------ *)
(** ** Initial values: zeroed storage *)

Definition zeros (n : nat) : list Z := replicate n 0.

Definition context0 : context := mkcontext 0 0 (zeros 12).
Definition proc0 : proc :=
  mkproc 0 0 (zeros 4) 0 0 UNUSED ChNone 0 0 0 None 0 0 0 0 context0
    (replicate NOFILE None) None (zeros 16) 0 0 0 0 0 0.
Definition frame0 : frame_entry := mkframe 0 0 None 0 0 0 0.
Definition slot0 : swap_slot := mkslot 0 0 0 [].
Definition sleeplock0 : sleeplock := mksleeplock 0 0.
Definition buf0 : buf := mkbuf 0 0 0 0 sleeplock0 0 0%nat 0%nat (zeros 1024).
Definition log0 : log := mklog 0 0 0 0 0 (zeros 30).
Definition sb0 : superblock := mksb 0 0 0 0 0 0 0 0.
Definition inode0 : inode := mkinode 0 0 0 sleeplock0 0 0 0 0 0 0 (zeros 13).
Definition file0 : file := mkfile FD_NONE 0 0 0 0 None 0 0.
Definition pipe0 : pipe := mkpipe (zeros 512) 0 0 0 0.
Definition cons0 : console := mkcons (zeros 128) 0 0 0.
Definition hw0 : hw := mkhw 0 0 0 0 0 0 0 0 0 0 [] [] true [].
Definition vdesc0 : vdesc := mkvdesc DmaNull 0 0 0.
Definition vdisk0 : vdisk :=
  mkvdisk 0 0 0 (replicate 8 vdesc0) 0 (zeros 8) 0 (zeros 8) (zeros 8) 0
    (replicate 8 None) (zeros 8) (replicate 8 (0, 0)).

#[export] Instance proc_inhabited : Inhabited proc := populate proc0.
#[export] Instance frame_inhabited : Inhabited frame_entry := populate frame0.
#[export] Instance slot_inhabited : Inhabited swap_slot := populate slot0.
#[export] Instance buf_inhabited : Inhabited buf := populate buf0.
#[export] Instance inode_inhabited : Inhabited inode := populate inode0.
#[export] Instance file_inhabited : Inhabited file := populate file0.
#[export] Instance vdesc_inhabited : Inhabited vdesc := populate vdesc0.
#[export] Instance pipe_inhabited : Inhabited pipe := populate pipe0.

(** The kernel's variables before [main] runs: zeroed [.bss], with
    [nextpid] and [forkret]'s [first] initialised to 1. *)
Definition kst0 (m : mem) (d : disk) : kst :=
  mkkst m 0 (replicate MAXFRAMES frame0) 0 (replicate MAX_SWAP_SLOTS slot0)
    (replicate NPROC proc0) None None 1 [] 1 0
    d (replicate (S NBUF) buf0) log0 sb0 (replicate NINODE inode0)
    (replicate NFILE file0) ∅ (replicate 10 false) cons0 0 hw0 0 vdisk0 0.

(* ------------------------------------------------------------------ *)
(** ** The kernel monad and its accessors *)

Abbreviation K := (M kst).

(** What the linker decides: the addresses of the kernel image's symbols.
    Anything that uses one takes it from this class. *)
Class KernelImage : Type := {
  end_ : Z;           (* first address after the kernel *)
  etext : Z;          (* end of the kernel's text *)
  trampoline : Z;     (* page of trampoline.S *)
  uservec : Z;
  userret : Z;
  forkret_addr : Z;
  usertrap_addr : Z;
  kernelvec : Z;
}.

(** What the kernel relies on: the image is loaded at [KERNBASE] and fits in
    RAM. *)
Class ImageOk `{KernelImage} : Prop := {
  end_range : KERNBASE < end_ < PHYSTOP;
  etext_range : KERNBASE < etext <= end_;
  trampoline_range : KERNBASE <= trampoline < etext;
  trampoline_aligned : aligned trampoline;
}.

(** How often a sleeping process may be woken without its condition being
    true before the model of the waiting loop gives up ([Spin]). *)
Class SleepFuel : Type := sleep_fuel : nat.

(** [proc[i]] and its update. *)
Definition getproc (i : nat) : K proc := gets (fun s => k_proc s !!! i).
Definition updproc (i : nat) (f : proc -> proc) : K unit :=
  modify (fun s => set_k_proc (alter f i (k_proc s)) s).

(** [myproc()]: [mycpu()->proc], a null pointer when no process runs. *)
Definition myproc : K (option nat) := gets k_cur.
(** Code that dereferences [myproc()] runs in a process. *)
Definition curproc : K nat :=
  fun s => match k_cur s with
           | Some i => Done i s
           | None => Panic "null process pointer" s
           end.

(** Memory accesses. *)
Definition kload64 (a : Z) : K Z := gets (fun s => load64 (k_mem s) a).
Definition kstore64 (a v : Z) : K unit :=
  modify (fun s => set_k_mem (store64 (k_mem s) a v) s).
Definition kmemset (a c n : Z) : K unit :=
  modify (fun s => set_k_mem (mset (k_mem s) a c n) s).
Definition kmemmove (dst src n : Z) : K unit :=
  modify (fun s => set_k_mem (mcopy (k_mem s) dst src n) s).
Definition kwrite (a : Z) (bs : list Z) : K unit :=
  modify (fun s => set_k_mem (mwrite (k_mem s) a bs) s).
Definition kread (a n : Z) : K (list Z) := gets (fun s => mread (k_mem s) a n).

(** A concrete kernel image, for evaluating the definitions. *)
Definition demo_image : KernelImage := {|
  end_ := 0x80022000; etext := 0x80008000; trampoline := 0x80007000;
  uservec := 0x80007000; userret := 0x8000709c; forkret_addr := 0x80001a00;
  usertrap_addr := 0x80002700; kernelvec := 0x80005a00 |}.

Lemma demo_image_ok : @ImageOk demo_image.
Proof. split; cbn; try lia. done. Qed.
