(* ===== verification/Spinlock.v ===== *)
(** * Spinlocks ([kernel/spinlock.c], [kernel/spinlock.h])

    Two views of the same code. [acquire], [release] and [holding] are
    what the rest of the kernel calls: they act on the list of locks that
    the executing CPU holds and panic as the source does. [Module SMP] is
    the code itself, statement by statement, with the lock words, the
    nesting counters and the interrupt-enable bits of all CPUs, and the
    interleaving of their steps; its theorems justify the first view. *)

From S2P Require Import Prelude Machine KState.
Local Open Scope Z_scope.
Local Open Scope kern_scope.

(* ------------------------------------------------------------------ *)
(** ** The locks this CPU holds *)

Fixpoint rem1 (l : lockid) (h : list lockid) : list lockid :=
  match h with
  | [] => []
  | x :: h => if decide (x = l) then h else x :: rem1 l h
  end.

Definition holding (l : lockid) : K bool :=
  gets (fun s => bool_decide (l ∈ k_held s)).

Definition acquire (l : lockid) : K unit :=
  h <- holding l ;;
  if h then panic "acquire"
  else modify (fun s => set_k_held (l :: k_held s) s).

Definition release (l : lockid) : K unit :=
  h <- holding l ;;
  if negb h then panic "release"
  else modify (fun s => set_k_held (rem1 l (k_held s)) s).

(** [initlock] leaves the lock free, in particular not held by this CPU. *)
Definition initlock (l : lockid) : K unit :=
  modify (fun s => set_k_held (rem1 l (k_held s)) s).

Lemma rem1_cons l h : rem1 l (l :: h) = h.
Proof. simpl. by rewrite decide_True. Qed.

Lemma rem1_not_in l h : l ∉ h -> rem1 l h = h.
Proof.
  induction h as [|x h IH]; intros H; simpl; [done|].
  rewrite decide_False by set_solver. f_equal. apply IH. set_solver.
Qed.

Lemma acquire_ok l s :
  l ∉ k_held s -> acquire l s = Done tt (set_k_held (l :: k_held s) s).
Proof.
  intros H. unfold acquire, holding. rewrite bind_gets.
  by rewrite bool_decide_eq_false_2.
Qed.

Lemma release_ok l s :
  l ∈ k_held s -> release l s = Done tt (set_k_held (rem1 l (k_held s)) s).
Proof.
  intros H. unfold release, holding. rewrite bind_gets.
  by rewrite bool_decide_eq_true_2.
Qed.

Lemma bind_acquire {B} l (f : unit -> K B) s :
  l ∉ k_held s -> bind (acquire l) f s = f tt (set_k_held (l :: k_held s) s).
Proof. intros H. erewrite bind_done; [done|]. by apply acquire_ok. Qed.

Lemma bind_release {B} l (f : unit -> K B) s h :
  k_held s = l :: h -> bind (release l) f s = f tt (set_k_held h s).
Proof.
  intros H. erewrite bind_done; [done|]. rewrite release_ok, H by (rewrite H; set_solver).
  by rewrite rem1_cons.
Qed.

Lemma release_head l s h :
  k_held s = l :: h -> release l s = Done tt (set_k_held h s).
Proof.
  intros H. rewrite release_ok, H by (rewrite H; set_solver). by rewrite rem1_cons.
Qed.

Lemma elem_of_rem1 l h x : NoDup h -> x ∈ rem1 l h <-> x ∈ h /\ x <> l.
Proof.
  induction h as [|y h IH]; intros Hn; simpl; [set_solver|].
  apply NoDup_cons in Hn as [Hy Hn]. case_decide as E; subst; rewrite ?elem_of_cons, ?IH by done;
    naive_solver.
Qed.
Lemma NoDup_rem1 l h : NoDup h -> NoDup (rem1 l h).
Proof.
  induction h as [|y h IH]; intros Hn; simpl; [constructor|].
  apply NoDup_cons in Hn as [Hy Hn]. case_decide; [done|]. constructor; [|by apply IH].
  rewrite elem_of_rem1 by done. tauto.
Qed.
Lemma length_rem1 l h : l ∈ h -> length h = S (length (rem1 l h)).
Proof.
  induction h as [|y h IH]; intros Hl; simpl; [set_solver|].
  case_decide; [done|]. simpl. f_equal. apply IH. set_solver.
Qed.

(** Restoring the list of held locks undoes the [acquire]. *)
Lemma set_k_held_id s : set_k_held (k_held s) s = s.
Proof. by destruct s. Qed.

(** Lock side conditions: [l ∉ held]. *)
Ltac lock_tac :=
  ksimp; try assumption;
  try (rewrite ?not_elem_of_cons; repeat split; try assumption; try discriminate;
       try (apply not_elem_of_nil)).

(* ------------------------------------------------------------------ *)
(** ** All CPUs *)

(** The code of spinlock.c on every CPU at once. A step executes one access
    to a shared lock, or one function that touches only the CPU's own
    [struct cpu]; a schedule is any sequence of steps of any CPUs, and so any
    interleaving. *)
Module SMP.

(** [struct spinlock]; [lk_cpu] is [None] for a null pointer. *)
Record spinlock : Type := mklk { lk_locked : Z; lk_cpu : option nat }.

(** Where a CPU is inside [acquire] or [release]: before the check of
    [holding], in the loop on the atomic swap, before [lk->cpu = mycpu()];
    before [lk->cpu = 0], before the release of the lock word, before
    [pop_off]. [Run] is any other code. *)
Inductive pc : Type :=
| Run
| Acq_check (l : lockid)
| Acq_spin (l : lockid)
| Acq_set (l : lockid)
| Rel_clear (l : lockid)
| Rel_free (l : lockid)
| Rel_pop
| Panicked (msg : string).

(** [noff] and [intena] of [struct cpu], the interrupt-enable bit, and the
    locks whose [acquire] has returned and whose [release] has not been
    called. *)
Record cpu : Type := mkcpu {
  c_noff : Z;
  c_intena : bool;
  c_sie : bool;
  c_pc : pc;
  c_cs : list lockid
}.
Definition set_pc (p : pc) (c : cpu) : cpu := mkcpu (c_noff c) (c_intena c) (c_sie c) p (c_cs c).
Definition set_cs (cs : list lockid) (c : cpu) : cpu :=
  mkcpu (c_noff c) (c_intena c) (c_sie c) (c_pc c) cs.
Definition set_sie (b : bool) (c : cpu) : cpu :=
  mkcpu (c_noff c) (c_intena c) b (c_pc c) (c_cs c).

Record smp : Type := mksmp { locks : lockid -> spinlock; cpus : nat -> cpu }.

Definition updf {A B} `{EqDecision A} (f : A -> B) (a : A) (b : B) : A -> B :=
  fun x => if decide (x = a) then b else f x.
Definition set_lock (l : lockid) (k : spinlock) (s : smp) : smp :=
  mksmp (updf (locks s) l k) (cpus s).
Definition set_cpu (i : nat) (c : cpu) (s : smp) : smp := mksmp (locks s) (updf (cpus s) i c).

Definition init_lk : spinlock := mklk 0 None.

Definition holds (i : nat) (k : spinlock) : bool :=
  nz (lk_locked k) && bool_decide (lk_cpu k = Some i).

Definition push_off (c : cpu) : cpu :=
  let old := c_sie c in
  let c := set_sie false c in
  mkcpu (c_noff c + 1) (if c_noff c =? 0 then old else c_intena c) (c_sie c) (c_pc c) (c_cs c).

Definition pop_off (c : cpu) : cpu :=
  if c_sie c then set_pc (Panicked "pop_off - interruptible") c
  else if c_noff c <? 1 then set_pc (Panicked "pop_off") c
  else
    let n := c_noff c - 1 in
    mkcpu n (c_intena c) (if (n =? 0) && c_intena c then true else c_sie c) (c_pc c) (c_cs c).

(** What code outside spinlock.c does next. *)
Inductive op : Type :=
| Do_acquire (l : lockid)
| Do_release (l : lockid)
| Do_intr_off
| Do_intr_on.

(** One step of CPU [i]; [o] matters only when it is not inside [acquire] or
    [release]. *)
Definition step (i : nat) (o : op) (s : smp) : smp :=
  let c := cpus s i in
  match c_pc c with
  | Run =>
      match o with
      | Do_acquire l => set_cpu i (set_pc (Acq_check l) (push_off c)) s
      | Do_release l =>
          if holds i (locks s l) then
            set_cpu i (set_pc (Rel_clear l) (set_cs (rem1 l (c_cs c)) c)) s
          else set_cpu i (set_pc (Panicked "release") c) s
      | Do_intr_off => set_cpu i (set_sie false c) s
      | Do_intr_on => set_cpu i (set_sie true c) s
      end
  | Acq_check l =>
      if holds i (locks s l) then set_cpu i (set_pc (Panicked "acquire") c) s
      else set_cpu i (set_pc (Acq_spin l) c) s
  | Acq_spin l =>
      let old := lk_locked (locks s l) in
      let s := set_lock l (mklk 1 (lk_cpu (locks s l))) s in
      if nz old then s else set_cpu i (set_pc (Acq_set l) c) s
  | Acq_set l =>
      set_cpu i (set_pc Run (set_cs (l :: c_cs c) c))
        (set_lock l (mklk (lk_locked (locks s l)) (Some i)) s)
  | Rel_clear l =>
      set_cpu i (set_pc (Rel_free l) c) (set_lock l (mklk (lk_locked (locks s l)) None) s)
  | Rel_free l =>
      set_cpu i (set_pc Rel_pop c) (set_lock l (mklk 0 (lk_cpu (locks s l))) s)
  | Rel_pop =>
      let c := pop_off c in
      set_cpu i (match c_pc c with Panicked _ => c | _ => set_pc Run c end) s
  | Panicked _ => s
  end.

Definition run (sched : list (nat * op)) (s : smp) : smp :=
  foldl (fun s x => step x.1 x.2 s) s sched.

(** Code outside spinlock.c turns interrupts on only outside of all locks. *)
Definition op_ok (i : nat) (o : op) (s : smp) : Prop :=
  o = Do_intr_on -> c_pc (cpus s i) = Run -> c_noff (cpus s i) = 0.
Fixpoint sched_ok (sched : list (nat * op)) (s : smp) : Prop :=
  match sched with
  | [] => True
  | (i, o) :: sched => op_ok i o s /\ sched_ok sched (step i o s)
  end.

(** All locks initialised, no CPU inside a lock; the interrupt bits are
    arbitrary. *)
Definition smp0 (sie : nat -> bool) : smp :=
  mksmp (fun _ => init_lk) (fun i => mkcpu 0 false (sie i) Run []).

(** CPU [c] owns the word of lock [l]: it is in the critical section, or
    between the swap and the store of the owner, or in [release]. *)
Definition owns (c : cpu) (l : lockid) : Prop :=
  l ∈ c_cs c \/ c_pc c = Acq_set l \/ c_pc c = Rel_clear l \/ c_pc c = Rel_free l.
(** The owner field of lock [l] names this CPU. *)
Definition named (c : cpu) (l : lockid) : Prop := l ∈ c_cs c \/ c_pc c = Rel_clear l.

(** The lock an operation in progress is about does not count as held. *)
Definition pc_lock (p : pc) : option lockid :=
  match p with
  | Acq_spin l | Acq_set l | Rel_clear l | Rel_free l => Some l
  | _ => None
  end.

(** Nesting that an operation in progress adds. *)
Definition pc_depth (p : pc) : Z :=
  match p with
  | Run | Panicked _ => 0
  | _ => 1
  end.

Record cpu_ok (c : cpu) : Prop := {
  ok_nodup : NoDup (c_cs c);
  ok_pc : forall l, pc_lock (c_pc c) = Some l -> l ∉ c_cs c;
  ok_sie : 0 < c_noff c -> c_sie c = false;
  ok_noff : (exists msg, c_pc c = Panicked msg) \/
            c_noff c = Z.of_nat (length (c_cs c)) + pc_depth (c_pc c);
  ok_nonneg : 0 <= c_noff c
}.

Record inv (s : smp) : Prop := {
  inv_cpu : forall i, cpu_ok (cpus s i);
  inv_excl : forall i j l, owns (cpus s i) l -> owns (cpus s j) l -> i = j;
  inv_locked : forall i l, owns (cpus s i) l -> lk_locked (locks s l) = 1;
  inv_named : forall i l, lk_cpu (locks s l) = Some i <-> named (cpus s i) l
}.

Lemma updf_eq {A B} `{EqDecision A} (f : A -> B) a b : updf f a b a = b.
Proof. unfold updf. by rewrite decide_True. Qed.
Lemma updf_ne {A B} `{EqDecision A} (f : A -> B) a b x : x <> a -> updf f a b x = f x.
Proof. intros. unfold updf. by rewrite decide_False. Qed.
Lemma updf_same {A B} `{EqDecision A} (f : A -> B) a x : updf f a (f a) x = f x.
Proof. unfold updf. by case_decide; subst. Qed.

(** A step of CPU [i] on lock [l]. *)
Lemma inv_upd i c l k s :
  inv s -> cpu_ok c ->
  (forall l', l' <> l -> owns c l' <-> owns (cpus s i) l') ->
  (forall l', l' <> l -> named c l' <-> named (cpus s i) l') ->
  (owns c l -> lk_locked k = 1 /\ forall j, owns (cpus s j) l -> j = i) ->
  (forall j, j <> i -> owns (cpus s j) l -> lk_locked k = 1) ->
  (lk_cpu k = Some i <-> named c l) ->
  (forall j, j <> i -> lk_cpu k = Some j <-> named (cpus s j) l) ->
  inv (set_cpu i c (set_lock l k s)).
Proof.
  intros [Hc He Hl Hn] Hok Ho Hm H1 H2 H3 H4. split; simpl.
  - intros j. destruct (decide (j = i)) as [->|]; [by rewrite updf_eq|by rewrite updf_ne].
  - intros a b l'. destruct (decide (a = i)) as [->|Ha], (decide (b = i)) as [->|Hb];
      rewrite ?updf_eq, ?(updf_ne _ _ _ a), ?(updf_ne _ _ _ b) by done; [done| | |by apply He];
      destruct (decide (l' = l)) as [->|Hl']; try (rewrite Ho by done; by apply He).
    + intros X Y. symmetry. by apply H1.
    + intros X Y. by apply H1.
  - intros a l'. destruct (decide (a = i)) as [->|Ha], (decide (l' = l)) as [->|Hl'];
      rewrite ?updf_eq, ?(updf_ne _ _ _ a), ?(updf_ne _ _ _ l') by done.
    + intros X. by apply H1.
    + rewrite Ho by done. apply Hl.
    + by apply H2.
    + apply Hl.
  - intros a l'. destruct (decide (a = i)) as [->|Ha], (decide (l' = l)) as [->|Hl'];
      rewrite ?updf_eq, ?(updf_ne _ _ _ a), ?(updf_ne _ _ _ l') by done; auto.
    rewrite Hm by done. apply Hn.
Qed.

(** A step that touches only the CPU's own data. *)
Lemma inv_local i c s :
  inv s -> cpu_ok c ->
  (forall l, owns c l <-> owns (cpus s i) l) -> (forall l, named c l <-> named (cpus s i) l) ->
  inv (set_cpu i c s).
Proof.
  intros Hi Hok Ho Hm. pose proof Hi as [Hc He Hl Hn].
  destruct (inv_upd i c Lkmem (locks s Lkmem) s) as [A B C D]; auto.
  - intros X. split; [by apply (Hl i), Ho|]. intros j Y. apply (He j i Lkmem Y), Ho, X.
  - intros j _ X. by apply (Hl j).
  - rewrite Hm. apply Hn.
  - split; auto.
    + intros j l X. specialize (C j l X). simpl in C. by rewrite updf_same in C.
    + intros j l. specialize (D j l). simpl in D. by rewrite updf_same in D.
Qed.

Lemma holds_exact i l s :
  inv s -> (named (cpus s i) l -> l ∈ c_cs (cpus s i)) ->
  holds i (locks s l) = bool_decide (l ∈ c_cs (cpus s i)).
Proof.
  intros Hi Hp. unfold holds. pose proof (inv_named s Hi i l) as Hn.
  destruct (bool_decide_reflect (l ∈ c_cs (cpus s i))) as [H|H].
  - rewrite (inv_locked s Hi i l) by (by left).
    rewrite bool_decide_eq_true_2 by (apply Hn; by left). done.
  - rewrite bool_decide_eq_false_2 by tauto. by rewrite andb_false_r.
Qed.

(** The states of the program counter one step apart. *)
Ltac smp_solve :=
  unfold owns, named in *; simpl in *;
  repeat match goal with
  | H : c_pc _ = _ |- _ => rewrite H in *; clear H
  end; rewrite ?elem_of_cons; naive_solver.

Lemma cpu_ok_push c l : cpu_ok c -> c_pc c = Run -> cpu_ok (set_pc (Acq_check l) (push_off c)).
Proof.
  intros [H1 H2 H3 H4 H5] Hp. rewrite Hp in *. split; simpl; try done.
  - right. destruct H4 as [[? ?]|H4]; [done|]. simpl in *. lia.
  - lia.
Qed.

Lemma cpu_ok_pc c p :
  cpu_ok c -> (forall msg, c_pc c <> Panicked msg) -> pc_depth p = pc_depth (c_pc c) ->
  (forall l, pc_lock p = Some l -> l ∉ c_cs c) -> cpu_ok (set_pc p c).
Proof.
  intros [H1 H2 H3 H4 H5] Hp Hd Hl. split; simpl; try done.
  right. rewrite Hd. destruct H4 as [[m Hm]|H4]; [by destruct (Hp m)|done].
Qed.

Lemma cpu_ok_panic c msg : cpu_ok c -> cpu_ok (set_pc (Panicked msg) c).
Proof. intros [H1 H2 H3 H4 H5]. split; simpl; try done. left. by exists msg. Qed.

Lemma step_run i o s : inv s -> op_ok i o s -> c_pc (cpus s i) = Run -> inv (step i o s).
Proof.
  intros Hi Ho Hp. unfold step. rewrite Hp. pose proof (inv_cpu s Hi i) as Hc.
  destruct o as [l|l| |].
  - apply inv_local; [done|by apply cpu_ok_push| |]; intros l'; smp_solve.
  - rewrite holds_exact by (done || smp_solve).
    destruct (bool_decide_reflect (l ∈ c_cs (cpus s i))) as [Hl|Hl].
    + destruct Hc as [H1 H2 H3 H4 H5]. apply inv_local; [done| | |].
      * rewrite Hp in *. split; simpl; [by apply NoDup_rem1| |done| |done].
        -- intros l' [= <-]. rewrite elem_of_rem1 by done. tauto.
        -- right. destruct H4 as [[? ?]|H4]; [done|]. simpl in *. rewrite (length_rem1 l) in H4 by done. lia.
      * intros l'. unfold owns. simpl. rewrite elem_of_rem1, Hp by done. destruct (decide (l' = l)); naive_solver.
      * intros l'. unfold named. simpl. rewrite elem_of_rem1, Hp by done. destruct (decide (l' = l)); naive_solver.
    + apply inv_local; [done|by apply cpu_ok_panic| |]; intros l'; smp_solve.
  - apply inv_local; [done| | |]; try (intros l'; smp_solve).
    destruct Hc as [H1 H2 H3 H4 H5]. by split.
  - apply inv_local; [done| | |]; try (intros l'; smp_solve).
    destruct Hc as [H1 H2 H3 H4 H5]. split; simpl; try done. rewrite Ho by done. lia.
Qed.

Lemma step_acquire i o s :
  inv s -> pc_depth (c_pc (cpus s i)) = 1 ->
  (forall l, c_pc (cpus s i) <> Rel_clear l /\ c_pc (cpus s i) <> Rel_free l) ->
  c_pc (cpus s i) <> Rel_pop -> inv (step i o s).
Proof.
  intros Hi Hd Hr Hr'. unfold step. pose proof (inv_cpu s Hi i) as Hc. pose proof Hi as [_ He Hl Hn].
  destruct (c_pc (cpus s i)) as [|l|l|l|l|l| |] eqn:Hp; try done;
    try (by destruct (Hr l) as [? ?]).
  - rewrite holds_exact by (done || smp_solve).
    destruct (bool_decide_reflect (l ∈ c_cs (cpus s i))) as [Hin|Hin].
    + apply inv_local; [done|by apply cpu_ok_panic| |]; intros l'; smp_solve.
    + apply inv_local; [done| | |]; try (intros l'; smp_solve).
      apply cpu_ok_pc; rewrite ?Hp; try done. by intros l' [= <-].
  - pose proof (ok_pc _ Hc l) as Hpc. rewrite Hp in Hpc. specialize (Hpc eq_refl). destruct (nz _) eqn:E.
    + split; simpl; [apply Hi|apply He| |].
      * intros j l' Ho. destruct (decide (l' = l)) as [->|];
          [by rewrite updf_eq|rewrite updf_ne by done; by apply (Hl j)].
      * intros j l'. destruct (decide (l' = l)) as [->|];
          [rewrite updf_eq; apply Hn|rewrite updf_ne by done; apply Hn].
    + assert (forall j, ~ owns (cpus s j) l) as Hno.
      { intros j Hj. rewrite (Hl j l Hj) in E. done. }
      apply inv_upd; [done|..]; simpl.
      * apply cpu_ok_pc; rewrite ?Hp; try done. by intros l' [= <-].
      * intros l' ?. smp_solve.
      * intros l' ?. smp_solve.
      * intros _. split; [done|]. intros j Hj. by destruct (Hno j).
      * by intros j _ Hj.
      * rewrite Hn. smp_solve.
      * intros j _. apply Hn.
  - pose proof (ok_pc _ Hc l) as Hpc. rewrite Hp in Hpc. specialize (Hpc eq_refl).
    assert (owns (cpus s i) l) as Hown by smp_solve.
    apply inv_upd; [done|..]; simpl.
    + destruct Hc as [H1 H2 H3 H4 H5]. rewrite Hp in *. split; simpl; try done; [by constructor|].
      right. destruct H4 as [[? ?]|H4]; [done|]. simpl in *. lia.
    + intros l' ?. smp_solve.
    + intros l' ?. smp_solve.
    + intros _. split; [by apply (Hl i)|]. intros j Hj. by apply (He j i l).
    + intros j _ Hj. by apply (Hl j).
    + smp_solve.
    + intros j Hj. split; [naive_solver|]. intros Hm. destruct Hj. apply (He j i l); [|done]. smp_solve.
Qed.

Lemma step_release i o s :
  inv s -> (exists l, c_pc (cpus s i) = Rel_clear l \/ c_pc (cpus s i) = Rel_free l) ->
  inv (step i o s).
Proof.
  intros Hi Hr. unfold step. pose proof (inv_cpu s Hi i) as Hc. pose proof Hi as [_ He Hl Hn].
  destruct Hr as [l Hr]. pose proof (ok_pc _ Hc l) as Hpc.
  assert (owns (cpus s i) l) as Hown by smp_solve.
  assert (forall j, j <> i -> ~ owns (cpus s j) l) as Hno.
  { intros j Hj Ho. apply Hj. by apply (He j i l). }
  destruct Hr as [Hp|Hp]; rewrite Hp in Hpc; specialize (Hpc eq_refl); rewrite Hp;
    (apply inv_upd; [done|..]; simpl;
     [apply cpu_ok_pc; rewrite ?Hp; try done; by intros l' [= <-]
     |intros l' ?; smp_solve|intros l' ?; smp_solve
     | |intros j Hj Ho; by destruct (Hno j Hj)| |]).
  - intros _. split; [by apply (Hl i)|]. intros j Hj. by apply (He j i l).
  - split; [done|]. smp_solve.
  - intros j Hj. split; [done|]. intros Hm. destruct (Hno j Hj). smp_solve.
  - smp_solve.
  - rewrite Hn. smp_solve.
  - intros j _. apply Hn.
Qed.

Lemma step_pop i o s : inv s -> c_pc (cpus s i) = Rel_pop -> inv (step i o s).
Proof.
  intros Hi Hp. unfold step. rewrite Hp. pose proof (inv_cpu s Hi i) as [H1 H2 H3 H4 H5].
  rewrite Hp in *. destruct H4 as [[? ?]|H4]; [done|]. simpl in H4.
  unfold pop_off. rewrite H3, (proj2 (Z.ltb_ge _ _)) by lia. simpl. rewrite Hp.
  apply inv_local; [done| | |]; try (intros l'; smp_solve).
  split; simpl; try done; [|right; lia|lia].
  intros Hn. by rewrite (proj2 (Z.eqb_neq _ _)) by lia.
Qed.

Lemma step_inv i o s : inv s -> op_ok i o s -> inv (step i o s).
Proof.
  intros Hi Ho. destruct (c_pc (cpus s i)) eqn:Hp.
  1: by apply step_run.
  1-3: by apply step_acquire; rewrite ?Hp.
  1-2: apply step_release; eauto.
  - by apply step_pop.
  - unfold step. by rewrite Hp.
Qed.

Lemma smp0_owns sie i l : ~ owns (cpus (smp0 sie) i) l.
Proof. intros [H|[H|[H|H]]]; simpl in H; [by apply not_elem_of_nil in H|done..]. Qed.

Lemma smp0_inv sie : inv (smp0 sie).
Proof.
  split.
  - intros i. split; simpl; try done; [constructor|by right].
  - intros i j l H. by apply smp0_owns in H.
  - intros i l H. by apply smp0_owns in H.
  - intros i l. split; [done|]. intros H. destruct (smp0_owns sie i l). unfold owns. destruct H; auto.
Qed.

Lemma run_inv sched s : inv s -> sched_ok sched s -> inv (run sched s).
Proof.
  revert s. induction sched as [|[i o] sched IH]; intros s Hi Hs; [done|].
  destruct Hs as [Ho Hs]. simpl. apply IH; [by apply step_inv|done].
Qed.

(** C3: spinlocks on all CPUs, for every interleaving of their steps: a lock is
    never in the critical section of two CPUs; a CPU that is in a critical
    section has its interrupts off, and its nesting count is the number of
    locks it holds; and [holding] answers exactly whether this CPU has
    acquired and not released the lock, in spite of the other CPUs'
    concurrent stores, so [acquire] and [release] panic only when
    misused. *)
Theorem smp_mutual_exclusion sie sched :
  sched_ok sched (smp0 sie) ->
  let s := run sched (smp0 sie) in
  (forall i j l, l ∈ c_cs (cpus s i) -> l ∈ c_cs (cpus s j) -> i = j) /\
  (forall i, c_pc (cpus s i) = Run -> c_noff (cpus s i) = Z.of_nat (length (c_cs (cpus s i)))) /\
  (forall i, c_cs (cpus s i) <> [] -> (forall msg, c_pc (cpus s i) <> Panicked msg) ->
     c_sie (cpus s i) = false) /\
  (forall i l, c_pc (cpus s i) = Run \/ c_pc (cpus s i) = Acq_check l ->
     holds i (locks s l) = bool_decide (l ∈ c_cs (cpus s i))).
Proof.
  intros Hs s. assert (inv s) as Hi by (apply run_inv; [apply smp0_inv|done]).
  split_and!.
  - intros i j l H1 H2. apply (inv_excl s Hi i j l); by left.
  - intros i Hp. destruct (inv_cpu s Hi i) as [_ _ _ [[? H]|H] _]; rewrite Hp in H; [done|].
    simpl in H. lia.
  - intros i Hcs Hp. destruct (inv_cpu s Hi i) as [_ _ H3 [[? H]|H] _]; [by destruct (Hp x)|].
    apply H3. destruct (c_cs (cpus s i)); [done|]. simpl in H.
    assert (0 <= pc_depth (c_pc (cpus s i))) by (by destruct (c_pc (cpus s i))). lia.
  - intros i l Hp. apply holds_exact; [done|]. intros [H|H]; [done|]. destruct Hp; congruence.
Qed.

(** CPU 1 spins while CPU 0 holds the lock and gets it after the release. *)
Definition smp_demo : list (nat * op) :=
  let a := Do_acquire Lkmem in let r := Do_release Lkmem in
  [(0, Do_intr_on); (0, a); (1, a); (0, a); (1, a); (0, a); (1, a); (0, a); (1, a); (0, r);
   (1, a); (0, r); (0, r); (1, a); (0, r); (1, a)]%nat.

Lemma smp_mutual_exclusion_witness :
  sched_ok smp_demo (smp0 (fun _ => true)) /\
  c_cs (cpus (run smp_demo (smp0 (fun _ => true))) 1%nat) = [Lkmem] /\
  c_sie (cpus (run smp_demo (smp0 (fun _ => true))) 0%nat) = true /\
  c_sie (cpus (run smp_demo (smp0 (fun _ => true))) 1%nat) = false.
Proof.
  assert (sched_ok smp_demo (smp0 (fun _ => true))) as H.
  { vm_compute. repeat split; intros; try discriminate; reflexivity. }
  split; [exact H|]. split; [vm_compute; reflexivity|]. split; [vm_compute; reflexivity|].
  destruct (smp_mutual_exclusion (fun _ => true) smp_demo H) as (_ & _ & Hs & _).
  refine (Hs 1%nat _ _).
  - vm_compute. discriminate.
  - intros msg. vm_compute. discriminate.
Defined.
End SMP.
