(* ===== verification/Kalloc.v ===== *)
(** * Physical page allocator ([kernel/kalloc.c])

    The free list threads through the free pages themselves: [kmem_inv s ps]
    says that memory and [kmem.freelist] represent the stack [ps] of free
    pages. [kalloc] and [kfree] implement pop and push of that stack, and
    [kinit] builds it from all of RAM after the kernel. *)

From S2P Require Import Prelude Machine KState Spinlock.
Local Open Scope Z_scope.
Local Open Scope kern_scope.

Section Kalloc.
Context `{KernelImage}.

Definition kfree (pa : Z) : K unit :=
  if nz (pa mod PGSIZE) || (pa <? end_) || (PHYSTOP <=? pa) then panic "kfree"
  else
    kmemset pa 1 PGSIZE ;;;
    acquire Lkmem ;;;
    fl <- gets k_freelist ;;
    kstore64 pa fl ;;;
    modify (set_k_freelist pa) ;;;
    release Lkmem.

Definition kalloc : K Z :=
  acquire Lkmem ;;;
  r <- gets k_freelist ;;
  when (nz r) (n <- kload64 r ;; modify (set_k_freelist n)) ;;;
  release Lkmem ;;;
  when (nz r) (kmemset r 5 PGSIZE) ;;;
  ret r.

Definition freerange (pa_start pa_end : Z) : K unit :=
  loop (S (Z.to_nat (pa_end / PGSIZE)))
    (fun p =>
       if p + PGSIZE <=? pa_end then kfree p ;;; ret (inl (p + PGSIZE))
       else ret (inr tt))
    (PGROUNDUP pa_start).

Definition kinit : K unit := initlock Lkmem ;;; freerange end_ PHYSTOP.

(* ---------------------------------------------------------------- *)
(** ** The free list *)

(** A page the allocator may hand out. *)
Definition kpage (p : Z) : Prop := aligned p /\ end_ <= p /\ p + PGSIZE <= PHYSTOP.

(** [fl] heads the list of free pages [ps], linked through their first
    words. *)
Fixpoint chain (m : mem) (fl : Z) (ps : list Z) : Prop :=
  match ps with
  | [] => fl = 0
  | p :: ps => fl = p /\ chain m (load64 m p) ps
  end.

Definition kmem_inv (s : kst) (ps : list Z) : Prop :=
  chain (k_mem s) (k_freelist s) ps /\ Forall kpage ps /\ NoDup ps.

Context `{!ImageOk}.

Lemma kpage_bounds p : kpage p -> aligned p /\ KERNBASE < p /\ p + PGSIZE <= PHYSTOP.
Proof. unfold kpage. pose proof end_range. intros (?&?&?). repeat split; [done|lia..]. Qed.

Lemma kpage_nz p : kpage p -> nz p = true.
Proof. intros Hp%kpage_bounds. apply nz_true. lia. Qed.

(** Pages do not overlap. *)
Lemma kpage_disj p q : kpage p -> kpage q -> p <> q -> p + PGSIZE <= q \/ q + PGSIZE <= p.
Proof. intros [? _] [? _]. by apply page_disj. Qed.

Lemma chain_ext m m' fl ps :
  (forall p x, p ∈ ps -> p <= x < p + PGSIZE -> m x = m' x) ->
  chain m fl ps -> chain m' fl ps.
Proof.
  revert fl. induction ps as [|p ps IH]; intros fl Hm; simpl; [done|].
  intros [-> Hc]. split; [done|].
  rewrite <- (load_ext 8 m m') by (intros; apply (Hm p); [constructor|lia]).
  apply IH; [|done]. intros q x Hq. apply Hm. by constructor.
Qed.

(** The free list survives any change of memory outside the free pages. *)
Lemma kmem_inv_mem s ps m :
  kmem_inv s ps ->
  (forall p x, p ∈ ps -> p <= x < p + PGSIZE -> k_mem s x = m x) ->
  kmem_inv (set_k_mem m s) ps.
Proof. intros (Hc & Hp & Hnd) Hm. repeat split; [|done..]. by eapply chain_ext. Qed.

Lemma kfree_eq pa s :
  kpage pa -> Lkmem ∉ k_held s ->
  kfree pa s = Done tt (set_k_freelist pa
    (set_k_mem (store64 (mset (k_mem s) pa 1 PGSIZE) pa (k_freelist s)) s)).
Proof.
  intros (Hal & Hlo & Hhi) Hl. unfold kfree. unfold aligned in Hal.
  rewrite Hal, (proj2 (Z.ltb_ge pa end_)), (proj2 (Z.leb_gt PHYSTOP pa)) by lia.
  cbn [nz negb Z.eqb orb].
  unfold kmemset, kstore64. rewrite bind_modify, bind_acquire by lock_tac.
  rewrite bind_gets, !bind_modify. erewrite release_head by done.
  by destruct s.
Qed.

Lemma kalloc_empty s :
  k_freelist s = 0 -> Lkmem ∉ k_held s -> kalloc s = Done 0 s.
Proof.
  intros Hf Hl. unfold kalloc. rewrite bind_acquire by done. rewrite bind_gets.
  ksimp. rewrite Hf. simpl when. rewrite bind_ret. erewrite bind_release by done.
  rewrite bind_ret. by destruct s.
Qed.

Lemma kalloc_eq s p :
  k_freelist s = p -> p <> 0 -> Lkmem ∉ k_held s ->
  kalloc s = Done p (set_k_freelist (load64 (k_mem s) p)
    (set_k_mem (mset (k_mem s) p 5 PGSIZE) s)).
Proof.
  intros Hf Hp Hl. unfold kalloc. rewrite bind_acquire by done. rewrite bind_gets.
  ksimp. rewrite Hf, (proj2 (nz_true p)) by done. simpl when.
  rewrite (bind_done _ _ _ tt (set_k_freelist (load64 (k_mem s) p)
    (set_k_held (Lkmem :: k_held s) s))) by (by destruct s).
  erewrite bind_release by done. by destruct s.
Qed.

(** Popping and pushing the free list. *)
Lemma kmem_inv_pop s p ps :
  kmem_inv s (p :: ps) ->
  k_freelist s = p /\ kpage p /\ (p ∉ ps) /\
  kmem_inv (set_k_freelist (load64 (k_mem s) p)
    (set_k_mem (mset (k_mem s) p 5 PGSIZE) s)) ps.
Proof.
  intros ([-> Hc] & [Hp Hps]%Forall_cons & [Hnp Hnd]%NoDup_cons).
  split_and!; [done..|]. split_and!; [|done..]. ksimp. eapply chain_ext; [|done].
  intros q x Hq Hx. rewrite mset_out; [done|]. rewrite Forall_forall in Hps.
  assert (p <> q) by (by intros <-).
  destruct (kpage_disj p q); auto; lia.
Qed.

Lemma kmem_inv_push s p ps :
  kmem_inv s ps -> kpage p -> p ∉ ps ->
  kmem_inv (set_k_freelist p
    (set_k_mem (store64 (mset (k_mem s) p 1 PGSIZE) p (k_freelist s)) s)) (p :: ps).
Proof.
  intros (Hc & Hps & Hnd) Hp Hnp. split_and!; ksimp.
  - split; [done|]. rewrite load_store. rewrite Z.mod_small.
    + eapply chain_ext; [|done]. intros q x Hq Hx. rewrite Forall_forall in Hps.
      assert (p <> q) by (by intros <-).
      destruct (kpage_disj p q); auto; rewrite store_out, mset_out by lia; done.
    + destruct ps as [|q ps]; simpl in Hc; [lia|]. destruct Hc as [-> _].
      apply Forall_cons in Hps as [Hq%kpage_bounds _]. lia.
  - by constructor.
  - by constructor.
Qed.

Lemma kalloc_none s : kmem_inv s [] -> Lkmem ∉ k_held s -> kalloc s = Done 0 s.
Proof. intros (Hc & _) Hl. by apply kalloc_empty. Qed.

Lemma kalloc_some s p ps :
  kmem_inv s (p :: ps) -> Lkmem ∉ k_held s ->
  kalloc s = Done p (set_k_freelist (load64 (k_mem s) p)
    (set_k_mem (mset (k_mem s) p 5 PGSIZE) s)).
Proof.
  intros (Hf & Hp & _)%kmem_inv_pop Hl. apply kalloc_eq; [done| |done].
  apply nz_true. by apply kpage_nz.
Qed.

(** The loop of [freerange] pushes every whole page up to [pa_end]. *)
Lemma freerange_loop n fuel p s ps :
  (n < fuel)%nat -> aligned p -> end_ <= p -> p + Z.of_nat n * PGSIZE <= PHYSTOP ->
  PHYSTOP < p + Z.of_nat n * PGSIZE + PGSIZE ->
  kmem_inv s ps -> Lkmem ∉ k_held s -> Forall (fun q => q < p) ps ->
  runs (loop fuel (fun p =>
         if p + PGSIZE <=? PHYSTOP then kfree p ;;; ret (inl (p + PGSIZE))
         else ret (inr tt)) p) s
    (fun _ s' => exists qs, kmem_inv s' qs /\
       forall q, q ∈ qs <-> q ∈ ps \/ (kpage q /\ p <= q)).
Proof.
  revert fuel p s ps. induction n as [|n IH]; intros [|fuel] p s ps Hf Hal Hlo Hhi Hend Hi Hl Hps;
    try lia; cbn [loop]; apply runs_bind.
  - rewrite (proj2 (Z.leb_gt _ _)) by lia. exists ps. split; [done|].
    intros q. split; [by left|]. intros [|[(_&_&?) ?]]; [done|lia].
  - rewrite (proj2 (Z.leb_le _ _)) by lia.
    assert (kpage p) as Hp by (unfold kpage; split_and!; [done|lia..]).
    apply runs_bind. eapply runs_done; [by apply kfree_eq|].
    apply runs_ret.
    eapply runs_mono; [eapply (IH fuel (p + PGSIZE)); ksimp|].
    + lia.
    + unfold aligned in *. rewrite Z.add_mod, Hal by lia. done.
    + lia.
    + lia.
    + lia.
    + apply kmem_inv_push; [done..|]. intros Hin. rewrite Forall_forall in Hps.
      apply Hps in Hin. lia.
    + done.
    + constructor; [lia|]. eapply Forall_impl; [done|]. simpl. lia.
    + intros _ s' (qs & Hqs & Hin). exists qs. split; [done|]. intros q.
      rewrite Hin, elem_of_cons. split.
      * intros [[->|?]|[??]]; [right|left|right]; auto; split; auto; lia.
      * intros [?|[Hq ?]]; [by left; right|]. destruct (decide (q = p)); [by left; left|].
        right. split; [done|]. destruct (kpage_disj p q); auto; lia.
Qed.

(** C23: the allocator implements a stack of free pages. When the stack is
    empty [kalloc] returns 0 and changes nothing; otherwise it returns the
    top page, filled with 5s, removes it from the free list and changes no
    other byte. [kfree] of a page that is not free pushes it and changes
    no byte outside the page. *)
Theorem kmem_refines_stack s ps :
  kmem_inv s ps -> Lkmem ∉ k_held s ->
  match ps with
  | [] => kalloc s = Done 0 s
  | p :: ps' =>
      runs kalloc s (fun r s' =>
        r = p /\ kpage p /\ (p ∉ ps') /\ kmem_inv s' ps' /\
        (forall x, p <= x < p + PGSIZE -> k_mem s' x = 5) /\
        (forall x, x < p \/ p + PGSIZE <= x -> k_mem s' x = k_mem s x) /\
        k_held s' = k_held s)
  end /\
  forall p, kpage p -> p ∉ ps ->
    runs (kfree p) s (fun _ s' =>
      kmem_inv s' (p :: ps) /\
      (forall x, x < p \/ p + PGSIZE <= x -> k_mem s' x = k_mem s x) /\
      k_held s' = k_held s).
Proof.
  intros Hi Hl. split.
  - destruct ps as [|p ps]; [by apply kalloc_none|].
    eapply runs_done; [by eapply kalloc_some|].
    apply kmem_inv_pop in Hi as (Hf & Hp & Hn & Hi).
    split_and!; try done; ksimp; intros x Hx.
    + by rewrite mset_in.
    + by rewrite mset_out.
  - intros p Hp Hn. eapply runs_done; [by apply kfree_eq|].
    split_and!; [by apply kmem_inv_push| |done].
    intros x Hx. ksimp. rewrite store_out, mset_out by lia. done.
Qed.

(** [kinit], run on an empty free list, puts every whole page between
    the end of the kernel and [PHYSTOP] on the free list, once, and nothing
    else. *)
Theorem kinit_frees_all s :
  k_freelist s = 0 -> Lkmem ∉ k_held s ->
  runs kinit s (fun _ s' =>
    exists ps, kmem_inv s' ps /\ (forall p, p ∈ ps <-> kpage p)).
Proof.
  intros Hf Hl. unfold kinit. apply runs_bind. eapply runs_done; [done|].
  rewrite (rem1_not_in _ _ Hl), set_k_held_id.
  unfold freerange. pose proof end_range as He.
  assert (PGROUNDUP end_ = (end_ + 4095) / 4096 * 4096) as Hr
    by (apply PGROUNDUP_eq; lia).
  assert (end_ <= PGROUNDUP end_ < end_ + PGSIZE) as Hb
    by (rewrite Hr; Z.div_mod_to_equations; lia).
  eapply runs_mono.
  - eapply (freerange_loop (Z.to_nat ((PHYSTOP - PGROUNDUP end_) / PGSIZE)) _ _ s []).
    + Z.div_mod_to_equations. lia.
    + rewrite Hr. unfold aligned. by rewrite Z.mod_mul.
    + lia.
    + Z.div_mod_to_equations. lia.
    + Z.div_mod_to_equations. lia.
    + repeat split; [done|constructor..].
    + done.
    + constructor.
  - intros _ s' (qs & Hi & Hq). exists qs. split; [done|]. intros p.
    rewrite Hq, elem_of_nil. split; [by intros [?|[? _]]|].
    intros Hp. right. split; [done|]. rewrite Hr. destruct Hp as (Ha & ? & _).
    unfold aligned in Ha. Z.div_mod_to_equations. lia.
Qed.
End Kalloc.

(** A state with two free pages. *)
Definition kalloc_demo : kst :=
  set_k_freelist 0x87ffe000
    (kst0 (store64 (store64 (fun _ => 0) 0x87ffe000 0x87fff000) 0x87fff000 0) []).

Lemma kalloc_demo_inv : @kmem_inv demo_image kalloc_demo [0x87ffe000; 0x87fff000].
Proof.
  split_and!.
  - by vm_compute.
  - repeat constructor; cbn; lia.
  - apply (bool_decide_unpack _). by vm_compute.
Qed.

Lemma kmem_refines_stack_witness :
  runs kalloc kalloc_demo (fun r s' =>
    r = 0x87ffe000 /\ @kmem_inv demo_image s' [0x87fff000]) /\
  runs (@kfree demo_image 0x87ff0000) kalloc_demo (fun _ s' =>
    @kmem_inv demo_image s' [0x87ff0000; 0x87ffe000; 0x87fff000]).
Proof.
  destruct (@kmem_refines_stack demo_image demo_image_ok kalloc_demo
    [0x87ffe000; 0x87fff000] kalloc_demo_inv) as [Ha Hf].
  - apply not_elem_of_nil.
  - split.
    + eapply runs_mono; [exact Ha|]. intros r s' (Hr & _ & _ & Hi & _). by split.
    + eapply runs_mono; [apply (Hf 0x87ff0000)|].
      * repeat constructor; cbn; lia.
      * apply (bool_decide_unpack _). by vm_compute.
      * intros _ s' [Hi _]. exact Hi.
Defined.

Lemma kinit_frees_all_witness :
  runs (@kinit demo_image) (kst0 (fun _ => 0) []) (fun _ s' =>
    exists ps, @kmem_inv demo_image s' ps /\ 0x80022000 ∈ ps).
Proof.
  eapply runs_mono.
  - apply (@kinit_frees_all demo_image demo_image_ok); [done|apply not_elem_of_nil].
  - intros _ s' (ps & Hi & Hp). exists ps. split; [exact Hi|]. apply Hp.
    repeat constructor; cbn; lia.
Defined.
