(* ===== verification/Swap.v ===== *)
(** * Swap area ([kernel/swap.c], [kernel/swap.h]) *)

From S2P Require Import Prelude Machine KState Spinlock.
Local Open Scope Z_scope.
Local Open Scope kern_scope.

Definition getslot (i : nat) : K swap_slot := gets (fun s => k_swap s !!! i).
Definition updslot (i : nat) (f : swap_slot -> swap_slot) : K unit :=
  modify (fun s => set_k_swap (alter f i (k_swap s)) s).

Definition swap_init : K unit :=
  initlock Lswap_lock ;;;
  for_each (seq 0 MAX_SWAP_SLOTS) (fun i =>
    updslot i (fun e => set_ss_va 0 (set_ss_pid (-1) (set_ss_used 0 e)))).

Definition swap_out (page pid va : Z) : K Z :=
  acquire Lswap_lock ;;;
  o <- for_find (seq 0 MAX_SWAP_SLOTS) (fun i =>
         e <- getslot i ;;
         if negb (nz (ss_used e)) then
           d <- kread page PGSIZE ;;
           updslot i (fun e => set_ss_data d (set_ss_va va (set_ss_pid pid (set_ss_used 1 e)))) ;;;
           release Lswap_lock ;;;
           ret (Some (Z.of_nat i))
         else ret None) ;;
  match o with
  | Some i => ret i
  | None => release Lswap_lock ;;; ret (-1)
  end.

Definition swap_in (slot buf : Z) : K Z :=
  if (slot <? 0) || (Z.of_nat MAX_SWAP_SLOTS <=? slot) then ret (-1)
  else
    acquire Lswap_lock ;;;
    e <- getslot (Z.to_nat slot) ;;
    if negb (nz (ss_used e)) then release Lswap_lock ;;; ret (-1)
    else
      kwrite buf (ss_data e) ;;;
      release Lswap_lock ;;;
      ret 0.

Definition swap_free (slot : Z) : K unit :=
  if (slot <? 0) || (Z.of_nat MAX_SWAP_SLOTS <=? slot) then ret tt
  else
    acquire Lswap_lock ;;;
    updslot (Z.to_nat slot) (fun e => set_ss_va 0 (set_ss_pid (-1) (set_ss_used 0 e))) ;;;
    release Lswap_lock.

(* ------------------------------------------------------------------ *)
(** ** Behaviour *)

Definition slot_free (e : swap_slot) : bool := negb (nz (ss_used e)).
Definition swap_wf (s : kst) : Prop := length (k_swap s) = MAX_SWAP_SLOTS.

(** The slot [swap_out] fills. *)
Definition filled_slot (d : list Z) (pid va : Z) (e : swap_slot) : swap_slot :=
  set_ss_data d (set_ss_va va (set_ss_pid pid (set_ss_used 1 e))).
Definition cleared_slot (e : swap_slot) : swap_slot :=
  set_ss_va 0 (set_ss_pid (-1) (set_ss_used 0 e)).

Lemma swap_out_some page pid va s i :
  index_of slot_free (k_swap s) = Some i -> swap_wf s -> Lswap_lock ∉ k_held s ->
  swap_out page pid va s = Done (Z.of_nat i)
    (set_k_swap (alter (filled_slot (mread (k_mem s) page PGSIZE) pid va) i (k_swap s)) s).
Proof.
  intros Hi Hwf Hl. unfold swap_out. rewrite bind_acquire by done.
  pose proof (index_of_lt _ _ _ Hi) as Hlt. rewrite Hwf in Hlt.
  apply index_of_Some in Hi as [(e & He & Hu) Hbefore].
  erewrite bind_done; cycle 1.
  { apply (for_find_seq_some _ i); [done| |].
    - intros j Hj. unfold getslot. rewrite bind_gets. ksimp.
      destruct (lookup_lt_is_Some_2 (k_swap s) j) as [e' He']; [rewrite Hwf; lia|].
      rewrite list_lookup_total_alt, He'. simpl.
      specialize (Hbefore j e' Hj He'). unfold slot_free in Hbefore. by rewrite Hbefore.
    - unfold getslot. rewrite bind_gets. ksimp.
      rewrite list_lookup_total_alt, He. simpl. unfold slot_free in Hu. rewrite Hu.
      unfold kread, updslot. rewrite bind_gets, bind_modify.
      erewrite bind_release by done. done. }
  by destruct s.
Qed.

Lemma swap_out_full page pid va s :
  index_of slot_free (k_swap s) = None -> swap_wf s -> Lswap_lock ∉ k_held s ->
  swap_out page pid va s = Done (-1) s.
Proof.
  intros Hi Hwf Hl. unfold swap_out. rewrite bind_acquire by done.
  apply index_of_None in Hi.
  erewrite bind_done; cycle 1.
  { apply for_find_seq_none. intros j Hj. unfold getslot. rewrite bind_gets. ksimp.
    destruct (lookup_lt_is_Some_2 (k_swap s) j) as [e' He']; [rewrite Hwf; lia|].
    rewrite list_lookup_total_alt, He'. simpl. rewrite Forall_lookup in Hi.
    specialize (Hi _ _ He'). unfold slot_free in Hi. by rewrite Hi. }
  cbv beta iota. erewrite bind_release by done. by destruct s.
Qed.

Lemma swap_in_used slot buf s :
  0 <= slot < Z.of_nat MAX_SWAP_SLOTS -> ss_used (k_swap s !!! Z.to_nat slot) <> 0 ->
  Lswap_lock ∉ k_held s ->
  swap_in slot buf s =
    Done 0 (set_k_mem (mwrite (k_mem s) buf (ss_data (k_swap s !!! Z.to_nat slot))) s).
Proof.
  intros Hs Hu Hl. unfold swap_in.
  rewrite (proj2 (Z.ltb_ge slot 0)), (proj2 (Z.leb_gt _ slot)) by lia. cbn [orb].
  rewrite bind_acquire by done. unfold getslot, kwrite. rewrite bind_gets. ksimp.
  rewrite (proj2 (nz_true _) Hu). cbn [negb]. rewrite bind_modify.
  erewrite bind_release by done. by destruct s.
Qed.

Lemma swap_in_bad slot buf s :
  slot < 0 \/ Z.of_nat MAX_SWAP_SLOTS <= slot \/ ss_used (k_swap s !!! Z.to_nat slot) = 0 ->
  Lswap_lock ∉ k_held s -> swap_in slot buf s = Done (-1) s.
Proof.
  intros Hs Hl. unfold swap_in. destruct (_ || _) eqn:E; [done|].
  rewrite bind_acquire by done. unfold getslot. rewrite bind_gets. ksimp.
  apply orb_false_iff in E as [E1%Z.ltb_ge E2%Z.leb_gt].
  destruct Hs as [?|[?|Hs]]; [lia..|]. rewrite (proj2 (nz_false _) Hs). cbn [negb].
  erewrite bind_release by done. by destruct s.
Qed.

Lemma swap_free_eq slot s :
  0 <= slot < Z.of_nat MAX_SWAP_SLOTS -> Lswap_lock ∉ k_held s ->
  swap_free slot s =
    Done tt (set_k_swap (alter cleared_slot (Z.to_nat slot) (k_swap s)) s).
Proof.
  intros Hs Hl. unfold swap_free.
  rewrite (proj2 (Z.ltb_ge slot 0)), (proj2 (Z.leb_gt _ slot)) by lia. cbn [orb].
  rewrite bind_acquire by done. unfold updslot. rewrite bind_modify.
  erewrite release_head by done. by destruct s.
Qed.

(** a page written to swap comes back unchanged. If some slot is free,
    [swap_out] takes the first free one and leaves the others alone; from any
    later state in which that slot was not touched, [swap_in] of the returned
    slot writes the page's bytes at [buf], and only there; freeing the slot
    makes it free again. If no slot is free, [swap_out] returns -1 and
    changes nothing. *)
Theorem swap_roundtrip page pid va s :
  swap_wf s -> Lswap_lock ∉ k_held s ->
  match index_of slot_free (k_swap s) with
  | None => swap_out page pid va s = Done (-1) s
  | Some i =>
      runs (swap_out page pid va) s (fun slot s1 =>
        slot = Z.of_nat i /\ k_mem s1 = k_mem s /\
        (forall j, j <> i -> k_swap s1 !! j = k_swap s !! j) /\
        forall s2 buf, k_swap s2 !! i = k_swap s1 !! i -> swap_wf s2 -> Lswap_lock ∉ k_held s2 ->
          runs (swap_in slot buf) s2 (fun r s3 =>
            r = 0 /\
            mread (k_mem s3) buf PGSIZE = mread (k_mem s) page PGSIZE /\
            (forall x, x < buf \/ buf + PGSIZE <= x -> k_mem s3 x = k_mem s2 x) /\
            runs (swap_free slot) s3 (fun _ s4 =>
              slot_free (k_swap s4 !!! i) = true /\
              (forall j, j <> i -> k_swap s4 !! j = k_swap s2 !! j))))
  end.
Proof.
  intros Hwf Hl. destruct (index_of _ _) as [i|] eqn:Hi; [|by apply swap_out_full].
  pose proof (index_of_lt _ _ _ Hi) as Hlt.
  eapply runs_done; [by apply swap_out_some|].
  split_and!; [done..| |].
  { intros j Hj. ksimp. by rewrite list_lookup_alter_ne. }
  intros s2 buf Hsame Hwf2 Hl2. ksimp in Hsame.
  rewrite list_lookup_alter_eq in Hsame.
  destruct (k_swap s !! i) as [e|] eqn:He; [|apply lookup_ge_None in He; lia].
  simpl in Hsame.
  assert (k_swap s2 !!! i = filled_slot (mread (k_mem s) page PGSIZE) pid va e) as Ht
    by (by rewrite list_lookup_total_alt, Hsame).
  eapply runs_done.
  { apply swap_in_used; [rewrite Hwf in Hlt; lia| |done]. rewrite Nat2Z.id, Ht. done. }
  rewrite Nat2Z.id, Ht. ksimp. unfold filled_slot. ksimp.
  split_and!; [done|..].
  - pose proof (mread_mwrite (k_mem s2) buf (mread (k_mem s) page PGSIZE)) as Hrw.
    by rewrite length_mread in Hrw.
  - intros x Hx. rewrite mwrite_out; [done|]. rewrite length_mread. lia.
  - eapply runs_done; [apply swap_free_eq; [rewrite Hwf in Hlt; lia|done]|].
    ksimp. rewrite Nat2Z.id. split.
    + rewrite list_lookup_total_alter_eq; [done|]. rewrite Hwf2. by rewrite Hwf in Hlt.
    + intros j Hj. by rewrite list_lookup_alter_ne.
Qed.

Definition swap_demo : kst := kst0 (fun x => u8 x) [].

Lemma swap_roundtrip_witness :
  runs (swap_out 0x87fff000 3 0x4000) swap_demo (fun slot _ => slot = 0).
Proof.
  assert (index_of slot_free (k_swap swap_demo) = Some 0%nat) as Hi by reflexivity.
  pose proof (swap_roundtrip 0x87fff000 3 0x4000 swap_demo eq_refl (not_elem_of_nil _)) as H.
  rewrite Hi in H. eapply runs_mono; [exact H|]. intros slot s1 [Hs _]. exact Hs.
Defined.
