(* ===== verification/Walk.v ===== *)
(** * Page tables ([kernel/vm.c], first part)

    [walk], [walkaddr], [mappages] and the functions built on them only.
    Page tables live in memory: a table is a page of 512 eight-byte
    entries, and [walk] returns the address of an entry. *)

From S2P Require Import Prelude Machine KState Spinlock Kalloc.
Local Open Scope Z_scope.
Local Open Scope kern_scope.

(** Address of entry [i] of the table at [pt]. *)
Definition pte_addr (pt i : Z) : Z := pt + 8 * i.

(** The loop of [walk] over the levels; [None] is its [return 0]. *)
Fixpoint walk_levels (levels : list Z) (pagetable va : Z) (alloc : bool) : K (option Z) :=
  match levels with
  | [] => ret (Some pagetable)
  | level :: levels =>
      let pte := pte_addr pagetable (PX level va) in
      e <- kload64 pte ;;
      if nz (Z.land e PTE_V) then walk_levels levels (PTE2PA e) va alloc
      else if negb alloc then ret None
      else
        p <- kalloc ;;
        if p =? 0 then ret None
        else
          kmemset p 0 PGSIZE ;;;
          kstore64 pte (Z.lor (PA2PTE p) PTE_V) ;;;
          walk_levels levels p va alloc
  end.

Definition walk (pagetable va : Z) (alloc : bool) : K Z :=
  if MAXVA <=? va then panic "walk"
  else
    o <- walk_levels [2; 1] pagetable va alloc ;;
    match o with
    | None => ret 0
    | Some pt => ret (pte_addr pt (PX 0 va))
    end.

Definition walkaddr (pagetable va : Z) : K Z :=
  if MAXVA <=? va then ret 0
  else
    pte <- walk pagetable va false ;;
    if pte =? 0 then ret 0
    else
      e <- kload64 pte ;;
      if Z.land e PTE_V =? 0 then ret 0
      else if Z.land e PTE_U =? 0 then ret 0
      else ret (PTE2PA e).

(** One iteration of the loop of [mappages]. *)
Definition mappages_step (pagetable perm last : Z) (x : Z * Z) : K (Z * Z + Z) :=
  let '(a, pa) := x in
  pte <- walk pagetable a true ;;
  if pte =? 0 then ret (inr (-1))
  else
    e <- kload64 pte ;;
    if nz (Z.land e PTE_V) then panic "mappages: remap"
    else
      kstore64 pte (Z.lor (Z.lor (PA2PTE pa) perm) PTE_V) ;;;
      if a =? last then ret (inr 0)
      else ret (inl (u64 (a + PGSIZE), u64 (pa + PGSIZE))).

Definition mappages (pagetable va size pa perm : Z) : K Z :=
  if nz (va mod PGSIZE) then panic "mappages: va not aligned"
  else if nz (size mod PGSIZE) then panic "mappages: size not aligned"
  else if size =? 0 then panic "mappages: size"
  else
    let last := u64 (va + size - PGSIZE) in
    loop (Z.to_nat (size / PGSIZE)) (mappages_step pagetable perm last) (va, pa).

Definition ismapped (pagetable va : Z) : K Z :=
  pte <- walk pagetable va false ;;
  if pte =? 0 then ret 0
  else
    e <- kload64 pte ;;
    if nz (Z.land e PTE_V) then ret 1 else ret 0.

Definition uvmcreate : K Z :=
  pagetable <- kalloc ;;
  if pagetable =? 0 then ret 0
  else kmemset pagetable 0 PGSIZE ;;; ret pagetable.

Definition uvmclear (pagetable va : Z) : K unit :=
  pte <- walk pagetable va false ;;
  if pte =? 0 then panic "uvmclear"
  else
    e <- kload64 pte ;;
    kstore64 pte (Z.land e (Z.lnot PTE_U)).

Definition kvmmap (kpgtbl va pa sz perm : Z) : K unit :=
  r <- mappages kpgtbl va sz pa perm ;;
  if negb (r =? 0) then panic "kvmmap" else ret tt.

(* ------------------------------------------------------------------ *)
(** ** The tree of page-table pages *)

(** Entry [i] of the table at [pt]. *)
Definition pte (m : mem) (pt i : Z) : Z := load64 m (pte_addr pt i).
Definition pte_valid (e : Z) : bool := nz (Z.land e PTE_V).

(** The table reached from [root] through the entries [path]. *)
Fixpoint table_at (m : mem) (root : Z) (path : list Z) : option Z :=
  match path with
  | [] => Some root
  | i :: path =>
      if pte_valid (pte m root i) then table_at m (PTE2PA (pte m root i)) path else None
  end.

(** Paths to tables: at most two steps, with indices below 512. *)
Definition idx_ok (path : list Z) : Prop :=
  Forall (fun i => 0 <= i < 512) path /\ (length path <= 2)%nat.

(** The path of the last-level table of [va], and its leaf entry (0 when the
    table does not exist). *)
Definition va_path (va : Z) : list Z := [PX 2 va; PX 1 va].
Definition lookup_pte (m : mem) (root va : Z) : Z :=
  match table_at m root (va_path va) with
  | Some t => pte m t (PX 0 va)
  | None => 0
  end.

Lemma va_path_ok va : idx_ok (va_path va).
Proof. split; [|done]. repeat constructor; apply PX_range. Qed.
#[export] Hint Resolve va_path_ok PX_range : kern.

Lemma table_at_app m root q r :
  table_at m root (q ++ r) = table_at m root q ≫= (fun t => table_at m t r).
Proof.
  revert root. induction q as [|i q IH]; intros root; simpl; [done|].
  destruct (pte_valid _); [apply IH|done].
Qed.

(** [walk] without allocation reads the tree and changes nothing. *)
Lemma walk_levels_noalloc levels pt va s :
  walk_levels levels pt va false s =
    Done (table_at (k_mem s) pt (map (fun l => PX l va) levels)) s.
Proof.
  revert pt. induction levels as [|l levels IH]; intros pt; [done|].
  cbn [walk_levels map table_at]. unfold kload64. rewrite bind_gets.
  unfold pte_valid, pte. destruct (nz _); [apply IH|done].
Qed.

Lemma walk_noalloc root va s :
  va < MAXVA ->
  walk root va false s =
    Done (match table_at (k_mem s) root (va_path va) with
          | Some t => pte_addr t (PX 0 va)
          | None => 0
          end) s.
Proof.
  intros Hva. unfold walk. rewrite (proj2 (Z.leb_gt _ _)) by done.
  rewrite (bind_done _ _ _ _ _ (walk_levels_noalloc _ _ _ _)).
  unfold va_path. cbn [map]. by destruct (table_at _ _ _).
Qed.

Section Tree.
Context `{ImageOk}.

Record pt_wf (m : mem) (root : Z) : Prop := {
  pt_kpage : forall r p, idx_ok r -> table_at m root r = Some p -> kpage p;
  pt_inj : forall r1 r2 p, idx_ok r1 -> idx_ok r2 ->
    table_at m root r1 = Some p -> table_at m root r2 = Some p -> r1 = r2;
}.

(** No page of the tree is on the free list. *)
Definition pt_fresh (m : mem) (root : Z) (ps : list Z) : Prop :=
  forall r p, idx_ok r -> table_at m root r = Some p -> p ∉ ps.

Lemma idx_ok_app q r : idx_ok (q ++ r) -> idx_ok q.
Proof.
  intros [[H1 _]%Forall_app H2]. split; [done|]. rewrite length_app in H2. lia.
Qed.

(** A table's entries are distinct words of its page. *)
Lemma pte_addr_in pt i : 0 <= i < 512 -> pt <= pte_addr pt i /\ pte_addr pt i + 8 <= pt + PGSIZE.
Proof. unfold pte_addr. lia. Qed.

Lemma pte_addr_disj t i u j :
  kpage t -> kpage u -> 0 <= i < 512 -> 0 <= j < 512 -> (u, j) <> (t, i) ->
  pte_addr u j + 8 <= pte_addr t i \/ pte_addr t i + 8 <= pte_addr u j.
Proof.
  intros Ht Hu Hi Hj Hne. destruct (decide (u = t)) as [->|Hut].
  - unfold pte_addr. assert (i <> j) by congruence. lia.
  - pose proof (pte_addr_in t i Hi). pose proof (pte_addr_in u j Hj).
    destruct (kpage_disj u t); auto; lia.
Qed.

(** Paths whose entries are unchanged lead to the same table. *)
Lemma table_at_ext m m' root r :
  (forall r1 j r2 u, r = r1 ++ j :: r2 -> table_at m root r1 = Some u ->
     pte m' u j = pte m u j) ->
  table_at m' root r = table_at m root r.
Proof.
  revert root. induction r as [|j r IH]; intros root Heq; [done|]. simpl.
  rewrite (Heq [] j r root) by done. destruct (pte_valid _) eqn:E; [|done].
  apply IH. intros r1 k r2 u -> Hu. apply (Heq (j :: r1) k r2); [done|].
  simpl. by rewrite E.
Qed.

Lemma lookup_pte_ext m m' root va :
  table_at m' root (va_path va) = table_at m root (va_path va) ->
  (forall t, table_at m root (va_path va) = Some t -> pte m' t (PX 0 va) = pte m t (PX 0 va)) ->
  lookup_pte m' root va = lookup_pte m root va.
Proof.
  unfold lookup_pte. intros ->. destruct (table_at m root (va_path va)); auto.
Qed.

(** Memory may change anywhere but in the tables. *)
Lemma table_at_frame m m' root r :
  (forall q u x, idx_ok q -> table_at m root q = Some u -> u <= x < u + PGSIZE -> m' x = m x) ->
  idx_ok r -> table_at m' root r = table_at m root r.
Proof.
  intros Hm Hr. apply table_at_ext. intros r1 j r2 u -> Hu.
  apply load_ext. intros x Hx. apply (Hm r1 u).
  - by eapply idx_ok_app.
  - done.
  - destruct Hr as [Hr _]. rewrite Forall_app, Forall_cons in Hr.
    pose proof (pte_addr_in u j). lia.
Qed.

Lemma lookup_pte_frame m m' root va :
  (forall q u x, idx_ok q -> table_at m root q = Some u -> u <= x < u + PGSIZE -> m' x = m x) ->
  lookup_pte m' root va = lookup_pte m root va.
Proof.
  intros Hm. apply lookup_pte_ext.
  - by apply table_at_frame; [|apply va_path_ok].
  - intros t Ht. apply load_ext. intros x Hx. apply (Hm (va_path va) t); [apply va_path_ok|done|].
    pose proof (pte_addr_in t (PX 0 va) (PX_range 0 va)). lia.
Qed.

Lemma pt_wf_frame m m' root :
  (forall q u x, idx_ok q -> table_at m root q = Some u -> u <= x < u + PGSIZE -> m' x = m x) ->
  pt_wf m root -> pt_wf m' root.
Proof.
  intros Hm [Hk Hi]. split.
  - intros r p Hr. rewrite (table_at_frame m m') by done. by apply Hk.
  - intros r1 r2 p H1 H2. rewrite !(table_at_frame m m') by done. by apply Hi.
Qed.

Lemma pte_store_ne m t i v u j :
  kpage t -> kpage u -> 0 <= i < 512 -> 0 <= j < 512 -> (u, j) <> (t, i) ->
  pte (store64 m (pte_addr t i) v) u j = pte m u j.
Proof.
  intros. apply load_store_disj.
  destruct (pte_addr_disj t i u j); auto; lia.
Qed.

Lemma pte_store_eq m t i v : 0 <= v < 2 ^ 64 -> pte (store64 m (pte_addr t i) v) t i = v.
Proof. intros. unfold pte. rewrite load_store. by apply Z.mod_small. Qed.

(** Writing an entry of a last-level table leaves the tree alone. *)
Lemma table_at_store_leaf m root q t i v r :
  pt_wf m root -> idx_ok q -> length q = 2%nat -> table_at m root q = Some t ->
  0 <= i < 512 -> idx_ok r ->
  table_at (store64 m (pte_addr t i) v) root r = table_at m root r.
Proof.
  intros Hwf Hq Hlen Ht Hi Hr. apply table_at_ext. intros r1 j r2 u -> Hu.
  assert (idx_ok r1) as Hr1 by (by eapply idx_ok_app).
  assert (0 <= j < 512) as Hj by (destruct Hr as [Hr _]; rewrite Forall_app, Forall_cons in Hr; tauto).
  apply pte_store_ne; eauto using pt_kpage. intros [= -> ->].
  rewrite (pt_inj _ _ Hwf r1 q t) in Hr by done.
  destruct Hr as [_ Hr]. rewrite length_app in Hr. simpl in Hr. lia.
Qed.

Lemma pt_wf_store_leaf m root q t i v :
  pt_wf m root -> idx_ok q -> length q = 2%nat -> table_at m root q = Some t ->
  0 <= i < 512 -> pt_wf (store64 m (pte_addr t i) v) root.
Proof.
  intros Hwf Hq Hlen Ht Hi. split.
  - intros r p Hr. rewrite (table_at_store_leaf m root q) by done. by apply (pt_kpage m root).
  - intros r1 r2 p H1 H2. rewrite !(table_at_store_leaf m root q) by done. by apply (pt_inj m root).
Qed.

(** Effect of writing the leaf entry of [va] on the leaf entries. *)
Lemma lookup_pte_store m root va t v va' :
  pt_wf m root -> table_at m root (va_path va) = Some t ->
  0 <= va < MAXVA -> 0 <= va' < MAXVA -> aligned va -> aligned va' -> 0 <= v < 2 ^ 64 ->
  lookup_pte (store64 m (pte_addr t (PX 0 va)) v) root va' =
    if va' =? va then v else lookup_pte m root va'.
Proof.
  intros Hwf Ht Hva Hva' Ha Ha' Hv. unfold lookup_pte.
  rewrite (table_at_store_leaf m root (va_path va)) by auto with kern.
  destruct (Z.eqb_spec va' va) as [->|Hne].
  { rewrite Ht. by apply pte_store_eq. }
  destruct (table_at m root (va_path va')) as [u|] eqn:Hu; [|done].
  apply pte_store_ne; eauto using pt_kpage with kern.
  intros [= -> E0]. assert (va_path va' = va_path va) as Hp
    by (eapply (pt_inj m root); eauto with kern).
  injection Hp as E2 E1. apply Hne. by apply PX_inj.
Qed.

(** Linking a zeroed page [p] from the invalid entry [i] of the table [t]
    at path [q]: what [walk] does at a level whose table is missing. *)
Section AllocChild.
Context (m m1 : mem) (root p t i : Z) (q ps : list Z).
Context (Hwf : pt_wf m root) (Hfresh : pt_fresh m root (p :: ps)) (Hp : kpage p).
Context (Hout : forall x, x < p \/ p + PGSIZE <= x -> m1 x = m x).
Context (Hin : forall x, p <= x < p + PGSIZE -> m1 x = 0).
Context (Hqi : idx_ok (q ++ [i])) (Hq : table_at m root q = Some t).
Context (Hinv : pte_valid (pte m t i) = false).

Local Abbreviation m' := (store64 m1 (pte_addr t i) (Z.lor (PA2PTE p) PTE_V)).

Local Lemma ac_q : idx_ok q /\ 0 <= i < 512 /\ (length q <= 1)%nat.
Proof.
  destruct Hqi as [[H1 H2]%Forall_app H3]. rewrite length_app in H3. simpl in H3.
  apply Forall_cons in H2 as [H2 _]. repeat split; try done; lia.
Qed.

Local Lemma ac_ne r u : idx_ok r -> table_at m root r = Some u -> u <> p.
Proof. intros Hr Hu ->. apply (Hfresh r p Hr Hu). constructor. Qed.

Lemma alloc_child_pte r u j :
  idx_ok r -> table_at m root r = Some u -> 0 <= j < 512 -> (u, j) <> (t, i) ->
  pte m' u j = pte m u j.
Proof.
  intros Hr Hu Hj Hne. destruct ac_q as (Hq' & Hi & _).
  rewrite pte_store_ne by eauto using pt_kpage.
  apply load_ext. intros x Hx. apply Hout. pose proof (pte_addr_in u j Hj).
  destruct (kpage_disj u p); eauto using pt_kpage, ac_ne; lia.
Qed.

Lemma alloc_child_new j : 0 <= j < 512 -> pte m' p j = 0.
Proof.
  intros Hj. destruct ac_q as (Hq' & Hi & _).
  assert (t <> p) by (by eapply ac_ne).
  rewrite pte_store_ne by (eauto using pt_kpage; congruence).
  unfold pte. rewrite (load_ext 8 m1 (mset m1 p 0 PGSIZE)).
  - pose proof (pte_addr_in p j Hj). apply load_mset0; lia.
  - intros x Hx. pose proof (pte_addr_in p j Hj). rewrite mset_in by lia.
    rewrite Hin by lia. done.
Qed.

Lemma alloc_child_entry : pte m' t i = Z.lor (PA2PTE p) PTE_V /\
  pte_valid (pte m' t i) = true /\ PTE2PA (pte m' t i) = p.
Proof.
  pose proof (kpage_bounds p Hp) as (Ha & ? & ?).
  destruct (PTE_decode p PTE_V) as (Hpa & Hfl & Hr); [lia|done|lia|].
  rewrite pte_store_eq by done. split_and!; [done| |done].
  unfold pte_valid. change PTE_V with (2 ^ 0) at 2. rewrite nz_land_pow2 by lia.
  rewrite <- PTE_FLAGS_bit by lia. change (2 ^ 0) with PTE_V. by rewrite Hfl.
Qed.

(** Paths that do not go through the new entry are unchanged. *)
Lemma alloc_child_old r :
  idx_ok r -> (forall r2, r <> q ++ i :: r2) -> table_at m' root r = table_at m root r.
Proof.
  intros Hr Hnot. apply table_at_ext. intros r1 j r2 u -> Hu.
  assert (idx_ok r1) by (by eapply idx_ok_app).
  assert (0 <= j < 512) by (destruct Hr as [Hr _]; rewrite Forall_app, Forall_cons in Hr; tauto).
  eapply alloc_child_pte; eauto. intros [= -> ->]. apply (Hnot r2). f_equal.
  destruct ac_q as (Hq' & _). by eapply (pt_inj m root).
Qed.

Lemma alloc_child_path r2 :
  idx_ok (q ++ i :: r2) ->
  table_at m' root (q ++ i :: r2) = match r2 with [] => Some p | _ => None end /\
  table_at m root (q ++ i :: r2) = None.
Proof.
  intros Hr. destruct ac_q as (Hq' & Hi & Hlen). rewrite !table_at_app.
  rewrite alloc_child_old, Hq; [|done|].
  2: { intros r3 Hr3. apply (f_equal length) in Hr3. rewrite length_app in Hr3. simpl in Hr3. lia. }
  cbn [mbind option_bind table_at]. destruct alloc_child_entry as (_ & Hv & Hpa).
  rewrite Hv, Hpa, Hinv. split; [|done]. destruct r2 as [|j r2]; [done|]. simpl.
  destruct Hr as [Hr _]. rewrite Forall_app, !Forall_cons in Hr.
  rewrite alloc_child_new by tauto. done.
Qed.

Local Lemma path_dec (r : list Z) : (exists r2, r = q ++ i :: r2) \/ (forall r2, r <> q ++ i :: r2).
Proof.
  destruct (decide (take (S (length q)) r = q ++ [i])) as [He|He].
  - left. exists (drop (S (length q)) r). rewrite <- (take_drop (S (length q)) r) at 1.
    rewrite He. by rewrite <- app_assoc.
  - right. intros r2 ->. apply He. rewrite take_app_ge by lia.
    by replace (S (length q) - length q)%nat with 1%nat by lia.
Qed.

(** The new tree: the old one with one more table. *)
Lemma alloc_child_table r u :
  idx_ok r -> table_at m' root r = Some u ->
  table_at m root r = Some u \/ (r = q ++ [i] /\ u = p).
Proof.
  intros Hr. destruct (path_dec r) as [[r2 ->]|Hn].
  - destruct (alloc_child_path r2 Hr) as [-> _]. destruct r2; [|done].
    intros [= <-]. by right.
  - rewrite alloc_child_old by done. by left.
Qed.

Lemma alloc_child_wf : pt_wf m' root.
Proof.
  split.
  - intros r u Hr Hu. destruct (alloc_child_table r u Hr Hu) as [?|[_ ->]]; [|done].
    by eapply (pt_kpage m root).
  - intros r1 r2 u H1 H2 Hu1 Hu2.
    destruct (alloc_child_table r1 u H1 Hu1) as [Hu1'|[-> ->]],
      (alloc_child_table _ _ H2 Hu2) as [Hu2'|[-> E]]; try done.
    + by eapply (pt_inj m root).
    + subst. by destruct (ac_ne _ _ H1 Hu1').
    + by destruct (ac_ne _ _ H2 Hu2').
Qed.

Lemma alloc_child_fresh : NoDup (p :: ps) -> pt_fresh m' root ps.
Proof.
  intros [Hnp _]%NoDup_cons r u Hr Hu.
  destruct (alloc_child_table r u Hr Hu) as [Hu'|[_ ->]]; [|done].
  intros Hin'. apply (Hfresh r u Hr Hu'). by constructor.
Qed.

(** No leaf entry changes. *)
Lemma alloc_child_lookup va : lookup_pte m' root va = lookup_pte m root va.
Proof.
  unfold lookup_pte. destruct ac_q as (Hq' & Hi & Hlen).
  destruct (path_dec (va_path va)) as [[r2 E]|Hn].
  - rewrite E. destruct (alloc_child_path r2) as [-> ->]; [rewrite <- E; apply va_path_ok|].
    destruct r2; [|done]. rewrite alloc_child_new; [done|apply PX_range].
  - rewrite alloc_child_old by auto with kern.
    destruct (table_at m root (va_path va)) as [u|] eqn:Hu; [|done].
    apply (alloc_child_pte (va_path va)); [apply va_path_ok|done|apply PX_range|].
    intros [= -> _].
    assert (va_path va = q) as E by (eapply (pt_inj m root); eauto with kern).
    rewrite <- E in Hlen. simpl in Hlen. lia.
Qed.
End AllocChild.

(* ---------------------------------------------------------------- *)
(** ** Walking with allocation *)

Record vm_inv (s : kst) (root : Z) (ps : list Z) : Prop := {
  vi_free : kmem_inv s ps;
  vi_wf : pt_wf (k_mem s) root;
  vi_fresh : pt_fresh (k_mem s) root ps;
}.

(** From [s] to [s'] the tree of [root] may have got tables taken from the
    free list; nothing outside the tables changed. *)
Record tree_ext (root : Z) (s s' : kst) (ps ps' : list Z) : Prop := {
  te_state : exists m f, s' = set_k_freelist f (set_k_mem m s);
  te_inv : vm_inv s' root ps';
  te_used : exists used, ps = used ++ ps';
  te_mono : forall r u, idx_ok r ->
    table_at (k_mem s) root r = Some u -> table_at (k_mem s') root r = Some u;
  te_new : forall r u, idx_ok r -> table_at (k_mem s') root r = Some u ->
    table_at (k_mem s) root r = Some u \/ u ∈ ps;
  te_frame : forall x,
    (forall r u, idx_ok r -> table_at (k_mem s') root r = Some u -> ~ (u <= x < u + PGSIZE)) ->
    k_mem s' x = k_mem s x;
}.

(** ... and no leaf entry changed either. *)
Record grown (root : Z) (s s' : kst) (ps ps' : list Z) : Prop := {
  gr_ext : tree_ext root s s' ps ps';
  gr_lookup : forall va, lookup_pte (k_mem s') root va = lookup_pte (k_mem s) root va;
}.

Lemma tree_ext_refl root s ps : vm_inv s root ps -> tree_ext root s s ps ps.
Proof.
  intros Hi. split; auto.
  - exists (k_mem s), (k_freelist s). by destruct s.
  - by exists [].
Qed.

Lemma tree_ext_trans root s1 s2 s3 ps1 ps2 ps3 :
  tree_ext root s1 s2 ps1 ps2 -> tree_ext root s2 s3 ps2 ps3 -> tree_ext root s1 s3 ps1 ps3.
Proof.
  intros [(m1 & f1 & ->) _ [u1 ->] Hm1 Hn1 Hf1] [(m2 & f2 & ->) Hi2 [u2 ->] Hm2 Hn2 Hf2].
  split; eauto.
  - exists (u1 ++ u2). by rewrite app_assoc.
  - intros r u Hr Hu. destruct (Hn2 r u Hr Hu) as [Hu'|Hin'].
    + auto.
    + right. apply elem_of_app. by right.
  - intros x Hx. rewrite Hf2 by done. apply Hf1. intros r u Hr Hu. apply (Hx r u Hr). auto.
Qed.

Lemma grown_refl root s ps : vm_inv s root ps -> grown root s s ps ps.
Proof. intros Hi. split; [by apply tree_ext_refl|done]. Qed.

Lemma grown_trans root s1 s2 s3 ps1 ps2 ps3 :
  grown root s1 s2 ps1 ps2 -> grown root s2 s3 ps2 ps3 -> grown root s1 s3 ps1 ps3.
Proof.
  intros [He1 Hl1] [He2 Hl2]. split; [by eapply tree_ext_trans|].
  intros va. by rewrite Hl2.
Qed.

Lemma tree_ext_held root s s' ps ps' : tree_ext root s s' ps ps' -> k_held s' = k_held s.
Proof. by intros [(m & f & ->)]. Qed.

Lemma pte_valid_nz e : nz (Z.land e PTE_V) = pte_valid e.
Proof. done. Qed.

(** One missing level. *)
Lemma grown_child root s q t i p ps :
  vm_inv s root (p :: ps) -> idx_ok (q ++ [i]) -> table_at (k_mem s) root q = Some t ->
  pte_valid (pte (k_mem s) t i) = false ->
  let m1 := mset (mset (k_mem s) p 5 PGSIZE) p 0 PGSIZE in
  let s' := set_k_freelist (load64 (k_mem s) p)
    (set_k_mem (store64 m1 (pte_addr t i) (Z.lor (PA2PTE p) PTE_V)) s) in
  grown root s s' (p :: ps) ps /\ table_at (k_mem s') root (q ++ [i]) = Some p.
Proof.
  intros [Hfree Hwf Hfresh] Hqi Hq Hinv m1 s'.
  pose proof (kmem_inv_pop _ _ _ Hfree) as (Hfl & Hp & Hnp & Hfree').
  assert (forall x, x < p \/ p + PGSIZE <= x -> m1 x = k_mem s x) as Hout
    by (intros x Hx; unfold m1; rewrite !mset_out by done; done).
  assert (forall x, p <= x < p + PGSIZE -> m1 x = 0) as Hin
    by (intros x Hx; unfold m1; by rewrite mset_in).
  destruct Hfree as (_ & _ & Hnd).
  assert (idx_ok q) as Hqok by (by eapply idx_ok_app).
  assert (kpage t) as Ht by (by eapply pt_kpage).
  assert (0 <= i < 512) as Hi
    by (destruct Hqi as [Hqi _]; rewrite Forall_app, Forall_cons in Hqi; tauto).
  assert (t ∉ p :: ps) as Htn by (by eapply Hfresh).
  pose proof (alloc_child_path (k_mem s) m1 root p t i q ps Hwf Hfresh Hp Hout Hin Hqi Hq Hinv
    [] Hqi) as [Hnew Hold].
  split; [|done]. split; [|intros va; by eapply alloc_child_lookup]. split.
  - by eexists _, _.
  - split.
    + apply (kmem_inv_mem _ _ (k_mem s')) in Hfree'; [done|]. unfold s'; ksimp.
      intros u x Hu Hx. rewrite store_out.
      * unfold m1. destruct Hfree' as (_ & Hps & _). rewrite Forall_forall in Hps.
        assert (p <> u) by (by intros <-). rewrite (mset_out _ p 0); [done|].
        destruct (kpage_disj p u); auto; lia.
      * destruct Hfree' as (_ & Hps & _). rewrite Forall_forall in Hps.
        assert (t <> u) by (intros <-; apply Htn; by constructor). pose proof (pte_addr_in t i Hi).
        destruct (kpage_disj t u); auto; lia.
    + by eapply alloc_child_wf.
    + by eapply alloc_child_fresh.
  - by exists [p].
  - intros r u Hr Hu. ksimp. rewrite (alloc_child_old (k_mem s) m1 root p t i q ps) by
      (done || (intros r2 ->; destruct (alloc_child_path (k_mem s) m1 root p t i q ps Hwf Hfresh
         Hp Hout Hin Hqi Hq Hinv r2 Hr); congruence)). done.
  - intros r u Hr Hu. destruct (alloc_child_table (k_mem s) m1 root p t i q ps Hwf Hfresh
      Hp Hout Hin Hqi Hq Hinv r u Hr Hu) as [?|[_ ->]]; [by left|right; constructor].
  - intros x Hx. unfold s'; ksimp. rewrite store_out, Hout; [done|..].
    + specialize (Hx _ _ Hqi Hnew). lia.
    + destruct (decide (t <= x < t + PGSIZE)) as [Hin'|]; [|pose proof (pte_addr_in t i Hi); lia].
      exfalso. apply (Hx q t Hqok); [|done]. unfold s'; ksimp.
      rewrite (alloc_child_old (k_mem s) m1 root p t i q ps); try done.
      intros r2 E. apply (f_equal length) in E. rewrite length_app in E. simpl in E. lia.
Qed.

Lemma walk_levels_alloc root va levels q t s ps :
  vm_inv s root ps -> table_at (k_mem s) root q = Some t ->
  idx_ok (q ++ map (fun l => PX l va) levels) -> Lkmem ∉ k_held s ->
  runs (walk_levels levels t va true) s (fun o s' =>
    exists ps', grown root s s' ps ps' /\
      match o with
      | Some u => table_at (k_mem s') root (q ++ map (fun l => PX l va) levels) = Some u
      | None => ps' = []
      end).
Proof.
  revert q t s ps. induction levels as [|l levels IH]; intros q t s ps Hi Ht Hok Hl.
  { exists ps. split; [by apply grown_refl|]. simpl. by rewrite app_nil_r. }
  cbn [walk_levels map] in *. apply runs_bind. eapply runs_done; [done|].
  change (load64 (k_mem s) (pte_addr t (PX l va))) with (pte (k_mem s) t (PX l va)).
  rewrite pte_valid_nz.
  assert (idx_ok (q ++ [PX l va])) as Hqi
    by (apply (idx_ok_app _ (map (fun l => PX l va) levels)); by rewrite <- app_assoc).
  destruct (pte_valid _) eqn:Ev.
  - eapply runs_mono.
    + apply (IH (q ++ [PX l va])); [done| |by rewrite <- app_assoc|done].
      rewrite table_at_app, Ht. simpl. by rewrite Ev.
    + intros o s' (ps' & Hg & Ho). exists ps'. split; [done|].
      by rewrite <- app_assoc in Ho.
  - cbn [negb]. apply runs_bind. destruct ps as [|p ps].
    { eapply runs_done; [apply kalloc_none; [by eapply vi_free|done]|].
      exists []. by split; [apply grown_refl|]. }
    eapply runs_done; [eapply kalloc_some; [by eapply vi_free|done]|].
    pose proof (kmem_inv_pop _ _ _ (vi_free _ _ _ Hi)) as (_ & Hp & _ & _).
    pose proof (kpage_nz p Hp) as Hnz. unfold nz in Hnz. rewrite negb_true_iff in Hnz.
    rewrite Hnz.
    destruct (grown_child root s q t (PX l va) p ps Hi Hqi Ht Ev) as [Hg Hnew].
    apply runs_bind. eapply runs_done; [done|]. ksimp.
    apply runs_bind. eapply runs_done; [done|]. ksimp.
    eapply runs_mono.
    + eapply (IH (q ++ [PX l va])); [exact (te_inv _ _ _ _ _ (gr_ext _ _ _ _ _ Hg))|exact Hnew| |done].
      by rewrite <- app_assoc.
    + intros o s' (ps' & Hg' & Ho). exists ps'.
      split; [by eapply grown_trans|]. by rewrite <- app_assoc in Ho.
Qed.

(** [walk] with allocation: the address of the leaf entry, or 0 when the
    free list ran out. *)
Lemma walk_levels_present levels pt va s t :
  table_at (k_mem s) pt (map (fun l => PX l va) levels) = Some t ->
  walk_levels levels pt va true s = Done (Some t) s.
Proof.
  revert pt. induction levels as [|l levels IH]; intros pt; simpl; [by intros [= ->]|].
  unfold kload64. rewrite bind_gets. unfold pte_valid, pte.
  destruct (nz _); [apply IH|done].
Qed.

(** Nothing is allocated when the tables exist. *)
Lemma walk_alloc_present root va s t :
  va < MAXVA -> table_at (k_mem s) root (va_path va) = Some t ->
  walk root va true s = Done (pte_addr t (PX 0 va)) s.
Proof.
  intros Hva Ht. unfold walk. rewrite (proj2 (Z.leb_gt _ _)) by done.
  by rewrite (bind_done _ _ _ _ _ (walk_levels_present [2; 1] _ _ _ _ Ht)).
Qed.

Lemma walk_alloc root va s ps :
  vm_inv s root ps -> va < MAXVA -> Lkmem ∉ k_held s ->
  runs (walk root va true) s (fun a s' =>
    exists ps', grown root s s' ps ps' /\
      ((a = 0 /\ ps' = []) \/
       exists t, table_at (k_mem s') root (va_path va) = Some t /\ kpage t /\
         a = pte_addr t (PX 0 va))).
Proof.
  intros Hi Hva Hl. unfold walk. rewrite (proj2 (Z.leb_gt _ _)) by done.
  apply runs_bind. eapply runs_mono.
  - apply (walk_levels_alloc root va [2; 1] [] root s ps); [done..| |done]. apply va_path_ok.
  - intros [u|] s' (ps' & Hg & Ho); apply runs_ret; exists ps'; split; auto.
    right. exists u. split_and!; [done| |done].
    eapply pt_kpage; [exact (vi_wf _ _ _ (te_inv _ _ _ _ _ (gr_ext _ _ _ _ _ Hg)))| |exact Ho]. apply va_path_ok.
Qed.

Lemma pte_addr_nz t i : kpage t -> 0 <= i < 512 -> (pte_addr t i =? 0) = false.
Proof. intros Ht%kpage_bounds Hi. apply Z.eqb_neq. unfold pte_addr. lia. Qed.

(** Storing a leaf entry. *)
Lemma vm_inv_store_leaf s root ps va t v :
  vm_inv s root ps -> table_at (k_mem s) root (va_path va) = Some t ->
  vm_inv (set_k_mem (store64 (k_mem s) (pte_addr t (PX 0 va)) v) s) root ps.
Proof.
  intros [Hfree Hwf Hfresh] Ht. split.
  - apply kmem_inv_mem; [done|]. intros p x Hp Hx.
    assert (p <> t) as Hne by (intros ->; by eapply Hfresh; [apply va_path_ok| |]).
    rewrite store_out; [done|]. destruct Hfree as (_ & Hps & _). rewrite Forall_forall in Hps.
    pose proof (pte_addr_in t (PX 0 va) (PX_range 0 va)).
    destruct (kpage_disj p t); eauto using pt_kpage with kern; lia.
  - ksimp. eapply pt_wf_store_leaf; eauto with kern.
  - ksimp. intros r p Hr. rewrite (table_at_store_leaf _ _ (va_path va)) by auto with kern.
    by apply Hfresh.
Qed.

(* ---------------------------------------------------------------- *)
(** ** [mappages] *)

Definition leaf_entry (pa perm : Z) : Z := Z.lor (Z.lor (PA2PTE pa) perm) PTE_V.

Lemma leaf_entry_decode pa perm :
  0 <= pa < 2 ^ 56 -> aligned pa -> 0 <= perm < 1024 ->
  PTE2PA (leaf_entry pa perm) = pa /\ PTE_FLAGS (leaf_entry pa perm) = Z.lor perm PTE_V /\
  pte_valid (leaf_entry pa perm) = true /\ 0 <= leaf_entry pa perm < 2 ^ 64.
Proof.
  intros Hpa Ha Hp. unfold leaf_entry. rewrite <- Z.lor_assoc.
  assert (0 <= Z.lor perm PTE_V < 1024) as Hr.
  { split; [apply Z.lor_nonneg; lia|]. apply (Z.log2_lt_cancel _ (2 ^ 10)).
    rewrite Z.log2_lor by lia. change (Z.log2 (2 ^ 10)) with 10.
    apply Z.max_lub_lt; [|done].
    destruct (decide (perm = 0)) as [->|]; [done|]. apply Z.log2_lt_pow2; lia. }
  destruct (PTE_decode pa _ Hpa Ha Hr) as (E1 & E2 & E3).
  split; [done|]. split; [done|]. split; [|done].
  unfold pte_valid. change (nz (Z.land (Z.lor (PA2PTE pa) (Z.lor perm 1)) (2 ^ 0)) = true).
  rewrite nz_land_pow2, <- PTE_FLAGS_bit, E2 by lia.
  rewrite Z.lor_spec. change (Z.testbit 1 0) with true. apply orb_true_r.
Qed.

(** Mapping one page. *)
Lemma map_one root va pa perm s ps :
  vm_inv s root ps -> 0 <= va < MAXVA -> aligned va -> 0 <= pa < 2 ^ 56 -> aligned pa ->
  0 <= perm < 1024 -> Lkmem ∉ k_held s ->
  pte_valid (lookup_pte (k_mem s) root va) = false ->
  runs (walk root va true) s (fun a s1 => exists ps1, tree_ext root s s1 ps ps1 /\
    ((a = 0 /\ ps1 = []) \/
     (a <> 0 /\ pte_valid (load64 (k_mem s1) a) = false /\
      let s2 := set_k_mem (store64 (k_mem s1) a (leaf_entry pa perm)) s1 in
      tree_ext root s s2 ps ps1 /\
      forall va', 0 <= va' < MAXVA -> aligned va' ->
        lookup_pte (k_mem s2) root va' =
          if va' =? va then leaf_entry pa perm else lookup_pte (k_mem s) root va'))).
Proof.
  intros Hi Hva Hal Hpa Hpal Hperm Hl Hinv.
  eapply runs_mono; [apply (walk_alloc root va s ps); [done|lia|done]|].
  intros a s1 (ps1 & [Hext Hlk] & Ha). exists ps1. split; [done|].
  destruct Ha as [?|(t & Ht & Hkt & ->)]; [by left|right].
  pose proof (te_inv _ _ _ _ _ Hext) as Hi1. pose proof (vi_wf _ _ _ Hi1) as Hwf1.
  destruct (leaf_entry_decode pa perm) as (_ & _ & _ & Hle); [done..|].
  cbv zeta. split_and!.
  - apply Z.eqb_neq, pte_addr_nz; [done|apply PX_range].
  - specialize (Hlk va). unfold lookup_pte at 1 in Hlk. rewrite Ht in Hlk.
    change (load64 (k_mem s1) (pte_addr t (PX 0 va))) with (pte (k_mem s1) t (PX 0 va)).
    by rewrite Hlk.
  - eapply tree_ext_trans; [exact Hext|]. split.
    + by eexists _, (k_freelist s1).
    + by apply vm_inv_store_leaf.
    + by exists [].
    + intros r u Hr Hu. ksimp. rewrite (table_at_store_leaf _ _ (va_path va)); auto with kern.
    + intros r u Hr. ksimp. rewrite (table_at_store_leaf _ _ (va_path va)); auto with kern.
    + intros x Hx. ksimp. rewrite store_out; [done|].
      destruct (decide (t <= x < t + PGSIZE)) as [Hin'|];
        [|pose proof (pte_addr_in t (PX 0 va) (PX_range 0 va)); lia].
      exfalso. apply (Hx (va_path va) t); [apply va_path_ok| |done]. ksimp.
      rewrite (table_at_store_leaf _ _ (va_path va)); auto with kern.
  - intros va' Hva' Hal'. ksimp. rewrite (lookup_pte_store _ _ va) by done.
    destruct (va' =? va); [done|apply Hlk].
Qed.

(** The leaf entries after mapping [n] pages from [va] to [pa]. *)
Definition mapped_at (m : mem) (root va n pa perm va' : Z) : Z :=
  if (va <=? va') && (va' <? va + n * PGSIZE)
  then leaf_entry (pa + (va' - va)) perm else lookup_pte m root va'.

Lemma aligned_add a k : aligned a -> aligned (a + k * PGSIZE).
Proof. unfold aligned. intros H'. by rewrite Z.mod_add. Qed.

Lemma aligned_step a : aligned a -> aligned (a + PGSIZE).
Proof. intros Ha. by apply (aligned_add a 1) in Ha. Qed.

Lemma mappages_loop root perm n a pa s ps :
  vm_inv s root ps -> 0 <= a -> aligned a -> a + Z.of_nat (S n) * PGSIZE <= MAXVA ->
  0 <= pa -> aligned pa -> pa + Z.of_nat (S n) * PGSIZE <= 2 ^ 56 -> 0 <= perm < 1024 ->
  Lkmem ∉ k_held s ->
  (forall va', aligned va' -> a <= va' < a + Z.of_nat (S n) * PGSIZE ->
     pte_valid (lookup_pte (k_mem s) root va') = false) ->
  runs (loop (S n) (mappages_step root perm (a + Z.of_nat n * PGSIZE)) (a, pa)) s (fun r s' =>
    exists ps', tree_ext root s s' ps ps' /\
      ((r = -1 /\ ps' = []) \/
       (r = 0 /\ forall va', 0 <= va' < MAXVA -> aligned va' ->
          lookup_pte (k_mem s') root va' =
            mapped_at (k_mem s) root a (Z.of_nat (S n)) pa perm va'))).
Proof.
  revert a pa s ps. induction n as [|n IH]; intros a pa s ps Hi Ha Hal Hmax Hpa Hpal Hpmax Hperm Hl Hinv;
    cbn [loop]; apply runs_bind; unfold mappages_step at 1; apply runs_bind;
    (eapply runs_mono;
       [apply (map_one root a pa perm s ps); try done; try lia; apply Hinv; [done|lia]|]);
    intros e s1 (ps1 & Hext & [[-> ->]|(Hne & Hv & Hext2 & Hlk)]);
    try (apply runs_ret; exists []; auto).
  - rewrite (proj2 (Z.eqb_neq _ _)) by done. apply runs_bind. eapply runs_done; [done|].
    rewrite pte_valid_nz, Hv. apply runs_bind. eapply runs_done; [done|].
    rewrite (proj2 (Z.eqb_eq _ _)) by lia. apply runs_ret. exists ps1. split; [done|right].
    split; [done|]. intros va' Hva' Hal'. rewrite Hlk by done. unfold mapped_at.
    destruct (Z.eqb_spec va' a) as [->|Hn].
    + rewrite (proj2 (Z.leb_le _ _)), (proj2 (Z.ltb_lt _ _)) by lia. cbn [andb]. f_equal. lia.
    + destruct (_ && _) eqn:E; [|done]. apply andb_true_iff in E as [E1%Z.leb_le E2%Z.ltb_lt].
      destruct (page_disj a va'); auto; lia.
  - rewrite (proj2 (Z.eqb_neq _ _)) by done. apply runs_bind. eapply runs_done; [done|].
    rewrite pte_valid_nz, Hv. apply runs_bind. eapply runs_done; [done|].
    rewrite (proj2 (Z.eqb_neq _ _)) by lia. apply runs_ret. rewrite !u64_small by lia.
    replace (a + Z.of_nat (S n) * PGSIZE) with ((a + PGSIZE) + Z.of_nat n * PGSIZE) by lia.
    eapply runs_mono.
    + apply (IH (a + PGSIZE) (pa + PGSIZE) _ ps1); try done; try lia.
      * exact (te_inv _ _ _ _ _ Hext2).
      * by apply aligned_step.
      * by apply aligned_step.
      * ksimp. rewrite (tree_ext_held _ _ _ _ _ Hext). done.
      * intros va' Hal' Hr. rewrite Hlk by (done || lia).
        rewrite (proj2 (Z.eqb_neq _ _)) by lia. apply Hinv; [done|lia].
    + intros r s' (ps' & Hext3 & Hr). exists ps'. split; [by eapply tree_ext_trans|].
      destruct Hr as [?|[-> Hlk3]]; [by left|right]. split; [done|].
      intros va' Hva' Hal'. rewrite Hlk3 by done. unfold mapped_at.
      destruct (Z.eqb_spec va' a) as [->|Hn].
      * rewrite (proj2 (Z.leb_gt _ _)), (proj2 (Z.leb_le a a)) by lia.
        rewrite (proj2 (Z.ltb_lt a (a + Z.of_nat (S (S n)) * PGSIZE))) by lia.
        cbn [andb]. rewrite Hlk, Z.eqb_refl by done. f_equal. lia.
      * replace (a + PGSIZE <=? va') with (a <=? va').
        -- replace (a + PGSIZE + Z.of_nat (S n) * PGSIZE) with (a + Z.of_nat (S (S n)) * PGSIZE) by lia.
           destruct (_ && _); [f_equal; lia|]. rewrite Hlk by done.
           by rewrite (proj2 (Z.eqb_neq _ _)).
        -- destruct (page_disj a va'); auto; lia.
Qed.

(** What [walkaddr] answers for a leaf entry. *)
Definition user_pa (e : Z) : Z :=
  if Z.land e PTE_V =? 0 then 0 else if Z.land e PTE_U =? 0 then 0 else PTE2PA e.

Lemma walkaddr_eq s root ps va :
  vm_inv s root ps -> 0 <= va < MAXVA ->
  walkaddr root va s = Done (user_pa (lookup_pte (k_mem s) root va)) s.
Proof.
  intros Hi Hva. unfold walkaddr. rewrite (proj2 (Z.leb_gt _ _)) by lia.
  rewrite (bind_done _ _ _ _ _ (walk_noalloc _ _ _ (proj2 Hva))).
  unfold lookup_pte. destruct (table_at _ _ _) as [t|] eqn:Ht; [|done].
  rewrite pte_addr_nz by eauto using pt_kpage, vi_wf with kern.
  unfold kload64. rewrite bind_gets. fold (pte (k_mem s) t (PX 0 va)).
  unfold user_pa. by repeat case_match.
Qed.

Lemma user_pa_leaf pa perm :
  0 <= pa < 2 ^ 56 -> aligned pa -> 0 <= perm < 1024 ->
  user_pa (leaf_entry pa perm) = if Z.testbit perm 4 then pa else 0.
Proof.
  intros Hpa Hal Hp. destruct (leaf_entry_decode pa perm) as (Hd & Hf & Hv & _); [done..|].
  unfold user_pa. unfold pte_valid, nz in Hv. apply negb_true_iff in Hv. rewrite Hv, Hd.
  pose proof (nz_land_pow2 (leaf_entry pa perm) 4) as Hu. unfold nz in Hu.
  rewrite <- (negb_involutive (Z.land _ PTE_U =? 0)).
  change PTE_U with (2 ^ 4). rewrite Hu, <- PTE_FLAGS_bit, Hf, Z.lor_spec by lia.
  change (Z.testbit 1 4) with false. rewrite orb_false_r. by destruct (Z.testbit perm 4).
Qed.

Lemma mappages_runs root va n pa perm s ps :
  vm_inv s root ps -> 0 < n -> 0 <= va -> aligned va -> va + n * PGSIZE <= MAXVA ->
  0 <= pa -> aligned pa -> pa + n * PGSIZE <= 2 ^ 56 -> 0 <= perm < 1024 ->
  Lkmem ∉ k_held s ->
  (forall va', aligned va' -> va <= va' < va + n * PGSIZE ->
     pte_valid (lookup_pte (k_mem s) root va') = false) ->
  runs (mappages root va (n * PGSIZE) pa perm) s (fun r s' =>
    exists ps', tree_ext root s s' ps ps' /\
      ((r = -1 /\ ps' = []) \/
       (r = 0 /\ forall va', 0 <= va' < MAXVA -> aligned va' ->
          lookup_pte (k_mem s') root va' = mapped_at (k_mem s) root va n pa perm va'))).
Proof.
  intros Hi Hn Hva Hal Hmax Hpa Hpal Hpmax Hperm Hl Hinv. unfold mappages.
  assert (exists k, n = Z.of_nat (S k)) as [k ->] by (exists (Z.to_nat (n - 1)); lia).
  rewrite Hal, Z.mod_mul by lia. cbn [nz Z.eqb negb].
  rewrite (proj2 (Z.eqb_neq (Z.of_nat (S k) * PGSIZE) 0)) by lia. cbv zeta.
  rewrite Z.div_mul, u64_small, Nat2Z.id by lia.
  replace (va + Z.of_nat (S k) * PGSIZE - PGSIZE) with (va + Z.of_nat k * PGSIZE) by lia.
  by apply mappages_loop.
Qed.

(** A new page table whose root page is all zeroes. *)
Lemma vm_inv_empty s root ps :
  kmem_inv s ps -> kpage root -> root ∉ ps ->
  (forall i, 0 <= i < 512 -> pte (k_mem s) root i = 0) -> vm_inv s root ps.
Proof.
  intros Hi Hk Hf Hz.
  assert (forall r u, idx_ok r -> table_at (k_mem s) root r = Some u -> r = [] /\ u = root) as Ht.
  { intros [|i r] u [Hr _] Htab; simplify_eq/=; [done|].
    apply Forall_cons in Hr as [Hr _]. by rewrite Hz in Htab. }
  split; [done| |].
  - split; [intros r p Hr Hp; by destruct (Ht r p Hr Hp) as [-> ->]|].
    intros r1 r2 p H1 H2 Hp1 Hp2. destruct (Ht r1 p), (Ht r2 p); congruence.
  - intros r p Hr Hp. by destruct (Ht r p Hr Hp) as [-> ->].
Qed.

Lemma lookup_pte_empty m root va :
  (forall i, 0 <= i < 512 -> pte m root i = 0) -> lookup_pte m root va = 0.
Proof.
  intros Hz. unfold lookup_pte, va_path. cbn [table_at]. by rewrite Hz by apply PX_range.
Qed.

Lemma vm_inv_proj s s' root ps :
  vm_inv s root ps -> k_mem s' = k_mem s -> k_freelist s' = k_freelist s -> vm_inv s' root ps.
Proof.
  intros [(Hc & Hps) Hwf Hfr] Em Ef. split; rewrite ?Em; try done. split; [|done]. by rewrite Em, Ef.
Qed.

(** One page whose last-level table exists: a single store. *)
Lemma mappages_present root va pa perm s ps t :
  vm_inv s root ps -> 0 <= va < MAXVA -> aligned va ->
  table_at (k_mem s) root (va_path va) = Some t ->
  pte_valid (lookup_pte (k_mem s) root va) = false ->
  mappages root va PGSIZE pa perm s =
    Done 0 (set_k_mem (store64 (k_mem s) (pte_addr t (PX 0 va)) (leaf_entry pa perm)) s).
Proof.
  intros Hi Hva Hal Ht Hv. unfold mappages. rewrite Hal. cbn [nz Z.eqb negb].
  change (PGSIZE mod PGSIZE) with 0. cbn [nz Z.eqb negb]. cbv zeta.
  change (Z.to_nat (PGSIZE / PGSIZE)) with 1%nat. rewrite u64_small by lia.
  cbn [loop]. erewrite bind_done; cycle 1.
  { unfold mappages_step. erewrite bind_done by (apply walk_alloc_present; [lia|done]).
    rewrite pte_addr_nz by eauto using pt_kpage, vi_wf with kern.
    unfold kload64, kstore64. rewrite bind_gets, pte_valid_nz.
    unfold lookup_pte in Hv. rewrite Ht in Hv. unfold pte in Hv. rewrite Hv, bind_modify.
    replace (va =? va + PGSIZE - PGSIZE) with true by (symmetry; apply Z.eqb_eq; lia). done. }
  done.
Qed.

(* ---------------------------------------------------------------- *)
(** ** Pages outside the tree *)

Definition not_table (m : mem) (root p : Z) : Prop :=
  forall r, idx_ok r -> table_at m root r <> Some p.

(** The tree and its leaf entries do not depend on the other pages. *)
Lemma vm_inv_mem s root ps p m :
  vm_inv s root ps -> kpage p -> p ∉ ps -> not_table (k_mem s) root p ->
  (forall x, x < p \/ p + PGSIZE <= x -> m x = k_mem s x) ->
  vm_inv (set_k_mem m s) root ps /\ not_table m root p /\
  forall va, lookup_pte m root va = lookup_pte (k_mem s) root va.
Proof.
  intros [Hf Hwf Hfr] Hp Hnp Hnt Hm.
  assert (forall q u x, idx_ok q -> table_at (k_mem s) root q = Some u ->
    u <= x < u + PGSIZE -> m x = k_mem s x) as Ht.
  { intros q u x Hq Hu Hx. apply Hm. assert (u <> p) by (intros ->; by apply (Hnt q)).
    destruct (kpage_disj u p); auto; [|lia..]. by eapply pt_kpage. }
  assert (forall q, idx_ok q -> table_at m root q = table_at (k_mem s) root q) as Heq
    by (intros; by apply table_at_frame).
  split_and!.
  - split.
    + apply kmem_inv_mem; [done|]. intros q x Hq Hx. symmetry. apply Hm.
      destruct Hf as (_ & Hps & _). rewrite Forall_forall in Hps.
      assert (q <> p) by (by intros ->). destruct (kpage_disj q p); auto; lia.
    + by eapply pt_wf_frame.
    + intros r u Hr. ksimp. rewrite Heq by done. by apply Hfr.
  - intros r Hr. rewrite Heq by done. by apply Hnt.
  - intros va. by apply lookup_pte_frame.
Qed.

Lemma not_table_mem s root ps p m q :
  vm_inv s root ps -> kpage p -> not_table (k_mem s) root p ->
  (forall x, x < p \/ p + PGSIZE <= x -> m x = k_mem s x) ->
  not_table (k_mem s) root q -> not_table m root q.
Proof.
  intros [Hf Hwf Hfr] Hp Hnt Hm Hq r Hr. rewrite (table_at_frame (k_mem s)); [by apply Hq| |done].
  intros q' u x Hq' Hu Hx. apply Hm. assert (u <> p) by (intros ->; by apply (Hnt q')).
  destruct (kpage_disj u p); auto; [|lia..]. by eapply pt_kpage.
Qed.

Lemma vm_inv_free_page s root p ps : vm_inv s root (p :: ps) -> not_table (k_mem s) root p.
Proof. intros [_ _ Hfr] r Hr Ht. apply (Hfr r p Hr Ht). constructor. Qed.

(** [kalloc] beside a page table. *)
Lemma vm_inv_alloc s root p ps :
  vm_inv s root (p :: ps) ->
  let s' := set_k_freelist (load64 (k_mem s) p) (set_k_mem (mset (k_mem s) p 5 PGSIZE) s) in
  vm_inv s' root ps /\ kpage p /\ (p ∉ ps) /\ not_table (k_mem s') root p /\
  forall va, lookup_pte (k_mem s') root va = lookup_pte (k_mem s) root va.
Proof.
  intros Hi s'. pose proof (vm_inv_free_page _ _ _ _ Hi) as Hnt. destruct Hi as [Hf Hwf Hfr].
  destruct (kmem_inv_pop _ _ _ Hf) as (_ & Hp & Hnp & Hf').
  assert (forall q u x, idx_ok q -> table_at (k_mem s) root q = Some u ->
    u <= x < u + PGSIZE -> k_mem s' x = k_mem s x) as Ht.
  { intros q u x Hq Hu Hx. apply mset_out. assert (u <> p) by (intros ->; by apply (Hnt q)).
    destruct (kpage_disj u p); auto; [|lia..]. by eapply pt_kpage. }
  split_and!; [|done..| |].
  - split; [done|by eapply pt_wf_frame|].
    intros r u Hr. rewrite (table_at_frame (k_mem s)) by done. intros Hu Hin.
    apply (Hfr r u Hr Hu). by constructor.
  - intros r Hr. rewrite (table_at_frame (k_mem s)) by done. by apply Hnt.
  - intros va. by apply lookup_pte_frame.
Qed.

(** [kfree] beside a page table. *)
Lemma vm_inv_free s root p ps :
  vm_inv s root ps -> kpage p -> p ∉ ps -> not_table (k_mem s) root p ->
  let s' := set_k_freelist p
    (set_k_mem (store64 (mset (k_mem s) p 1 PGSIZE) p (k_freelist s)) s) in
  vm_inv s' root (p :: ps) /\
  forall va, lookup_pte (k_mem s') root va = lookup_pte (k_mem s) root va.
Proof.
  intros Hi Hp Hnp Hnt s'.
  destruct (vm_inv_mem s root ps p (k_mem s')) as ([_ Hwf Hfr] & Hnt' & Hlk); [done..| |].
  { intros x Hx. unfold s'. ksimp. rewrite store_out, mset_out by lia. done. }
  split; [|done]. split; [apply kmem_inv_push; [apply Hi|done..]|done|].
  intros r u Hr Hu [->|Hin]%elem_of_cons; [by apply (Hnt' r)|by apply (Hfr r u)].
Qed.

(** C17: [mappages] over any number of unmapped pages returns; it fails with
    -1 only when the free list is exhausted, and when it returns 0 every page
    of the range is translated by [walkaddr] to the matching physical page
    (0 when the permissions lack PTE_U), every other translation is what it
    was, and the page-table tree and free list are still well formed. *)
Theorem mappages_walkaddr root va n pa perm s ps :
  vm_inv s root ps -> 0 < n -> 0 <= va -> aligned va -> va + n * PGSIZE <= MAXVA ->
  0 <= pa -> aligned pa -> pa + n * PGSIZE <= 2 ^ 56 -> 0 <= perm < 1024 ->
  Lkmem ∉ k_held s ->
  (forall va', aligned va' -> va <= va' < va + n * PGSIZE ->
     pte_valid (lookup_pte (k_mem s) root va') = false) ->
  runs (mappages root va (n * PGSIZE) pa perm) s (fun r s' =>
    (r = -1 /\ vm_inv s' root []) \/
    (r = 0 /\ (exists ps', vm_inv s' root ps') /\
     forall va', 0 <= va' < MAXVA -> aligned va' -> exists p,
       walkaddr root va' s' = Done p s' /\
       if (va <=? va') && (va' <? va + n * PGSIZE)
       then p = (if Z.testbit perm 4 then pa + (va' - va) else 0)
       else walkaddr root va' s = Done p s)).
Proof.
  intros Hi Hn Hva Hal Hmax Hpa Hpal Hpmax Hperm Hl Hinv.
  eapply runs_mono; [by apply mappages_runs|].
  intros r s' (ps' & Hext & Hr). pose proof (te_inv _ _ _ _ _ Hext) as Hi'.
  destruct Hr as [[-> ->]|[-> Hlk]]; [by left|right]. split; [done|]. split; [by exists ps'|].
  intros va' Hva' Hal'. eexists. split; [by eapply walkaddr_eq|].
  rewrite Hlk by done. unfold mapped_at. destruct (_ && _) eqn:E.
  - apply andb_true_iff in E as [E1%Z.leb_le E2%Z.ltb_lt]. apply user_pa_leaf; [lia| |done].
    unfold aligned in *. rewrite Z.add_mod, Zminus_mod, Hal, Hal', Hpal by lia. done.
  - by eapply walkaddr_eq.
Qed.

Lemma mappages_remap_eq root va size pa perm s ps :
  vm_inv s root ps -> 0 <= va < MAXVA -> aligned va -> aligned size -> 0 < size ->
  pte_valid (lookup_pte (k_mem s) root va) = true ->
  mappages root va size pa perm s = Panic "mappages: remap" s.
Proof.
  intros Hi Hva Hal Hsz Hpos Hv. unfold mappages. rewrite Hal, Hsz. cbn [nz Z.eqb negb].
  rewrite (proj2 (Z.eqb_neq size 0)) by lia. cbv zeta.
  assert (exists k, Z.to_nat (size / PGSIZE) = S k) as [k ->].
  { apply Z.mod_divide in Hsz as [q ->]; [|done]. rewrite Z.div_mul by done.
    exists (Z.to_nat (q - 1)). lia. }
  cbn [loop]. erewrite bind_panic; [done|]. unfold mappages_step.
  unfold lookup_pte in Hv. destruct (table_at _ _ _) as [t|] eqn:Ht; [|done].
  erewrite bind_done by (apply walk_alloc_present; [lia|done]).
  rewrite pte_addr_nz by eauto using pt_kpage, vi_wf with kern.
  unfold kload64. rewrite bind_gets, pte_valid_nz. unfold pte in Hv. by rewrite Hv.
Qed.

(** [mappages] refuses to map over a valid entry: it panics, and no
    byte of memory changes. *)
Theorem mappages_remap root va size pa perm s ps :
  vm_inv s root ps -> 0 <= va < MAXVA -> aligned va -> aligned size -> 0 < size ->
  pte_valid (lookup_pte (k_mem s) root va) = true ->
  mappages root va size pa perm s = Panic "mappages: remap" s.
Proof. apply mappages_remap_eq. Qed.
End Tree.

(** An empty page table beside the free list of [kalloc_demo]. *)
Lemma walk_demo_empty i :
  0 <= i < 512 -> pte (k_mem kalloc_demo) 0x87ff0000 i = 0.
Proof.
  intros Hi. unfold pte, kalloc_demo, kst0, pte_addr. ksimp.
  rewrite !load_store_disj by lia. done.
Qed.

Lemma walk_demo_inv : @vm_inv demo_image kalloc_demo 0x87ff0000 [0x87ffe000; 0x87fff000].
Proof.
  apply vm_inv_empty; [apply kalloc_demo_inv|repeat constructor; cbn; lia| |apply walk_demo_empty].
  apply (bool_decide_unpack _). by vm_compute.
Qed.

Lemma mappages_walkaddr_witness :
  runs (mappages 0x87ff0000 0x3000 (2 * PGSIZE) 0x87000000 (Z.lor PTE_U PTE_R)) kalloc_demo
    (fun r s' => r = -1 \/ exists p, walkaddr 0x87ff0000 0x4000 s' = Done p s' /\ p = 0x87001000).
Proof.
  eapply runs_mono.
  - apply (@mappages_walkaddr demo_image demo_image_ok 0x87ff0000 0x3000 2 0x87000000 (Z.lor PTE_U PTE_R)
             kalloc_demo [0x87ffe000; 0x87fff000]); try (cbn; lia); try done.
    + apply walk_demo_inv.
    + apply not_elem_of_nil.
    + intros va' _ _. rewrite lookup_pte_empty; [done|apply walk_demo_empty].
  - intros r s' [[-> _]|(-> & _ & Hw)]; [by left|right].
    destruct (Hw 0x4000) as (p & Hp & Hv); [lia|done|]. exists p. by split.
Defined.

(** [kalloc_demo] with virtual page 0 mapped by hand: the root's entry 0 and
    the next table's entry 0 lead to a table whose entry 0 is valid. *)
Definition remap_demo : kst :=
  set_k_mem (store64 (store64 (store64 (fun _ => 0)
      0x87ff0000 (Z.lor (PA2PTE 0x87ff1000) PTE_V))
      0x87ff1000 (Z.lor (PA2PTE 0x87ff2000) PTE_V))
      0x87ff2000 (leaf_entry 0x87000000 (Z.lor PTE_U PTE_R)))
    (set_k_freelist 0 kalloc_demo).

Lemma remap_demo_pte t i :
  0 <= i < 512 -> t ∈ [0x87ff0000; 0x87ff1000; 0x87ff2000] -> i <> 0 ->
  pte (k_mem remap_demo) t i = 0.
Proof.
  intros Hi Ht Hne. unfold pte, pte_addr, remap_demo. ksimp.
  rewrite !load_store_disj; [done|..]; set_unfold; lia.
Qed.

Lemma remap_demo_tables r p :
  idx_ok r -> table_at (k_mem remap_demo) 0x87ff0000 r = Some p ->
  (r = [] /\ p = 0x87ff0000) \/ (r = [0] /\ p = 0x87ff1000) \/ (r = [0; 0] /\ p = 0x87ff2000).
Proof.
  assert (pte (k_mem remap_demo) 0x87ff0000 0 = Z.lor (PA2PTE 0x87ff1000) PTE_V) as E0
    by (by vm_compute).
  assert (pte (k_mem remap_demo) 0x87ff1000 0 = Z.lor (PA2PTE 0x87ff2000) PTE_V) as E1
    by (by vm_compute).
  intros [Hr Hl] Ht. destruct r as [|i r]; [left; by injection Ht as <-|right].
  apply Forall_cons in Hr as [Hx Hr]. cbn [table_at] in Ht.
  destruct (decide (i = 0)) as [->|Hn]; [|rewrite remap_demo_pte in Ht; [discriminate Ht|exact Hx|by repeat constructor|exact Hn]].
  rewrite E0 in Ht. change (pte_valid _) with true in Ht. cbv iota in Ht.
  change (PTE2PA _) with 0x87ff1000 in Ht.
  destruct r as [|j r]; [left; by injection Ht as <-|right].
  apply Forall_cons in Hr as [Hx' Hr]. cbn [table_at] in Ht.
  destruct (decide (j = 0)) as [->|Hn]; [|rewrite remap_demo_pte in Ht; [discriminate Ht|exact Hx'|by repeat constructor|exact Hn]].
  rewrite E1 in Ht. change (pte_valid _) with true in Ht. cbv iota in Ht.
  change (PTE2PA _) with 0x87ff2000 in Ht.
  destruct r as [|]; [by injection Ht as <-|clear E0 E1; simpl in Hl; lia].
Qed.

Lemma remap_demo_inv : @vm_inv demo_image remap_demo 0x87ff0000 [].
Proof.
  split.
  - split_and!; [done|constructor|constructor].
  - split.
    + intros r p Hr Hp. destruct (remap_demo_tables r p Hr Hp) as [[_ ->]|[[_ ->]|[_ ->]]];
        repeat constructor; cbn; lia.
    + intros r1 r2 p H1 H2 Hp1 Hp2.
      destruct (remap_demo_tables r1 p H1 Hp1) as [[-> ->]|[[-> ->]|[-> ->]]];
        destruct (remap_demo_tables r2 _ H2 Hp2) as [[-> ?]|[[-> ?]|[-> ?]]]; done.
  - intros r p _ _. apply not_elem_of_nil.
Qed.

Lemma mappages_remap_witness :
  mappages 0x87ff0000 0 PGSIZE 0x87003000 PTE_R remap_demo = Panic "mappages: remap" remap_demo.
Proof.
  apply (@mappages_remap demo_image demo_image_ok 0x87ff0000 0 PGSIZE 0x87003000 PTE_R remap_demo []);
    [apply remap_demo_inv|lia|done|done|lia|by vm_compute].
Defined.
