(* ===== verification/FrameTable.v ===== *)
(** * Frame table and Clock page replacement ([kernel/frametable.c]) *)

From S2P Require Import Prelude Machine KState Spinlock Kalloc Swap Walk.
Local Open Scope Z_scope.
Local Open Scope kern_scope.

Definition getframe (i : nat) : K frame_entry := gets (fun s => k_ft s !!! i).
Definition updframe (i : nat) (f : frame_entry -> frame_entry) : K unit :=
  modify (fun s => set_k_ft (alter f i (k_ft s)) s).

(** The scan of [proc] by [find_proc]. *)
Definition find_proc (pid : Z) : K (option nat) :=
  gets (fun s => index_of (fun p => p_pid p =? pid) (k_proc s)).

(** [used = 0; pid = -1; va = pa = 0; ref_bit = 0; swap_slot = -1]. *)
Definition clear_frame (e : frame_entry) : frame_entry :=
  set_fe_swap_slot (-1) (set_fe_ref_bit 0 (set_fe_pa 0 (set_fe_va 0
    (set_fe_pid (-1) (set_fe_used 0 e))))).

Definition frametable_init : K unit :=
  initlock Lftlock ;;;
  for_each (seq 0 MAXFRAMES) (fun i => updframe i clear_frame) ;;;
  modify (set_k_hand 0).

Definition frametable_add (pa pid va : Z) : K unit :=
  acquire Lftlock ;;;
  o <- for_find (seq 0 MAXFRAMES) (fun i =>
         e <- getframe i ;;
         if negb (nz (fe_used e)) then
           updframe i (fun e => set_fe_swap_slot (-1) (set_fe_ref_bit 1 (set_fe_pa pa
             (set_fe_va va (set_fe_pid pid (set_fe_used 1 e)))))) ;;;
           release Lftlock ;;;
           ret (Some tt)
         else ret None) ;;
  match o with
  | Some _ => ret tt
  | None => release Lftlock
  end.

Definition frametable_remove (pa : Z) : K unit :=
  acquire Lftlock ;;;
  o <- for_find (seq 0 MAXFRAMES) (fun i =>
         e <- getframe i ;;
         if nz (fe_used e) && (fe_pa e =? pa) then
           updframe i clear_frame ;;;
           release Lftlock ;;;
           ret (Some tt)
         else ret None) ;;
  match o with
  | Some _ => ret tt
  | None => release Lftlock
  end.

Definition frametable_set_ref (pa : Z) : K unit :=
  acquire Lftlock ;;;
  for_find (seq 0 MAXFRAMES) (fun i =>
    e <- getframe i ;;
    if nz (fe_used e) && (fe_pa e =? pa) then
      updframe i (set_fe_ref_bit 1) ;;; ret (Some tt)
    else ret None) ;;;
  release Lftlock.

(** [for(i...) if(ftable[i].used) count++]. *)
Definition count_used (ft : list frame_entry) : Z :=
  foldl (fun n e => if nz (fe_used e) then n + 1 else n) 0 ft.

Definition frametable_used : K Z :=
  acquire Lftlock ;;;
  count <- gets (fun s => count_used (k_ft s)) ;;
  release Lftlock ;;;
  ret count.

Definition mlfq_level_of (pid : Z) : K Z :=
  o <- find_proc pid ;;
  match o with
  | Some i => p <- getproc i ;; ret (p_mlfq_level p)
  | None => ret 0
  end.

(** The loop of [clock_evict] over [passes], with the victim found so far;
    it returns the victim's index, -1 if there is none. *)
Fixpoint clock_sweep (passes : list Z) (victim_idx victim_level : Z) : K Z :=
  match passes with
  | [] => ret victim_idx
  | pass :: passes =>
      hand <- gets k_hand ;;
      let i := hand mod Z.of_nat MAXFRAMES in
      modify (set_k_hand ((hand + 1) mod Z.of_nat MAXFRAMES)) ;;;
      e <- getframe (Z.to_nat i) ;;
      if negb (nz (fe_used e)) then clock_sweep passes victim_idx victim_level
      else if fe_ref_bit e =? 1 then
        updframe (Z.to_nat i) (set_fe_ref_bit 0) ;;;
        clock_sweep passes victim_idx victim_level
      else
        lvl <- mlfq_level_of (fe_pid e) ;;
        let victim_idx' := if victim_level <? lvl then i else victim_idx in
        let victim_level' := if victim_level <? lvl then lvl else victim_level in
        if (0 <=? victim_idx') && (Z.of_nat MAXFRAMES <=? pass) then ret victim_idx'
        else clock_sweep passes victim_idx' victim_level'
  end.

(** The fall-back scan of [clock_evict]: the first used frame, or -1. *)
Definition first_used : K Z :=
  gets (fun s => match index_of (fun e => nz (fe_used e)) (k_ft s) with
                 | Some i => Z.of_nat i
                 | None => -1
                 end).

Section Clock.
Context `{KernelImage}.

(** The rest of [clock_evict] after it released [ftlock]; [e] holds the
    saved fields of the victim. *)
Definition evict_frame (e : frame_entry) : K Z :=
  slot <- swap_out (fe_pa e) (fe_pid e) (fe_va e) ;;
  if slot <? 0 then panic "clock_evict: swap full"
  else
    owner <- find_proc (fe_pid e) ;;
    match owner with
    | None => ret tt
    | Some o =>
        p <- getproc o ;;
        pte <- walk (p_pagetable p) (fe_va e) false ;;
        (if negb (pte =? 0) then
           v <- kload64 pte ;;
           when (nz (Z.land v PTE_V))
             (kstore64 pte (Z.lor (u64 (Z.shiftl slot 10)) PTE_SWAPPED))
         else ret tt) ;;;
        updproc o (fun p => set_p_resident_pages (p_resident_pages p - 1)
          (set_p_pages_swapped_out (p_pages_swapped_out p + 1)
          (set_p_pages_evicted (p_pages_evicted p + 1) p)))
    end ;;;
    kfree (fe_pa e) ;;;
    ret (fe_pa e).

Definition clock_evict : K Z :=
  acquire Lftlock ;;;
  v0 <- clock_sweep (seqZ 0 (2 * Z.of_nat MAXFRAMES)) (-1) (-1) ;;
  victim <- (if v0 <? 0 then first_used else ret v0) ;;
  if victim <? 0 then release Lftlock ;;; ret 0
  else
    e <- getframe (Z.to_nat victim) ;;
    updframe (Z.to_nat victim) clear_frame ;;;
    release Lftlock ;;;
    evict_frame e.
End Clock.

(* ------------------------------------------------------------------ *)
(** ** The table as a finite collection *)

Definition ft_wf (s : kst) : Prop := length (k_ft s) = MAXFRAMES.

Definition frame_free (e : frame_entry) : bool := negb (nz (fe_used e)).
Definition frame_of (pa : Z) (e : frame_entry) : bool := nz (fe_used e) && (fe_pa e =? pa).
Definition filled_frame (pa pid va : Z) (e : frame_entry) : frame_entry :=
  set_fe_swap_slot (-1) (set_fe_ref_bit 1 (set_fe_pa pa (set_fe_va va (set_fe_pid pid (set_fe_used 1 e))))).

(** Updates the first entry that passes a test. *)
Definition alter_first (f : frame_entry -> bool) (g : frame_entry -> frame_entry)
    (ft : list frame_entry) : list frame_entry :=
  match index_of f ft with Some i => alter g i ft | None => ft end.

Lemma frametable_add_eq pa pid va s :
  ft_wf s -> Lftlock ∉ k_held s ->
  frametable_add pa pid va s =
    Done tt (set_k_ft (alter_first frame_free (filled_frame pa pid va) (k_ft s)) s).
Proof.
  intros Hwf Hl. unfold frametable_add. rewrite bind_acquire by done.
  match goal with |- bind (for_find _ ?b) _ ?s0 = _ =>
    pose proof (for_find_index (k_ft s) frame_free MAXFRAMES b s0 Hwf) as Hf end.
  unfold alter_first. destruct (index_of frame_free (k_ft s)) as [i|] eqn:Hi.
  - apply index_of_Some in Hi as [(e & He & Hu) _].
    erewrite bind_done; cycle 1.
    { apply Hf.
      - intros j e' He' Hn. unfold getframe. rewrite bind_gets. ksimp.
        rewrite list_lookup_total_alt, He'. unfold frame_free in Hn. simpl. by rewrite Hn.
      - unfold getframe. rewrite bind_gets. ksimp. rewrite list_lookup_total_alt, He.
        unfold frame_free in Hu. simpl. rewrite Hu. unfold updframe. rewrite bind_modify.
        erewrite bind_release by done. done. }
    cbv beta iota. by destruct s.
  - erewrite bind_done; cycle 1.
    { apply Hf. intros j e' He' Hn. unfold getframe. rewrite bind_gets. ksimp.
      rewrite list_lookup_total_alt, He'. unfold frame_free in Hn. simpl. by rewrite Hn. }
    cbv beta iota. erewrite release_head by done. by destruct s.
Qed.

Lemma frametable_remove_eq pa s :
  ft_wf s -> Lftlock ∉ k_held s ->
  frametable_remove pa s =
    Done tt (set_k_ft (alter_first (frame_of pa) clear_frame (k_ft s)) s).
Proof.
  intros Hwf Hl. unfold frametable_remove. rewrite bind_acquire by done.
  match goal with |- bind (for_find _ ?b) _ ?s0 = _ =>
    pose proof (for_find_index (k_ft s) (frame_of pa) MAXFRAMES b s0 Hwf) as Hf end.
  unfold alter_first. destruct (index_of (frame_of pa) (k_ft s)) as [i|] eqn:Hi.
  - apply index_of_Some in Hi as [(e & He & Hu) _].
    erewrite bind_done; cycle 1.
    { apply Hf.
      - intros j e' He' Hn. unfold getframe. rewrite bind_gets. ksimp.
        rewrite list_lookup_total_alt, He'. unfold frame_of in Hn. simpl. by rewrite Hn.
      - unfold getframe. rewrite bind_gets. ksimp. rewrite list_lookup_total_alt, He.
        unfold frame_of in Hu. simpl. rewrite Hu. unfold updframe. rewrite bind_modify.
        erewrite bind_release by done. done. }
    cbv beta iota. by destruct s.
  - erewrite bind_done; cycle 1.
    { apply Hf. intros j e' He' Hn. unfold getframe. rewrite bind_gets. ksimp.
      rewrite list_lookup_total_alt, He'. unfold frame_of in Hn. simpl. by rewrite Hn. }
    cbv beta iota. erewrite release_head by done. by destruct s.
Qed.

Lemma frametable_used_eq s :
  Lftlock ∉ k_held s -> frametable_used s = Done (count_used (k_ft s)) s.
Proof.
  intros Hl. unfold frametable_used. rewrite bind_acquire, bind_gets by done.
  erewrite bind_release by done. by destruct s.
Qed.

(* ------------------------------------------------------------------ *)
(** ** The frame chosen by the Clock sweep *)

(** The level [mlfq_level_of] finds in the process table. *)
Definition level_of (procs : list proc) (pid : Z) : Z :=
  match index_of (fun p => p_pid p =? pid) procs with
  | Some i => p_mlfq_level (procs !!! i)
  | None => 0
  end.

Lemma mlfq_level_of_eq pid s : mlfq_level_of pid s = Done (level_of (k_proc s) pid) s.
Proof.
  unfold mlfq_level_of, find_proc, level_of. rewrite bind_gets.
  by destruct (index_of _ _).
Qed.

Lemma level_of_nonneg procs pid :
  Forall (fun p => 0 <= p_mlfq_level p) procs -> 0 <= level_of procs pid.
Proof.
  intros Hall. unfold level_of. destruct (index_of _ _) as [i|] eqn:Hi; [|lia].
  apply index_of_Some in Hi as [(p & Hp & _) _]. rewrite list_lookup_total_alt, Hp. simpl.
  rewrite Forall_lookup in Hall. by eapply Hall.
Qed.

(** The [n] frames the hand meets from [h] on. *)
Fixpoint clock_order (n : nat) (h : Z) : list nat :=
  match n with
  | O => []
  | S n => Z.to_nat h :: clock_order n ((h + 1) mod Z.of_nat MAXFRAMES)
  end.

Lemma elem_of_clock_order n h j :
  0 <= h < Z.of_nat MAXFRAMES ->
  j ∈ clock_order n h <-> exists k, 0 <= k < Z.of_nat n /\ Z.of_nat j = (h + k) mod Z.of_nat MAXFRAMES.
Proof.
  revert h. induction n as [|n IH]; intros h Hh; cbn [clock_order].
  { split; [by intros ?%not_elem_of_nil|intros (k & Hk & _); lia]. }
  rewrite elem_of_cons, IH by (apply Z.mod_pos_bound; done).
  split.
  - intros [->|(k & Hk & ->)].
    + exists 0. rewrite Z.add_0_r, Z.mod_small by done. lia.
    + exists (k + 1). split; [lia|]. rewrite Zplus_mod_idemp_l. f_equal. lia.
  - intros (k & Hk & Hj). destruct (decide (k = 0)) as [->|].
    + left. rewrite Z.add_0_r, Z.mod_small in Hj by done. lia.
    + right. exists (k - 1). split; [lia|]. rewrite Hj, Zplus_mod_idemp_l. f_equal. lia.
Qed.

Lemma NoDup_clock_order n h :
  0 <= h < Z.of_nat MAXFRAMES -> (n <= MAXFRAMES)%nat -> NoDup (clock_order n h).
Proof.
  revert h. induction n as [|n IH]; intros h Hh Hn; cbn [clock_order]; [constructor|].
  pose proof (Z.mod_pos_bound (h + 1) (Z.of_nat MAXFRAMES) ltac:(done)) as Hb.
  constructor; [|apply IH; [done|lia]]. intros Hin.
  apply elem_of_clock_order in Hin as (k & Hk & Heq); [|done].
  rewrite Zplus_mod_idemp_l, Z2Nat.id in Heq by lia. 
  apply (f_equal (fun x => (x - h) mod Z.of_nat MAXFRAMES)) in Heq.
  rewrite Z.sub_diag, Zminus_mod_idemp_l in Heq.
  replace (h + 1 + k - h) with (k + 1) in Heq by lia.
  rewrite (Z.mod_small (k + 1)), Zmod_0_l in Heq; lia.
Qed.

Lemma clock_order_lt n h i :
  0 <= h < Z.of_nat MAXFRAMES -> i ∈ clock_order n h -> (i < MAXFRAMES)%nat.
Proof.
  intros Hh Hin. apply elem_of_clock_order in Hin as (k & _ & Hi); [|done].
  pose proof (Z.mod_pos_bound (h + k) (Z.of_nat MAXFRAMES) ltac:(done)). lia.
Qed.

(** A full turn meets every frame. *)
Lemma clock_order_full h i :
  0 <= h < Z.of_nat MAXFRAMES -> (i < MAXFRAMES)%nat -> i ∈ clock_order MAXFRAMES h.
Proof.
  intros Hh Hi. apply elem_of_clock_order; [done|].
  exists ((Z.of_nat i - h) mod Z.of_nat MAXFRAMES). split; [by apply Z.mod_pos_bound|].
  rewrite Zplus_mod_idemp_r. replace (h + (Z.of_nat i - h)) with (Z.of_nat i) by lia.
  rewrite Z.mod_small; lia.
Qed.

(** Frames the first turn considers, and the best of them so far. *)
Definition candidate (e : frame_entry) : bool := nz (fe_used e) && negb (fe_ref_bit e =? 1).
Definition best (procs : list proc) (ft : list frame_entry) (v : Z * Z) (i : nat) : Z * Z :=
  let lvl := level_of procs (fe_pid (ft !!! i)) in
  if candidate (ft !!! i) && (v.2 <? lvl) then (Z.of_nat i, lvl) else v.

(** The second chance: a set reference bit is cleared. *)
Definition unref (e : frame_entry) : frame_entry :=
  if nz (fe_used e) && (fe_ref_bit e =? 1) then set_fe_ref_bit 0 e else e.
Definition unref_all (idxs : list nat) (ft : list frame_entry) : list frame_entry :=
  foldl (fun ft i => alter unref i ft) ft idxs.

Lemma set_k_hand_ft h ft s :
  k_proc (set_k_hand h (set_k_ft ft s)) = k_proc s.
Proof. done. Qed.

Lemma unref_step (i : nat) (ft : list frame_entry) :
  (if nz (fe_used (ft !!! i)) && (fe_ref_bit (ft !!! i) =? 1) then alter (set_fe_ref_bit 0) i ft
   else ft) = alter unref i ft.
Proof.
  apply list_eq. intros j. rewrite list_lookup_total_alt.
  destruct (decide (j = i)) as [->|Hne].
  - rewrite list_lookup_alter_eq. destruct (ft !! i) as [e|] eqn:He; cbn [from_option fmap option_fmap option_map].
    + unfold id. unfold unref. destruct (_ && _); [by rewrite list_lookup_alter_eq, He|done].
    + destruct (_ && _); [by rewrite list_lookup_alter_eq, He|done].
  - rewrite list_lookup_alter_ne by done.
    destruct (_ && _); [by rewrite list_lookup_alter_ne|done].
Qed.

(** The rest of a turn sees the frames it has not met as they were. *)
Lemma best_alter procs ft i v idxs :
  i ∉ idxs -> foldl (best procs (alter unref i ft)) v idxs = foldl (best procs ft) v idxs.
Proof.
  revert v. induction idxs as [|j idxs IH]; intros v Hi; [done|]. simpl.
  apply not_elem_of_cons in Hi as [Hne Hi]. rewrite IH by done. f_equal.
  unfold best. by rewrite list_lookup_total_alter_ne.
Qed.

(** The first turn: no early exit. *)
Lemma clock_sweep_first passes rest vi vl s :
  Forall (fun p => p < Z.of_nat MAXFRAMES) passes -> (length passes <= MAXFRAMES)%nat ->
  0 <= k_hand s < Z.of_nat MAXFRAMES ->
  let order := clock_order (length passes) (k_hand s) in
  let v := foldl (best (k_proc s) (k_ft s)) (vi, vl) order in
  clock_sweep (passes ++ rest) vi vl s =
    clock_sweep rest v.1 v.2
      (set_k_hand ((k_hand s + Z.of_nat (length passes)) mod Z.of_nat MAXFRAMES)
        (set_k_ft (unref_all order (k_ft s)) s)).
Proof.
  cbv zeta. revert vi vl s. induction passes as [|p passes IH]; intros vi vl s Hp Hn Hh.
  { simpl. rewrite Z.add_0_r, Z.mod_small by done. by destruct s. }
  apply Forall_cons in Hp as [Hp Hps]. cbn [length] in Hn.
  pose proof (NoDup_clock_order (length (p :: passes)) _ Hh ltac:(simpl; lia)) as Hnd.
  cbn [length clock_order] in Hnd. apply NoDup_cons in Hnd as [Hnotin _].
  pose proof (Z.mod_pos_bound (k_hand s + 1) (Z.of_nat MAXFRAMES) ltac:(done)) as Hb.
  cbn [app clock_sweep]. rewrite bind_gets. cbv zeta. rewrite bind_modify.
  unfold getframe. rewrite bind_gets. ksimp. rewrite (Z.mod_small (k_hand s)) by done.
  set (i := Z.to_nat (k_hand s)) in *. set (e := k_ft s !!! i) in *.
  set (h1 := (k_hand s + 1) mod Z.of_nat MAXFRAMES) in *.
  assert (forall v, clock_sweep (passes ++ rest) v.1 v.2 (set_k_hand h1 (set_k_ft (alter unref i (k_ft s)) s)) =
    clock_sweep rest (foldl (best (k_proc s) (k_ft s)) v (clock_order (length passes) h1)).1
      (foldl (best (k_proc s) (k_ft s)) v (clock_order (length passes) h1)).2
      (set_k_hand ((k_hand s + Z.of_nat (S (length passes))) mod Z.of_nat MAXFRAMES)
        (set_k_ft (unref_all (i :: clock_order (length passes) h1) (k_ft s)) s))) as Hnext.
  { intros [vi' vl']. cbn [fst snd]. rewrite IH by (done || lia). ksimp.
    rewrite best_alter by done. unfold h1. rewrite Zplus_mod_idemp_l.
    by replace (k_hand s + 1 + Z.of_nat (length passes)) with (k_hand s + Z.of_nat (S (length passes))) by lia. }
  cbn [length foldl clock_order]. fold i. rewrite <- unref_step in Hnext. fold e h1 in Hnext |- *.
  unfold best at 2 4, candidate. fold e.
  destruct (nz (fe_used e)) eqn:Hu; cbn [negb andb] in *.
  - destruct (fe_ref_bit e =? 1) eqn:Hr; cbn [negb andb].
    + unfold updframe. rewrite bind_modify. ksimp. apply (Hnext (vi, vl)).
    + rewrite (bind_done _ _ _ _ _ (mlfq_level_of_eq _ _)). ksimp.
      rewrite (proj2 (Z.leb_gt _ p)), andb_false_r by done. cbn [snd].
      replace (set_k_ft (k_ft s) s) with s in Hnext by (by destruct s).
      specialize (Hnext (if vl <? level_of (k_proc s) (fe_pid e)
        then (Z.of_nat i, level_of (k_proc s) (fe_pid e)) else (vi, vl))).
      replace (k_hand s) with (Z.of_nat i) at 1 by lia.
      destruct (vl <? _); exact Hnext.
  - replace (set_k_ft (k_ft s) s) with s in Hnext by (by destruct s). apply (Hnext (vi, vl)).
Qed.

Definition ft_used (ft : list frame_entry) (i : nat) : bool := nz (fe_used (ft !!! i)).

(** The second turn stops at the first used frame it meets. *)
Lemma clock_sweep_second passes vi vl s :
  Forall (fun p => Z.of_nat MAXFRAMES <= p) passes ->
  0 <= k_hand s < Z.of_nat MAXFRAMES ->
  (forall i, (i < MAXFRAMES)%nat -> ft_used (k_ft s) i = true -> fe_ref_bit (k_ft s !!! i) <> 1) ->
  Forall (fun p => 0 <= p_mlfq_level p) (k_proc s) -> 0 <= vi \/ vl = -1 ->
  exists h, 0 <= h < Z.of_nat MAXFRAMES /\
    clock_sweep passes vi vl s =
      Done (match List.find (ft_used (k_ft s)) (clock_order (length passes) (k_hand s)) with
            | Some i => if vl <? level_of (k_proc s) (fe_pid (k_ft s !!! i)) then Z.of_nat i else vi
            | None => vi
            end) (set_k_hand h s).
Proof.
  revert s. induction passes as [|p passes IH]; intros s Hp Hh Href Hlv Hv.
  { exists (k_hand s). split; [done|]. by destruct s. }
  apply Forall_cons in Hp as [Hp Hps].
  pose proof (Z.mod_pos_bound (k_hand s + 1) (Z.of_nat MAXFRAMES) ltac:(done)) as Hb.
  cbn [clock_sweep length clock_order List.find]. rewrite bind_gets. cbv zeta.
  rewrite bind_modify. unfold getframe. rewrite bind_gets. ksimp.
  rewrite (Z.mod_small (k_hand s)) by done.
  set (i := Z.to_nat (k_hand s)) in *. set (h1 := (k_hand s + 1) mod _) in *.
  unfold ft_used at 1. destruct (nz (fe_used (k_ft s !!! i))) eqn:Hu; cbn [negb].
  - specialize (Href i ltac:(lia) Hu). rewrite (proj2 (Z.eqb_neq _ _) Href).
    rewrite (bind_done _ _ _ _ _ (mlfq_level_of_eq _ _)). ksimp.
    pose proof (level_of_nonneg (k_proc s) (fe_pid (k_ft s !!! i)) Hlv) as Hl.
    exists h1. split; [done|]. rewrite (proj2 (Z.leb_le _ p)) by lia.
    replace (k_hand s) with (Z.of_nat i) by lia.
    destruct (Z.ltb_spec vl (level_of (k_proc s) (fe_pid (k_ft s !!! i)))).
    + by rewrite (proj2 (Z.leb_le 0 _)) by lia.
    + by rewrite (proj2 (Z.leb_le 0 vi)) by lia.
  - destruct (IH (set_k_hand h1 s)) as (h & Hh' & IHeq); [done..|].
    exists h. split; [done|]. rewrite IHeq. ksimp. by destruct s.
Qed.

Lemma unref_idemp e : unref (unref e) = unref e.
Proof.
  unfold unref. destruct (nz (fe_used e) && (fe_ref_bit e =? 1)) eqn:E; [|by rewrite E].
  ksimp. by rewrite andb_false_r.
Qed.

Lemma lookup_unref_all idxs (ft : list frame_entry) (j : nat) :
  unref_all idxs ft !! j = if decide (j ∈ idxs) then unref <$> ft !! j else ft !! j.
Proof.
  revert ft. induction idxs as [|i idxs IH]; intros ft.
  { rewrite decide_False by apply not_elem_of_nil. done. }
  change (unref_all (i :: idxs) ft) with (unref_all idxs (alter unref i ft)). rewrite IH.
  destruct (decide (j = i)) as [->|Hne].
  - rewrite list_lookup_alter_eq, (decide_True _ _ (list_elem_of_here _ _)).
    case_decide; [|done]. destruct (ft !! i); simpl; [by rewrite unref_idemp|done].
  - rewrite list_lookup_alter_ne by done.
    destruct (decide (j ∈ idxs)) as [Hin|Hin].
    + by rewrite decide_True by (apply elem_of_cons; auto).
    + rewrite decide_False; [done|]. by apply not_elem_of_cons.
Qed.

Lemma unref_all_full h ft :
  0 <= h < Z.of_nat MAXFRAMES -> length ft = MAXFRAMES ->
  unref_all (clock_order MAXFRAMES h) ft = unref <$> ft.
Proof.
  intros Hh Hlen. apply list_eq. intros j. rewrite lookup_unref_all, list_lookup_fmap.
  destruct (ft !! j) eqn:Hj; [|by case_decide].
  rewrite decide_True; [done|]. apply clock_order_full; [done|].
  rewrite <- Hlen. by eapply lookup_lt_Some.
Qed.

(** The best candidate of a list of frames. *)
Lemma best_spec procs ft idxs v :
  let r := foldl (best procs ft) v idxs in
  (r = v \/ exists i, i ∈ idxs /\ candidate (ft !!! i) = true /\
     r = (Z.of_nat i, level_of procs (fe_pid (ft !!! i)))) /\ v.2 <= r.2 /\
  forall j, j ∈ idxs -> candidate (ft !!! j) = true -> level_of procs (fe_pid (ft !!! j)) <= r.2.
Proof.
  revert v. induction idxs as [|i idxs IH]; intros v; cbv zeta.
  { split_and!; [by left|done|by intros j ?%not_elem_of_nil]. }
  cbn [foldl]. destruct (IH (best procs ft v i)) as (Hr & Hmono & Hall).
  assert (v.2 <= (best procs ft v i).2 /\
    (candidate (ft !!! i) = true -> level_of procs (fe_pid (ft !!! i)) <= (best procs ft v i).2)) as [Hm Hi].
  { unfold best. destruct (candidate (ft !!! i)); cbn [andb]; [|split; [lia|done]].
    destruct (Z.ltb_spec v.2 (level_of procs (fe_pid (ft !!! i)))); simpl; lia. }
  split_and!.
  - destruct Hr as [Hr|(k & Hk & Hc & Hr)].
    + rewrite Hr. unfold best. destruct (candidate (ft !!! i) && _) eqn:E; [|by left].
      right. exists i. apply andb_true_iff in E as [E _].
      split_and!; [apply list_elem_of_here|done..].
    + right. exists k. split; [by apply elem_of_cons; right|done].
  - lia.
  - intros j [->|Hj]%elem_of_cons Hc; [specialize (Hi Hc); lia|by apply Hall].
Qed.

(** The victim of the sweep: the best frame with a clear reference bit, unless
    the first used frame after the hand has a higher level. *)
Definition clock_victim (procs : list proc) (ft : list frame_entry) (h : Z) : option nat :=
  let order := clock_order MAXFRAMES h in
  match List.find (ft_used ft) order with
  | None => None
  | Some u =>
      let v := foldl (best procs ft) (-1, -1) order in
      if v.2 <? level_of procs (fe_pid (ft !!! u)) then Some u else Some (Z.to_nat v.1)
  end.

Lemma lookup_total_unref (ft : list frame_entry) (i : nat) : (unref <$> ft) !!! i = unref (ft !!! i).
Proof.
  rewrite !list_lookup_total_alt, list_lookup_fmap. by destruct (ft !! i).
Qed.

Lemma unref_fields e :
  fe_used (unref e) = fe_used e /\ fe_pid (unref e) = fe_pid e /\
  fe_va (unref e) = fe_va e /\ fe_pa (unref e) = fe_pa e /\
  (nz (fe_used e) = true -> fe_ref_bit (unref e) <> 1).
Proof.
  unfold unref. destruct (nz (fe_used e) && (fe_ref_bit e =? 1)) eqn:E; ksimp; split_and!; try done.
  intros Hu. rewrite Hu in E. cbn [andb] in E. by apply Z.eqb_neq.
Qed.

Lemma ft_used_unref (ft : list frame_entry) l :
  List.find (ft_used (unref <$> ft)) l = List.find (ft_used ft) l.
Proof.
  induction l as [|i l IH]; [done|]. simpl. rewrite IH. unfold ft_used.
  by rewrite lookup_total_unref, (proj1 (unref_fields _)).
Qed.

(** The level of the process that owns frame [j]. *)
Definition frame_level (s : kst) (j : nat) : Z := level_of (k_proc s) (fe_pid (k_ft s !!! j)).

Section Sweep.
Variable s : kst.
Hypothesis Hwf : ft_wf s.
Hypothesis Hh : 0 <= k_hand s < Z.of_nat MAXFRAMES.
Hypothesis Hlv : Forall (fun p => 0 <= p_mlfq_level p) (k_proc s).

Lemma clock_sweep_eq :
  exists h, 0 <= h < Z.of_nat MAXFRAMES /\
    clock_sweep (seqZ 0 (2 * Z.of_nat MAXFRAMES)) (-1) (-1) s =
      Done (match clock_victim (k_proc s) (k_ft s) (k_hand s) with
            | Some i => Z.of_nat i | None => -1 end)
        (set_k_hand h (set_k_ft (unref <$> k_ft s) s)).
Proof.
  change (2 * Z.of_nat MAXFRAMES) with (Z.of_nat MAXFRAMES + Z.of_nat MAXFRAMES).
  rewrite (seqZ_app 0 (Z.of_nat MAXFRAMES) (Z.of_nat MAXFRAMES)) by lia.
  rewrite clock_sweep_first; [|apply Forall_seqZ; lia|rewrite length_seqZ; lia|done].
  rewrite length_seqZ, Nat2Z.id, unref_all_full by done. cbv zeta.
  replace ((k_hand s + Z.of_nat MAXFRAMES) mod Z.of_nat MAXFRAMES) with (k_hand s)
    by (rewrite <- Z.add_mod_idemp_r, Z.mod_same, Z.add_0_r, Z.mod_small by lia; done).
  set (order := clock_order MAXFRAMES (k_hand s)).
  destruct (best_spec (k_proc s) (k_ft s) order (-1, -1)) as (Hr & Hm & _).
  set (v := foldl _ _ order) in *. cbn [snd] in Hm.
  assert (0 <= v.1 \/ v.2 = -1) as Hv.
  { destruct Hr as [->|(i & _ & _ & ->)]; [by right|left; simpl; lia]. }
  destruct (clock_sweep_second (seqZ (0 + Z.of_nat MAXFRAMES) (Z.of_nat MAXFRAMES)) v.1 v.2
    (set_k_hand (k_hand s) (set_k_ft (unref <$> k_ft s) s))) as (h & Hh' & ->).
  - apply Forall_seqZ. lia.
  - done.
  - ksimp. intros i Hi. unfold ft_used. rewrite lookup_total_unref.
    destruct (unref_fields (k_ft s !!! i)) as (-> & _ & _ & _ & Hd). done.
  - done.
  - done.
  - exists h. split; [done|]. ksimp. rewrite length_seqZ, Nat2Z.id, ft_used_unref. fold order.
    unfold clock_victim. fold order v. f_equal.
    destruct (List.find _ _) as [u|] eqn:Hu.
    + rewrite lookup_total_unref. destruct (unref_fields (k_ft s !!! u)) as (_ & -> & _).
      destruct (Z.ltb_spec v.2 (level_of (k_proc s) (fe_pid (k_ft s !!! u)))); [done|].
      pose proof (level_of_nonneg _ (fe_pid (k_ft s !!! u)) Hlv). lia.
    + destruct Hr as [->|(i & Hi & Hc & _)]; [done|].
      pose proof (List.find_none _ _ Hu i (proj1 (list_elem_of_In _ _) Hi)) as Hn.
      unfold candidate in Hc. unfold ft_used in Hn. by rewrite Hn in Hc.
Qed.

Lemma clock_victim_lt i :
  clock_victim (k_proc s) (k_ft s) (k_hand s) = Some i ->
  (i < MAXFRAMES)%nat /\ ft_used (k_ft s) i = true.
Proof.
  unfold clock_victim. destruct (List.find _ _) as [u|] eqn:Hu; [|done].
  apply List.find_some in Hu as [Hin%list_elem_of_In Hu].
  destruct (best_spec (k_proc s) (k_ft s) (clock_order MAXFRAMES (k_hand s)) (-1, -1)) as (Hr & _ & _).
  set (v := foldl _ _ _) in *. clearbody v.
  destruct (Z.ltb_spec v.2 (level_of (k_proc s) (fe_pid (k_ft s !!! u)))) as [Hlt|Hge]; intros [= <-].
  - split; [by eapply clock_order_lt|done].
  - destruct Hr as [E|(i & Hi & Hc & E)]; rewrite E in *; cbn [fst snd] in *.
    + pose proof (level_of_nonneg _ (fe_pid (k_ft s !!! u)) Hlv). lia.
    + rewrite Nat2Z.id. split; [by eapply clock_order_lt|].
      unfold candidate in Hc. by apply andb_true_iff in Hc as [Hc _].
Qed.

Lemma clock_victim_none :
  clock_victim (k_proc s) (k_ft s) (k_hand s) = None ->
  forall i, (i < MAXFRAMES)%nat -> ft_used (k_ft s) i = false.
Proof.
  unfold clock_victim. destruct (List.find _ _) as [u|] eqn:Hu; [by case_match|]. intros _ i Hi.
  eapply List.find_none; [exact Hu|]. apply list_elem_of_In. by apply clock_order_full.
Qed.

(** Which frame it is: no frame with a clear reference bit has a higher level;
    and it has a set reference bit only when it is the first used frame after
    the hand and every frame with a clear bit has a lower level. *)
Lemma clock_victim_best i :
  clock_victim (k_proc s) (k_ft s) (k_hand s) = Some i ->
  (forall j, (j < MAXFRAMES)%nat -> candidate (k_ft s !!! j) = true -> frame_level s j <= frame_level s i) /\
  (candidate (k_ft s !!! i) = false ->
     List.find (ft_used (k_ft s)) (clock_order MAXFRAMES (k_hand s)) = Some i /\
     forall j, (j < MAXFRAMES)%nat -> candidate (k_ft s !!! j) = true -> frame_level s j < frame_level s i).
Proof.
  unfold clock_victim. destruct (List.find _ _) as [u|] eqn:Hu; [|done].
  destruct (best_spec (k_proc s) (k_ft s) (clock_order MAXFRAMES (k_hand s)) (-1, -1)) as (Hr & _ & Hall).
  set (v := foldl _ _ _) in *. clearbody v. intros Hi.
  assert (forall j, (j < MAXFRAMES)%nat -> candidate (k_ft s !!! j) = true -> frame_level s j <= v.2) as Hmax
    by (intros j Hj; apply Hall; by apply clock_order_full).
  destruct (Z.ltb_spec v.2 (level_of (k_proc s) (fe_pid (k_ft s !!! u)))) as [Hlt|Hge]; simplify_eq.
  - change (level_of _ _) with (frame_level s i) in Hlt. split.
    + intros j Hj Hc. specialize (Hmax j Hj Hc). lia.
    + intros _. split; [done|]. intros j Hj Hc. specialize (Hmax j Hj Hc). lia.
  - destruct Hr as [E|(i & Hin & Hc & E)]; rewrite E in *; cbn [fst snd] in *.
    + pose proof (level_of_nonneg _ (fe_pid (k_ft s !!! u)) Hlv). lia.
    + rewrite Nat2Z.id. split; [done|]. intros Hn. by rewrite Hn in Hc.
Qed.

End Sweep.

Lemma first_used_none s :
  ft_wf s -> (forall i, (i < MAXFRAMES)%nat -> ft_used (k_ft s) i = false) ->
  first_used s = Done (-1) s.
Proof.
  intros Hlen Hn. unfold first_used, gets. destruct (index_of _ _) as [i|] eqn:Hi; [|done].
  pose proof (index_of_lt _ _ _ Hi) as Hlt. apply index_of_Some in Hi as [(e & He & Hu) _].
  rewrite Hlen in Hlt. specialize (Hn i Hlt). unfold ft_used in Hn.
  rewrite list_lookup_total_alt, He in Hn. simpl in Hn. congruence.
Qed.

Section Evict.
Context `{KernelImage}.

Lemma evict_frame_unref e s : evict_frame (unref e) s = evict_frame e s.
Proof.
  unfold evict_frame. by destruct (unref_fields e) as (_ & -> & -> & -> & _).
Qed.

(** What [clock_evict] does up to the release of [ftlock]. *)
Lemma clock_evict_eq s :
  ft_wf s -> 0 <= k_hand s < Z.of_nat MAXFRAMES ->
  Forall (fun p => 0 <= p_mlfq_level p) (k_proc s) -> Lftlock ∉ k_held s ->
  exists h, 0 <= h < Z.of_nat MAXFRAMES /\
  clock_evict s =
    match clock_victim (k_proc s) (k_ft s) (k_hand s) with
    | None => Done 0 (set_k_hand h (set_k_ft (unref <$> k_ft s) s))
    | Some i => evict_frame (k_ft s !!! i)
                  (set_k_hand h (set_k_ft (alter clear_frame i (unref <$> k_ft s)) s))
    end.
Proof.
  intros Hwf Hh Hlv Hl.
  destruct (clock_sweep_eq (set_k_held (Lftlock :: k_held s) s)) as (h & Hh' & Hsw); [done..|].
  exists h. split; [done|]. unfold clock_evict. rewrite bind_acquire by done.
  rewrite (bind_done _ _ _ _ _ Hsw). ksimp.
  pose proof (clock_victim_lt s Hh Hlv) as Hlt. pose proof (clock_victim_none s Hh) as Hnone.
  destruct (clock_victim (k_proc s) (k_ft s) (k_hand s)) as [i|].
  - rewrite (proj2 (Z.ltb_ge (Z.of_nat i) 0)) by lia. rewrite bind_ret.
    rewrite (proj2 (Z.ltb_ge (Z.of_nat i) 0)) by lia.
    unfold getframe, updframe. rewrite bind_gets, bind_modify. ksimp.
    erewrite bind_release by done. ksimp. rewrite Nat2Z.id, lookup_total_unref, evict_frame_unref.
    by destruct s.
  - rewrite (proj2 (Z.ltb_lt (-1) 0)) by lia.
    erewrite bind_done; cycle 1.
    { apply first_used_none; unfold ft_wf; ksimp; [by rewrite length_fmap|].
      intros i Hi. unfold ft_used. rewrite lookup_total_unref, (proj1 (unref_fields _)).
      by apply Hnone. }
    rewrite (proj2 (Z.ltb_lt (-1) 0)) by lia. erewrite bind_release by done. by destruct s.
Qed.
End Evict.

Lemma unref_unused s :
  ft_wf s -> (forall i, (i < MAXFRAMES)%nat -> ft_used (k_ft s) i = false) ->
  unref <$> k_ft s = k_ft s.
Proof.
  intros Hwf Hn. apply list_eq. intros i. rewrite list_lookup_fmap.
  destruct (k_ft s !! i) as [e|] eqn:He; [|done]. simpl. f_equal.
  pose proof (lookup_lt_Some _ _ _ He) as Hlt. rewrite Hwf in Hlt. specialize (Hn i Hlt).
  unfold ft_used in Hn. rewrite list_lookup_total_alt, He in Hn. unfold unref. simpl in Hn.
  by rewrite Hn.
Qed.


(** Three frames in use: two of process 7 (level 1), one of process 8 (level 3)
    that was referenced, and the hand before them. *)
Definition clock_demo : kst :=
  set_k_ft (<[5%nat := set_fe_pid 7 (set_fe_used 1 frame0)]>
           (<[9%nat := set_fe_ref_bit 1 (set_fe_pid 8 (set_fe_used 1 frame0))]>
           (<[70%nat := set_fe_pid 7 (set_fe_used 1 frame0)]> (replicate MAXFRAMES frame0))))
   (set_k_proc (<[2%nat := set_p_mlfq_level 1 (set_p_pid 7 proc0)]>
               (<[3%nat := set_p_mlfq_level 3 (set_p_pid 8 proc0)]> (replicate NPROC proc0)))
     (kst0 (fun _ => 0) [])).


(* ------------------------------------------------------------------ *)
(** ** The page-table entry of an evicted page *)

Definition swap_entry (slot : Z) : Z := Z.lor (u64 (Z.shiftl slot 10)) PTE_SWAPPED.

Lemma swap_entry_decode slot :
  0 <= slot < Z.of_nat MAX_SWAP_SLOTS ->
  PTE_SWAP_SLOT (swap_entry slot) = slot /\ pte_valid (swap_entry slot) = false /\
  nz (Z.land (swap_entry slot) PTE_SWAPPED) = true /\ 0 <= swap_entry slot < 2 ^ 64.
Proof.
  intros Hs. assert (swap_entry slot = slot * 1024 + 256) as E.
  { unfold swap_entry. rewrite u64_small.
    - by apply (lor_shiftl_low slot 256 10).
    - rewrite Z.shiftl_mul_pow2 by lia. lia. }
  split_and!; [| | |lia|lia].
  - unfold PTE_SWAP_SLOT. rewrite E, u64_small by lia. rewrite Z.shiftr_div_pow2 by lia.
    change 0x3FFFF with (Z.ones 18). rewrite Z.land_ones by lia. change (2 ^ 10) with 1024.
    rewrite Z.div_add_l by lia. change (256 / 1024) with 0. rewrite Z.add_0_r.
    apply Z.mod_small. lia.
  - unfold pte_valid. change PTE_V with (2 ^ 0). rewrite nz_land_pow2 by lia.
    unfold swap_entry. rewrite Z.lor_spec, u64_small, Z.shiftl_spec by (rewrite ?Z.shiftl_mul_pow2; lia).
    by rewrite Z.testbit_neg_r.
  - change PTE_SWAPPED with (2 ^ 8). rewrite nz_land_pow2 by lia.
    unfold swap_entry. rewrite Z.lor_spec. apply orb_true_r.
Qed.

(** What eviction does to the statistics of the owner. *)
Definition evict_stats (p : proc) : proc :=
  set_p_resident_pages (p_resident_pages p - 1)
    (set_p_pages_swapped_out (p_pages_swapped_out p + 1)
      (set_p_pages_evicted (p_pages_evicted p + 1) p)).

Section EvictFrame.
Context `{ImageOk}.

(** The state after a mapped page [pa] of process [o] was evicted to [slot]. *)
Record evicted (s s' : kst) (e : frame_entry) (o slot : nat) (root : Z) (ps : list Z) : Prop := {
  ev_inv : vm_inv s' root (fe_pa e :: ps);
  ev_swap : k_swap s' = alter (filled_slot (mread (k_mem s) (fe_pa e) PGSIZE) (fe_pid e) (fe_va e))
    slot (k_swap s);
  ev_proc : k_proc s' = alter evict_stats o (k_proc s);
  ev_held : k_held s' = k_held s;
  ev_rest : k_ft s' = k_ft s /\ k_hand s' = k_hand s /\ k_cur s' = k_cur s;
  ev_lookup : forall va, 0 <= va < MAXVA -> aligned va ->
    lookup_pte (k_mem s') root va =
      if va =? fe_va e then swap_entry (Z.of_nat slot) else lookup_pte (k_mem s) root va;
}.

Lemma evict_frame_ok s e o slot root ps :
  index_of slot_free (k_swap s) = Some slot -> swap_wf s ->
  index_of (fun p => p_pid p =? fe_pid e) (k_proc s) = Some o ->
  p_pagetable (k_proc s !!! o) = root -> vm_inv s root ps ->
  0 <= fe_va e < MAXVA -> aligned (fe_va e) ->
  pte_valid (lookup_pte (k_mem s) root (fe_va e)) = true ->
  kpage (fe_pa e) -> fe_pa e ∉ ps -> not_table (k_mem s) root (fe_pa e) ->
  Lswap_lock ∉ k_held s -> Lkmem ∉ k_held s ->
  runs (evict_frame e) s (fun r s' => r = fe_pa e /\ evicted s s' e o slot root ps).
Proof.
  intros Hsl Hswf Ho Hroot Hi Hva Hal Hv Hp Hnp Hnt Hl1 Hl2. unfold evict_frame.
  pose proof (index_of_lt _ _ _ Hsl) as Hlt. rewrite Hswf in Hlt.
  apply runs_bind. eapply runs_done; [by apply swap_out_some|].
  rewrite (proj2 (Z.ltb_ge _ 0)) by lia.
  apply runs_bind. eapply runs_done; [done|]. ksimp. rewrite Ho.
  unfold lookup_pte in Hv. destruct (table_at (k_mem s) root (va_path (fe_va e))) as [t|] eqn:Ht; [|done].
  pose proof (pt_kpage _ _ (vi_wf _ _ _ Hi) _ _ (va_path_ok _) Ht) as Hkt.
  apply runs_bind. unfold getproc. apply runs_bind. eapply runs_done; [done|]. ksimp.
  rewrite Hroot. apply runs_bind. eapply runs_done; [apply walk_noalloc; lia|]. ksimp. rewrite Ht.
  rewrite pte_addr_nz by auto with kern. cbn [negb].
  unfold kload64, kstore64, updproc. apply runs_bind. apply runs_bind. eapply runs_done; [done|].
  ksimp. rewrite pte_valid_nz. unfold pte in Hv. rewrite Hv. cbn [when].
  eapply runs_done; [done|]. eapply runs_done; [done|]. fold (swap_entry (Z.of_nat slot)). ksimp.
  destruct (swap_entry_decode (Z.of_nat slot)) as (_ & _ & _ & Hrng); [lia|].
  set (m1 := store64 (k_mem s) (pte_addr t (PX 0 (fe_va e))) (swap_entry (Z.of_nat slot))).
  pose proof (vm_inv_store_leaf s root ps (fe_va e) t (swap_entry (Z.of_nat slot)) Hi Ht) as Hi1.
  fold m1 in Hi1.
  apply runs_bind. eapply runs_done; [by apply kfree_eq|]. apply runs_ret. split; [done|]. ksimp.
  destruct (vm_inv_free (set_k_mem m1 s) root (fe_pa e) ps) as [Hi2 Hlk2]; [done..| |].
  { intros r Hr. ksimp. unfold m1. 
    rewrite (table_at_store_leaf _ _ (va_path (fe_va e))) by eauto using vi_wf with kern. by apply Hnt. }
  split; ksimp; try done.
  - destruct Hi2 as [(Hc & Hps) Hw Hf]. by split.
  - intros va Hva' Hal'. ksimp in Hlk2. rewrite Hlk2. unfold m1.
    rewrite (lookup_pte_store _ _ _ t) by eauto using vi_wf. done.
Qed.
End EvictFrame.
