(* ===== verification/Vm.v ===== *)
(** * Virtual memory ([kernel/vm.c], second part; [proc_mapstacks] of
    [kernel/proc.c])

    User memory: unmapping, growing, copying and freeing address spaces,
    page faults with lazy allocation and swap-in, and the copies between
    user and kernel memory. *)

From S2P Require Import Prelude Machine KState Spinlock Kalloc Swap Walk FrameTable.
Local Open Scope Z_scope.
Local Open Scope kern_scope.

Section Vm.
Context `{KernelImage}.

(* ---------------------------------------------------------------- *)
(** ** Kernel page table *)

Definition proc_mapstacks (kpgtbl : Z) : K unit :=
  for_each (seq 0 NPROC) (fun i =>
    pa <- kalloc ;;
    if pa =? 0 then panic "kalloc"
    else kvmmap kpgtbl (KSTACK (Z.of_nat i)) pa PGSIZE (Z.lor PTE_R PTE_W)).

Definition kvmmake : K Z :=
  kpgtbl <- kalloc ;;
  kmemset kpgtbl 0 PGSIZE ;;;
  kvmmap kpgtbl UART0 UART0 PGSIZE (Z.lor PTE_R PTE_W) ;;;
  kvmmap kpgtbl VIRTIO0 VIRTIO0 PGSIZE (Z.lor PTE_R PTE_W) ;;;
  kvmmap kpgtbl PLIC PLIC 0x4000000 (Z.lor PTE_R PTE_W) ;;;
  kvmmap kpgtbl KERNBASE KERNBASE (etext - KERNBASE) (Z.lor PTE_R PTE_X) ;;;
  kvmmap kpgtbl etext etext (PHYSTOP - etext) (Z.lor PTE_R PTE_W) ;;;
  kvmmap kpgtbl TRAMPOLINE trampoline PGSIZE (Z.lor PTE_R PTE_X) ;;;
  proc_mapstacks kpgtbl ;;;
  ret kpgtbl.

Definition kvminit : K unit :=
  kpgtbl <- kvmmake ;;
  modify (set_k_kpgtbl kpgtbl).

Definition MAKE_SATP (pagetable : Z) : Z :=
  Z.lor (Z.shiftl 8 60) (Z.shiftr pagetable 12).

Definition kvminithart : K unit :=
  modify (fun s => set_k_hw (set_h_satp (MAKE_SATP (k_kpgtbl s)) (k_hw s)) s).

(* ---------------------------------------------------------------- *)
(** ** Address spaces *)

Definition uvmunmap (pagetable va npages : Z) (do_free : bool) : K unit :=
  if nz (va mod PGSIZE) then panic "uvmunmap: not aligned"
  else
    for_upto (R := Empty_set) (S (Z.to_nat npages)) va (u64 (va + npages * PGSIZE)) PGSIZE (fun a =>
      pte <- walk pagetable a false ;;
      if pte =? 0 then ret None
      else
        e <- kload64 pte ;;
        if Z.land e PTE_V =? 0 then
          if nz (Z.land e PTE_SWAPPED) then
            swap_free (PTE_SWAP_SLOT e) ;;;
            kstore64 pte 0 ;;;
            ret None
          else if e =? 0 then ret None
          else panic "uvmunmap: not mapped"
        else if PTE_FLAGS e =? PTE_V then panic "uvmunmap: not a leaf"
        else
          when do_free
            (let pa := PTE2PA e in
             frametable_remove pa ;;;
             kfree pa) ;;;
          kstore64 pte 0 ;;;
          ret None) ;;;
    ret tt.

Definition uvmdealloc (pagetable oldsz newsz : Z) : K Z :=
  if oldsz <=? newsz then ret oldsz
  else
    (if PGROUNDUP newsz <? PGROUNDUP oldsz then
       let npages := i32 ((PGROUNDUP oldsz - PGROUNDUP newsz) / PGSIZE) in
       uvmunmap pagetable (PGROUNDUP newsz) (u64 npages) true
     else ret tt) ;;;
    ret newsz.

Definition uvmalloc (pagetable oldsz newsz xperm : Z) : K Z :=
  if newsz <? oldsz then ret oldsz
  else
    let oldsz := PGROUNDUP oldsz in
    o <- for_upto (S (Z.to_nat ((newsz - oldsz + PGSIZE - 1) / PGSIZE))) oldsz newsz PGSIZE (fun a =>
           mem <- kalloc ;;
           if mem =? 0 then
             uvmdealloc pagetable a oldsz ;;;
             ret (Some 0)
           else
             kmemset mem 0 PGSIZE ;;;
             r <- mappages pagetable a PGSIZE mem (Z.lor (Z.lor PTE_R PTE_U) xperm) ;;
             if negb (r =? 0) then
               kfree mem ;;;
               uvmdealloc pagetable a oldsz ;;;
               ret (Some 0)
             else ret None) ;;
    match o with
    | Some r => ret r
    | None => ret newsz
    end.

(** The recursion follows the page-table levels; [depth] bounds it. *)
Fixpoint freewalk_depth (depth : nat) (pagetable : Z) : K unit :=
  match depth with
  | O => fun _ => Spin
  | S depth =>
      for_each (seqZ 0 512) (fun i =>
        pte <- kload64 (pte_addr pagetable i) ;;
        if nz (Z.land pte PTE_V) && (Z.land pte (Z.lor (Z.lor PTE_R PTE_W) PTE_X) =? 0) then
          freewalk_depth depth (PTE2PA pte) ;;;
          kstore64 (pte_addr pagetable i) 0
        else if nz (Z.land pte PTE_V) then panic "freewalk: leaf"
        else ret tt) ;;;
      kfree pagetable
  end.
Definition freewalk (pagetable : Z) : K unit := freewalk_depth 3 pagetable.

Definition uvmfree (pagetable sz : Z) : K unit :=
  (if 0 <? sz then uvmunmap pagetable 0 (PGROUNDUP sz / PGSIZE) true else ret tt) ;;;
  freewalk pagetable.

Definition uvmcopy (old new sz : Z) : K Z :=
  o <- for_upto (S (Z.to_nat ((sz + PGSIZE - 1) / PGSIZE))) 0 sz PGSIZE (fun i =>
         pte <- walk old i false ;;
         if pte =? 0 then ret None
         else
           e <- kload64 pte ;;
           if Z.land e PTE_V =? 0 then ret None
           else
             let pa := PTE2PA e in
             let flags := PTE_FLAGS e in
             mem <- kalloc ;;
             if mem =? 0 then ret (Some i)
             else
               kmemmove mem pa PGSIZE ;;;
               r <- mappages new i PGSIZE mem flags ;;
               if negb (r =? 0) then kfree mem ;;; ret (Some i)
               else ret None) ;;
  match o with
  | None => ret 0
  | Some i => uvmunmap new 0 (i / PGSIZE) true ;;; ret (-1)
  end.

(* ---------------------------------------------------------------- *)
(** ** Page faults *)

Definition kalloc_or_evict : K Z :=
  used <- frametable_used ;;
  ok <- (if Z.of_nat MAXFRAMES <=? used then
           freed <- clock_evict ;; ret (negb (freed =? 0))
         else ret true) ;;
  if negb ok then ret 0
  else
    mem <- kalloc ;;
    if mem =? 0 then
      freed <- clock_evict ;;
      if freed =? 0 then ret 0 else kalloc
    else ret mem.

Definition vmfault_alloc (pagetable va : Z) (read : bool) : K Z :=
  p <- curproc ;;
  pr <- getproc p ;;
  if p_sz pr <=? va then ret 0
  else
    let va := PGROUNDDOWN va in
    mapped <- ismapped pagetable va ;;
    if nz mapped then ret 0
    else
      mem <- kalloc_or_evict ;;
      if mem =? 0 then ret 0
      else
        kmemset mem 0 PGSIZE ;;;
        pr <- getproc p ;;
        r <- mappages (p_pagetable pr) va PGSIZE mem (Z.lor (Z.lor PTE_W PTE_U) PTE_R) ;;
        if negb (r =? 0) then kfree mem ;;; ret 0
        else
          frametable_add mem (p_pid pr) va ;;;
          ret mem.

(** Permissions [vmfault] gives every page it maps. *)
Definition fault_perm : Z := Z.lor (Z.lor (Z.lor PTE_W PTE_R) PTE_X) PTE_U.

Definition vmfault (pagetable va : Z) (is_load : bool) : K Z :=
  cur <- myproc ;;
  match cur with
  | None => ret 0
  | Some p =>
      let page_va := PGROUNDDOWN va in
      pr <- getproc p ;;
      if p_sz pr <=? page_va then ret 0
      else
        pte <- walk pagetable page_va false ;;
        e <- (if pte =? 0 then ret 0 else kload64 pte) ;;
        if negb (pte =? 0) && negb (nz (Z.land e PTE_V)) && nz (Z.land e PTE_SWAPPED) then
          let slot := PTE_SWAP_SLOT e in
          mem <- kalloc_or_evict ;;
          if mem =? 0 then ret 0
          else
            r <- swap_in slot mem ;;
            if r <? 0 then kfree mem ;;; ret 0
            else
              swap_free slot ;;;
              r <- mappages pagetable page_va PGSIZE mem fault_perm ;;
              if r <? 0 then kfree mem ;;; ret 0
              else
                frametable_add mem (p_pid pr) page_va ;;;
                updproc p (fun q => set_p_pages_swapped_in (p_pages_swapped_in q + 1)
                  (set_p_page_faults (p_page_faults q + 1) q)) ;;;
                ret 1
        else
          mem <- kalloc_or_evict ;;
          if mem =? 0 then ret 0
          else
            kmemset mem 0 PGSIZE ;;;
            r <- mappages pagetable page_va PGSIZE mem fault_perm ;;
            if r <? 0 then kfree mem ;;; ret 0
            else
              frametable_add mem (p_pid pr) page_va ;;;
              updproc p (fun q => set_p_resident_pages (p_resident_pages q + 1)
                (set_p_page_faults (p_page_faults q + 1) q)) ;;;
              ret 1
  end.

(* ---------------------------------------------------------------- *)
(** ** Copies between user and kernel memory *)

(** [src] holds the [len] bytes to copy. *)
Definition copyout_step (pagetable : Z) (x : Z * list Z) : K (Z * list Z + Z) :=
  let '(dstva, src) := x in
  if (length src =? 0)%nat then ret (inr 0)
  else
    let va0 := PGROUNDDOWN dstva in
    if MAXVA <=? va0 then ret (inr (-1))
    else
      pa <- walkaddr pagetable va0 ;;
      pa0 <- (if pa =? 0 then vmfault_alloc pagetable va0 false else ret pa) ;;
      if pa0 =? 0 then ret (inr (-1))
      else
        pte <- walk pagetable va0 false ;;
        e <- kload64 pte ;;
        if Z.land e PTE_W =? 0 then ret (inr (-1))
        else
          let n := Z.min (PGSIZE - (dstva - va0)) (Z.of_nat (length src)) in
          kwrite (pa0 + (dstva - va0)) (take (Z.to_nat n) src) ;;;
          ret (inl (u64 (va0 + PGSIZE), drop (Z.to_nat n) src)).
Definition copyout (pagetable dstva : Z) (src : list Z) : K Z :=
  loop (S (length src)) (copyout_step pagetable) (dstva, src).

(** Returns the C result and the bytes copied before it was known. *)
Definition copyin_step (pagetable : Z) (x : Z * Z * list Z) :
    K (Z * Z * list Z + Z * list Z) :=
  let '(srcva, len, dst) := x in
  if len <=? 0 then ret (inr (0, dst))
  else
    let va0 := PGROUNDDOWN srcva in
    pa <- walkaddr pagetable va0 ;;
    pa0 <- (if pa =? 0 then vmfault_alloc pagetable va0 false else ret pa) ;;
    if pa0 =? 0 then ret (inr (-1, dst))
    else
      let n := Z.min (PGSIZE - (srcva - va0)) len in
      bs <- kread (pa0 + (srcva - va0)) n ;;
      ret (inl (u64 (va0 + PGSIZE), len - n, dst ++ bs)).
Definition copyin (pagetable srcva len : Z) : K (Z * list Z) :=
  loop (S (Z.to_nat len)) (copyin_step pagetable) (srcva, len, []).

(** The bytes up to and including the first NUL, and whether there is one:
    the inner loop of [copyinstr] over a page. *)
Fixpoint upto_nul (bs : list Z) : list Z * bool :=
  match bs with
  | [] => ([], false)
  | b :: bs =>
      if b =? 0 then ([0], true)
      else let '(r, f) := upto_nul bs in (b :: r, f)
  end.

Definition copyinstr_step (pagetable : Z) (x : Z * Z * list Z) :
    K (Z * Z * list Z + Z * list Z) :=
  let '(srcva, max, dst) := x in
  if max <=? 0 then ret (inr (-1, dst))
  else
    let va0 := PGROUNDDOWN srcva in
    pa0 <- walkaddr pagetable va0 ;;
    if pa0 =? 0 then ret (inr (-1, dst))
    else
      let n := Z.min (PGSIZE - (srcva - va0)) max in
      bs <- kread (pa0 + (srcva - va0)) n ;;
      let '(got, nul) := upto_nul bs in
      if nul then ret (inr (0, dst ++ got))
      else ret (inl (u64 (va0 + PGSIZE), max - n, dst ++ got)).
Definition copyinstr (pagetable srcva max : Z) : K (Z * list Z) :=
  loop (S (Z.to_nat max)) (copyinstr_step pagetable) (srcva, max, []).

Definition either_copyout (user_dst : bool) (dst : Z) (src : list Z) : K Z :=
  if user_dst then
    p <- curproc ;;
    pr <- getproc p ;;
    copyout (p_pagetable pr) dst src
  else kwrite dst src ;;; ret 0.

Definition either_copyin (user_src : bool) (src len : Z) : K (Z * list Z) :=
  if user_src then
    p <- curproc ;;
    pr <- getproc p ;;
    copyin (p_pagetable pr) src len
  else bs <- kread src len ;; ret (0, bs).
End Vm.

(* ------------------------------------------------------------------ *)
(** ** Page faults on swapped-out pages *)

Section Fault.
Context `{ImageOk}.

Lemma kalloc_or_evict_free s p ps :
  kmem_inv s (p :: ps) -> count_used (k_ft s) < Z.of_nat MAXFRAMES ->
  Lkmem ∉ k_held s -> Lftlock ∉ k_held s ->
  kalloc_or_evict s = Done p (set_k_freelist (load64 (k_mem s) p)
    (set_k_mem (mset (k_mem s) p 5 PGSIZE) s)).
Proof.
  intros Hk Hc Hl1 Hl2. unfold kalloc_or_evict.
  rewrite (bind_done _ _ _ _ _ (frametable_used_eq _ Hl2)).
  rewrite (proj2 (Z.leb_gt _ _)) by done. rewrite bind_ret. cbn [negb].
  rewrite (bind_done _ _ _ _ _ (kalloc_some _ _ _ Hk Hl1)).
  destruct (kmem_inv_pop _ _ _ Hk) as (_ & Hp & _).
  rewrite (proj2 (Z.eqb_neq p 0)); [done|]. apply nz_true. by apply kpage_nz.
Qed.

(** What a fault on a swapped-out page leaves behind. *)
Record swapped_in (s s' : kst) (root va pg slot : Z) (ps : list Z) : Prop := {
  si_inv : vm_inv s' root ps;
  si_data : mread (k_mem s') pg PGSIZE = ss_data (k_swap s !!! Z.to_nat slot);
  si_lookup : forall va', 0 <= va' < MAXVA -> aligned va' ->
    lookup_pte (k_mem s') root va' =
      if va' =? va then leaf_entry pg fault_perm else lookup_pte (k_mem s) root va';
  si_swap : k_swap s' = alter cleared_slot (Z.to_nat slot) (k_swap s);
}.

(** The bytes of a page outside the tables survive a store to a leaf. *)
Lemma mread_store_leaf s root ps pg va t v :
  vm_inv s root ps -> kpage pg -> not_table (k_mem s) root pg ->
  table_at (k_mem s) root (va_path va) = Some t ->
  mread (store64 (k_mem s) (pte_addr t (PX 0 va)) v) pg PGSIZE = mread (k_mem s) pg PGSIZE.
Proof.
  intros Hi Hp Hnt Ht. apply mread_ext. intros x Hx. apply store_out.
  pose proof (pt_kpage _ _ (vi_wf _ _ _ Hi) _ _ (va_path_ok va) Ht) as Hkt.
  pose proof (pte_addr_in t (PX 0 va) (PX_range 0 va)).
  assert (t <> pg) by (intros ->; by apply (Hnt (va_path va)), Ht; auto with kern).
  destruct (kpage_disj t pg); auto; lia.
Qed.

Lemma lookup_pte_table m root va :
  lookup_pte m root va <> 0 -> exists t, table_at m root (va_path va) = Some t.
Proof. unfold lookup_pte. destruct (table_at _ _ _); [eauto|done]. Qed.

(** Mapping the page [pg] where the last-level table exists. *)
Lemma map_new_page s root ps pg va perm t :
  vm_inv s root ps -> kpage pg -> not_table (k_mem s) root pg -> 0 <= va < MAXVA -> aligned va ->
  0 <= perm < 1024 -> table_at (k_mem s) root (va_path va) = Some t ->
  pte_valid (lookup_pte (k_mem s) root va) = false ->
  exists m, mappages root va PGSIZE pg perm s = Done 0 (set_k_mem m s) /\
    vm_inv (set_k_mem m s) root ps /\ mread m pg PGSIZE = mread (k_mem s) pg PGSIZE /\
    forall va', 0 <= va' < MAXVA -> aligned va' ->
      lookup_pte m root va' = if va' =? va then leaf_entry pg perm else lookup_pte (k_mem s) root va'.
Proof.
  intros Hi Hp Hnt Hva Hal Hperm Ht Hv. eexists. split; [by eapply mappages_present|].
  split; [by apply vm_inv_store_leaf|]. split; [by eapply mread_store_leaf|].
  intros va' Hva' Hal'. destruct (kpage_bounds pg Hp) as (Hpa & ? & ?).
  eapply lookup_pte_store; try done; [by eapply vi_wf|].
  apply leaf_entry_decode; [lia|done..].
Qed.

Lemma vmfault_swapped s i root va pg ps slot t :
  k_cur s = Some i -> 0 <= va < MAXVA -> PGROUNDDOWN va < p_sz (k_proc s !!! i) ->
  vm_inv s root (pg :: ps) -> table_at (k_mem s) root (va_path (PGROUNDDOWN va)) = Some t ->
  lookup_pte (k_mem s) root (PGROUNDDOWN va) = swap_entry slot ->
  0 <= slot < Z.of_nat MAX_SWAP_SLOTS -> ss_used (k_swap s !!! Z.to_nat slot) <> 0 ->
  length (ss_data (k_swap s !!! Z.to_nat slot)) = Z.to_nat PGSIZE ->
  ft_wf s -> count_used (k_ft s) < Z.of_nat MAXFRAMES ->
  Lkmem ∉ k_held s -> Lftlock ∉ k_held s -> Lswap_lock ∉ k_held s ->
  runs (vmfault root va true) s (fun r s' =>
    r = 1 /\ swapped_in s s' root (PGROUNDDOWN va) pg slot ps).
Proof.
  intros Hcur Hva Hsz Hi Ht Hlk Hslot Hused Hlen Hft Hcnt Hl1 Hl2 Hl3.
  set (va0 := PGROUNDDOWN va) in *.
  assert (0 <= va0 < MAXVA) as Hva0.
  { pose proof (PGROUNDDOWN_le va). subst va0. rewrite PGROUNDDOWN_eq in *.
    pose proof (Z.mod_le va PGSIZE). lia. }
  assert (aligned va0) as Hal by apply PGROUNDDOWN_aligned.
  destruct (swap_entry_decode slot Hslot) as (Hdec & Hnv & Hsw & _).
  pose proof (pt_kpage _ _ (vi_wf _ _ _ Hi) _ _ (va_path_ok _) Ht) as Hkt.
  assert (load64 (k_mem s) (pte_addr t (PX 0 va0)) = swap_entry slot) as Hld
    by (unfold lookup_pte in Hlk; by rewrite Ht in Hlk).
  unfold vmfault. apply runs_bind. unfold myproc. eapply runs_done; [done|]. rewrite Hcur. fold va0.
  apply runs_bind. unfold getproc. eapply runs_done; [done|]. rewrite (proj2 (Z.leb_gt _ _)) by lia.
  apply runs_bind. eapply runs_done; [apply walk_noalloc; lia|]. rewrite Ht.
  rewrite pte_addr_nz by auto with kern. apply runs_bind. eapply runs_done; [done|].
  rewrite Hld, pte_valid_nz, Hnv, Hsw, Hdec. cbn [negb andb].
  destruct (vm_inv_alloc _ _ _ _ Hi) as (Hi1 & Hp & Hnp & Hnt1 & Hlk1).
  apply runs_bind. eapply runs_done; [apply (kalloc_or_evict_free _ pg ps); [apply Hi|done..]|].
  rewrite (proj2 (Z.eqb_neq pg 0)) by (apply nz_true; by apply kpage_nz).
  apply runs_bind. eapply runs_done; [apply swap_in_used; done|]. cbn [Z.ltb Z.compare].
  apply runs_bind. eapply runs_done; [apply swap_free_eq; done|]. ksimp.
  set (data := ss_data _) in *. ksimp in Hi1. ksimp in Hnt1. ksimp in Hlk1.
  set (m1 := mset (k_mem s) pg 5 PGSIZE) in *.
  destruct (vm_inv_mem _ root ps pg (mwrite m1 pg data) Hi1) as (Hi2 & Hnt2 & Hlk2);
    [done..|intros x Hx; apply mwrite_out; rewrite Hlen; lia|]. ksimp in Hi2.
  match goal with |- runs _ ?x _ => set (s2 := x) end.
  assert (vm_inv s2 root ps) as Hi3 by (by eapply vm_inv_proj).
  assert (forall va', lookup_pte (k_mem s2) root va' = lookup_pte (k_mem s) root va') as Hlk3
    by (intros; unfold s2; ksimp; by rewrite Hlk2, Hlk1).
  destruct (lookup_pte_table (k_mem s2) root va0) as (t2 & Ht2);
    [rewrite Hlk3, Hlk; intros E; by rewrite E in Hsw|].
  destruct (map_new_page s2 root ps pg va0 fault_perm t2) as (m & Hmap & Hi4 & Hrd & Hlk4);
    [done..|by rewrite Hlk3, Hlk|].
  apply runs_bind. eapply runs_done; [exact Hmap|]. cbn [Z.ltb Z.compare].
  apply runs_bind. eapply runs_done; [by apply frametable_add_eq|].
  apply runs_bind. eapply runs_done; [done|]. apply runs_ret. split; [done|]. split; ksimp.
  - by eapply vm_inv_proj.
  - rewrite Hrd. unfold s2. ksimp. pose proof (mread_mwrite m1 pg data) as Hrw.
    by rewrite Hlen in Hrw.
  - intros va' Hva' Hal'. rewrite Hlk4 by done. by rewrite Hlk3.
  - done.
Qed.
End Fault.

(** Process 3 runs with page 0 of [remap_demo] mapped. *)
Definition evict_demo_frame : frame_entry :=
  set_fe_pa 0x87000000 (set_fe_pid 3 (set_fe_used 1 frame0)).
Definition evict_demo : kst :=
  set_k_cur (Some 1%nat) (set_k_proc (<[1%nat := set_p_sz 0x5000 (set_p_pagetable 0x87ff0000
    (set_p_pid 3 proc0))]> (replicate NPROC proc0)) remap_demo).



(* ------------------------------------------------------------------ *)
(** ** Copying between kernel and user memory *)

(** The physical address behind a user address, and the bytes of a range. *)
Definition uaddr (m : mem) (root va : Z) : Z :=
  user_pa (lookup_pte m root (PGROUNDDOWN va)) + (va - PGROUNDDOWN va).
Definition uread (m : mem) (root va n : Z) : list Z :=
  map (fun i => m (uaddr m root (va + i))) (seqZ 0 n).

Lemma PGROUNDDOWN_same a b :
  PGROUNDDOWN a <= b < PGROUNDDOWN a + PGSIZE -> PGROUNDDOWN b = PGROUNDDOWN a.
Proof. rewrite !PGROUNDDOWN_eq. intros Hb. Z.div_mod_to_equations. lia. Qed.

Lemma PGROUNDDOWN_range a : 0 <= a < MAXVA -> 0 <= PGROUNDDOWN a < MAXVA.
Proof. rewrite PGROUNDDOWN_eq. intros Ha. Z.div_mod_to_equations. lia. Qed.

Lemma length_uread m root va n : length (uread m root va n) = Z.to_nat n.
Proof. unfold uread. by rewrite length_map, length_seqZ. Qed.

Lemma uread_app m root va n k :
  0 <= n -> 0 <= k -> uread m root va (n + k) = uread m root va n ++ uread m root (va + n) k.
Proof.
  intros Hn Hk. unfold uread. rewrite (seqZ_app 0 n k), map_app by done. f_equal.
  rewrite (Z.add_comm 0 n), <- (fmap_add_seqZ n 0 k).
  change (map ?f ?l) with (f <$> l). rewrite <- list_fmap_compose. apply list_fmap_ext.
  intros _ i _. unfold compose. do 2 f_equal. lia.
Qed.

(** Within one page the bytes are consecutive. *)
Lemma uread_page m root va n :
  0 <= n -> va + n <= PGROUNDDOWN va + PGSIZE ->
  uread m root va n = mread m (uaddr m root va) n.
Proof.
  intros Hn Hpg. unfold uread, mread. apply map_ext_in. intros i Hi.
  apply list_elem_of_In, elem_of_seqZ in Hi. f_equal. unfold uaddr.
  pose proof (PGROUNDDOWN_le va). rewrite (PGROUNDDOWN_same va (va + i)) by lia. lia.
Qed.

(** The range [va, va + n) is mapped for the user. *)
Definition user_range (m : mem) (root va n : Z) : Prop :=
  0 <= va /\ va + n <= MAXVA /\
  forall a, va <= a < va + n -> user_pa (lookup_pte m root (PGROUNDDOWN a)) <> 0.

Section Copy.
Context `{ImageOk}.

Lemma user_range_drop m root va n k :
  user_range m root va n -> 0 <= k <= n -> user_range m root (va + k) (n - k).
Proof. intros (H1 & H2 & H3) Hk. split_and!; [lia..|]. intros a Ha. apply H3. lia. Qed.

Lemma copyin_loop root s ps fuel va len dst :
  vm_inv s root ps -> (Z.to_nat len < fuel)%nat -> 0 <= len ->
  (0 < len -> user_range (k_mem s) root va len) ->
  loop fuel (copyin_step root) (va, len, dst) s =
    Done (0, dst ++ uread (k_mem s) root va len) s.
Proof.
  intros Hi. revert va len dst. induction fuel as [|fuel IH]; intros va len dst Hf Hlen Hur; [lia|].
  cbn [loop]. unfold copyin_step at 1. destruct (Z.leb_spec len 0) as [Hz|Hpos].
  { replace len with 0 by lia. unfold uread. simpl. by rewrite app_nil_r. }
  destruct (Hur Hpos) as (Hva & Hmax & Hpa).
  pose proof (PGROUNDDOWN_le va) as Hle. pose proof (PGROUNDDOWN_range va ltac:(lia)) as Hr0.
  cbv zeta. set (va0 := PGROUNDDOWN va) in *. set (n := Z.min (PGSIZE - (va - va0)) len).
  erewrite bind_bind by (eapply walkaddr_eq; [done|lia]).
  rewrite (proj2 (Z.eqb_neq _ 0)) by (apply Hpa; lia).
  erewrite bind_bind by done. rewrite (proj2 (Z.eqb_neq _ 0)) by (apply Hpa; lia).
  unfold kread. erewrite bind_bind by done. rewrite bind_ret, IH; [|lia|lia|].
  - replace len with (n + (len - n)) at 2 by lia. rewrite uread_app by lia.
    rewrite (uread_page _ _ va n) by (fold va0; lia). rewrite <- app_assoc. do 4 f_equal.
    destruct (decide (n = len)) as [->|Hne]; [by rewrite Z.sub_diag|].
    f_equal. rewrite u64_small; lia.
  - intros Hrem. rewrite u64_small by lia. replace (va0 + PGSIZE) with (va + n) by lia.
    apply user_range_drop; [|lia]. by apply Hur.
Qed.
(** The range is mapped writable, to pages of its own. *)
Record user_wr (m : mem) (root : Z) (ps : list Z) (va n : Z) : Prop := {
  uw_range : user_range m root va n;
  uw_w : forall a, va <= a < va + n -> nz (Z.land (lookup_pte m root (PGROUNDDOWN a)) PTE_W) = true;
  uw_page : forall a, va <= a < va + n ->
    let p := user_pa (lookup_pte m root (PGROUNDDOWN a)) in
    kpage p /\ (p ∉ ps) /\ not_table m root p;
  uw_inj : forall a b, va <= a < va + n -> va <= b < va + n ->
    user_pa (lookup_pte m root (PGROUNDDOWN a)) = user_pa (lookup_pte m root (PGROUNDDOWN b)) ->
    PGROUNDDOWN a = PGROUNDDOWN b;
}.

Lemma uaddr_ne m root ps va n a b :
  user_wr m root ps va n -> va <= a < va + n -> va <= b < va + n ->
  PGROUNDDOWN a <> PGROUNDDOWN b -> uaddr m root a <> uaddr m root b.
Proof.
  intros Hu Ha Hb Hne. destruct (uw_page _ _ _ _ _ Hu a Ha) as [Hpa _].
  destruct (uw_page _ _ _ _ _ Hu b Hb) as [Hpb _].
  pose proof (PGROUNDDOWN_le a). pose proof (PGROUNDDOWN_le b). unfold uaddr.
  destruct (kpage_disj _ _ Hpa Hpb); [|lia..]. intros E. by apply Hne, (uw_inj _ _ _ _ _ Hu).
Qed.

(** Writing bytes into one page of the range. *)
Lemma user_wr_write s root ps va n a m :
  vm_inv s root ps -> user_wr (k_mem s) root ps va n -> va <= a < va + n ->
  let p := user_pa (lookup_pte (k_mem s) root (PGROUNDDOWN a)) in
  (forall x, x < p \/ p + PGSIZE <= x -> m x = k_mem s x) ->
  vm_inv (set_k_mem m s) root ps /\ user_wr m root ps va n /\
  forall va', lookup_pte m root va' = lookup_pte (k_mem s) root va'.
Proof.
  intros Hi Hu Ha p Hm. destruct (uw_page _ _ _ _ _ Hu a Ha) as (Hp & Hnp & Hnt).
  destruct (vm_inv_mem s root ps p m) as (Hi' & _ & Hlk); [done..|].
  split; [done|]. split; [|done]. destruct Hu as [[? [? Hr]] Hw Hpg Hinj]. split.
  - split_and!; [done..|]. intros b Hb. rewrite Hlk. by apply Hr.
  - intros b Hb. rewrite Hlk. by apply Hw.
  - intros b Hb. rewrite Hlk. destruct (Hpg b Hb) as (?&?&?). split_and!; [done..|].
    by apply (not_table_mem s root ps p).
  - intros b c Hb Hc. rewrite !Hlk. by apply Hinj.
Qed.

Lemma user_wr_drop m root ps va n k :
  user_wr m root ps va n -> 0 <= k <= n -> user_wr m root ps (va + k) (n - k).
Proof.
  intros [Hr Hw Hpg Hinj] Hk. split.
  - by apply user_range_drop.
  - intros a Ha. apply Hw. lia.
  - intros a Ha. apply Hpg. lia.
  - intros a b Ha Hb. apply Hinj; lia.
Qed.

Lemma uaddr_lookup m m' root a :
  (forall va, lookup_pte m' root va = lookup_pte m root va) -> uaddr m' root a = uaddr m root a.
Proof. intros Hlk. unfold uaddr. by rewrite Hlk. Qed.

(** What [copyout] of [src] to [va] leaves behind. *)
Record copied_out (root : Z) (ps : list Z) (va : Z) (src : list Z) (s s' : kst) : Prop := {
  co_state : exists m, s' = set_k_mem m s;
  co_inv : vm_inv s' root ps;
  co_lookup : forall va', lookup_pte (k_mem s') root va' = lookup_pte (k_mem s) root va';
  co_data : uread (k_mem s') root va (Z.of_nat (length src)) = src;
  co_frame : forall x, (forall i, 0 <= i < Z.of_nat (length src) -> x <> uaddr (k_mem s) root (va + i)) ->
    k_mem s' x = k_mem s x;
}.

(** One page of the copy. *)
Lemma copyout_page s root ps va src :
  vm_inv s root ps -> src <> [] -> user_wr (k_mem s) root ps va (Z.of_nat (length src)) ->
  let n := Z.min (PGSIZE - (va - PGROUNDDOWN va)) (Z.of_nat (length src)) in
  copyout_step root (va, src) s =
    Done (inl (u64 (PGROUNDDOWN va + PGSIZE), drop (Z.to_nat n) src))
      (set_k_mem (mwrite (k_mem s) (uaddr (k_mem s) root va) (take (Z.to_nat n) src)) s).
Proof.
  intros Hi Hne Hu n. assert (0 < Z.of_nat (length src)) as Hlen by (destruct src; [done|simpl; lia]).
  destruct (uw_range _ _ _ _ _ Hu) as (Hva & Hmax & Hpa). specialize (Hpa va ltac:(lia)).
  pose proof (uw_w _ _ _ _ _ Hu va ltac:(lia)) as Hw.
  pose proof (PGROUNDDOWN_range va ltac:(lia)) as Hr0.
  unfold copyout_step. rewrite (proj2 (Nat.eqb_neq _ 0)) by lia. cbv zeta.
  rewrite (proj2 (Z.leb_gt _ _)) by lia. erewrite bind_done by (eapply walkaddr_eq; [done|lia]).
  rewrite (proj2 (Z.eqb_neq _ 0)), bind_ret, (proj2 (Z.eqb_neq _ 0)) by done.
  erewrite bind_done by (apply walk_noalloc; lia).
  unfold kload64, kwrite. rewrite bind_gets.
  destruct (lookup_pte_table (k_mem s) root (PGROUNDDOWN va)) as [t Ht]; [intros E; by rewrite E in Hw|].
  rewrite Ht. unfold lookup_pte in Hw. rewrite Ht in Hw. unfold nz, pte in Hw.
  apply negb_true_iff in Hw. by rewrite Hw, bind_modify.
Qed.

(** The first chunk and the rest of a copy. *)
Lemma copied_out_cons root ps va n src s s' va' :
  user_wr (k_mem s) root ps va (Z.of_nat (length src)) ->
  0 < n <= Z.of_nat (length src) -> va + n <= PGROUNDDOWN va + PGSIZE ->
  (n < Z.of_nat (length src) -> va + n = PGROUNDDOWN va + PGSIZE) ->
  let m1 := mwrite (k_mem s) (uaddr (k_mem s) root va) (take (Z.to_nat n) src) in
  (forall va, lookup_pte m1 root va = lookup_pte (k_mem s) root va) ->
  (drop (Z.to_nat n) src <> [] -> va' = va + n) ->
  copied_out root ps va' (drop (Z.to_nat n) src) (set_k_mem m1 s) s' ->
  copied_out root ps va src s s'.
Proof.
  intros Hu Hn Hpg Hend m1 Hlk1 Hva' [[m2 ->] Hi2 Hlk2 Hd2 Hf2]. ksimp in *.
  assert (length (take (Z.to_nat n) src) = Z.to_nat n) as Htk by (rewrite length_take; lia).
  assert (Z.of_nat (length (drop (Z.to_nat n) src)) = Z.of_nat (length src) - n) as Hdl
    by (rewrite length_drop; lia).
  assert (forall i, 0 <= i < Z.of_nat (length src) - n ->
    uaddr m1 root (va' + i) = uaddr (k_mem s) root (va + n + i)) as Hua.
  { intros i Hi. rewrite Hva'; [by apply uaddr_lookup|]. intros E. rewrite E in Hdl. simpl in Hdl. lia. }
  split.
  - exists m2. by destruct s.
  - by destruct s.
  - intros va0. ksimp. by rewrite Hlk2.
  - ksimp. replace (Z.of_nat (length src)) with (n + (Z.of_nat (length src) - n)) by lia.
    rewrite uread_app by lia.
    transitivity (take (Z.to_nat n) src ++ drop (Z.to_nat n) src); [|apply take_drop]. f_equal.
    + rewrite uread_page, (uaddr_lookup (k_mem s)) by (lia || (intros; by rewrite Hlk2)).
      rewrite <- (mread_mwrite (k_mem s) (uaddr (k_mem s) root va) (take (Z.to_nat n) src)), Htk.
      rewrite Z2Nat.id by lia. fold m1. apply mread_ext. intros x Hx. apply Hf2. rewrite Hdl.
      intros i Hi. rewrite Hua by done. intros ->. specialize (Hend ltac:(lia)).
      pose proof (PGROUNDDOWN_le va). set (j := uaddr (k_mem s) root (va + n + i) - uaddr (k_mem s) root va) in *.
      assert (PGROUNDDOWN (va + j) = PGROUNDDOWN va) as E by (apply PGROUNDDOWN_same; lia).
      apply (uaddr_ne (k_mem s) root ps va (Z.of_nat (length src)) (va + j) (va + n + i)); [done|lia..| |].
      * rewrite E. pose proof (PGROUNDDOWN_le (va + n + i)). intros E2. lia.
      * unfold uaddr at 1. rewrite E. unfold j, uaddr. lia.
    + rewrite Hdl in Hd2. destruct (decide (drop (Z.to_nat n) src = [])) as [E|Hne].
      * rewrite E in *. simpl in Hdl. by replace (Z.of_nat (length src) - n) with 0 by lia.
      * by rewrite Hva' in Hd2.
  - intros x Hx. ksimp. rewrite Hf2.
    + unfold m1. apply mwrite_out. rewrite Htk.
      destruct (Z.lt_ge_cases x (uaddr (k_mem s) root va)) as [?|Hge]; [by left|right].
      apply Z.nlt_ge. intros Hlt. pose proof (PGROUNDDOWN_le va).
      apply (Hx (x - uaddr (k_mem s) root va)); [lia|]. unfold uaddr at 1.
      rewrite (PGROUNDDOWN_same va) by lia. unfold uaddr. lia.
    + intros i Hi. rewrite Hua by lia. replace (va + n + i) with (va + (n + i)) by lia.
      apply Hx. lia.
Qed.

Lemma copyout_loop root ps fuel va src s :
  vm_inv s root ps -> (length src < fuel)%nat ->
  (src <> [] -> user_wr (k_mem s) root ps va (Z.of_nat (length src))) ->
  runs (loop fuel (copyout_step root) (va, src)) s (fun r s' => r = 0 /\ copied_out root ps va src s s').
Proof.
  revert va src s. induction fuel as [|fuel IH]; intros va src s Hi Hf Hu; [lia|]. cbn [loop].
  destruct (decide (src = [])) as [->|Hne].
  { eapply runs_done; [done|]. split; [done|]. split; try done. exists (k_mem s). by destruct s. }
  specialize (Hu Hne). apply runs_bind. eapply runs_done; [by eapply copyout_page|].
  assert (0 < Z.of_nat (length src)) as Hlen by (destruct src; [done|simpl; lia]).
  destruct (uw_range _ _ _ _ _ Hu) as (Hva & Hmax & _). pose proof (PGROUNDDOWN_le va) as Hle.
  set (n := Z.min _ _). set (m1 := mwrite _ _ _).
  assert (length (take (Z.to_nat n) src) = Z.to_nat n) as Htk by (rewrite length_take; lia).
  destruct (user_wr_write s root ps va (Z.of_nat (length src)) va m1) as (Hi1 & Hu1 & Hlk1); [done..|lia| |].
  { intros x Hx. apply mwrite_out. rewrite Htk. unfold uaddr. lia. }
  assert (Z.of_nat (length (drop (Z.to_nat n) src)) = Z.of_nat (length src) - n) as Hdl
    by (rewrite length_drop; lia).
  assert (drop (Z.to_nat n) src <> [] -> u64 (PGROUNDDOWN va + PGSIZE) = va + n) as Hnext.
  { intros Hd. assert (n <> Z.of_nat (length src)) by (intros E; apply Hd; apply drop_ge; lia).
    rewrite u64_small; lia. }
  eapply runs_mono.
  - apply (IH (u64 (PGROUNDDOWN va + PGSIZE)) (drop (Z.to_nat n) src)); [done|lia|].
    intros Hd. rewrite Hnext, Hdl by done. apply user_wr_drop; [done|lia].
  - intros r s' [-> Hco]. split; [done|].
    by apply (copied_out_cons root ps va n src s s' (u64 (PGROUNDDOWN va + PGSIZE))); try lia.
Qed.

(** C10: copying to user memory and back. [copyout] to a range that is mapped
    writable, to physical pages of its own, returns 0, changes no translation
    and no byte outside the range; a following [copyin] of the range returns
    exactly the bytes written. Both loops end by themselves, whatever the
    alignment of the range. *)
Theorem copyout_copyin root ps va src s :
  vm_inv s root ps -> user_wr (k_mem s) root ps va (Z.of_nat (length src)) ->
  runs (copyout root va src) s (fun r s' =>
    r = 0 /\ copied_out root ps va src s s' /\
    copyin root va (Z.of_nat (length src)) s' = Done (0, src) s').
Proof.
  intros Hi Hu. eapply runs_mono; [apply copyout_loop; [done|lia|done]|].
  intros r s' [-> Hco]. split; [done|]. split; [done|].
  unfold copyin. erewrite copyin_loop; [|by eapply co_inv|lia|lia|].
  - by rewrite (co_data _ _ _ _ _ _ Hco).
  - intros _. destruct (uw_range _ _ _ _ _ Hu) as (H1 & H2 & H3). split_and!; [done..|].
    intros a Ha. rewrite (co_lookup _ _ _ _ _ _ Hco). by apply H3.
Qed.
End Copy.

(** [remap_demo] with page 0 mapped writable. *)
Definition copy_demo : kst :=
  set_k_mem (store64 (k_mem remap_demo) 0x87ff2000 (leaf_entry 0x87000000 (Z.lor (Z.lor PTE_U PTE_R) PTE_W)))
    remap_demo.

Lemma copy_demo_lookup a :
  0 <= a < 8 -> lookup_pte (k_mem copy_demo) 0x87ff0000 (PGROUNDDOWN a) =
    leaf_entry 0x87000000 (Z.lor (Z.lor PTE_U PTE_R) PTE_W).
Proof.
  intros Ha. rewrite (PGROUNDDOWN_same 0 a) by (change (PGROUNDDOWN 0) with 0; lia). by vm_compute.
Qed.

Lemma copy_demo_inv :
  @vm_inv demo_image copy_demo 0x87ff0000 [] /\ not_table (k_mem copy_demo) 0x87ff0000 0x87000000.
Proof.
  split; [exact (@vm_inv_store_leaf demo_image remap_demo 0x87ff0000 [] 0 0x87ff2000 _ remap_demo_inv eq_refl)|].
  intros r Hr Ht. unfold copy_demo in Ht. ksimp in Ht.
  rewrite (@table_at_store_leaf demo_image (k_mem remap_demo) 0x87ff0000 [0; 0] 0x87ff2000 0 _ r) in Ht.
  - destruct (remap_demo_tables r _ Hr Ht) as [[_ E]|[[_ E]|[_ E]]]; discriminate E.
  - exact (vi_wf _ _ _ remap_demo_inv).
  - split; [repeat constructor; lia|simpl; lia].
  - reflexivity.
  - reflexivity.
  - lia.
  - exact Hr.
Qed.

Lemma copyout_copyin_witness :
  runs (@copyout demo_image 0x87ff0000 2 [1; 2; 3]) copy_demo (fun r s' =>
    r = 0 /\ @copyin demo_image 0x87ff0000 2 3 s' = Done (0, [1; 2; 3]) s').
Proof.
  destruct copy_demo_inv as [Hi Hnt].
  eapply runs_mono.
  - apply (@copyout_copyin demo_image demo_image_ok 0x87ff0000 [] 2 [1; 2; 3] copy_demo Hi).
    split.
    + split; [lia|]. split; [cbn; lia|]. intros a Ha. cbn in Ha.
      rewrite copy_demo_lookup by lia. by vm_compute.
    + intros a Ha. cbn in Ha. rewrite copy_demo_lookup by lia. by vm_compute.
    + intros a Ha. cbn in Ha. rewrite copy_demo_lookup by lia.
      change (user_pa _) with 0x87000000. split; [repeat constructor; cbn; lia|].
      split; [apply not_elem_of_nil|exact Hnt].
    + intros a b Ha Hb _. cbn in Ha, Hb.
      rewrite (PGROUNDDOWN_same 0 a), (PGROUNDDOWN_same 0 b) by (change (PGROUNDDOWN 0) with 0; lia).
      reflexivity.
  - intros r s' (Hr & _ & Hc). split; [exact Hr|exact Hc].
Defined.


(* ------------------------------------------------------------------ *)
(** ** Faults the code does not handle *)

Section Unhandled.
Context `{ImageOk}.

Lemma ismapped_no s root va :
  va < MAXVA -> pte_valid (lookup_pte (k_mem s) root va) = false ->
  ismapped root va s = Done 0 s.
Proof.
  intros Hva Hv. unfold ismapped. erewrite bind_done by (by apply walk_noalloc).
  unfold lookup_pte in Hv. destruct (table_at _ _ _) as [t|]; [|done].
  destruct (_ =? 0); [done|]. unfold kload64. rewrite bind_gets, pte_valid_nz.
  unfold pte in Hv. by rewrite Hv.
Qed.

(** C38: a page fault on a page that is already mapped, such as a user store to a
    read-only page, stops the kernel: [vmfault] falls through to the lazy
    allocation and [mappages] panics. *)
Theorem vmfault_mapped_panics s i root va pg ps b :
  k_cur s = Some i -> 0 <= va < MAXVA -> PGROUNDDOWN va < p_sz (k_proc s !!! i) ->
  vm_inv s root (pg :: ps) -> pte_valid (lookup_pte (k_mem s) root (PGROUNDDOWN va)) = true ->
  count_used (k_ft s) < Z.of_nat MAXFRAMES -> Lkmem ∉ k_held s -> Lftlock ∉ k_held s ->
  exists s', vmfault root va b s = Panic "mappages: remap" s'.
Proof.
  intros Hcur Hva Hsz Hi Hv Hcnt Hl1 Hl2.
  pose proof (PGROUNDDOWN_range va Hva) as Hva0. pose proof (PGROUNDDOWN_aligned va) as Hal.
  destruct (lookup_pte_table (k_mem s) root (PGROUNDDOWN va)) as [t Ht];
    [intros E; by rewrite E in Hv|].
  destruct (vm_inv_alloc _ _ _ _ Hi) as (Hi1 & Hp & Hnp & Hnt1 & Hlk1).
  unfold vmfault, myproc. rewrite bind_gets, Hcur. unfold getproc. rewrite bind_gets.
  rewrite (proj2 (Z.leb_gt _ _)) by lia.
  erewrite bind_done by (apply walk_noalloc; lia). rewrite Ht.
  rewrite pte_addr_nz by eauto using pt_kpage, vi_wf with kern.
  erewrite bind_done by done. pose proof Hv as Hv'. unfold lookup_pte in Hv'. rewrite Ht in Hv'.
  unfold pte in Hv'. rewrite pte_valid_nz, Hv'. cbn [negb andb].
  rewrite (bind_done _ _ _ _ _ (kalloc_or_evict_free _ _ _ (vi_free _ _ _ Hi) Hcnt Hl1 Hl2)).
  rewrite (proj2 (Z.eqb_neq pg 0)) by (apply nz_true; by apply kpage_nz).
  unfold kmemset. rewrite bind_modify. eexists. erewrite bind_panic; [done|].
  destruct (vm_inv_mem _ root ps pg (mset (mset (k_mem s) pg 5 PGSIZE) pg 0 PGSIZE) Hi1)
    as (Hi2 & _ & Hlk2); [done..|intros x Hx; by apply mset_out|].
  apply (mappages_remap_eq root _ _ _ _ _ ps); [|lia|done|done|lia|].
  - by eapply vm_inv_proj.
  - ksimp. by rewrite Hlk2, Hlk1.
Qed.

(** C37: [vmfault_alloc], which [copyin] and [copyout] use, does not bring a
    swapped-out page back: it maps a zeroed page over the swap entry, and the
    swap slot stays occupied with no entry that names it. *)
Theorem vmfault_alloc_loses_swapped s i va pg ps slot b :
  k_cur s = Some i -> let root := p_pagetable (k_proc s !!! i) in
  0 <= va < MAXVA -> va < p_sz (k_proc s !!! i) ->
  vm_inv s root (pg :: ps) -> lookup_pte (k_mem s) root (PGROUNDDOWN va) = swap_entry slot ->
  0 <= slot < Z.of_nat MAX_SWAP_SLOTS ->
  ft_wf s -> count_used (k_ft s) < Z.of_nat MAXFRAMES -> Lkmem ∉ k_held s -> Lftlock ∉ k_held s ->
  runs (vmfault_alloc root va b) s (fun r s' =>
    r = pg /\ lookup_pte (k_mem s') root (PGROUNDDOWN va) = leaf_entry pg (Z.lor (Z.lor PTE_W PTE_U) PTE_R) /\
    (forall x, pg <= x < pg + PGSIZE -> k_mem s' x = 0) /\ k_swap s' = k_swap s).
Proof.
  intros Hcur root Hva Hsz Hi Hlk Hslot Hft Hcnt Hl1 Hl2.
  pose proof (PGROUNDDOWN_range va Hva) as Hva0. pose proof (PGROUNDDOWN_aligned va) as Hal.
  destruct (swap_entry_decode slot Hslot) as (_ & Hnv & Hsw & _).
  destruct (lookup_pte_table (k_mem s) root (PGROUNDDOWN va)) as [t Ht];
    [rewrite Hlk; intros E; by rewrite E in Hsw|].
  destruct (vm_inv_alloc _ _ _ _ Hi) as (Hi1 & Hp & Hnp & Hnt1 & Hlk1).
  unfold vmfault_alloc, curproc, getproc. apply runs_bind. eapply runs_done; [unfold bind, gets; simpl; by rewrite Hcur|].
  apply runs_bind. eapply runs_done; [done|]. rewrite (proj2 (Z.leb_gt _ _)) by lia. cbv zeta.
  apply runs_bind. eapply runs_done; [apply ismapped_no; [lia|by rewrite Hlk]|]. cbn [nz negb Z.eqb].
  apply runs_bind. eapply runs_done; [apply (kalloc_or_evict_free _ pg ps); [apply Hi|done..]|].
  rewrite (proj2 (Z.eqb_neq pg 0)) by (apply nz_true; by apply kpage_nz).
  unfold kmemset. apply runs_bind. eapply runs_done; [done|].
  apply runs_bind. eapply runs_done; [done|]. ksimp. fold root.
  set (m0 := mset (mset (k_mem s) pg 5 PGSIZE) pg 0 PGSIZE).
  destruct (vm_inv_mem _ root ps pg m0 Hi1) as (Hi2 & Hnt2 & Hlk2);
    [done..|intros x Hx; by apply mset_out|]. ksimp in Hlk2. ksimp in Hlk1.
  match goal with |- runs _ ?x _ => set (s2 := x) end.
  assert (vm_inv s2 root ps) as Hi3 by (by eapply vm_inv_proj).
  destruct (lookup_pte_table (k_mem s2) root (PGROUNDDOWN va)) as [t2 Ht2];
    [unfold s2; ksimp; rewrite Hlk2, Hlk1, Hlk; intros E; by rewrite E in Hsw|].
  destruct (map_new_page s2 root ps pg (PGROUNDDOWN va) (Z.lor (Z.lor PTE_W PTE_U) PTE_R) t2)
    as (m & Hmap & _ & Hrd & Hlk4); [done..|by unfold s2; ksimp; rewrite Hlk2, Hlk1, Hlk|].
  apply runs_bind. eapply runs_done; [exact Hmap|]. cbn [negb Z.eqb].
  apply runs_bind. eapply runs_done; [by apply frametable_add_eq|]. apply runs_ret. ksimp.
  split_and!; [done|by rewrite Hlk4, Z.eqb_refl| |done].
  intros x Hx. apply (mread_eq_at _ m0 pg PGSIZE x) in Hrd; [|done]. rewrite Hrd.
  by apply mset_in.
Qed.
End Unhandled.

(** [evict_demo] with one free page. *)
Lemma fault_demo_inv :
  @vm_inv demo_image (set_k_freelist 0x87fff000 evict_demo) 0x87ff0000 [0x87fff000].
Proof.
  split.
  - split_and!; [by vm_compute|repeat constructor; cbn; lia|].
    apply (bool_decide_unpack _). by vm_compute.
  - exact (vi_wf _ _ _ remap_demo_inv).
  - intros r p Hr Hp.
    destruct (remap_demo_tables r p Hr Hp) as [[_ ->]|[[_ ->]|[_ ->]]];
      apply (bool_decide_unpack _); by vm_compute.
Qed.

Lemma vmfault_mapped_panics_witness :
  exists s', @vmfault demo_image 0x87ff0000 8 false
    (set_k_freelist 0x87fff000 evict_demo) = Panic "mappages: remap" s'.
Proof.
  apply (@vmfault_mapped_panics demo_image demo_image_ok (set_k_freelist 0x87fff000 evict_demo)
    1%nat 0x87ff0000 8 0x87fff000 [] false).
  - reflexivity.
  - lia.
  - by vm_compute.
  - apply fault_demo_inv.
  - by vm_compute.
  - cbn. lia.
  - apply not_elem_of_nil.
  - apply not_elem_of_nil.
Defined.

(** ... and page 0 swapped out to slot 7. *)
Definition lost_demo : kst :=
  set_k_mem (store64 (k_mem evict_demo) 0x87ff2000 (swap_entry 7)) (set_k_freelist 0x87fff000 evict_demo).

Lemma vmfault_alloc_loses_swapped_witness :
  runs (@vmfault_alloc demo_image 0x87ff0000 5 false) lost_demo (fun r s' =>
    r = 0x87fff000 /\ (forall x, 0x87fff000 <= x < 0x87fff000 + PGSIZE -> k_mem s' x = 0)).
Proof.
  eapply runs_mono.
  - apply (@vmfault_alloc_loses_swapped demo_image demo_image_ok lost_demo 1%nat 5 0x87fff000 [] 7 false).
    + reflexivity.
    + lia.
    + by vm_compute.
    + exact (@vm_inv_store_leaf demo_image (set_k_freelist 0x87fff000 evict_demo) 0x87ff0000 [0x87fff000]
        0 0x87ff2000 (swap_entry 7) fault_demo_inv eq_refl).
    + by vm_compute.
    + cbn. lia.
    + reflexivity.
    + cbn. lia.
    + apply not_elem_of_nil.
    + apply not_elem_of_nil.
  - intros r s' (Hr & _ & Hz & _). split; [exact Hr|exact Hz].
Defined.
