(* ===== verification/Sched.v ===== *)
(** * Processes, first part: scheduling ([kernel/proc.c])

    Process identifiers, the per-CPU MLFQ scheduler, [sched] and [yield],
    [sleep] and [wakeup], [kill]. A thread of the kernel runs on one CPU; the
    switch to another context is [swtch] of the monad, and what the thread
    does after it was resumed is the continuation. *)

From S2P Require Import Prelude Machine KState Spinlock.
Local Open Scope Z_scope.
Local Open Scope kern_scope.

Definition procinit : K unit :=
  initlock Lpid_lock ;;;
  initlock Lwait_lock ;;;
  for_each (seq 0 NPROC) (fun i =>
    initlock (Lproc i) ;;;
    updproc i (fun p => set_p_kstack (KSTACK (Z.of_nat i)) (set_p_state UNUSED p))).

Definition allocpid : K Z :=
  acquire Lpid_lock ;;;
  pid <- gets k_nextpid ;;
  modify (fun s => set_k_nextpid (k_nextpid s + 1) s) ;;;
  release Lpid_lock ;;;
  ret pid.

(** [sched()]: a process gives its CPU back to the scheduler. Interrupts are
    off while a lock is held, and [noff] counts the locks held. *)
Definition intr_get : K bool :=
  gets (fun s => bool_decide (k_held s = []) && nz (Z.land (h_sstatus (k_hw s)) SSTATUS_SIE)).

Definition sched : K unit :=
  p <- curproc ;;
  h <- holding (Lproc p) ;;
  if negb h then panic "sched p->lock"
  else
    noff <- gets (fun s => length (k_held s)) ;;
    if negb (noff =? 1)%nat then panic "sched locks"
    else
      pr <- getproc p ;;
      if bool_decide (p_state pr = RUNNING) then panic "sched RUNNING"
      else
        i <- intr_get ;;
        if i then panic "sched interruptible"
        else swtch.

Definition yield : K unit :=
  p <- curproc ;;
  acquire (Lproc p) ;;;
  updproc p (set_p_state RUNNABLE) ;;;
  sched ;;;
  release (Lproc p).

Definition sleep (ch : chan) (lk : lockid) : K unit :=
  p <- curproc ;;
  acquire (Lproc p) ;;;
  release lk ;;;
  updproc p (fun q => set_p_state SLEEPING (set_p_chan ch q)) ;;;
  sched ;;;
  updproc p (set_p_chan ChNone) ;;;
  release (Lproc p) ;;;
  acquire lk.

Definition wakeup (ch : chan) : K unit :=
  for_each (seq 0 NPROC) (fun i =>
    me <- myproc ;;
    if bool_decide (me = Some i) then ret tt
    else
      acquire (Lproc i) ;;;
      p <- getproc i ;;
      when (bool_decide (p_state p = SLEEPING) && bool_decide (p_chan p = ch))
        (updproc i (set_p_state RUNNABLE)) ;;;
      release (Lproc i)).

Definition kkill (pid : Z) : K Z :=
  o <- for_find (seq 0 NPROC) (fun i =>
         acquire (Lproc i) ;;;
         p <- getproc i ;;
         if p_pid p =? pid then
           updproc i (set_p_killed 1) ;;;
           when (bool_decide (p_state p = SLEEPING)) (updproc i (set_p_state RUNNABLE)) ;;;
           release (Lproc i) ;;;
           ret (Some 0)
         else
           release (Lproc i) ;;;
           ret None) ;;
  match o with
  | Some r => ret r
  | None => ret (-1)
  end.

Definition setkilled (p : nat) : K unit :=
  acquire (Lproc p) ;;;
  updproc p (set_p_killed 1) ;;;
  release (Lproc p).

Definition killed (p : nat) : K Z :=
  acquire (Lproc p) ;;;
  pr <- getproc p ;;
  release (Lproc p) ;;;
  ret (p_killed pr).

(* ------------------------------------------------------------------ *)
(** ** The scheduler *)

(** The order in which the [do]-[while] loop tries the processes. *)
Definition run_order (start_idx : nat) : list nat :=
  map (fun k => ((start_idx + k) mod NPROC)%nat) (seq 0 NPROC).

(** The search at one level: [Some idx] is the process that ran. *)
Definition scheduler_level (level : Z) (last : nat) : K (option nat) :=
  let start_idx := ((last + 1) mod NPROC)%nat in
  for_find (run_order start_idx) (fun idx =>
    acquire (Lproc idx) ;;;
    p <- getproc idx ;;
    if bool_decide (p_state p = RUNNABLE) && (p_mlfq_level p =? level) then
      updproc idx (fun p => set_p_syscalls_at_level (p_syscount p)
        (set_p_times_scheduled (p_times_scheduled p + 1) (set_p_state RUNNING p))) ;;;
      modify (set_k_cur (Some idx)) ;;;
      swtch ;;;
      modify (set_k_cur None) ;;;
      release (Lproc idx) ;;;
      ret (Some idx)
    else
      release (Lproc idx) ;;;
      ret None).

(** The [for] loop over the levels; [last_idx] holds, per level, the process
    that ran last. Returns the new [last_idx] and [found]. *)
Fixpoint scheduler_levels (levels : list nat) (last_idx : list nat) (found : bool) :
    K (list nat * bool) :=
  match levels with
  | [] => ret (last_idx, found)
  | level :: levels =>
      o <- scheduler_level (Z.of_nat level) (last_idx !!! level) ;;
      match o with
      | Some idx => scheduler_levels levels (<[level := idx]> last_idx) true
      | None => scheduler_levels levels last_idx found
      end
  end.

Definition intr_on : K unit :=
  modify (fun s => set_k_hw (set_h_sstatus (Z.lor (h_sstatus (k_hw s)) SSTATUS_SIE) (k_hw s)) s).
Definition intr_off : K unit :=
  modify (fun s => set_k_hw (set_h_sstatus (Z.land (h_sstatus (k_hw s)) (Z.lnot SSTATUS_SIE)) (k_hw s)) s).

(** [rounds] iterations of the scheduler's endless loop ([wfi] when nothing
    was found only waits). *)
Fixpoint scheduler_loop (rounds : nat) (last_idx : list nat) : K unit :=
  match rounds with
  | O => fun _ => Spin
  | S rounds =>
      intr_on ;;;
      intr_off ;;;
      r <- scheduler_levels [0; 1; 2; 3]%nat last_idx false ;;
      scheduler_loop rounds r.1
  end.

Definition scheduler (rounds : nat) : K unit :=
  modify (set_k_cur None) ;;;
  scheduler_loop rounds [0; 0; 0; 0]%nat.

(* ------------------------------------------------------------------ *)
(** ** [wakeup] and [sleep] *)

Definition procs_wf (s : kst) : Prop := length (k_proc s) = NPROC.
Definition no_proc_lock (s : kst) : Prop := forall i, Lproc i ∉ k_held s.

(** What [wakeup] does to process [i]. *)
Definition woken (me : option nat) (ch : chan) (i : nat) (p : proc) : proc :=
  if negb (bool_decide (me = Some i)) && bool_decide (p_state p = SLEEPING) &&
     bool_decide (p_chan p = ch)
  then set_p_state RUNNABLE p else p.

Lemma alter_id {A} (l : list A) i : alter id i l = l.
Proof.
  apply list_eq. intros j. destruct (decide (j = i)) as [->|].
  - rewrite list_lookup_alter_eq. by destruct (l !! i).
  - by rewrite list_lookup_alter_ne.
Qed.

Lemma alter_ext_at {A} `{Inhabited A} (f g : A -> A) (l : list A) i :
  f (l !!! i) = g (l !!! i) -> alter f i l = alter g i l.
Proof.
  intros E. apply list_eq. intros j. destruct (decide (j = i)) as [->|].
  - rewrite !list_lookup_alter_eq. rewrite list_lookup_total_alt in E.
    destruct (l !! i); simpl in *; [by rewrite E|done].
  - by rewrite !list_lookup_alter_ne.
Qed.

Lemma foldl_set_k_proc (f : nat -> proc -> proc) l s :
  foldl (fun t i => set_k_proc (alter (f i) i (k_proc t)) t) s l =
    set_k_proc (foldl (fun ps i => alter (f i) i ps) (k_proc s) l) s.
Proof.
  revert s. induction l as [|i l IH]; intros s; simpl; [by destruct s|].
  rewrite IH. by destruct s.
Qed.

Lemma wakeup_eq ch s :
  procs_wf s -> no_proc_lock s ->
  wakeup ch s = Done tt (set_k_proc (imap (woken (k_cur s) ch) (k_proc s)) s).
Proof.
  intros Hwf Hl. unfold wakeup.
  destruct (for_each_inv (fun t => k_held t = k_held s /\ k_cur t = k_cur s) (seq 0 NPROC)
    (fun i t => set_k_proc (alter (woken (k_cur s) ch i) i (k_proc t)) t)
    (fun i => me <- myproc ;;
      if bool_decide (me = Some i) then ret tt
      else
        acquire (Lproc i) ;;;
        p <- getproc i ;;
        when (bool_decide (p_state p = SLEEPING) && bool_decide (p_chan p = ch))
          (updproc i (set_p_state RUNNABLE)) ;;;
        release (Lproc i)) s) as [-> _]; [|done|].
  - intros i t _ [Hh Hc]. split; [|done]. unfold myproc. rewrite bind_gets, Hc.
    destruct (bool_decide (k_cur s = Some i)) eqn:E.
    + rewrite (alter_ext_at (woken (k_cur s) ch i) id) by (unfold woken; by rewrite E).
      rewrite alter_id. by destruct t.
    + rewrite bind_acquire by (by rewrite Hh). unfold getproc. rewrite bind_gets. ksimp.
      destruct (bool_decide (p_state (k_proc t !!! i) = SLEEPING) &&
        bool_decide (p_chan (k_proc t !!! i) = ch)) eqn:E2; cbn [when].
      * unfold updproc. rewrite bind_modify. erewrite release_head by done. ksimp.
        rewrite (alter_ext_at (woken (k_cur s) ch i) (set_p_state RUNNABLE))
          by (unfold woken; rewrite E; cbn [negb andb]; by rewrite E2).
        by destruct t.
      * rewrite bind_ret. erewrite release_head by done.
        rewrite (alter_ext_at (woken (k_cur s) ch i) id)
          by (unfold woken; rewrite E; cbn [negb andb]; by rewrite E2).
        rewrite alter_id. by destruct t.
  - by rewrite foldl_set_k_proc, foldl_alter_imap.
Qed.

Definition asleep (ch : chan) (p : proc) : proc := set_p_state SLEEPING (set_p_chan ch p).

Lemma bind_curproc {B} p (f : nat -> K B) s : k_cur s = Some p -> bind curproc f s = f p s.
Proof. intros Hc. unfold bind, curproc. by rewrite Hc. Qed.

(** [sched] by a process that holds only its own lock and is not running. *)
Lemma bind_sched {B} p (f : unit -> K B) s :
  k_cur s = Some p -> k_held s = [Lproc p] -> p_state (k_proc s !!! p) <> RUNNING ->
  bind sched f s = Swtch s (f tt).
Proof.
  intros Hc Hh Hst. assert (sched s = swtch s) as E; [|by unfold bind; rewrite E].
  unfold sched. rewrite (bind_curproc p) by done. unfold holding. rewrite bind_gets.
  rewrite Hh, bool_decide_eq_true_2 by set_solver. cbn [negb]. rewrite bind_gets, Hh. cbn [length Nat.eqb negb].
  unfold getproc. rewrite bind_gets, (bool_decide_eq_false_2 _ Hst).
  unfold intr_get. rewrite bind_gets, Hh, bool_decide_eq_false_2 by done. done.
Qed.

Lemma sleep_eq ch lk p s :
  procs_wf s -> (p < NPROC)%nat -> k_cur s = Some p -> k_held s = [lk] -> lk <> Lproc p ->
  exists k,
    sleep ch lk s =
      Swtch (set_k_held [Lproc p] (set_k_proc (alter (asleep ch) p (k_proc s)) s)) k /\
    forall s', k_held s' = [Lproc p] ->
      k s' = Done tt (set_k_held [lk] (set_k_proc (alter (set_p_chan ChNone) p (k_proc s')) s')).
Proof.
  intros Hwf Hp Hc Hh Hlk. eexists. split.
  - unfold sleep. rewrite (bind_curproc p), bind_acquire by (done || (rewrite Hh; set_solver)).
    erewrite bind_done; cycle 1.
    { apply release_ok. ksimp. rewrite Hh. set_solver. }
    ksimp. rewrite Hh. cbn [rem1]. rewrite decide_False, decide_True by done.
    unfold updproc. rewrite bind_modify. ksimp.
    erewrite (bind_sched p); [done|done|done|]. ksimp.
    rewrite list_lookup_total_alter_eq by (by rewrite Hwf). done.
  - intros s' Hs'. rewrite bind_modify. erewrite bind_release by done.
    rewrite acquire_ok by (ksimp; apply not_elem_of_nil). by destruct s'.
Qed.


Definition sleep_demo : kst :=
  set_k_held [Ltickslock] (set_k_cur (Some 3%nat)
    (set_k_proc (<[3%nat := set_p_state RUNNING proc0]> (replicate NPROC proc0))
      (kst0 (fun _ => 0) []))).


(* ------------------------------------------------------------------ *)
(** ** Which process the scheduler runs *)

Definition runnable_at (level : Z) (p : proc) : bool :=
  bool_decide (p_state p = RUNNABLE) && (p_mlfq_level p =? level).

Definition dispatched (p : proc) : proc :=
  set_p_syscalls_at_level (p_syscount p)
    (set_p_times_scheduled (p_times_scheduled p + 1) (set_p_state RUNNING p)).

(** Number of processes tried before [j] when [last] ran last. *)
Definition rr_dist (last j : nat) : Z := (Z.of_nat j - Z.of_nat last - 1) mod Z.of_nat NPROC.

Lemma run_order_lookup start k :
  (k < NPROC)%nat -> run_order start !! k = Some ((start + k) mod NPROC)%nat.
Proof.
  intros Hk. unfold run_order. change (map ?f ?l) with (f <$> l).
  rewrite list_lookup_fmap, lookup_seq_lt by done. done.
Qed.

Lemma rr_dist_order last j :
  (j < NPROC)%nat ->
  run_order ((last + 1) mod NPROC)%nat !! Z.to_nat (rr_dist last j) = Some j.
Proof.
  intros Hj. pose proof (Z.mod_pos_bound (Z.of_nat j - Z.of_nat last - 1) (Z.of_nat NPROC) ltac:(done)) as Hb.
  unfold rr_dist. rewrite run_order_lookup by lia. f_equal. apply Nat2Z.inj.
  rewrite Nat2Z.inj_mod, Nat2Z.inj_add, Nat2Z.inj_mod, Nat2Z.inj_add, Z2Nat.id by lia.
  rewrite <- Zplus_mod. change (Z.of_nat 1) with 1.
  replace (Z.of_nat last + 1 + (Z.of_nat j - Z.of_nat last - 1)) with (Z.of_nat j) by lia.
  apply Z.mod_small. lia.
Qed.

Lemma run_order_inj start k1 k2 i :
  run_order start !! k1 = Some i -> run_order start !! k2 = Some i -> k1 = k2.
Proof.
  intros H1 H2. pose proof (lookup_lt_Some _ _ _ H1) as L1. pose proof (lookup_lt_Some _ _ _ H2) as L2.
  unfold run_order in L1, L2. rewrite length_map, length_seq in L1, L2.
  rewrite run_order_lookup in H1, H2 by done. simplify_eq.
  apply Nat2Z.inj. apply (f_equal Z.of_nat) in H1.
  rewrite !Nat2Z.inj_mod, !Nat2Z.inj_add in H1. Z.div_mod_to_equations. lia.
Qed.

(** The first element of a list that passes a test, with its position. *)
Lemma list_find_pos {A} (f : A -> bool) l x :
  List.find f l = Some x ->
  f x = true /\ exists k, l !! k = Some x /\ forall k' y, (k' < k)%nat -> l !! k' = Some y -> f y = false.
Proof.
  induction l as [|y l IH]; simpl; [done|]. destruct (f y) eqn:E.
  - intros [= ->]. split; [done|]. exists O. split; [done|]. intros. lia.
  - intros Hf. destruct (IH Hf) as (Hx & k & Hk & Hlt). split; [done|]. exists (S k). split; [done|].
    intros [|k'] z Hk' Hz; [by injection Hz as <-|]. apply (Hlt k' z); [lia|done].
Qed.

(** [for_find] whose body only looks until the element that stops it. *)
Lemma for_find_find {St A R} (f : A -> bool) (l : list A) (body : A -> M St (option R)) s :
  (forall x, x ∈ l -> f x = false -> body x s = Done None s) ->
  match List.find f l with
  | None => for_find l body s = Done None s
  | Some x => exists rest, for_find l body s =
      bind (body x) (fun o => match o with
                              | Some r => ret (Some r)
                              | None => for_find rest body
                              end) s
  end.
Proof.
  induction l as [|y l IH]; intros Hb; cbn [List.find for_find]; [done|].
  destruct (f y) eqn:E; [by exists l|].
  rewrite (bind_done _ _ _ _ _ (Hb y (list_elem_of_here _ _) E)).
  apply IH. intros x Hx. apply Hb. by constructor.
Qed.

Lemma scheduler_level_eq level last s :
  procs_wf s -> k_held s = [] ->
  match List.find (fun i => runnable_at level (k_proc s !!! i)) (run_order ((last + 1) mod NPROC)%nat) with
  | None => scheduler_level level last s = Done None s
  | Some i =>
      exists k, scheduler_level level last s =
        Swtch (set_k_cur (Some i) (set_k_held [Lproc i]
                (set_k_proc (alter dispatched i (k_proc s)) s))) k /\
      forall s', k_held s' = [Lproc i] ->
        k s' = Done (Some i) (set_k_held [] (set_k_cur None s'))
  end.
Proof.
  intros Hwf Hh. unfold scheduler_level. cbv zeta.
  match goal with |- context [for_find _ ?b] =>
    pose proof (for_find_find (fun i => runnable_at level (k_proc s !!! i))
      (run_order ((last + 1) mod NPROC)%nat) b s) as Hf end.
  destruct (List.find _ _) as [i|] eqn:Hi.
  - apply List.find_some in Hi as [_ Hr]. destruct Hf as [rest ->].
    + intros x _ Hx. rewrite bind_acquire by (rewrite Hh; apply not_elem_of_nil).
      unfold getproc. rewrite bind_gets. ksimp. unfold runnable_at in Hx. rewrite Hx.
      erewrite bind_release by done. by destruct s.
    + eexists. split.
      * erewrite bind_bind; [|apply acquire_ok; rewrite Hh; apply not_elem_of_nil].
        unfold getproc. erewrite bind_bind by done. ksimp. unfold runnable_at in Hr. rewrite Hr.
        unfold updproc. erewrite !bind_bind by done. ksimp. rewrite Hh.
        unfold bind at 1. simpl. reflexivity.
      * intros s' Hs'. cbv beta. rewrite bind_modify. erewrite bind_release by done. by destruct s'.
  - apply Hf. intros x _ Hx. rewrite bind_acquire by (rewrite Hh; apply not_elem_of_nil).
    unfold getproc. rewrite bind_gets. ksimp. unfold runnable_at in Hx. rewrite Hx.
    erewrite bind_release by done. by destruct s.
Qed.

(** C31: at each level the scheduler is round robin. If no process of the level
    is RUNNABLE it moves on without changing anything; otherwise it switches to
    the RUNNABLE process of the level that comes first after the one that ran
    last, marked RUNNING and holding its lock, and nobody else's entry changes.
    A process of the level that is not chosen comes strictly closer to its
    turn, so it waits for at most 63 others. *)
Theorem scheduler_round_robin level last s :
  procs_wf s -> k_held s = [] -> (last < NPROC)%nat ->
  ((forall j, (j < NPROC)%nat -> runnable_at level (k_proc s !!! j) = false) /\
   scheduler_level level last s = Done None s) \/
  exists i s' k, (i < NPROC)%nat /\ runnable_at level (k_proc s !!! i) = true /\
    scheduler_level level last s = Swtch s' k /\
    k_cur s' = Some i /\ k_held s' = [Lproc i] /\
    k_proc s' = alter dispatched i (k_proc s) /\
    forall j, (j < NPROC)%nat -> runnable_at level (k_proc s !!! j) = true -> j <> i ->
      rr_dist i j < rr_dist last j.
Proof.
  intros Hwf Hh Hlast. pose proof (scheduler_level_eq level last s Hwf Hh) as Hs.
  destruct (List.find _ _) as [i|] eqn:Hi.
  - right. destruct Hs as (k & Hs & _).
    apply list_find_pos in Hi as (Hr & d & Hd & Hbefore).
    pose proof (lookup_lt_Some _ _ _ Hd) as Hdl. unfold run_order in Hdl.
    rewrite length_map, length_seq in Hdl.
    assert (i < NPROC)%nat as Hin.
    { rewrite run_order_lookup in Hd by done. apply (inj Some) in Hd. rewrite <- Hd. by apply Nat.mod_upper_bound. }
    eexists i, _, k. split_and!; [done|done|exact Hs|done..|].
    intros j Hj Hrj Hne. pose proof (rr_dist_order last j Hj) as Hoj.
    pose proof (rr_dist_order last i Hin) as Hoi.
    rewrite (run_order_inj _ _ _ _ Hd Hoi) in Hbefore.
    assert (rr_dist last i < rr_dist last j) as Hlt.
    { apply Z.nle_gt. intros Hle. destruct (decide (rr_dist last i = rr_dist last j)) as [E|E].
      - rewrite E in Hoi. congruence.
      - unfold rr_dist in Hle, E.
        pose proof (Z.mod_pos_bound (Z.of_nat j - Z.of_nat last - 1) (Z.of_nat NPROC) ltac:(done)).
        rewrite (Hbefore (Z.to_nat (rr_dist last j)) j) in Hrj; [done| |done].
        unfold rr_dist. lia. }
    unfold rr_dist in *. Z.div_mod_to_equations. lia.
  - left. split; [|done]. intros j Hj. eapply List.find_none in Hi; [exact Hi|].
    apply list_elem_of_In. eapply list_elem_of_lookup_2. by apply (rr_dist_order last j).
Qed.

Definition sched_demo : kst :=
  set_k_proc (<[3%nat := set_p_state RUNNABLE proc0]> (<[9%nat := set_p_state RUNNABLE proc0]>
    (replicate NPROC proc0))) (kst0 (fun _ => 0) []).

Lemma scheduler_round_robin_witness :
  exists i s' k, scheduler_level 0 3 sched_demo = Swtch s' k /\ k_cur s' = Some i.
Proof.
  destruct (scheduler_round_robin 0 3 sched_demo) as [[Hn _]|(i & s' & k & _ & _ & Hs & Hc & _)].
  - reflexivity.
  - reflexivity.
  - lia.
  - specialize (Hn 9%nat ltac:(lia)). vm_compute in Hn. discriminate Hn.
  - exists i, s', k. split; [exact Hs|exact Hc].
Defined.
