(* ===== verification/Strings.v ===== *)
(** * Byte blocks and C strings ([kernel/string.c], [user/ulib.c])

    The loops of both files, byte by byte over memory ([char] is unsigned on
    RISC-V). Theorems relate them to the block operations of [Machine] and to
    functions on byte lists, which the models of the structures that hold
    names in arrays use. *)

From S2P Require Import Prelude Machine.
Local Open Scope Z_scope.

(** [*a = v] for a [char *a]. *)
Definition setb (m : mem) (a v : Z) : mem := fun x => if x =? a then u8 v else m x.

(** ** [kernel/string.c] *)

Fixpoint memset_from (m : mem) (cdst c i : Z) (k : nat) : mem :=
  match k with
  | O => m
  | S k => memset_from (setb m (cdst + i) c) cdst c (i + 1) k
  end.
Definition memset (m : mem) (dst c n : Z) : mem := memset_from m dst c 0 (Z.to_nat n).

Fixpoint memcmp_loop (m : mem) (s1 s2 : Z) (n : nat) : Z :=
  match n with
  | O => 0
  | S n => if negb (m s1 =? m s2) then m s1 - m s2 else memcmp_loop m (s1 + 1) (s2 + 1) n
  end.
Definition memcmp (m : mem) (v1 v2 n : Z) : Z := memcmp_loop m v1 v2 (Z.to_nat n).

(** [while(n-- > 0) *d++ = *s++] and [while(n-- > 0) *--d = *--s]. *)
Fixpoint copy_up (m : mem) (d s : Z) (n : nat) : mem :=
  match n with
  | O => m
  | S n => copy_up (setb m d (m s)) (d + 1) (s + 1) n
  end.
Fixpoint copy_down (m : mem) (d s : Z) (n : nat) : mem :=
  match n with
  | O => m
  | S n => copy_down (setb m (d - 1) (m (s - 1))) (d - 1) (s - 1) n
  end.

Definition memmove (m : mem) (dst src n : Z) : mem :=
  if n =? 0 then m
  else if (src <? dst) && (dst <? src + n) then copy_down m (dst + n) (src + n) (Z.to_nat n)
  else copy_up m dst src (Z.to_nat n).
Definition memcpy (m : mem) (dst src n : Z) : mem := memmove m dst src n.

Fixpoint strncmp_loop (m : mem) (p q : Z) (n : nat) : Z :=
  match n with
  | O => 0
  | S n =>
      if nz (m p) && (m p =? m q) then strncmp_loop m (p + 1) (q + 1) n
      else u8 (m p) - u8 (m q)
  end.
Definition strncmp (m : mem) (p q n : Z) : Z := strncmp_loop m p q (Z.to_nat n).

(** [while(n-- > 0) *s++ = 0] *)
Fixpoint zero_up (m : mem) (s : Z) (n : nat) : mem :=
  match n with
  | O => m
  | S n => zero_up (setb m s 0) (s + 1) n
  end.
Fixpoint strncpy_loop (m : mem) (s t : Z) (n : nat) : mem :=
  match n with
  | O => m
  | S n =>
      let m' := setb m s (m t) in
      if nz (m t) then strncpy_loop m' (s + 1) (t + 1) n else zero_up m' (s + 1) n
  end.
Definition strncpy (m : mem) (s t n : Z) : mem := strncpy_loop m s t (Z.to_nat n).

(** The copy loop of [safestrcpy] and the final NUL; [n] is already
    decremented. *)
Fixpoint safestrcpy_loop (m : mem) (s t : Z) (n : nat) : mem :=
  match n with
  | O => setb m s 0
  | S n =>
      let m' := setb m s (m t) in
      if nz (m t) then safestrcpy_loop m' (s + 1) (t + 1) n else setb m' (s + 1) 0
  end.
Definition safestrcpy (m : mem) (s t n : Z) : mem :=
  if n <=? 0 then m else safestrcpy_loop m s t (Z.to_nat (n - 1)).

(** [for(n = 0; s[n]; n++);], giving up after [fuel] bytes. *)
Fixpoint strlen_from (m : mem) (s n : Z) (fuel : nat) : option Z :=
  match fuel with
  | O => None
  | S fuel => if nz (m (s + n)) then strlen_from m s (n + 1) fuel else Some n
  end.
Definition strlen (m : mem) (s : Z) (fuel : nat) : option Z := strlen_from m s 0 fuel.

(** ** [user/ulib.c] where it differs *)

Fixpoint strcpy (m : mem) (s t : Z) (fuel : nat) : option mem :=
  match fuel with
  | O => None
  | S fuel =>
      let m' := setb m s (m t) in
      if nz (m t) then strcpy m' (s + 1) (t + 1) fuel else Some m'
  end.

Fixpoint strcmp (m : mem) (p q : Z) (fuel : nat) : option Z :=
  match fuel with
  | O => None
  | S fuel =>
      if nz (m p) && (m p =? m q) then strcmp m (p + 1) (q + 1) fuel
      else Some (u8 (m p) - u8 (m q))
  end.

(** 0 is the null pointer. *)
Fixpoint strchr (m : mem) (s c : Z) (fuel : nat) : option Z :=
  match fuel with
  | O => None
  | S fuel =>
      if nz (m s) then if m s =? c then Some s else strchr m (s + 1) c fuel
      else Some 0
  end.

Fixpoint atoi_from (m : mem) (s n : Z) (fuel : nat) : option Z :=
  match fuel with
  | O => None
  | S fuel =>
      if (48 <=? m s) && (m s <=? 57) then atoi_from m (s + 1) (n * 10 + m s - 48) fuel
      else Some n
  end.
Definition atoi (m : mem) (s : Z) (fuel : nat) : option Z := atoi_from m s 0 fuel.

Definition umemmove (m : mem) (vdst vsrc n : Z) : mem :=
  if vdst <? vsrc then copy_up m vdst vsrc (Z.to_nat n)
  else copy_down m (vdst + n) (vsrc + n) (Z.to_nat n).

(* ------------------------------------------------------------------ *)
(** ** Block operations *)

Lemma setb_eq m a v : setb m a v a = u8 v.
Proof. unfold setb. by rewrite Z.eqb_refl. Qed.
Lemma setb_ne m a v x : x <> a -> setb m a v x = m x.
Proof. intros H. unfold setb. by rewrite (proj2 (Z.eqb_neq _ _)). Qed.

Lemma u8_id b : 0 <= b < 256 -> u8 b = b.
Proof. apply Z.mod_small. Qed.

Lemma memset_from_eq m cdst c i k x :
  memset_from m cdst c i k x = mset m (cdst + i) c (Z.of_nat k) x.
Proof.
  revert m i. induction k as [|k IH]; intros m i.
  - cbn [memset_from]. symmetry. apply mset_out. lia.
  - cbn [memset_from]. rewrite IH.
    destruct (decide (cdst + i <= x < cdst + i + Z.of_nat (S k))) as [Hin|Hout].
    + rewrite (mset_in m) by done. destruct (decide (x = cdst + i)) as [->|].
      * rewrite mset_out by lia. apply setb_eq.
      * apply mset_in. lia.
    + rewrite !mset_out by lia. apply setb_ne. lia.
Qed.

(** Copying upwards is right when the destination is not inside the part of
    the source still to be read, downwards in the mirrored case. *)
Lemma copy_up_eq m d s n x :
  mem_ok m -> d <= s \/ s + Z.of_nat n <= d -> copy_up m d s n x = mcopy m d s (Z.of_nat n) x.
Proof.
  revert m d s. induction n as [|n IH]; intros m d s Hm Hd.
  - symmetry. apply mcopy_out. lia.
  - cbn [copy_up]. rewrite IH; [|intros y; unfold setb; case_match; [apply Z.mod_pos_bound; lia|apply Hm]|lia].
    destruct (decide (d <= x < d + Z.of_nat (S n))) as [Hin|Hout].
    + rewrite (mcopy_in m) by done. destruct (decide (x = d)) as [->|].
      * rewrite mcopy_out, setb_eq, u8_id by (apply Hm || lia). f_equal. lia.
      * rewrite mcopy_in, setb_ne by lia. f_equal. lia.
    + rewrite !mcopy_out by lia. apply setb_ne. lia.
Qed.

Lemma copy_down_eq m d s n x :
  mem_ok m -> s <= d \/ d <= s - Z.of_nat n ->
  copy_down m d s n x = mcopy m (d - Z.of_nat n) (s - Z.of_nat n) (Z.of_nat n) x.
Proof.
  revert m d s. induction n as [|n IH]; intros m d s Hm Hd.
  - symmetry. apply mcopy_out. lia.
  - cbn [copy_down]. rewrite IH; [|intros y; unfold setb; case_match; [apply Z.mod_pos_bound; lia|apply Hm]|lia].
    replace (d - Z.of_nat (S n)) with (d - 1 - Z.of_nat n) by lia.
    replace (s - Z.of_nat (S n)) with (s - 1 - Z.of_nat n) by lia.
    destruct (decide (d - 1 - Z.of_nat n <= x < d)) as [Hin|Hout].
    + rewrite (mcopy_in m) by lia. destruct (decide (x = d - 1)) as [->|].
      * rewrite mcopy_out, setb_eq, u8_id by (apply Hm || lia). f_equal. lia.
      * rewrite mcopy_in, setb_ne by lia. f_equal.
    + rewrite !mcopy_out by lia. apply setb_ne. lia.
Qed.

(** [memmove] of the kernel and of the user library copy [n] bytes as if
    all of them were read before the first is written, however source and
    destination overlap; and [memset] fills exactly its block. *)
Theorem memmove_overlap m dst src n c x :
  mem_ok m -> 0 <= n ->
  memmove m dst src n x = mcopy m dst src n x /\
  umemmove m dst src n x = mcopy m dst src n x /\
  memset m dst c n x = mset m dst c n x.
Proof.
  intros Hm Hn. split_and!.
  - unfold memmove. destruct (Z.eqb_spec n 0) as [->|Hne]; [symmetry; apply mcopy_out; lia|].
    destruct (Z.ltb_spec src dst), (Z.ltb_spec dst (src + n)); cbn [andb];
      rewrite ?copy_up_eq, ?copy_down_eq, ?Z2Nat.id, ?Z.add_simpl_r by (done || lia); done.
  - unfold umemmove. destruct (Z.ltb_spec dst src);
      rewrite ?copy_up_eq, ?copy_down_eq, ?Z2Nat.id, ?Z.add_simpl_r by (done || lia); done.
  - unfold memset. rewrite memset_from_eq, Z2Nat.id, Z.add_0_r by done. done.
Qed.

Lemma memmove_overlap_witness :
  memmove (fun a => u8 a) 102 100 5 106 = 104 /\ umemmove (fun a => u8 a) 98 100 5 100 = 102.
Proof.
  assert (mem_ok (fun a => u8 a)) as Hok by (intros y; apply Z.mod_pos_bound; lia).
  destruct (memmove_overlap (fun a => u8 a) 102 100 5 0 106 Hok ltac:(lia)) as [H1 _].
  destruct (memmove_overlap (fun a => u8 a) 98 100 5 0 100 Hok ltac:(lia)) as (_ & H2 & _).
  split; [rewrite H1|rewrite H2]; reflexivity.
Defined.

(* ------------------------------------------------------------------ *)
(** ** Strings in arrays *)

(** The bytes before the first NUL. *)
Fixpoint cstr (l : list Z) : list Z :=
  match l with
  | [] => []
  | b :: l => if nz b then b :: cstr l else []
  end.

(** [strncmp] on two arrays of the same length. *)
Fixpoint strncmp_l (p q : list Z) : Z :=
  match p, q with
  | a :: p, b :: q => if nz a && (a =? b) then strncmp_l p q else a - b
  | _, _ => 0
  end.

(** The array of [n] bytes that [strncpy] fills. *)
Definition strncpy_l (t : list Z) (n : nat) : list Z :=
  let c := cstr (take n t) in c ++ replicate (n - length c) 0.

(** The array after [safestrcpy]: the copied bytes, a NUL, one more NUL when
    the source ended before the array did, the rest as it was. *)
Definition safestrcpy_l (old t : list Z) : list Z :=
  let n := length old in
  let c := cstr (take (n - 1) t) in
  let new := c ++ (if (length c <? n - 1)%nat then [0; 0] else [0]) in
  new ++ drop (length new) old.

Lemma cstr_length l : (length (cstr l) <= length l)%nat.
Proof. induction l as [|b l IH]; simpl; [lia|]. destruct (nz b); simpl; lia. Qed.

Lemma mread_cons m a n : 0 <= n -> mread m a (n + 1) = m a :: mread m (a + 1) n.
Proof.
  intros Hn. unfold mread. rewrite seqZ_cons by lia. cbn [map]. f_equal; [f_equal; lia|].
  replace (Z.pred (n + 1)) with n by lia. rewrite <- (fmap_add_seqZ 1 0).
  change (map ?f ?l) with (f <$> l). rewrite <- list_fmap_compose. apply list_fmap_ext.
  intros _ i _. unfold compose. f_equal. lia.
Qed.

Lemma mread_S m a n : mread m a (Z.of_nat (S n)) = m a :: mread m (a + 1) (Z.of_nat n).
Proof. rewrite Nat2Z.inj_succ. apply mread_cons. lia. Qed.

Lemma strncmp_loop_eq m p q n :
  mem_ok m ->
  strncmp_loop m p q n = strncmp_l (mread m p (Z.of_nat n)) (mread m q (Z.of_nat n)).
Proof.
  intros Hm. revert p q. induction n as [|n IH]; intros p q; [done|].
  rewrite !mread_S. cbn [strncmp_loop strncmp_l].
  destruct (_ && _); [apply IH|]. by rewrite !u8_id by apply Hm.
Qed.

Lemma strncmp_l_eq p q :
  length p = length q -> strncmp_l p q = 0 <-> cstr p = cstr q.
Proof.
  revert q. induction p as [|a p IH]; intros [|b q] Hlen; try done. simpl. injection Hlen as Hlen.
  destruct (nz a) eqn:Ea; cbn [andb].
  - destruct (Z.eqb_spec a b) as [->|Hne].
    + rewrite Ea, IH by done. split; [by intros ->|by intros [= ->]].
    + destruct (nz b); split; try lia; intros [= ?]; done.
  - apply nz_false in Ea as ->. destruct (nz b) eqn:Eb.
    + apply nz_true in Eb. split; [lia|done].
    + apply nz_false in Eb as ->. done.
Qed.

(** [strncmp] returns 0 exactly when the two strings agree up to their
    first NUL or up to [n] bytes, whichever comes first. *)
Theorem strncmp_zero m p q n :
  mem_ok m -> 0 <= n ->
  strncmp m p q n = 0 <-> cstr (mread m p n) = cstr (mread m q n).
Proof.
  intros Hm Hn. unfold strncmp. rewrite strncmp_loop_eq, Z2Nat.id by done.
  apply strncmp_l_eq. by rewrite !length_mread.
Qed.

Lemma strncmp_zero_witness :
  strncmp (fun a => if (a =? 2) || (a =? 12) then 0 else 97 + a mod 10) 0 10 5 = 0.
Proof.
  apply (strncmp_zero (fun a => if (a =? 2) || (a =? 12) then 0 else 97 + a mod 10) 0 10 5).
  - intros x. cbv beta. destruct (_ || _); [lia|]. pose proof (Z.mod_pos_bound x 10). lia.
  - lia.
  - reflexivity.
Defined.

Definition disjoint_blocks (s t n : Z) : Prop := s + n <= t \/ t + n <= s.

Lemma mread_setb m a v b n : a < b \/ b + n <= a -> mread (setb m a v) b n = mread m b n.
Proof. intros H. apply mread_ext. intros x Hx. apply setb_ne. lia. Qed.

Lemma setb_ok m a v : mem_ok m -> mem_ok (setb m a v).
Proof. intros Hm x. unfold setb. case_match; [apply Z.mod_pos_bound; lia|apply Hm]. Qed.

Lemma zero_up_eq m s n x : zero_up m s n x = mset m s 0 (Z.of_nat n) x.
Proof.
  revert m s. induction n as [|n IH]; intros m s; cbn [zero_up].
  - symmetry. apply mset_out. lia.
  - rewrite IH. destruct (decide (s <= x < s + Z.of_nat (S n))) as [Hin|Hout].
    + rewrite (mset_in m) by done. destruct (decide (x = s)) as [->|].
      * rewrite mset_out by lia. apply setb_eq.
      * apply mset_in. lia.
    + rewrite !mset_out by lia. apply setb_ne. lia.
Qed.

Lemma mread_zeros m s n : (forall x, s <= x < s + Z.of_nat n -> m x = 0) ->
  mread m s (Z.of_nat n) = replicate n 0.
Proof.
  revert s. induction n as [|n IH]; intros s H; [done|]. rewrite mread_S. simpl.
  rewrite H by lia. f_equal. apply IH. intros. apply H. lia.
Qed.

Lemma strncpy_loop_eq m s t n :
  mem_ok m -> disjoint_blocks s t (Z.of_nat n) ->
  mread (strncpy_loop m s t n) s (Z.of_nat n) = strncpy_l (mread m t (Z.of_nat n)) n /\
  forall x, x < s \/ s + Z.of_nat n <= x -> strncpy_loop m s t n x = m x.
Proof.
  unfold disjoint_blocks. revert m s t. induction n as [|n IH]; intros m s t Hm Hd; [done|].
  cbn [strncpy_loop]. rewrite !mread_S. unfold strncpy_l. cbn [take cstr].
  destruct (nz (m t)) eqn:Hb.
  - destruct (IH (setb m s (m t)) (s + 1) (t + 1)) as [Hr Hf]; [by apply setb_ok|lia|].
    rewrite mread_setb in Hr by lia. split.
    + rewrite Hf, setb_eq, u8_id, Hr by (apply Hm || lia). done.
    + intros x Hx. rewrite Hf by lia. apply setb_ne. lia.
  - apply nz_false in Hb. rewrite Hb. split.
    + rewrite zero_up_eq, mset_out, setb_eq by lia. simpl. f_equal.
      apply mread_zeros. intros x Hx. rewrite zero_up_eq. by apply mset_in.
    + intros x Hx. rewrite zero_up_eq, mset_out by lia. apply setb_ne. lia.
Qed.

Lemma safestrcpy_loop_eq m s t n :
  mem_ok m -> disjoint_blocks s t (Z.of_nat (S n)) ->
  mread (safestrcpy_loop m s t n) s (Z.of_nat (S n)) =
    safestrcpy_l (mread m s (Z.of_nat (S n))) (mread m t (Z.of_nat n)) /\
  forall x, x < s \/ s + Z.of_nat (S n) <= x -> safestrcpy_loop m s t n x = m x.
Proof.
  unfold disjoint_blocks. revert m s t. induction n as [|n IH]; intros m s t Hm Hd.
  - cbn [safestrcpy_loop]. split; [|intros; apply setb_ne; lia].
    rewrite !mread_S. change (mread _ _ 0) with (@nil Z). rewrite setb_eq. done.
  - cbn [safestrcpy_loop]. rewrite (mread_S _ s), (mread_S m s (S n)), (mread_S m t).
    unfold safestrcpy_l. cbn [length]. rewrite length_mread, Nat2Z.id.
    replace (S (S n) - 1)%nat with (S n) by lia. cbn [take cstr].
    destruct (nz (m t)) eqn:Hb.
    + destruct (IH (setb m s (m t)) (s + 1) (t + 1)) as [Hr Hf]; [by apply setb_ok|lia|].
      rewrite !mread_setb in Hr by lia. split.
      * rewrite Hf, setb_eq, u8_id, Hr by (apply Hm || lia). unfold safestrcpy_l.
        rewrite length_mread, Nat2Z.id. replace (S n - 1)%nat with n by lia. cbn [length app].
        change (S ?a <? S ?b)%nat with (a <? b)%nat. by destruct (_ <? _)%nat.
      * intros x Hx. rewrite Hf by lia. apply setb_ne. lia.
    + apply nz_false in Hb. rewrite Hb. simpl. split.
      * rewrite setb_ne, setb_eq by lia. rewrite !(mread_S _ (s + 1)), setb_eq.
        rewrite !mread_setb by lia. done.
      * intros x Hx. rewrite !setb_ne by lia. done.
Qed.

Lemma cstr_app_nul l (b : bool) r :
  cstr (cstr l ++ ((if b then [0; 0] else [0]) ++ r)) = cstr l.
Proof.
  induction l as [|x l IH]; simpl; [by destruct b|].
  destruct (nz x) eqn:E; [|by destruct b]. simpl. rewrite E. by f_equal.
Qed.

(** bounded string copies write exactly their [n]-byte array. [strncpy]
    fills it with the source string cut at [n] bytes and padded with NULs;
    [safestrcpy] stores the source string cut at [n-1] bytes, always
    NUL-terminated inside the array. *)
Theorem strcpy_bounds m s t n :
  mem_ok m -> 0 < n -> disjoint_blocks s t n ->
  mread (strncpy m s t n) s n = strncpy_l (mread m t n) (Z.to_nat n) /\
  cstr (mread (safestrcpy m s t n) s n) = cstr (mread m t (n - 1)) /\
  (forall x, x < s \/ s + n <= x -> strncpy m s t n x = m x /\ safestrcpy m s t n x = m x).
Proof.
  intros Hm Hn Hd.
  destruct (strncpy_loop_eq m s t (Z.to_nat n)) as [H1 H2]; [done|by rewrite Z2Nat.id by lia|].
  destruct (safestrcpy_loop_eq m s t (Z.to_nat (n - 1))) as [H3 H4]; [done| |].
  { by replace (Z.of_nat (S (Z.to_nat (n - 1)))) with n by lia. }
  replace (Z.of_nat (S (Z.to_nat (n - 1)))) with n in H3, H4 by lia.
  rewrite !Z2Nat.id in * by lia. unfold strncpy, safestrcpy.
  rewrite (proj2 (Z.leb_gt n 0)) by lia. split_and!; [done| |auto].
  rewrite H3. unfold safestrcpy_l. rewrite length_mread.
  rewrite take_ge by (rewrite length_mread; lia). rewrite <- app_assoc. apply cstr_app_nul.
Qed.

Lemma strcpy_bounds_witness :
  cstr (mread (safestrcpy (fun a => if a =? 23 then 0 else u8 a) 100 20 8) 100 8) = [20; 21; 22].
Proof.
  destruct (strcpy_bounds (fun a => if a =? 23 then 0 else u8 a) 100 20 8) as (_ & H & _).
  - intros x. cbv beta. destruct (_ =? _); [lia|]. apply Z.mod_pos_bound. lia.
  - lia.
  - right. lia.
  - rewrite H. reflexivity.
Defined.
