(* ===== verification/Printf.v ===== *)
(** * Formatted output ([kernel/printf.c], [user/printf.c])

    Both files interpret the same conversions; the kernel advances an index
    past them, the user library runs a two-state machine. Output is the list
    of characters sent to [consputc] or written with [putc]. *)

From S2P Require Import Prelude Machine.
Local Open Scope Z_scope.

(** An argument: a register's value or a string (a null pointer is [None]). *)
Inductive vararg : Type := ANum (v : Z) | AStr (s : option (list Z)).
Definition num_of (a : vararg) : Z := match a with ANum v => v | AStr _ => 0 end.
Definition i64 (v : Z) : Z := sext 64 v.

(** [va_arg]: the next argument and the rest (an absent one reads as 0). *)
Definition va_arg (ap : list vararg) : vararg * list vararg :=
  match ap with
  | [] => (ANum 0, [])
  | a :: ap => (a, ap)
  end.

Definition chr (s : string) : list Z := map (fun a => Z.of_nat (Ascii.nat_of_ascii a)) (String.list_ascii_of_string s).
Definition kdigits : list Z := chr "0123456789abcdef".
Definition udigits : list Z := chr "0123456789ABCDEF".

Section Format.
Variable digits : list Z.

(** The [do]-[while] loop: [buf] from its last element to its first, which is
    the order of the output. 64 iterations are enough for a 64-bit [x]. *)
Fixpoint digit_loop (fuel : nat) (x base : Z) (buf : list Z) : list Z :=
  match fuel with
  | O => buf
  | S fuel =>
      let buf := digits !!! Z.to_nat (x mod base) :: buf in
      let x := x / base in
      if negb (x =? 0) then digit_loop fuel x base buf else buf
  end.

Definition printint (xx base : Z) (sign : bool) : list Z :=
  let neg := sign && (xx <? 0) in
  let x := if neg then u64 (- xx) else u64 xx in
  let buf := digit_loop 64 x base [] in
  if neg then 45 :: buf else buf.

Definition printptr (x : Z) : list Z :=
  [48; 120] ++ map (fun i => digits !!! Z.to_nat (Z.shiftr (u64 (Z.shiftl x (4 * i))) 60)) (seqZ 0 16).

(** One conversion: [c0], [c1], [c2] are the characters after the percent
    sign. Returns the output, how many characters beyond [c0] were used, and
    the remaining arguments. *)
Definition convert (c0 c1 c2 : Z) (ap : list vararg) : list Z * nat * list vararg :=
  let '(a, ap') := va_arg ap in
  if c0 =? 100 then (printint (i32 (num_of a)) 10 true, 0%nat, ap')
  else if (c0 =? 108) && (c1 =? 100) then (printint (i64 (num_of a)) 10 true, 1%nat, ap')
  else if (c0 =? 108) && (c1 =? 108) && (c2 =? 100) then (printint (i64 (num_of a)) 10 true, 2%nat, ap')
  else if c0 =? 117 then (printint (u32 (num_of a)) 10 false, 0%nat, ap')
  else if (c0 =? 108) && (c1 =? 117) then (printint (i64 (num_of a)) 10 false, 1%nat, ap')
  else if (c0 =? 108) && (c1 =? 108) && (c2 =? 117) then (printint (i64 (num_of a)) 10 false, 2%nat, ap')
  else if c0 =? 120 then (printint (u32 (num_of a)) 16 false, 0%nat, ap')
  else if (c0 =? 108) && (c1 =? 120) then (printint (i64 (num_of a)) 16 false, 1%nat, ap')
  else if (c0 =? 108) && (c1 =? 108) && (c2 =? 120) then (printint (i64 (num_of a)) 16 false, 2%nat, ap')
  else if c0 =? 112 then (printptr (u64 (num_of a)), 0%nat, ap')
  else if c0 =? 99 then ([u8 (num_of a)], 0%nat, ap')
  else if c0 =? 115 then
    (match a with AStr (Some s) => s | _ => chr "(null)" end, 0%nat, ap')
  else if c0 =? 37 then ([37], 0%nat, ap)
  else ([37; c0], 0%nat, ap).

(** [fmt[i]], with the terminating NUL. *)
Definition fmt_at (fmt : list Z) (i : nat) : Z := nth i fmt 0.

(** The kernel's loop. *)
Fixpoint kprintf_loop (fuel : nat) (fmt : list Z) (i : nat) (ap : list vararg) : list Z :=
  match fuel with
  | O => []
  | S fuel =>
      let cx := fmt_at fmt i in
      if cx =? 0 then []
      else if negb (cx =? 37) then cx :: kprintf_loop fuel fmt (S i) ap
      else
        let i := S i in
        let c0 := fmt_at fmt i in
        let c1 := if nz c0 then fmt_at fmt (i + 1) else 0 in
        let c2 := if nz c1 then fmt_at fmt (i + 2) else 0 in
        if c0 =? 0 then []
        else
          let '(out, skip, ap) := convert c0 c1 c2 ap in
          out ++ kprintf_loop fuel fmt (S (i + skip)) ap
  end.
Definition kprintf (fmt : list Z) (ap : list vararg) : list Z :=
  kprintf_loop (S (length fmt)) fmt 0 ap.

(** The user library's loop: [state] is 0 or the percent sign. *)
Fixpoint vprintf_loop (fuel : nat) (fmt : list Z) (i : nat) (state : bool) (ap : list vararg) : list Z :=
  match fuel with
  | O => []
  | S fuel =>
      let c0 := fmt_at fmt i in
      if c0 =? 0 then []
      else if negb state then
        if c0 =? 37 then vprintf_loop fuel fmt (S i) true ap
        else c0 :: vprintf_loop fuel fmt (S i) false ap
      else
        let c1 := if nz c0 then fmt_at fmt (i + 1) else 0 in
        let c2 := if nz c1 then fmt_at fmt (i + 2) else 0 in
        let '(out, skip, ap) := convert c0 c1 c2 ap in
        out ++ vprintf_loop fuel fmt (S (i + skip)) false ap
  end.
Definition vprintf (fmt : list Z) (ap : list vararg) : list Z :=
  vprintf_loop (S (length fmt)) fmt 0 false ap.

(* ------------------------------------------------------------------ *)
(** ** Digits *)

(** The digits of [x] in [base], most significant first. *)
Lemma digit_loop_spec fuel x base buf :
  2 <= base -> 0 <= x < base ^ Z.of_nat fuel -> (0 < fuel)%nat ->
  exists ds, digit_loop fuel x base buf = map (fun d => digits !!! Z.to_nat d) ds ++ buf /\
    Forall (fun d => 0 <= d < base) ds /\ foldl (fun v d => v * base + d) 0 ds = x /\
    (1 <= length ds <= fuel)%nat /\ (x <> 0 -> head ds <> Some 0) /\ (x = 0 -> ds = [0]) /\
    (0 < x -> base ^ (Z.of_nat (length ds) - 1) <= x).
Proof.
  intros Hb. revert x buf. induction fuel as [|fuel IH]; intros x buf Hx Hf; [lia|].
  cbn [digit_loop]. rewrite Nat2Z.inj_succ, Z.pow_succ_r in Hx by lia.
  assert (0 <= x / base) by (apply Z.div_pos; lia).
  assert (x / base < base ^ Z.of_nat fuel) by (apply Z.div_lt_upper_bound; lia).
  pose proof (Z.div_mod x base ltac:(lia)) as Hdm. pose proof (Z.mod_pos_bound x base ltac:(lia)) as Hmb.
  destruct (Z.eqb_spec (x / base) 0) as [E|Hne]; cbn [negb].
  - exists [x mod base]. rewrite E in Hdm. split_and!; try done.
    + constructor; [lia|constructor].
    + cbn [foldl]. lia.
    + intros ? [= E2]. lia.
    + intros ->. by rewrite Zmod_0_l.
    + intros. simpl. lia.
  - destruct fuel as [|fuel]; [change (base ^ Z.of_nat 0) with 1 in *; lia|].
    destruct (IH (x / base) (digits !!! Z.to_nat (x mod base) :: buf)) as
      (ds & -> & Hds & Hval & Hlen & Hhd & _ & Hlow); [lia|lia|].
    exists (ds ++ [x mod base]). split_and!.
    + rewrite map_app, <- app_assoc. done.
    + apply Forall_app. split; [done|]. constructor; [lia|constructor].
    + rewrite foldl_app. simpl. rewrite Hval. lia.
    + rewrite length_app. simpl. lia.
    + rewrite length_app. simpl. lia.
    + intros _. specialize (Hhd Hne). destruct ds; [simpl in Hlen; lia|done].
    + intros ->. by rewrite Zdiv_0_l in Hne.
    + intros _. rewrite length_app. simpl length.
      replace (Z.of_nat (length ds + 1) - 1) with (Z.succ (Z.of_nat (length ds) - 1)) by lia.
      rewrite Z.pow_succ_r by lia. specialize (Hlow ltac:(lia)). nia.
Qed.

Lemma digits_at_most b n x len :
  2 <= b -> 0 <= n -> b ^ (len - 1) <= x -> x < b ^ n -> 0 <= len -> len <= n.
Proof.
  intros Hb Hn Hlow Hup Hlen. apply Z.nlt_ge. intros Hlt.
  assert (b ^ n <= b ^ (len - 1)) by (apply Z.pow_le_mono_r; lia). lia.
Qed.

(** [printint] prints the number. For base 10 or 16 its output is an
    optional minus sign and the digits, most significant first and without
    leading zeroes, of the absolute value (of the 64-bit pattern when
    unsigned); and it never needs more than the 20 bytes of its buffer. *)
Theorem printint_digits xx base sign :
  base = 10 \/ base = 16 -> - 2 ^ 63 <= xx < 2 ^ 63 ->
  let neg := sign && (xx <? 0) in
  exists ds, printint xx base sign =
      (if neg then [45] else []) ++ map (fun d => digits !!! Z.to_nat d) ds /\
    Forall (fun d => 0 <= d < base) ds /\
    foldl (fun v d => v * base + d) 0 ds = (if sign then Z.abs xx else u64 xx) /\
    (head ds = Some 0 -> ds = [0]) /\
    (length (printint xx base sign) <= 20)%nat.
Proof.
  intros Hbase Hxx neg. set (x := if neg then u64 (- xx) else u64 xx).
  assert (x = if sign then Z.abs xx else u64 xx) as Hx.
  { unfold x, neg. destruct sign; cbn [andb]; [|done].
    destruct (Z.ltb_spec xx 0); rewrite u64_small; lia. }
  assert (0 <= x < 2 ^ 64) as Hr.
  { unfold x. destruct neg; apply u64_range. }
  assert (neg = true -> x <= 2 ^ 63) as Hneg.
  { unfold neg in *. intros Hn. rewrite Hx. destruct sign; [|done]. lia. }
  destruct (digit_loop_spec 64 x base []) as (ds & Hd & Hds & Hval & Hlen & Hhd & H0 & Hlow).
  - lia.
  - split; [lia|]. apply Z.lt_le_trans with (2 ^ 64); [lia|].
    change (Z.of_nat 64) with 64. destruct Hbase as [-> | ->]; vm_compute; discriminate.
  - lia.
  - rewrite app_nil_r in Hd. exists ds. unfold printint. fold neg. fold x. rewrite Hd.
    split_and!; [by destruct neg|done|by rewrite Hval| |].
    + intros Hh. destruct (decide (x = 0)) as [E|E]; [by apply H0|]. by destruct (Hhd E).
    + assert (Z.of_nat (length ds) <= (if neg then 19 else 20)) as Hl.
      { destruct (decide (x = 0)) as [E|E]; [rewrite (H0 E); by destruct neg|].
        specialize (Hlow ltac:(lia)).
        apply (digits_at_most base _ x); [lia|by destruct neg|done| |lia].
        destruct neg.
        - apply Z.le_lt_trans with (2 ^ 63); [by apply Hneg|].
          destruct Hbase as [-> | ->]; by vm_compute.
        - apply Z.lt_trans with (2 ^ 64); [lia|].
          destruct Hbase as [-> | ->]; by vm_compute. }
      destruct neg; cbn [length]; rewrite length_map; lia.
Qed.

(** A format without NULs is read up to its end. *)
Lemma fmt_at_end fmt i : (length fmt <= i)%nat -> fmt_at fmt i = 0.
Proof. apply nth_overflow. Qed.

Lemma printf_loops fmt f1 f2 i ap :
  (length fmt - i < f1)%nat -> (length fmt - i < f2)%nat ->
  kprintf_loop f1 fmt i ap = vprintf_loop f2 fmt i false ap.
Proof.
  revert f2 i ap. induction f1 as [|f1 IH]; intros [|f2] i ap H1 H2; try lia.
  cbn [kprintf_loop vprintf_loop]. destruct (Z.eqb_spec (fmt_at fmt i) 0) as [|Hne]; [done|].
  assert (i < length fmt)%nat as Hi by (apply Nat.nle_gt; intros Hle; by apply Hne, fmt_at_end).
  cbn [negb]. destruct (fmt_at fmt i =? 37); cbn [negb].
  - destruct f2 as [|f2]; [lia|]. cbn [vprintf_loop].
    destruct (Z.eqb_spec (fmt_at fmt (S i)) 0) as [|Hne2]; [done|].
    assert (S i < length fmt)%nat by (apply Nat.nle_gt; intros Hle; by apply Hne2, fmt_at_end).
    cbn [negb]. destruct (convert _ _ _ ap) as [[out skip] ap']. f_equal. apply IH; lia.
  - f_equal. apply IH; lia.
Qed.

(** for every format and argument list, the index-skipping loop of the
    kernel's [printf] and the state machine of the user library's [vprintf]
    print the same characters, given the same digit table. *)
Theorem printf_agree fmt ap : kprintf fmt ap = vprintf fmt ap.
Proof. apply printf_loops; lia. Qed.
End Format.

Lemma printint_digits_witness :
  exists ds, printint kdigits (-42) 10 true = [45] ++ map (fun d => kdigits !!! Z.to_nat d) ds.
Proof.
  destruct (printint_digits kdigits (-42) 10 true) as (ds & H & _).
  - by left.
  - lia.
  - exists ds. exact H.
Defined.
