(* ===== verification/Print.v ===== *)
(** * Messages of the kernel ([kernel/uart.c], [kernel/console.c], [kernel/printf.c])

    Characters sent to the UART are appended to [h_uart_tx]; stores to device
    registers are recorded in [h_mmio], newest first. [uartputc_sync] waits
    for the transmitter, which the device makes idle; the wait is not
    modelled. Nothing after [panic] is modelled, so [panicking] and [panicked]
    are 0. *)

From S2P Require Import Prelude Machine KState Spinlock Printf.
Local Open Scope Z_scope.
Local Open Scope kern_scope.

(** A store to a 32-bit device register. *)
Definition mmio_write (a v : Z) : K unit :=
  modify (fun s => set_k_hw (set_h_mmio ((a, u32 v) :: h_mmio (k_hw s)) (k_hw s)) s).

Abbreviation IER := 1%Z.
Abbreviation IER_RX_ENABLE := 1%Z.
Abbreviation IER_TX_ENABLE := 2%Z.
Abbreviation FCR := 2%Z.
Abbreviation FCR_FIFO_ENABLE := 1%Z.
Abbreviation FCR_FIFO_CLEAR := 6%Z.
Abbreviation LCR := 3%Z.
Abbreviation LCR_EIGHT_BITS := 3%Z.
Abbreviation LCR_BAUD_LATCH := 128%Z.

(** A store to a register of the UART, which is one byte wide. *)
Definition WriteReg (reg v : Z) : K unit := mmio_write (UART0 + reg) (u8 v).

Definition uartinit : K unit :=
  WriteReg IER 0 ;;;
  WriteReg LCR LCR_BAUD_LATCH ;;;
  WriteReg 0 3 ;;;
  WriteReg 1 0 ;;;
  WriteReg LCR LCR_EIGHT_BITS ;;;
  WriteReg FCR (Z.lor FCR_FIFO_ENABLE FCR_FIFO_CLEAR) ;;;
  WriteReg IER (Z.lor IER_TX_ENABLE IER_RX_ENABLE) ;;;
  initlock Ltx_lock.

Definition uart_send (c : Z) : K unit :=
  modify (fun s => set_k_hw (set_h_uart_tx (h_uart_tx (k_hw s) ++ [u8 c]) (k_hw s)) s).
Definition uartputc_sync (c : Z) : K unit := uart_send c.

Abbreviation BACKSPACE := 0x100%Z.
Definition consputc (c : Z) : K unit :=
  if c =? BACKSPACE then uartputc_sync 8 ;;; uartputc_sync 32 ;;; uartputc_sync 8
  else uartputc_sync c.

Definition printf (fmt : string) (ap : list vararg) : K unit :=
  acquire Lpr ;;;
  for_each (kprintf kdigits (chr fmt) ap) consputc ;;;
  release Lpr.

Definition newline : string := String.String (Ascii.ascii_of_nat 10) String.EmptyString.
Definition nl (s : string) : string := (s ++ newline)%string.

(** Output only adds to what the UART sent. *)
Definition set_tx (tx : list Z) (s : kst) : kst := set_k_hw (set_h_uart_tx tx (k_hw s)) s.

Lemma consputc_out c s : exists tx, consputc c s = Done tt (set_tx tx s).
Proof.
  unfold consputc. destruct (c =? BACKSPACE); [|by eexists].
  unfold uartputc_sync, uart_send. rewrite !bind_modify. eexists. by destruct s.
Qed.

Lemma consputcs_out l s : exists tx, for_each l consputc s = Done tt (set_tx tx s).
Proof.
  revert s. induction l as [|c l IH]; intros s; cbn [for_each].
  - exists (h_uart_tx (k_hw s)). unfold set_tx. destruct s as []. ksimp. by destruct k_hw.
  - destruct (consputc_out c s) as [tx E]. rewrite (bind_done _ _ _ _ _ E).
    destruct (IH (set_tx tx s)) as [tx' ->]. exists tx'. by destruct s.
Qed.

Lemma printf_out fmt ap s : Lpr ∉ k_held s -> exists tx, printf fmt ap s = Done tt (set_tx tx s).
Proof.
  intros Hl. unfold printf. rewrite bind_acquire by done.
  match goal with |- context [for_each ?l _] =>
    destruct (consputcs_out l (set_k_held (Lpr :: k_held s) s)) as [tx E] end.
  rewrite (bind_done _ _ _ _ _ E). erewrite release_head by done. exists tx. by destruct s.
Qed.
