(* ===== verification/Bio.v ===== *)
(** * Sleep locks and the buffer cache ([kernel/sleeplock.c], [kernel/bio.c])

    A sleep lock is the [lock] field of a buffer or an inode. The buffers and
    the list head of [bcache] are one table, [k_bcache], whose last element is
    the head; [prev] and [next] are indices into it. The disk driver is used
    through the class [BlockDev]. *)

From S2P Require Import Prelude Machine KState Spinlock Sched.
Local Open Scope Z_scope.
Local Open Scope kern_scope.

(* ------------------------------------------------------------------ *)
(** ** Buffers and sleep locks *)

Definition getbuf (b : nat) : K buf := gets (fun s => k_bcache s !!! b).
Definition updbuf (b : nat) (f : buf -> buf) : K unit :=
  modify (fun s => set_k_bcache (alter f b (k_bcache s)) s).

(** The sleep lock named by [l]. *)
Definition getsl (l : slid) : K sleeplock :=
  gets (fun s => match l with
                 | SLbuf b => b_lock (k_bcache s !!! b)
                 | SLinode i => i_lock (k_itable s !!! i)
                 end).
Definition setsl (l : slid) (v : sleeplock) : K unit :=
  modify (fun s => match l with
                   | SLbuf b => set_k_bcache (alter (set_b_lock v) b (k_bcache s)) s
                   | SLinode i => set_k_itable (alter (set_i_lock v) i (k_itable s)) s
                   end).

Definition initsleeplock (l : slid) : K unit :=
  initlock (Lsleep l) ;;;
  setsl l (mksleeplock 0 0).

Definition acquiresleep `{SleepFuel} (l : slid) : K unit :=
  acquire (Lsleep l) ;;;
  loop sleep_fuel (fun _ : unit =>
    lk <- getsl l ;;
    if nz (sl_locked lk) then sleep (ChSleep l) (Lsleep l) ;;; ret (inl tt)
    else ret (inr tt)) tt ;;;
  p <- curproc ;;
  pr <- getproc p ;;
  setsl l (mksleeplock 1 (p_pid pr)) ;;;
  release (Lsleep l).

Definition releasesleep (l : slid) : K unit :=
  acquire (Lsleep l) ;;;
  setsl l (mksleeplock 0 0) ;;;
  wakeup (ChSleep l) ;;;
  release (Lsleep l).

Definition holdingsleep (l : slid) : K bool :=
  acquire (Lsleep l) ;;;
  lk <- getsl l ;;
  p <- curproc ;;
  pr <- getproc p ;;
  release (Lsleep l) ;;;
  ret (nz (sl_locked lk) && (sl_pid lk =? p_pid pr)).

(* ------------------------------------------------------------------ *)
(** ** The disk driver's interface *)

(** Content of block [b]: its newest write, zeroes before the first. *)
Definition zero_block : list Z := replicate 1024 0.
Fixpoint dget (d : disk) (b : Z) : list Z :=
  match d with
  | [] => zero_block
  | (b', v) :: d => if b' =? b then v else dget d b
  end.

(** [virtio_disk_rw(b, write)] of the driver. *)
Class BlockDev : Type := virtio_disk_rw : nat -> bool -> K unit.

(** What the file system relies on: when [virtio_disk_rw] returns, the block
    has been read into the buffer or written to the disk, and nothing else
    that this thread can see has changed. *)
Class BlockDevOk `{BlockDev} : Prop := {
  disk_read : forall b s, virtio_disk_rw b false s =
    Done tt (set_k_bcache (alter (set_b_data (dget (k_disk s) (b_blockno (k_bcache s !!! b)))) b
      (k_bcache s)) s);
  disk_write : forall b s, virtio_disk_rw b true s =
    Done tt (set_k_disk ((b_blockno (k_bcache s !!! b), b_data (k_bcache s !!! b)) :: k_disk s) s);
}.

(** A disk that completes every request at once. *)
Definition sync_disk : BlockDev := fun b write =>
  if write then
    modify (fun s => set_k_disk ((b_blockno (k_bcache s !!! b), b_data (k_bcache s !!! b)) :: k_disk s) s)
  else
    modify (fun s => set_k_bcache (alter (set_b_data (dget (k_disk s) (b_blockno (k_bcache s !!! b)))) b
      (k_bcache s)) s).
Lemma sync_disk_ok : @BlockDevOk sync_disk.
Proof. by split. Qed.

(* ------------------------------------------------------------------ *)
(** ** The buffer cache *)

(** Index of [bcache.head]. *)
Abbreviation HEAD := NBUF.

Definition binit : K unit :=
  initlock Lbcache ;;;
  updbuf HEAD (fun h => set_b_next HEAD (set_b_prev HEAD h)) ;;;
  for_each (seq 0 NBUF) (fun b =>
    h <- getbuf HEAD ;;
    updbuf b (fun x => set_b_prev HEAD (set_b_next (b_next h) x)) ;;;
    initsleeplock (SLbuf b) ;;;
    updbuf (b_next h) (set_b_prev b) ;;;
    updbuf HEAD (set_b_next b)).

Section Bio.
Context `{SleepFuel} `{BlockDev}.

(** [bget]'s two walks around the list: forwards for the block, backwards for
    a free buffer; [None] when the walk is back at the head. *)
Definition bget_cached (dev blockno : Z) : K (option nat) :=
  h <- getbuf HEAD ;;
  loop (S NBUF) (fun b =>
    if (b =? HEAD)%nat then ret (inr None)
    else
      x <- getbuf b ;;
      if (b_dev x =? dev) && (b_blockno x =? blockno) then ret (inr (Some b))
      else ret (inl (b_next x))) (b_next h).

Definition bget_free : K (option nat) :=
  h <- getbuf HEAD ;;
  loop (S NBUF) (fun b =>
    if (b =? HEAD)%nat then ret (inr None)
    else
      x <- getbuf b ;;
      if b_refcnt x =? 0 then ret (inr (Some b))
      else ret (inl (b_prev x))) (b_prev h).

Definition bget (dev blockno : Z) : K nat :=
  acquire Lbcache ;;;
  o <- bget_cached dev blockno ;;
  match o with
  | Some b =>
      updbuf b (fun x => set_b_refcnt (u32 (b_refcnt x + 1)) x) ;;;
      release Lbcache ;;;
      acquiresleep (SLbuf b) ;;;
      ret b
  | None =>
      o <- bget_free ;;
      match o with
      | Some b =>
          updbuf b (fun x => set_b_refcnt 1 (set_b_valid 0 (set_b_blockno blockno (set_b_dev dev x)))) ;;;
          release Lbcache ;;;
          acquiresleep (SLbuf b) ;;;
          ret b
      | None => panic "bget: no buffers"
      end
  end.

Definition bread (dev blockno : Z) : K nat :=
  b <- bget dev blockno ;;
  x <- getbuf b ;;
  (if negb (nz (b_valid x)) then
     virtio_disk_rw b false ;;;
     updbuf b (set_b_valid 1)
   else ret tt) ;;;
  ret b.

Definition bwrite (b : nat) : K unit :=
  h <- holdingsleep (SLbuf b) ;;
  if negb h then panic "bwrite" else virtio_disk_rw b true.

Definition brelse (b : nat) : K unit :=
  h <- holdingsleep (SLbuf b) ;;
  if negb h then panic "brelse"
  else
    releasesleep (SLbuf b) ;;;
    acquire Lbcache ;;;
    updbuf b (fun x => set_b_refcnt (u32 (b_refcnt x - 1)) x) ;;;
    x <- getbuf b ;;
    (if b_refcnt x =? 0 then
       updbuf (b_next x) (set_b_prev (b_prev x)) ;;;
       x <- getbuf b ;;
       updbuf (b_prev x) (set_b_next (b_next x)) ;;;
       h <- getbuf HEAD ;;
       updbuf b (set_b_next (b_next h)) ;;;
       updbuf b (set_b_prev HEAD) ;;;
       h <- getbuf HEAD ;;
       updbuf (b_next h) (set_b_prev b) ;;;
       updbuf HEAD (set_b_next b)
     else ret tt) ;;;
    release Lbcache.

Definition bpin (b : nat) : K unit :=
  acquire Lbcache ;;;
  updbuf b (fun x => set_b_refcnt (u32 (b_refcnt x + 1)) x) ;;;
  release Lbcache.

Definition bunpin (b : nat) : K unit :=
  acquire Lbcache ;;;
  updbuf b (fun x => set_b_refcnt (u32 (b_refcnt x - 1)) x) ;;;
  release Lbcache.
End Bio.
