(* ===== verification/BufCache.v ===== *)
(** * The buffer cache refines a map of active blocks ([kernel/bio.c])

    The list of buffers is a ring of all of them in least-recently-used
    order ([ring]); each block has at most one buffer. [cache s A] relates a
    state to the map [A] of the blocks in use: how many references each has,
    whether this process holds its lock, and its content. On that map
    [bread], [bwrite], [brelse], [bpin] and [bunpin] are one-line
    operations. *)

From S2P Require Import Prelude Machine KState Spinlock Sched Bio.
Local Open Scope Z_scope.
Local Open Scope kern_scope.

(* ------------------------------------------------------------------ *)
(** ** The ring *)

Definition cyc (l : list nat) : list nat := HEAD :: l ++ [HEAD].
Definition nupd (f : nat -> nat) (a b : nat) : nat -> nat :=
  fun x => if decide (x = a) then b else f x.

Lemma nupd_ext f a b l z : a ∉ l -> nexts f (l ++ [z]) -> nexts (nupd f a b) (l ++ [z]).
Proof.
  intros Ha. apply nexts_ext. intros x Hx. unfold nupd. rewrite decide_False; [done|].
  by intros ->.
Qed.

Lemma nupd_eq f a b : nupd f a b a = b.
Proof. unfold nupd. by rewrite decide_True. Qed.

(** Taking [b] out: its predecessor gets its successor. *)
Lemma nexts_unlink f l1 b l2 a x :
  NoDup (HEAD :: l1 ++ b :: l2) -> HEAD :: l1 = x ++ [a] ->
  nexts f (cyc (l1 ++ b :: l2)) ->
  f a = b /\ f b = default HEAD (head l2) /\ nexts (nupd f a (f b)) (cyc (l1 ++ l2)).
Proof.
  intros Hd Hx. unfold cyc.
  assert (HEAD :: (l1 ++ b :: l2) ++ [HEAD] = x ++ a :: b :: l2 ++ [HEAD]) as ->
    by (rewrite <- app_assoc; change (HEAD :: l1 ++ ?t) with ((HEAD :: l1) ++ t);
        rewrite Hx, <- app_assoc; done).
  assert (HEAD :: (l1 ++ l2) ++ [HEAD] = x ++ a :: l2 ++ [HEAD]) as ->
    by (rewrite <- app_assoc; change (HEAD :: l1 ++ ?t) with ((HEAD :: l1) ++ t);
        rewrite Hx, <- app_assoc; done).
  change (NoDup ((HEAD :: l1) ++ b :: l2)) in Hd. rewrite Hx, <- app_assoc in Hd. cbn [app] in Hd.
  apply NoDup_app in Hd as (_ & Hxa & Hd). apply NoDup_cons in Hd as [Hab _].
  rewrite nexts_app, (nexts_app _ x a (l2 ++ _)). intros [H1 [H2 H3]].
  assert (a ∉ x) as Hax by (intros Hin; apply (Hxa a Hin); set_solver).
  split_and!; [done| |by apply nupd_ext|].
  - by destruct l2 as [|c l2], H3.
  - destruct l2 as [|c l2]; [split; [|done]; rewrite nupd_eq; by destruct H3|].
    destruct H3 as [H3 H4]. split; [by rewrite nupd_eq|].
    change (nexts (nupd f a (f b)) ((c :: l2) ++ [HEAD])). apply nupd_ext; [set_solver|done].
Qed.

(** Putting [b] at the front, and, for the links backwards, at the end. *)
Lemma nexts_front f l b :
  b <> HEAD -> b ∉ l -> HEAD ∉ l -> nexts f (cyc l) ->
  nexts (nupd (nupd f b (f HEAD)) HEAD b) (cyc (b :: l)).
Proof.
  intros Hb Hbl Hhl Hn. split; [by rewrite nupd_eq|].
  assert (nexts (nupd f b (f HEAD)) (b :: l ++ [HEAD])) as H.
  { destruct l as [|c l]; split; try done; [rewrite nupd_eq; by destruct Hn|
      rewrite nupd_eq; by destruct Hn|].
    change (nexts (nupd f b (f HEAD)) ((c :: l) ++ [HEAD])). apply nupd_ext; [done|]. by destruct Hn. }
  change (nexts (nupd (nupd f b (f HEAD)) HEAD b) ((b :: l) ++ [HEAD])).
  apply nupd_ext; [set_solver|done].
Qed.

Lemma nexts_back f l b a x :
  b <> HEAD -> NoDup (HEAD :: l) -> b ∉ l -> HEAD :: l = x ++ [a] -> nexts f (cyc l) ->
  nexts (nupd (nupd f b HEAD) a b) (cyc (l ++ [b])).
Proof.
  intros Hb Hd Hbl Hx. unfold cyc.
  assert (HEAD :: l ++ [HEAD] = x ++ [a; HEAD]) as ->
    by (change (HEAD :: l ++ ?t) with ((HEAD :: l) ++ t); rewrite Hx, <- app_assoc; done).
  assert (HEAD :: (l ++ [b]) ++ [HEAD] = x ++ [a; b; HEAD]) as ->
    by (rewrite <- app_assoc; change (HEAD :: l ++ ?t) with ((HEAD :: l) ++ t);
        rewrite Hx, <- app_assoc; done).
  rewrite Hx in Hd. apply NoDup_app in Hd as (_ & Hxa & _).
  assert (a ∉ x) as Hax by (intros Hin; apply (Hxa a Hin); set_solver).
  assert (b ∉ x ++ [a]) as Hbx by (rewrite <- Hx; set_solver).
  rewrite nexts_app, (nexts_app _ x a [b; HEAD]). intros [H1 H2]. split.
  - apply nupd_ext; [done|]. apply nupd_ext; [set_solver|done].
  - split; [by rewrite nupd_eq|]. split; [|done]. unfold nupd.
    rewrite decide_False, decide_True by set_solver. done.
Qed.

(** The links of the buffers. *)
Definition nxt (bc : list buf) (i : nat) : nat := b_next (bc !!! i).
Definition prv (bc : list buf) (i : nat) : nat := b_prev (bc !!! i).

(** [ord]: the buffers from the most to the least recently used one. *)
Record ring (bc : list buf) (ord : list nat) : Prop := {
  ring_perm : ord ≡ₚ seq 0 NBUF;
  ring_next : nexts (nxt bc) (cyc ord);
  ring_prev : nexts (prv bc) (cyc (reverse ord))
}.

Lemma ring_in bc ord b : ring bc ord -> b ∈ ord <-> (b < NBUF)%nat.
Proof. intros [Hp _ _]. rewrite Hp, elem_of_seq. lia. Qed.

Lemma ring_nodup bc ord : ring bc ord -> NoDup (HEAD :: ord).
Proof.
  intros Hr. constructor; [rewrite (ring_in bc) by done; lia|].
  rewrite (ring_perm _ _ Hr). apply NoDup_seq.
Qed.

Lemma nexts_fun_ext (f g : nat -> nat) l : (forall a, f a = g a) -> nexts f l -> nexts g l.
Proof.
  intros He. induction l as [|a l IH]; [done|]. destruct l; [done|]. intros [H1 H2].
  split; [by rewrite <- He|by apply IH].
Qed.

Lemma ring_ext bc bc' ord :
  (forall i, b_next (bc' !!! i) = b_next (bc !!! i)) -> (forall i, b_prev (bc' !!! i) = b_prev (bc !!! i)) ->
  ring bc ord -> ring bc' ord.
Proof.
  intros H1 H2 [Hp Hn Hv]. split; [done| |];
    (eapply nexts_fun_ext; [|eassumption]); intros a; symmetry; [apply H1|apply H2].
Qed.

(** A walk along the links from buffer to buffer. *)
Lemma walk_find (test : buf -> bool) (link : buf -> nat) l fuel s :
  HEAD ∉ l -> (length l < fuel)%nat ->
  nexts (fun i => link (k_bcache s !!! i)) (l ++ [HEAD]) ->
  loop fuel (fun b =>
    if (b =? HEAD)%nat then ret (inr None)
    else
      x <- getbuf b ;;
      if test x then ret (inr (Some b)) else ret (inl (link x))) (default HEAD (head l)) s =
  Done (find (fun b => test (k_bcache s !!! b)) l) s.
Proof.
  revert fuel. induction l as [|b l IH]; intros [|fuel] Hh Hf Hn; simpl in Hf; try lia.
  { done. }
  cbn [loop head]. change (default HEAD (Some b)) with b.
  rewrite (proj2 (Nat.eqb_neq b HEAD)) by (intros ->; set_solver).
  cbn [find]. destruct (test (k_bcache s !!! b)) eqn:E.
  - unfold getbuf. unfold bind at 1. unfold bind at 1. cbn [gets rbind]. rewrite E. done.
  - unfold getbuf. unfold bind at 1. unfold bind at 1. cbn [gets rbind]. rewrite E. cbn [ret rbind].
    assert (link (k_bcache s !!! b) = default HEAD (head l)) as ->
      by (destruct l; by destruct Hn).
    apply IH; [set_solver|lia|]. by destruct l; destruct Hn.
Qed.

Definition is_block (dev bn : Z) (x : buf) : bool := (b_dev x =? dev) && (b_blockno x =? bn).

Lemma bget_cached_eq dev bn s ord :
  ring (k_bcache s) ord ->
  bget_cached dev bn s = Done (find (fun b => is_block dev bn (k_bcache s !!! b)) ord) s.
Proof.
  intros Hr. unfold bget_cached, getbuf at 1. rewrite bind_gets.
  assert (b_next (k_bcache s !!! HEAD) = default HEAD (head ord)) as ->.
  { pose proof (ring_next _ _ Hr) as H. destruct ord; by destruct H. }
  pose proof (ring_nodup _ _ Hr) as Hd. apply NoDup_cons in Hd as [Hh _].
  apply (walk_find (is_block dev bn) b_next); [done| |].
  - rewrite (ring_perm _ _ Hr), length_seq. lia.
  - pose proof (ring_next _ _ Hr) as H. destruct ord; by destruct H.
Qed.

Lemma bget_free_eq s ord :
  ring (k_bcache s) ord ->
  bget_free s = Done (find (fun b => b_refcnt (k_bcache s !!! b) =? 0) (reverse ord)) s.
Proof.
  intros Hr. unfold bget_free, getbuf at 1. rewrite bind_gets.
  pose proof (ring_prev _ _ Hr) as Hv. pose proof (ring_nodup _ _ Hr) as Hd.
  apply NoDup_cons in Hd as [Hh _].
  assert (b_prev (k_bcache s !!! HEAD) = default HEAD (head (reverse ord))) as ->
    by (destruct (reverse ord); by destruct Hv).
  apply (walk_find (fun x => b_refcnt x =? 0) b_prev).
  - by rewrite elem_of_reverse.
  - rewrite length_reverse, (ring_perm _ _ Hr), length_seq. lia.
  - destruct (reverse ord); by destruct Hv.
Qed.

(** What [brelse] does to the links of a buffer nobody refers to. *)
Definition lru_move (bc : list buf) (b : nat) : list buf :=
  let x := bc !!! b in
  let bc := alter (set_b_prev (b_prev x)) (b_next x) bc in
  let x := bc !!! b in
  let bc := alter (set_b_next (b_next x)) (b_prev x) bc in
  let n := b_next (bc !!! HEAD) in
  let bc := alter (set_b_prev HEAD) b (alter (set_b_next n) b bc) in
  let n := b_next (bc !!! HEAD) in
  alter (set_b_next b) HEAD (alter (set_b_prev b) n bc).

Lemma lookup_total_alter_field {B} (g : buf -> B) (f : buf -> buf) (bc : list buf) i j :
  (forall x, g (f x) = g x) -> g (alter f i bc !!! j) = g (bc !!! j).
Proof.
  intros Hg. rewrite !list_lookup_total_alt. destruct (decide (i = j)) as [->|].
  - rewrite list_lookup_alter_eq. destruct (bc !! j); simpl; auto.
  - by rewrite list_lookup_alter_ne.
Qed.

Lemma nxt_set (bc : list buf) i v j :
  (i < length bc)%nat -> nxt (alter (set_b_next v) i bc) j = nupd (nxt bc) i v j.
Proof.
  intros Hi. unfold nxt, nupd. case_decide as E.
  - subst. by rewrite list_lookup_total_alter_eq.
  - by rewrite list_lookup_total_alter_ne.
Qed.
Lemma prv_set (bc : list buf) i v j :
  (i < length bc)%nat -> prv (alter (set_b_prev v) i bc) j = nupd (prv bc) i v j.
Proof.
  intros Hi. unfold prv, nupd. case_decide as E.
  - subst. by rewrite list_lookup_total_alter_eq.
  - by rewrite list_lookup_total_alter_ne.
Qed.
Lemma nxt_set_prev (bc : list buf) i v j : nxt (alter (set_b_prev v) i bc) j = nxt bc j.
Proof. by apply lookup_total_alter_field. Qed.
Lemma prv_set_next (bc : list buf) i v j : prv (alter (set_b_next v) i bc) j = prv bc j.
Proof. by apply lookup_total_alter_field. Qed.

Lemma ring_split bc ord b :
  ring bc ord -> (b < NBUF)%nat -> exists l1 l2, ord = l1 ++ b :: l2.
Proof. intros Hr Hb. apply list_elem_of_split. by apply (ring_in bc). Qed.

Lemma last_exists (a : nat) l : exists x z, a :: l = x ++ [z].
Proof.
  destruct (exists_last (l := a :: l)) as (x & z & H); [done|]. by exists x, z.
Qed.

Lemma last_head_reverse (a : nat) l x z : a :: l = x ++ [z] -> z = default a (head (reverse l)).
Proof.
  intros H. destruct l as [|c l] using rev_ind.
  - destruct x as [|y x]; [by injection H|]. injection H as _ H. by destruct x.
  - rewrite reverse_app. simpl. change (a :: l ++ [c]) with ((a :: l) ++ [c]) in H.
    by apply app_inj_tail in H as [_ ->].
Qed.

Lemma nexts_head f l : nexts f (cyc l) -> f HEAD = default HEAD (head l).
Proof. destruct l; by intros [? _]. Qed.

Lemma head_app_default (l1 l2 : list nat) b d : default d (head (reverse l1 ++ [b])) = default b (head (reverse l1)).
Proof. by destruct (reverse l1). Qed.

(** The links after the move, from those before it. *)
Lemma lru_move_links bc b a c n :
  length bc = S NBUF -> (b < NBUF)%nat -> (a <= NBUF)%nat -> (c <= NBUF)%nat -> (n <= NBUF)%nat ->
  nxt bc b = c -> prv bc b = a -> a <> b -> c <> b -> nupd (nxt bc) a c HEAD = n ->
  (forall i, nxt (lru_move bc b) i = nupd (nupd (nupd (nxt bc) a c) b n) HEAD b i) /\
  (forall i, prv (lru_move bc b) i = nupd (nupd (nupd (prv bc) c a) b HEAD) n b i).
Proof.
  intros Hlen Hb Ha Hc Hn Hbc Hba Hab Hcb Hnh. unfold lru_move.
  fold (nxt bc b). fold (prv bc b). rewrite Hbc, Hba.
  set (bc1 := alter (set_b_prev a) c bc).
  assert (b_next (bc1 !!! b) = c) as -> by (rewrite <- Hbc; apply nxt_set_prev).
  assert (b_prev (bc1 !!! b) = a) as ->
    by (change (prv bc1 b = a); unfold bc1; rewrite prv_set by lia; unfold nupd; by rewrite decide_False).
  set (bc2 := alter (set_b_next c) a bc1).
  assert (length bc1 = S NBUF) as L1 by (unfold bc1; by rewrite length_alter).
  assert (length bc2 = S NBUF) as L2 by (unfold bc2; by rewrite length_alter).
  assert (forall i, nxt bc2 i = nupd (nxt bc) a c i) as N2
    by (intros i; unfold bc2; rewrite nxt_set by lia; unfold nupd; case_decide; [done|apply nxt_set_prev]).
  assert (forall i, prv bc2 i = nupd (prv bc) c a i) as P2
    by (intros i; unfold bc2; rewrite prv_set_next; unfold bc1; apply prv_set; lia).
  assert (b_next (bc2 !!! HEAD) = n) as -> by (rewrite <- Hnh; apply N2).
  set (bc4 := alter (set_b_prev HEAD) b (alter (set_b_next n) b bc2)).
  assert (length bc4 = S NBUF) as L4 by (unfold bc4; by rewrite !length_alter).
  assert (forall i, nxt bc4 i = nupd (nupd (nxt bc) a c) b n i) as N4.
  { intros i. unfold bc4. rewrite nxt_set_prev, nxt_set by lia. unfold nupd at 1 2.
    case_decide; [done|apply N2]. }
  assert (forall i, prv bc4 i = nupd (nupd (prv bc) c a) b HEAD i) as P4.
  { intros i. unfold bc4. rewrite prv_set by (rewrite length_alter; lia). unfold nupd at 1 2.
    case_decide; [done|]. rewrite prv_set_next. apply P2. }
  assert (b_next (bc4 !!! HEAD) = n) as ->
    by (change (nxt bc4 HEAD = n); rewrite N4; unfold nupd at 1; rewrite decide_False by lia; done).
  split; intros i.
  - rewrite nxt_set by (rewrite length_alter; lia). unfold nupd at 1 2. case_decide; [done|].
    rewrite nxt_set_prev. apply N4.
  - rewrite prv_set_next, prv_set by lia. unfold nupd at 1 2. case_decide; [done|]. apply P4.
Qed.

Lemma ring_bound bc ord l : ring bc ord -> l ⊆ ord -> (default HEAD (head l) <= NBUF)%nat.
Proof.
  intros Hr Hl. destruct l as [|c l]; [simpl; lia|]. simpl.
  assert (c ∈ ord) as Hc by set_solver. apply (ring_in bc) in Hc; [lia|done].
Qed.

Lemma ring_move bc l1 b l2 :
  length bc = S NBUF -> ring bc (l1 ++ b :: l2) -> ring (lru_move bc b) (b :: l1 ++ l2).
Proof.
  intros Hlen Hr. pose proof (ring_nodup _ _ Hr) as Hd. pose proof Hr as [Hp Hf Hg].
  assert (b < NBUF)%nat as Hb by (apply (ring_in bc (l1 ++ b :: l2)); [done|set_solver]).
  assert (forall l, NoDup (HEAD :: l) -> NoDup (HEAD :: reverse l)) as Hrev.
  { intros l. by rewrite (reverse_Permutation l). }
  assert (reverse (l1 ++ b :: l2) = reverse l2 ++ b :: reverse l1) as Er
    by (rewrite reverse_app, reverse_cons, <- app_assoc; done).
  destruct (last_exists HEAD l1) as (x & a & Ha).
  destruct (nexts_unlink _ _ _ _ _ _ Hd Ha Hf) as (_ & Hfb & Hf').
  destruct (last_exists HEAD (reverse l2)) as (y & c & Hc).
  rewrite Er in Hg. assert (NoDup (HEAD :: reverse l2 ++ b :: reverse l1)) as Hd'
    by (rewrite <- Er; by apply Hrev).
  destruct (nexts_unlink _ _ _ _ _ _ Hd' Hc Hg) as (_ & Hgb & Hg').
  apply last_head_reverse in Ha as Ea. apply last_head_reverse in Hc as Ec.
  rewrite reverse_involutive in Ec. rewrite <- Ec in Hfb. rewrite <- Ea in Hgb.
  rewrite Hfb in Hf'. rewrite Hgb in Hg'.
  assert (NoDup (HEAD :: l1 ++ l2) /\ b ∉ HEAD :: l1 ++ l2) as [Hd2 Hb2].
  { assert (NoDup (b :: HEAD :: l1 ++ l2)) as H
      by (rewrite (Permutation_swap HEAD b), (Permutation_middle l1 l2 b); exact Hd).
    apply NoDup_cons in H as [? ?]. done. }
  assert (a ∈ (HEAD :: l1)) as Hain by (rewrite Ha; set_solver).
  assert (c ∈ (HEAD :: l2)) as Hcin by (rewrite <- (reverse_involutive l2); rewrite elem_of_cons, elem_of_reverse, <- elem_of_cons, Hc; set_solver).
  pose proof (nexts_head _ _ Hf') as Hn. set (n := default HEAD (head (l1 ++ l2))) in *.
  rewrite not_elem_of_cons, not_elem_of_app in Hb2. destruct Hb2 as (Hbh & Hb1 & Hb3).
  apply elem_of_cons in Hain, Hcin. apply NoDup_cons in Hd2 as Hd3. destruct Hd3 as [Hh _].
  assert (forall l, l ⊆ l1 ++ b :: l2 -> (default HEAD (head l) <= NBUF)%nat) as Hbd
    by (intros l; by apply (ring_bound bc)).
  destruct (lru_move_links bc b a c n) as [En Ep]; [done|done| | | |done|done| | |done|].
  1: rewrite Ea; apply Hbd; intros z; rewrite elem_of_reverse; set_solver.
  1: rewrite Ec; apply Hbd; set_solver.
  1: apply Hbd; set_solver.
  1-2: intros ->; naive_solver.
  split.
  - rewrite <- Hp. by rewrite Permutation_middle.
  - eapply nexts_fun_ext; [intros i; symmetry; apply En|]. rewrite <- Hn.
    apply nexts_front; [done| |done..]. by rewrite not_elem_of_app.
  - eapply nexts_fun_ext; [intros i; symmetry; apply Ep|]. rewrite reverse_cons.
    rewrite <- reverse_app in Hg'. destruct (last_exists HEAD (reverse (l1 ++ l2))) as (z & n' & Hz).
    pose proof (last_head_reverse _ _ _ _ Hz) as En'. rewrite reverse_involutive in En'.
    change (n' = n) in En'. subst n'.
    eapply nexts_back; [done|by apply Hrev| |exact Hz|done].
    by rewrite elem_of_reverse, elem_of_app; intros [?|?].
Qed.

Lemma lru_move_fields {B} (g : buf -> B) bc b i :
  (forall v x, g (set_b_next v x) = g x) -> (forall v x, g (set_b_prev v x) = g x) ->
  g (lru_move bc b !!! i) = g (bc !!! i).
Proof.
  intros H1 H2. unfold lru_move. cbv zeta.
  repeat (rewrite lookup_total_alter_field; [|by intros; rewrite ?H1, ?H2]). done.
Qed.

Lemma length_lru_move bc b : length (lru_move bc b) = length bc.
Proof. unfold lru_move. cbv zeta. by rewrite !length_alter. Qed.

(* ------------------------------------------------------------------ *)
(** ** The cache as a map *)

(** A block in use: references, whether this process has its lock, content. *)
Record entry : Type := mkentry { e_ref : Z; e_locked : bool; e_data : list Z }.

Definition entry_of (x : buf) : entry :=
  mkentry (b_refcnt x) (nz (sl_locked (b_lock x))) (b_data x).

Definition disk_ok (D : disk) : Prop := Forall (fun w => length w.2 = 1024%nat) D.

Lemma length_dget D bn : disk_ok D -> length (dget D bn) = 1024%nat.
Proof.
  induction D as [|[b v] D IH]; intros Hd; [apply length_replicate|].
  apply Forall_cons in Hd as [H1 H2]. simpl. destruct (b =? bn); auto.
Qed.

Section Cache.
Variables (dev : Z) (p : nat) (pid : Z).

(** A buffer: a referenced one is in [A]; the others hold no change that is
    not on the disk [D]. *)
Record buf_ok (D : disk) (A : gmap Z entry) (x : buf) : Prop := {
  ok_ref : 0 <= b_refcnt x < 2 ^ 31;
  ok_lock : b_lock x = mksleeplock 0 0 \/ b_lock x = mksleeplock 1 pid /\ b_refcnt x <> 0;
  ok_valid : b_valid x = 0 \/ b_valid x = 1;
  ok_data : length (b_data x) = 1024%nat;
  ok_free : b_refcnt x = 0 -> b_dev x = dev -> b_valid x <> 0 -> b_data x = dget D (b_blockno x);
  ok_used : b_refcnt x <> 0 ->
    b_dev x = dev /\ b_valid x = 1 /\ A !! b_blockno x = Some (entry_of x)
}.

(** Buffer [b] holds block [bn], which is in use. *)
Definition buf_of (bc : list buf) (b : nat) (bn : Z) : Prop :=
  (b < NBUF)%nat /\ b_dev (bc !!! b) = dev /\ b_blockno (bc !!! b) = bn /\ b_refcnt (bc !!! b) <> 0.

Record cache (s : kst) (A : gmap Z entry) : Prop := {
  c_procs : procs_wf s;
  c_lt : (p < NPROC)%nat;
  c_cur : k_cur s = Some p;
  c_pid : p_pid (k_proc s !!! p) = pid;
  c_held : k_held s = [];
  c_len : length (k_bcache s) = S NBUF;
  c_ring : exists ord, ring (k_bcache s) ord;
  c_uniq : forall b b', (b < NBUF)%nat -> (b' < NBUF)%nat ->
    b_dev (k_bcache s !!! b) = dev -> b_dev (k_bcache s !!! b') = dev ->
    b_blockno (k_bcache s !!! b) = b_blockno (k_bcache s !!! b') -> b = b';
  c_buf : forall b, (b < NBUF)%nat -> buf_ok (k_disk s) A (k_bcache s !!! b);
  c_used : forall bn e, A !! bn = Some e -> exists b, buf_of (k_bcache s) b bn;
  c_disk : disk_ok (k_disk s)
}.

Lemma cache_entry s A b bn :
  cache s A -> buf_of (k_bcache s) b bn -> A !! bn = Some (entry_of (k_bcache s !!! b)).
Proof.
  intros Hc (Hb & Hd & <- & Hr). by apply (ok_used _ _ _ (c_buf _ _ Hc b Hb)).
Qed.

Lemma buf_of_uniq s A b b' bn :
  cache s A -> buf_of (k_bcache s) b bn -> buf_of (k_bcache s) b' bn -> b = b'.
Proof.
  intros Hc (Hb & Hd & Hn & _) (Hb' & Hd' & Hn' & _). apply (c_uniq _ _ Hc); congruence.
Qed.

(** Two maps that agree on the blocks of the buffers other than [b]. *)
Definition agree (s : kst) (b : nat) (A A' : gmap Z entry) : Prop :=
  forall b' bn, b' <> b -> buf_of (k_bcache s) b' bn -> A' !! bn = A !! bn.

(** A change to one buffer. *)
Lemma cache_upd s A A' b f :
  cache s A -> (b < NBUF)%nat ->
  (forall x, b_next (f x) = b_next x) -> (forall x, b_prev (f x) = b_prev x) ->
  (b_dev (f (k_bcache s !!! b)) = dev -> forall b', (b' < NBUF)%nat -> b' <> b ->
     b_dev (k_bcache s !!! b') = dev -> b_blockno (k_bcache s !!! b') <> b_blockno (f (k_bcache s !!! b))) ->
  buf_ok (k_disk s) A' (f (k_bcache s !!! b)) -> agree s b A A' ->
  (forall bn e, A' !! bn = Some e ->
     (bn = b_blockno (f (k_bcache s !!! b)) /\ b_refcnt (f (k_bcache s !!! b)) <> 0) \/
     exists b', b' <> b /\ buf_of (k_bcache s) b' bn) ->
  cache (set_k_bcache (alter f b (k_bcache s)) s) A'.
Proof.
  intros Hc Hb Hn Hp Hu Hok Hag Huse. destruct Hc. split; ksimp; try done.
  - by rewrite length_alter.
  - destruct c_ring0 as [ord Hr]. exists ord. revert Hr.
    apply ring_ext; intros i; by rewrite lookup_total_alter_field.
  - intros i j Hi Hj. destruct (decide (i = b)) as [->|Hib], (decide (j = b)) as [->|Hjb];
      rewrite ?list_lookup_total_alter_eq, ?list_lookup_total_alter_ne by lia; [done| | |by apply c_uniq0].
    + intros D1 D2 E. by destruct (Hu D1 j Hj Hjb D2).
    + intros D1 D2 E. by destruct (Hu D2 i Hi Hib D1).
  - intros i Hi. destruct (decide (i = b)) as [->|Hib].
    + by rewrite list_lookup_total_alter_eq by lia.
    + rewrite list_lookup_total_alter_ne by done. destruct (c_buf0 i Hi) as [H1 H2 H3 H3' H4 H5].
      split; try done. intros Hr. destruct (H5 Hr) as (D1 & D2 & D3). split_and!; [done..|].
      by rewrite (Hag i) by (done || split_and!).
  - intros bn e He. destruct (Huse bn e He) as [[-> Hr]|(b' & Hb' & Ho)].
    + exists b. unfold buf_of. rewrite list_lookup_total_alter_eq by lia.
      split_and!; [done| |done..]. by apply (ok_used _ _ _ Hok).
    + exists b'. unfold buf_of. by rewrite list_lookup_total_alter_ne.
Qed.

(** The entry of block [bn] after [bread]. *)
Definition got (A : gmap Z entry) (D : disk) (bn : Z) : entry :=
  match A !! bn with
  | Some e => mkentry (e_ref e + 1) true (e_data e)
  | None => mkentry 1 true (dget D bn)
  end.

(** The buffer [bread] returns. *)
Definition read_buf (bn : Z) (e : entry) (x : buf) : buf :=
  mkbuf 1 (b_disk x) dev bn (mksleeplock 1 pid) (e_ref e) (b_prev x) (b_next x) (e_data e).

(** [bread] can serve block [bn]. *)
Definition readable (A : gmap Z entry) (bn : Z) : Prop :=
  match A !! bn with
  | Some e => e_locked e = false /\ e_ref e + 1 < 2 ^ 31
  | None => (size A < NBUF)%nat
  end.

(** Only buffers, the disk and the states of processes differ. *)
Definition frame (s s' : kst) : Prop :=
  set_k_hw hw0 (set_k_proc [] (set_k_disk [] (set_k_bcache [] s'))) =
  set_k_hw hw0 (set_k_proc [] (set_k_disk [] (set_k_bcache [] s))).

Lemma find_in {A} (f : A -> bool) l x : find f l = Some x -> x ∈ l /\ f x = true.
Proof. intros H. apply find_some in H as [H1 H2]. split; [by apply list_elem_of_In|done]. Qed.
Lemma find_not {A} (f : A -> bool) l x : find f l = None -> x ∈ l -> f x = false.
Proof. intros H Hx. apply (find_none _ _ H). by apply list_elem_of_In. Qed.

(** The buffers in use have different blocks: if none is free, the map has as
    many blocks as there are buffers. *)
Lemma free_exists s A ord :
  cache s A -> ring (k_bcache s) ord -> (size A < NBUF)%nat ->
  find (fun b => b_refcnt (k_bcache s !!! b) =? 0) (reverse ord) <> None.
Proof.
  intros Hc Hr Hs Hf. cut (NBUF <= size A)%nat; [lia|].
  assert (forall b, (b < NBUF)%nat -> b_refcnt (k_bcache s !!! b) <> 0) as Hall.
  { intros b Hb. apply Z.eqb_neq. apply (find_not _ _ b Hf).
    rewrite elem_of_reverse. by apply (ring_in (k_bcache s)). }
  rewrite <- size_dom, <- (length_seq NBUF 0) at 1.
  rewrite <- (length_map (fun b => b_blockno (k_bcache s !!! b))).
  set (l := map _ _). rewrite <- (size_list_to_set (C := gset Z) l).
  - apply subseteq_size. intros bn. rewrite elem_of_list_to_set, elem_of_dom.
    unfold l. rewrite list_elem_of_In, in_map_iff. intros (b & <- & Hb).
    assert (b < NBUF)%nat as Hlt by (apply in_seq in Hb; lia). exists (entry_of (k_bcache s !!! b)).
    by apply (ok_used _ _ _ (c_buf _ _ Hc b Hlt)), Hall.
  - apply NoDup_fmap_2_strong; [|apply NoDup_seq]. intros b b' Hb Hb' E.
    assert (b < NBUF /\ b' < NBUF)%nat as [Hlt Hlt'] by (apply elem_of_seq in Hb, Hb'; lia).
    apply (c_uniq _ _ Hc); [done|done| | |done].
    + by apply (ok_used _ _ _ (c_buf _ _ Hc b Hlt)), Hall.
    + by apply (ok_used _ _ _ (c_buf _ _ Hc b' Hlt')), Hall.
Qed.

Lemma acquiresleep_eq `{SleepFuel} b s :
  (0 < sleep_fuel)%nat -> k_cur s = Some p -> p_pid (k_proc s !!! p) = pid -> k_held s = [] ->
  b_lock (k_bcache s !!! b) = mksleeplock 0 0 ->
  acquiresleep (SLbuf b) s =
    Done tt (set_k_bcache (alter (set_b_lock (mksleeplock 1 pid)) b (k_bcache s)) s).
Proof.
  intros Hf Hc Hp Hh Hl. unfold acquiresleep. rewrite bind_acquire by (rewrite Hh; set_solver).
  erewrite bind_done; cycle 1.
  { destruct (sleep_fuel) as [|n] eqn:E; [lia|]. cbn [loop]. unfold getsl. unfold bind at 1.
    rewrite bind_gets. ksimp. rewrite Hl. cbn. reflexivity. }
  rewrite (bind_curproc p) by done. unfold getproc, setsl. rewrite bind_gets, bind_modify. ksimp.
  rewrite Hp. erewrite release_head by done. by destruct s.
Qed.

Context `{SleepFuel} `{BlockDev} `{!BlockDevOk}.

(** Successive changes of one buffer are one change. *)
Lemma alter_alter_buf (f g : buf -> buf) b (bc : list buf) :
  alter f b (alter g b bc) = alter (fun x => f (g x)) b bc.
Proof.
  apply list_eq. intros i. destruct (decide (i = b)) as [->|].
  - rewrite !list_lookup_alter_eq. by destruct (bc !! b).
  - by rewrite !list_lookup_alter_ne.
Qed.

Lemma set_k_bcache_twice bc bc' s : set_k_bcache bc (set_k_bcache bc' s) = set_k_bcache bc s.
Proof. by destruct s. Qed.

(** The end of [bget], on the buffer found: [f] is what the search did to it. *)
Lemma bget_found (fuel_pos : (0 < sleep_fuel)%nat) s b f :
  k_cur s = Some p -> p_pid (k_proc s !!! p) = pid -> k_held s = [] ->
  length (k_bcache s) = S NBUF -> (b < NBUF)%nat ->
  b_lock (f (k_bcache s !!! b)) = mksleeplock 0 0 ->
  (updbuf b f ;;;
   release Lbcache ;;;
   acquiresleep (SLbuf b) ;;;
   ret b) (set_k_held [Lbcache] s) =
  Done b (set_k_bcache (alter (fun x => set_b_lock (mksleeplock 1 pid) (f x)) b (k_bcache s)) s).
Proof.
  intros Hc Hp Hh Hlen Hb Hl. unfold updbuf at 1. rewrite bind_modify.
  erewrite bind_release by done. ksimp.
  assert ((b < length (k_bcache s))%nat) as Hlt by lia.
  erewrite bind_done; [|apply acquiresleep_eq; [done..|]; ksimp; by rewrite list_lookup_total_alter_eq].
  ksimp. rewrite alter_alter_buf. unfold ret. f_equal. destruct s. ksimp in Hh. by rewrite Hh.
Qed.

(** [bread] once [bget] has the buffer. *)
Lemma bread_got s b f bn e :
  length (k_bcache s) = S NBUF -> (b < NBUF)%nat ->
  let x := k_bcache s !!! b in
  bget dev bn s =
    Done b (set_k_bcache (alter (fun x => set_b_lock (mksleeplock 1 pid) (f x)) b (k_bcache s)) s) ->
  b_blockno (f x) = bn -> b_dev (f x) = dev ->
  b_refcnt (f x) = e_ref e -> b_prev (f x) = b_prev x -> b_next (f x) = b_next x ->
  b_disk (f x) = b_disk x ->
  (b_valid (f x) = 0 /\ e_data e = dget (k_disk s) bn \/
   b_valid (f x) = 1 /\ e_data e = b_data (f x)) ->
  bread dev bn s = Done b (set_k_bcache (alter (read_buf bn e) b (k_bcache s)) s).
Proof.
  intros Hlen Hb x Hg Hbn Hd Hr Hpv Hnx Hdk Hv. unfold bread. erewrite bind_done by exact Hg.
  assert ((b < length (k_bcache s))%nat) as Hlt by lia.
  unfold getbuf. rewrite bind_gets. ksimp. rewrite list_lookup_total_alter_eq by done. ksimp. fold x.
  assert (forall g, g x = read_buf bn e x ->
    alter g b (k_bcache s) = alter (read_buf bn e) b (k_bcache s)) as Hext
    by (intros g Hg'; by apply alter_ext_at).
  destruct Hv as [[Hv He]|[Hv He]]; rewrite Hv; cbn [nz negb Z.eqb].
  - unfold bind at 1. unfold bind at 1. rewrite disk_read. cbn [rbind]. unfold updbuf.
    cbn [modify rbind ret]. ksimp. rewrite !alter_alter_buf, list_lookup_total_alter_eq by done. ksimp.
    fold x. rewrite Hbn, <- He. f_equal. erewrite Hext; [by destruct s|].
    destruct (f x) eqn:E. unfold read_buf. ksimp in *. by subst.
  - rewrite bind_ret. unfold ret. f_equal. rewrite Hext; [done|].
    destruct (f x) eqn:E. unfold read_buf. ksimp in *. by subst.
Qed.

(** Which buffer [bread] uses: the one that has the block, or else one nobody
    refers to. *)
Definition slot_for (s : kst) (b : nat) (bn : Z) : Prop :=
  b_dev (k_bcache s !!! b) = dev /\ b_blockno (k_bcache s !!! b) = bn \/
  b_refcnt (k_bcache s !!! b) = 0 /\
  forall b', (b' < NBUF)%nat -> b_dev (k_bcache s !!! b') = dev -> b_blockno (k_bcache s !!! b') <> bn.

Lemma bget_hit (fuel_pos : (0 < sleep_fuel)%nat) s A bn b ord :
  cache s A -> readable A bn -> ring (k_bcache s) ord ->
  find (fun b => is_block dev bn (k_bcache s !!! b)) ord = Some b ->
  (b < NBUF)%nat /\ slot_for s b bn /\
  bread dev bn s = Done b (set_k_bcache (alter (read_buf bn (got A (k_disk s) bn)) b (k_bcache s)) s).
Proof.
  intros Hc Hrd Hr Hf. apply find_in in Hf as Hb. destruct Hb as [Hb Hk].
  apply (ring_in (k_bcache s)) in Hb; [|done].
  apply andb_true_iff in Hk as [Hkd Hkb]. apply Z.eqb_eq in Hkd, Hkb.
  split_and!; [done|by left|].
  destruct (c_buf _ _ Hc b Hb) as [O1 O2 O3 O4 O5 O6].
  set (x := k_bcache s !!! b) in *.
  assert (A !! bn = if b_refcnt x =? 0 then None else Some (entry_of x)) as HA.
  { destruct (b_refcnt x =? 0) eqn:E.
    - destruct (A !! bn) as [e|] eqn:HA; [|done]. destruct (c_used _ _ Hc bn e HA) as (b' & B1 & B2 & B3 & B4).
      apply Z.eqb_eq in E. assert (b' = b) as -> by (apply (c_uniq _ _ Hc); [done..|by rewrite B3]).
      by destruct B4.
    - rewrite <- Hkb. apply O6. by apply Z.eqb_neq. }
  unfold readable in Hrd. unfold got. rewrite HA in *.
  assert (b_lock x = mksleeplock 0 0) as Hl.
  { destruct O2 as [?|[Hl Hn]]; [done|]. rewrite (proj2 (Z.eqb_neq _ _) Hn) in Hrd.
    destruct Hrd as [Hrd _]. cbn in Hrd. by rewrite Hl in Hrd. }
  assert (0 <= b_refcnt x + 1 < 2 ^ 31) as Hb31.
  { destruct (b_refcnt x =? 0) eqn:E; [apply Z.eqb_eq in E; rewrite E; lia|].
    destruct Hrd as [_ Hrd]. simpl in Hrd. lia. }
  eapply (bread_got s b (fun x => set_b_refcnt (u32 (b_refcnt x + 1)) x));
    [apply Hc|done| |done|done| |done|done|done|].
  - unfold bget. rewrite bind_acquire by (rewrite (c_held _ _ Hc); set_solver).
    rewrite (c_held _ _ Hc). erewrite bind_done by (apply (bget_cached_eq _ _ _ ord); done).
    ksimp. rewrite Hf. apply bget_found; try apply Hc; done.
  - fold x. ksimp. rewrite u32_small by lia. destruct (b_refcnt x =? 0) eqn:E; [|done].
    apply Z.eqb_eq in E. by rewrite E.
  - fold x. ksimp. destruct (b_refcnt x =? 0) eqn:E.
    + apply Z.eqb_eq in E. destruct O3 as [O3|O3]; [by left|]. right. split; [done|]. simpl.
      rewrite <- Hkb. symmetry. apply O5; [done..|]. by rewrite O3.
    + right. split; [|done]. apply O6. by apply Z.eqb_neq.
Qed.

Lemma bget_miss (fuel_pos : (0 < sleep_fuel)%nat) s A bn b ord :
  cache s A -> ring (k_bcache s) ord ->
  find (fun b => is_block dev bn (k_bcache s !!! b)) ord = None ->
  find (fun b => b_refcnt (k_bcache s !!! b) =? 0) (reverse ord) = Some b ->
  (b < NBUF)%nat /\ slot_for s b bn /\
  bread dev bn s = Done b (set_k_bcache (alter (read_buf bn (got A (k_disk s) bn)) b (k_bcache s)) s).
Proof.
  intros Hc Hr Hnf Hf. apply find_in in Hf as Hb. destruct Hb as [Hb Hk].
  rewrite elem_of_reverse, (ring_in (k_bcache s)) in Hb by done. apply Z.eqb_eq in Hk.
  assert (forall b', (b' < NBUF)%nat -> b_dev (k_bcache s !!! b') = dev ->
    b_blockno (k_bcache s !!! b') <> bn) as Hno.
  { intros b' Hb' Hd' <-. apply (ring_in (k_bcache s) ord) in Hb'; [|done].
    pose proof (find_not _ _ b' Hnf Hb') as Hx. unfold is_block in Hx. rewrite Hd' in Hx.
    by rewrite !Z.eqb_refl in Hx. }
  split_and!; [done|by right|].
  assert (A !! bn = None) as HA.
  { destruct (A !! bn) as [e|] eqn:HA; [|done].
    destruct (c_used _ _ Hc bn e HA) as (b' & B1 & B2 & B3 & _). by destruct (Hno b' B1 B2). }
  destruct (c_buf _ _ Hc b Hb) as [O1 O2 O3 O4 O5 O6].
  assert (b_lock (k_bcache s !!! b) = mksleeplock 0 0) as Hl by (by destruct O2 as [?|[_ ?]]).
  unfold got. rewrite HA.
  eapply (bread_got s b (fun x => set_b_refcnt 1 (set_b_valid 0 (set_b_blockno bn (set_b_dev dev x)))));
    [apply Hc|done| |done|done|done|done|done|done|by left].
  unfold bget. rewrite bind_acquire by (rewrite (c_held _ _ Hc); set_solver).
  rewrite (c_held _ _ Hc). erewrite bind_done by (apply (bget_cached_eq _ _ _ ord); done).
  ksimp. rewrite Hnf. erewrite bind_done by (apply (bget_free_eq _ ord); done).
  ksimp. rewrite Hf. apply bget_found; try apply Hc; done.
Qed.

Lemma bread_eq (fuel_pos : (0 < sleep_fuel)%nat) s A bn :
  cache s A -> readable A bn ->
  exists b, (b < NBUF)%nat /\ slot_for s b bn /\
    bread dev bn s = Done b (set_k_bcache (alter (read_buf bn (got A (k_disk s) bn)) b (k_bcache s)) s).
Proof.
  intros Hc Hrd. destruct (c_ring _ _ Hc) as [ord Hr].
  destruct (find (fun b => is_block dev bn (k_bcache s !!! b)) ord) as [b|] eqn:Hf.
  { exists b. by apply (bget_hit fuel_pos s A bn b ord). }
  assert (A !! bn = None) as HA.
  { destruct (A !! bn) as [e|] eqn:HA; [|done].
    destruct (c_used _ _ Hc bn e HA) as (b' & B1 & B2 & B3 & _).
    apply (ring_in (k_bcache s) ord) in B1; [|done]. pose proof (find_not _ _ b' Hf B1) as Hx.
    unfold is_block in Hx. rewrite B2, B3 in Hx. by rewrite !Z.eqb_refl in Hx. }
  unfold readable in Hrd. rewrite HA in Hrd.
  destruct (find (fun b => b_refcnt (k_bcache s !!! b) =? 0) (reverse ord)) as [b|] eqn:Hfr.
  - exists b. by apply (bget_miss fuel_pos s A bn b ord).
  - by destruct (free_exists s A ord Hc Hr Hrd).
Qed.

(** An entry that stays in the map keeps its buffer. *)
Definition stable (s s' : kst) (A' : gmap Z entry) : Prop :=
  forall b bn, buf_of (k_bcache s) b bn -> is_Some (A' !! bn) -> buf_of (k_bcache s') b bn.

Lemma got_length s A bn : cache s A -> length (e_data (got A (k_disk s) bn)) = 1024%nat.
Proof.
  intros Hc. unfold got. destruct (A !! bn) as [e|] eqn:HA; [|apply length_dget, Hc].
  destruct (c_used _ _ Hc bn e HA) as (b & Hb). rewrite (cache_entry s A b bn Hc Hb) in HA.
  injection HA as <-. apply (ok_data _ _ _ (c_buf _ _ Hc b (proj1 Hb))).
Qed.

Lemma got_ref s A bn : cache s A -> readable A bn -> 0 < e_ref (got A (k_disk s) bn) < 2 ^ 31.
Proof.
  intros Hc Hrd. unfold got, readable in *. destruct (A !! bn) as [e|] eqn:HA; [|simpl; lia].
  destruct (c_used _ _ Hc bn e HA) as (b & Hb). rewrite (cache_entry s A b bn Hc Hb) in HA.
  injection HA as <-. simpl in *. destruct (ok_ref _ _ _ (c_buf _ _ Hc b (proj1 Hb))). lia.
Qed.

Lemma bread_spec (fuel_pos : (0 < sleep_fuel)%nat) s A bn :
  cache s A -> readable A bn ->
  exists b s', bread dev bn s = Done b s' /\
    cache s' (<[bn := got A (k_disk s) bn]> A) /\ buf_of (k_bcache s') b bn /\
    frame s s' /\ k_disk s' = k_disk s /\ stable s s' (<[bn := got A (k_disk s) bn]> A).
Proof.
  intros Hc Hrd. destruct (bread_eq fuel_pos s A bn Hc Hrd) as (b & Hb & Hs & Heq).
  pose proof (got_ref s A bn Hc Hrd) as Hr. pose proof (got_length s A bn Hc) as Hl.
  set (e := got A (k_disk s) bn) in *.
  exists b. eexists. split; [exact Heq|].
  assert (forall b' bn', b' <> b -> buf_of (k_bcache s) b' bn' -> bn' <> bn) as Hother.
  { intros b' bn' Hne (B1 & B2 & B3 & B4) ->. destruct Hs as [[S1 S2]|[S1 S2]]; [|by destruct (S2 b')].
    apply Hne, (c_uniq _ _ Hc); [done..|by rewrite S2]. }
  assert ((b < length (k_bcache s))%nat) as Hlt by (rewrite (c_len _ _ Hc); lia).
  split_and!.
  - apply (cache_upd s A); try done.
    + intros _ b' Hb' Hne Hd'. ksimp. destruct Hs as [[S1 S2]|[S1 S2]]; [|by apply S2].
      intros E. apply Hne, (c_uniq _ _ Hc); [done..|by rewrite S2].
    + unfold read_buf. split; ksimp; [lia| |by right|done|lia|].
      * right. split; [done|lia].
      * intros _. split_and!; [done..|]. rewrite lookup_insert_eq. by destruct e as [? [] ?] eqn:E;
          unfold e, got in E; destruct (A !! bn).
    + intros b' bn' Hne Ho. rewrite lookup_insert_ne; [done|]. intros <-. by apply (Hother b' bn Hne Ho).
    + intros bn' e' He'. destruct (decide (bn' = bn)) as [->|Hne]; [left; split; [done|]; simpl; lia|].
      rewrite lookup_insert_ne in He' by done. destruct (c_used _ _ Hc bn' e' He') as (b' & Ho).
      right. exists b'. split; [|done]. intros ->. destruct Ho as (B1 & B2 & B3 & B4).
      destruct Hs as [[S1 S2]|[S1 S2]]; congruence.
  - unfold buf_of. ksimp. rewrite list_lookup_total_alter_eq by done. split_and!; [done..|]. simpl. lia.
  - by destruct s.
  - done.
  - intros b' bn' Ho Hin. destruct (decide (b' = b)) as [->|Hne].
    + unfold buf_of. ksimp. rewrite list_lookup_total_alter_eq by done. destruct Ho as (B1 & B2 & B3 & B4).
      split_and!; [done..| |simpl; lia]. simpl. destruct Hs as [[S1 S2]|[S1 S2]]; congruence.
    + unfold buf_of. ksimp. by rewrite list_lookup_total_alter_ne.
Qed.

(** A change of a buffer in use that leaves it in use. *)
Record keeps (f : buf -> buf) : Prop := {
  keeps_next : forall x, b_next (f x) = b_next x;
  keeps_prev : forall x, b_prev (f x) = b_prev x;
  keeps_dev : forall x, b_dev (f x) = b_dev x;
  keeps_bn : forall x, b_blockno (f x) = b_blockno x;
  keeps_valid : forall x, b_valid (f x) = b_valid x
}.

Lemma cache_mod s A b bn f :
  cache s A -> buf_of (k_bcache s) b bn -> keeps f ->
  let y := f (k_bcache s !!! b) in
  0 < b_refcnt y < 2 ^ 31 -> b_lock y = mksleeplock 0 0 \/ b_lock y = mksleeplock 1 pid ->
  length (b_data y) = 1024%nat ->
  let s' := set_k_bcache (alter f b (k_bcache s)) s in
  cache s' (<[bn := entry_of y]> A) /\ buf_of (k_bcache s') b bn /\ frame s s' /\
  stable s s' (<[bn := entry_of y]> A).
Proof.
  intros Hc Ho [K1 K2 K3 K4 K5] y Hr Hl Hd s'. pose proof Ho as (B1 & B2 & B3 & B4).
  assert ((b < length (k_bcache s))%nat) as Hlt by (rewrite (c_len _ _ Hc); lia).
  assert (buf_of (k_bcache s') b bn) as Ho'.
  { unfold buf_of, s'. ksimp. rewrite list_lookup_total_alter_eq by done.
    rewrite K3, K4. split_and!; [done..|]. fold y. lia. }
  split_and!; [|done|by destruct s|].
  - apply (cache_upd s A); auto.
    + intros _ b' Hb' Hne Hd' E. rewrite K4 in E. by apply Hne, (c_uniq _ _ Hc).
    + destruct (c_buf _ _ Hc b B1) as [O1 O2 O3 O4 O5 O6]. fold y. split; [lia| |unfold y; by rewrite K5|done|lia|].
      * destruct Hl; [by left|]. right. split; [done|lia].
      * intros _. unfold y at 1 2 3. rewrite K3, K4, K5, B3, lookup_insert_eq.
        split_and!; [done|by apply O6|done].
    + intros b' bn' Hne Hb'. rewrite lookup_insert_ne; [done|]. intros <-.
      by apply Hne, (buf_of_uniq s A b' b bn).
    + intros bn' e He. destruct (decide (bn' = bn)) as [->|Hne].
      * left. rewrite K4, B3. split; [done|]. fold y. lia.
      * rewrite lookup_insert_ne in He by done. destruct (c_used _ _ Hc bn' e He) as (b' & Hb').
        right. exists b'. split; [|done]. intros ->. destruct Hb' as (_ & _ & ? & _). congruence.
  - intros b' bn' Hb' _. destruct (decide (b' = b)) as [->|Hne].
    + destruct Hb' as (_ & _ & <- & _). by rewrite B3.
    + unfold buf_of, s'. ksimp. by rewrite list_lookup_total_alter_ne.
Qed.

Lemma holdingsleep_eq s A b bn e :
  cache s A -> buf_of (k_bcache s) b bn -> A !! bn = Some e -> e_locked e = true ->
  holdingsleep (SLbuf b) s = Done true s.
Proof.
  intros Hc Hb He Hl. rewrite (cache_entry s A b bn Hc Hb) in He. injection He as <-. cbn in Hl.
  destruct (ok_lock _ _ _ (c_buf _ _ Hc b (proj1 Hb))) as [E|[E _]]; [by rewrite E in Hl|].
  unfold holdingsleep. rewrite bind_acquire by (rewrite (c_held _ _ Hc); set_solver).
  unfold getsl. rewrite bind_gets. ksimp. rewrite E. rewrite (bind_curproc p) by apply Hc.
  unfold getproc. rewrite bind_gets. erewrite bind_release by done. ksimp.
  rewrite (c_pid _ _ Hc). cbn [sl_locked sl_pid nz Z.eqb negb andb]. rewrite Z.eqb_refl.
  unfold ret. f_equal. by destruct s.
Qed.

Lemma blit_spec s A b bn e d :
  cache s A -> buf_of (k_bcache s) b bn -> A !! bn = Some e -> length d = 1024%nat ->
  let s' := set_k_bcache (alter (set_b_data d) b (k_bcache s)) s in
  let A' := <[bn := mkentry (e_ref e) (e_locked e) d]> A in
  cache s' A' /\ buf_of (k_bcache s') b bn /\ frame s s' /\ stable s s' A'.
Proof.
  intros Hc Hb He Hd. rewrite (cache_entry s A b bn Hc Hb) in He. injection He as <-.
  destruct (c_buf _ _ Hc b (proj1 Hb)) as [O1 O2 O3 O4 O5 O6].
  apply (cache_mod s A b bn (set_b_data d)); auto; ksimp.
  - by split.
  - destruct Hb as (_ & _ & _ & ?). lia.
  - destruct O2 as [?|[? _]]; auto.
Qed.

(** A process-table change that keeps the identity of processes. *)
Lemma cache_procs s A ch :
  cache s A -> cache (set_k_proc (imap (woken (k_cur s) ch) (k_proc s)) s) A.
Proof.
  intros Hc. destruct Hc. split; ksimp; try done.
  - unfold procs_wf. ksimp. by rewrite length_imap.
  - rewrite list_lookup_total_alt, list_lookup_imap. rewrite list_lookup_total_alt in c_pid0.
    destruct (k_proc s !! p); [|done]. simpl in *. unfold woken. by case_match.
Qed.

Lemma bwrite_spec s A b bn e :
  cache s A -> buf_of (k_bcache s) b bn -> A !! bn = Some e -> e_locked e = true ->
  let s' := set_k_disk ((bn, e_data e) :: k_disk s) s in
  bwrite b s = Done tt s' /\ cache s' A.
Proof.
  intros Hc Hb He Hl s'. split.
  - unfold bwrite. erewrite bind_done by (by eapply holdingsleep_eq). cbn [negb]. rewrite disk_write.
    rewrite (cache_entry s A b bn Hc Hb) in He. injection He as <-. by destruct Hb as (_ & _ & -> & _).
  - rewrite (cache_entry s A b bn Hc Hb) in He. injection He as <-.
    pose proof (ok_data _ _ _ (c_buf _ _ Hc b (proj1 Hb))) as Hd. pose proof Hc as Hc'.
    destruct Hc. split; unfold s'; ksimp; try done; [|by constructor].
    intros b' Hb'. destruct (c_buf0 b' Hb') as [O1 O2 O3 O4 O5 O6]. split; try done.
    intros E1 E2 E3. simpl. rewrite O5 by done. rewrite (proj2 (Z.eqb_neq _ _)); [done|]. intros E4.
    destruct Hb as (B1 & B2 & B3 & B4). rewrite (c_uniq0 b b') in B4; [done..|congruence].
Qed.

(** Adding [d] to a reference count under [bcache.lock]. *)
Lemma bref_spec s A b bn e d :
  cache s A -> buf_of (k_bcache s) b bn -> A !! bn = Some e -> 0 < e_ref e + d < 2 ^ 31 ->
  exists s',
    (acquire Lbcache ;;;
     updbuf b (fun x => set_b_refcnt (u32 (b_refcnt x + d)) x) ;;;
     release Lbcache) s = Done tt s' /\
    let A' := <[bn := mkentry (e_ref e + d) (e_locked e) (e_data e)]> A in
    cache s' A' /\ buf_of (k_bcache s') b bn /\ frame s s' /\ k_disk s' = k_disk s /\ stable s s' A'.
Proof.
  intros Hc Hb He Hr. rewrite (cache_entry s A b bn Hc Hb) in He. injection He as <-. cbn in Hr.
  destruct (c_buf _ _ Hc b (proj1 Hb)) as [O1 O2 O3 O4 O5 O6].
  rewrite bind_acquire by (rewrite (c_held _ _ Hc); set_solver).
  unfold updbuf. rewrite bind_modify. erewrite release_head by done. ksimp.
  eexists. split; [f_equal; symmetry; by destruct s|].
  destruct (cache_mod s A b bn (fun x => set_b_refcnt (u32 (b_refcnt x + d)) x)) as (C1 & C2 & C3 & C4);
    auto; ksimp in *.
  - by split.
  - rewrite u32_small; lia.
  - destruct O2 as [?|[? _]]; auto.
  - unfold entry_of in *. ksimp in *. rewrite u32_small in * by lia. by split_and!.
Qed.

(** The state after [releasesleep] and the decrement in [brelse]. *)
Definition released (b : nat) (bc : list buf) : list buf :=
  alter (fun x => set_b_refcnt (u32 (b_refcnt x - 1)) (set_b_lock (mksleeplock 0 0) x)) b bc.

Lemma lru_block b t :
  let x := k_bcache t !!! b in
  (updbuf (b_next x) (set_b_prev (b_prev x)) ;;;
   x <- getbuf b ;;
   updbuf (b_prev x) (set_b_next (b_next x)) ;;;
   h <- getbuf HEAD ;;
   updbuf b (set_b_next (b_next h)) ;;;
   updbuf b (set_b_prev HEAD) ;;;
   h <- getbuf HEAD ;;
   updbuf (b_next h) (set_b_prev b) ;;;
   updbuf HEAD (set_b_next b)) t = Done tt (set_k_bcache (lru_move (k_bcache t) b) t).
Proof.
  unfold updbuf, getbuf, lru_move. cbv zeta.
  repeat (rewrite bind_modify || rewrite bind_gets). unfold modify. ksimp.
  by rewrite !set_k_bcache_twice.
Qed.

Lemma brelse_eq s A b bn e :
  cache s A -> buf_of (k_bcache s) b bn -> A !! bn = Some e -> e_locked e = true ->
  brelse b s = Done tt
    (set_k_bcache (if e_ref e =? 1 then lru_move (released b (k_bcache s)) b else released b (k_bcache s))
      (set_k_proc (imap (woken (k_cur s) (ChSleep (SLbuf b))) (k_proc s)) s)).
Proof.
  intros Hc Hb He Hl. unfold brelse.
  erewrite bind_done by (eapply holdingsleep_eq; eassumption). cbn [negb].
  rewrite (cache_entry s A b bn Hc Hb) in He. injection He as <-.
  destruct (c_buf _ _ Hc b (proj1 Hb)) as [O1 O2 O3 O4 O5 O6].
  destruct Hb as (B1 & B2 & B3 & B4). pose proof (c_len _ _ Hc) as Hlen.
  erewrite bind_done; cycle 1.
  { unfold releasesleep. rewrite bind_acquire by (rewrite (c_held _ _ Hc); set_solver).
    unfold setsl. rewrite bind_modify. erewrite bind_done; cycle 1.
    { apply wakeup_eq; [apply Hc|]. intros i. ksimp. rewrite (c_held _ _ Hc). set_solver. }
    erewrite release_head by done. reflexivity. }
  ksimp. rewrite (c_held _ _ Hc).
  rewrite bind_acquire by (ksimp; set_solver). ksimp.
  unfold updbuf at 1, getbuf at 1. rewrite bind_modify, bind_gets. ksimp. rewrite alter_alter_buf.
  rewrite list_lookup_total_alter_eq by lia. ksimp. rewrite u32_small by lia.
  replace (b_refcnt (k_bcache s !!! b) - 1 =? 0) with (b_refcnt (k_bcache s !!! b) =? 1)
    by (destruct (Z.eqb_spec (b_refcnt (k_bcache s !!! b)) 1); symmetry;
        [apply Z.eqb_eq|apply Z.eqb_neq]; lia).
  change (e_ref (entry_of (k_bcache s !!! b))) with (b_refcnt (k_bcache s !!! b)).
  destruct (b_refcnt (k_bcache s !!! b) =? 1).
  - erewrite bind_done; cycle 1.
    { match goal with |- _ ?t = _ => pose proof (lru_block b t) as E end. ksimp in E.
      rewrite list_lookup_total_alter_eq in E by lia. exact E. }
    erewrite release_head by done. ksimp. f_equal. pose proof (c_held _ _ Hc) as Hh.
    clear - Hh. destruct s. ksimp in Hh. by subst.
  - rewrite bind_ret. erewrite release_head by done. ksimp. f_equal. pose proof (c_held _ _ Hc) as Hh.
    clear - Hh. destruct s. ksimp in Hh. by subst.
Qed.

Lemma buf_of_lru bc b b' bn : buf_of (lru_move bc b) b' bn <-> buf_of bc b' bn.
Proof.
  unfold buf_of. by rewrite (lru_move_fields b_dev), (lru_move_fields b_blockno), (lru_move_fields b_refcnt).
Qed.

Lemma cache_lru s A b :
  cache s A -> (b < NBUF)%nat -> cache (set_k_bcache (lru_move (k_bcache s) b) s) A.
Proof.
  intros Hc Hb. destruct Hc. split; ksimp; try done.
  - by rewrite length_lru_move.
  - destruct c_ring0 as [ord Hr]. destruct (ring_split _ _ b Hr Hb) as (l1 & l2 & ->).
    eexists. by apply ring_move.
  - intros i j. rewrite !(lru_move_fields b_dev), !(lru_move_fields b_blockno) by done. apply c_uniq0.
  - intros i Hi. destruct (c_buf0 i Hi) as [O1 O2 O3 O4 O5 O6].
    split; rewrite ?(lru_move_fields b_dev), ?(lru_move_fields b_blockno), ?(lru_move_fields b_refcnt),
      ?(lru_move_fields b_lock), ?(lru_move_fields b_valid), ?(lru_move_fields b_data),
      ?(lru_move_fields entry_of) by done; done.
  - intros bn e He. destruct (c_used0 bn e He) as (b' & Ho). exists b'. by rewrite buf_of_lru.
Qed.

(** A buffer whose last reference goes away, with nothing left to write. *)
Lemma cache_drop s A b bn f :
  cache s A -> buf_of (k_bcache s) b bn -> keeps f ->
  let y := f (k_bcache s !!! b) in
  b_refcnt y = 0 -> b_lock y = mksleeplock 0 0 -> length (b_data y) = 1024%nat ->
  b_data y = dget (k_disk s) bn ->
  let s' := set_k_bcache (alter f b (k_bcache s)) s in
  cache s' (delete bn A) /\ stable s s' (delete bn A).
Proof.
  intros Hc Ho [K1 K2 K3 K4 K5] y Hr Hl Hd Hdk s'. pose proof Ho as (B1 & B2 & B3 & B4). split.
  - apply (cache_upd s A); auto.
    + intros _ b' Hb' Hne Hd' E. rewrite K4 in E. by apply Hne, (c_uniq _ _ Hc).
    + destruct (c_buf _ _ Hc b B1) as [O1 O2 O3 O4 O5 O6]. fold y. split; [lia|by left| |done| |done].
      * unfold y. by rewrite K5.
      * intros _ _ _. unfold y at 2. by rewrite K4, B3.
    + intros b' bn' Hne Hb'. rewrite lookup_delete_ne; [done|]. intros <-.
      by apply Hne, (buf_of_uniq s A b' b bn).
    + intros bn' e He. apply lookup_delete_Some in He as [Hne He].
      destruct (c_used _ _ Hc bn' e He) as (b' & Hb').
      right. exists b'. split; [|done]. intros ->. destruct Hb' as (_ & _ & ? & _). congruence.
  - intros b' bn' Hb' [e He]. apply lookup_delete_Some in He as [Hne He].
    unfold buf_of, s'. ksimp. rewrite list_lookup_total_alter_ne; [done|].
    intros <-. destruct Hb' as (_ & _ & ? & _). congruence.
Qed.

(** The map after [brelse]. *)
Definition put (A : gmap Z entry) (bn : Z) (e : entry) : gmap Z entry :=
  if e_ref e =? 1 then delete bn A else <[bn := mkentry (e_ref e - 1) false (e_data e)]> A.

Lemma brelse_spec s A b bn e :
  cache s A -> buf_of (k_bcache s) b bn -> A !! bn = Some e -> e_locked e = true ->
  (e_ref e = 1 -> e_data e = dget (k_disk s) bn) ->
  exists s', brelse b s = Done tt s' /\
    cache s' (put A bn e) /\ frame s s' /\ k_disk s' = k_disk s /\ stable s s' (put A bn e).
Proof.
  intros Hc Hb He Hl Hcl. eexists. split; [by eapply brelse_eq|].
  rewrite (cache_entry s A b bn Hc Hb) in He. injection He as <-. cbn [e_ref entry_of e_data] in *.
  pose proof (cache_procs s A (ChSleep (SLbuf b)) Hc) as Hc1.
  set (s1 := set_k_proc _ s) in *. set (f := fun x => set_b_refcnt (u32 (b_refcnt x - 1)) (set_b_lock (mksleeplock 0 0) x)).
  assert (buf_of (k_bcache s1) b bn) as Hb1 by done.
  destruct (c_buf _ _ Hc b (proj1 Hb)) as [O1 O2 O3 O4 O5 O6].
  assert (b_refcnt (f (k_bcache s1 !!! b)) = b_refcnt (k_bcache s !!! b) - 1) as Hrf.
  { unfold f. ksimp. apply u32_small. destruct Hb as (_ & _ & _ & ?). lia. }
  unfold put. cbn [e_ref entry_of e_data]. destruct (Z.eqb_spec (b_refcnt (k_bcache s !!! b)) 1) as [E|E].
  - destruct (cache_drop s1 A b bn f Hc1 Hb1) as [C1 C2]; [by split|lia|done|done|by apply Hcl|].
    split_and!; [|by destruct s|done|].
    + apply (cache_lru _ _ b C1). apply Hb.
    + intros b' bn' Ho Hin. ksimp. rewrite buf_of_lru. by apply C2.
  - destruct (cache_mod s1 A b bn f Hc1 Hb1) as (C1 & C2 & C3 & C4); [by split| |by left|done|].
    { rewrite Hrf. destruct Hb as (_ & _ & _ & ?). lia. }
    assert (entry_of (f (k_bcache s1 !!! b)) =
      mkentry (b_refcnt (k_bcache s !!! b) - 1) false (b_data (k_bcache s !!! b))) as Ee
      by (unfold entry_of at 1; by rewrite Hrf).
    rewrite Ee in *. split_and!; [done|by destruct s|done|done].
Qed.

Lemma elem_of_filter_used (bc : list buf) b :
  b ∈ filter (fun b => b_refcnt (bc !!! b) <> 0) (seq 0 NBUF) <->
  b_refcnt (bc !!! b) <> 0 /\ (b < NBUF)%nat.
Proof. rewrite list_elem_of_filter, elem_of_seq. intuition lia. Qed.

Lemma used_nodup s A :
  cache s A ->
  NoDup (map (fun b => b_blockno (k_bcache s !!! b))
    (filter (fun b => b_refcnt (k_bcache s !!! b) <> 0) (seq 0 NBUF))).
Proof.
  intros Hc. apply NoDup_fmap_2_strong; [|apply NoDup_filter, NoDup_seq]. intros b b'.
  rewrite !elem_of_filter_used. intros [R1 L1] [R2 L2] E. apply (c_uniq _ _ Hc); [done|done| | |done].
  - by apply (ok_used _ _ _ (c_buf _ _ Hc b L1)).
  - by apply (ok_used _ _ _ (c_buf _ _ Hc b' L2)).
Qed.

(** When as many blocks are in use as there are buffers, every buffer is. *)
Lemma full_all_used s A b :
  cache s A -> (NBUF <= size A)%nat -> (b < NBUF)%nat -> b_refcnt (k_bcache s !!! b) <> 0.
Proof.
  intros Hc Hs Hb E. set (used := filter (fun b => b_refcnt (k_bcache s !!! b) <> 0) (seq 0 NBUF)).
  assert (size A <= length used)%nat as H2.
  { rewrite <- size_dom, <- (length_map (fun b => b_blockno (k_bcache s !!! b)) used).
    rewrite <- (size_list_to_set (C := gset Z)) by (by apply (used_nodup s A)). apply subseteq_size. intros bn.
    rewrite elem_of_dom. intros [e He]. destruct (c_used _ _ Hc bn e He) as (b' & B1 & B2 & <- & B4).
    rewrite elem_of_list_to_set. apply list_elem_of_fmap. exists b'. split; [done|].
    unfold used. by rewrite elem_of_filter_used. }
  assert (length used < length (seq 0 NBUF))%nat as H3; [|rewrite length_seq in H3; lia].
  apply length_filter_lt with b; [apply elem_of_seq; lia|]. by intros ?.
Qed.

(** [bread] of one more block panics then. *)
Lemma bread_full s A bn :
  cache s A -> (NBUF <= size A)%nat -> A !! bn = None ->
  exists s', bread dev bn s = Panic "bget: no buffers" s'.
Proof.
  intros Hc Hs HA. destruct (c_ring _ _ Hc) as [ord Hr].
  assert (find (fun b => is_block dev bn (k_bcache s !!! b)) ord = None) as Hf.
  { destruct (find _ ord) as [b|] eqn:Hf; [|done]. apply find_in in Hf as [Hb Hk].
    apply (ring_in (k_bcache s)) in Hb; [|done]. apply andb_true_iff in Hk as [_ Hk].
    apply Z.eqb_eq in Hk. rewrite <- Hk in HA.
    by rewrite (proj2 (proj2 (ok_used _ _ _ (c_buf _ _ Hc b Hb) (full_all_used s A b Hc Hs Hb)))) in HA. }
  assert (find (fun b => b_refcnt (k_bcache s !!! b) =? 0) (reverse ord) = None) as Hg.
  { destruct (find _ (reverse ord)) as [b|] eqn:Hg; [|done]. apply find_in in Hg as [Hb Hk].
    rewrite elem_of_reverse, (ring_in (k_bcache s)) in Hb by done. apply Z.eqb_eq in Hk.
    by destruct (full_all_used s A b Hc Hs Hb). }
  eexists. unfold bread. apply bind_panic. unfold bget.
  rewrite bind_acquire by (rewrite (c_held _ _ Hc); set_solver).
  erewrite bind_done by (apply (bget_cached_eq _ _ _ ord); done). ksimp. rewrite Hf.
  erewrite bind_done by (apply (bget_free_eq _ ord); done). ksimp. by rewrite Hg.
Qed.

(** C5: the buffer cache is a map of the blocks in use. [bread] returns a
    locked buffer with the block's content: the cached one when the block is
    in use, the disk's otherwise, whatever buffer the LRU list gives it.
    [bwrite] puts the content on the disk. [brelse] drops one reference and
    the lock; with the last reference the block leaves the map. [bpin] and
    [bunpin] only count. The ring of buffers, the uniqueness of each block's
    buffer and the other blocks' buffers are kept ([cache], [stable]). *)
Theorem bcache_refines_map (fuel_pos : (0 < sleep_fuel)%nat) s A :
  cache s A ->
  (forall bn, readable A bn ->
     exists b s', bread dev bn s = Done b s' /\ cache s' (<[bn := got A (k_disk s) bn]> A) /\
       buf_of (k_bcache s') b bn /\ k_disk s' = k_disk s /\
       stable s s' (<[bn := got A (k_disk s) bn]> A)) /\
  (forall b bn e, buf_of (k_bcache s) b bn -> A !! bn = Some e ->
     (e_locked e = true -> exists s', bwrite b s = Done tt s' /\ cache s' A /\
        k_disk s' = (bn, e_data e) :: k_disk s) /\
     (e_locked e = true -> (e_ref e = 1 -> e_data e = dget (k_disk s) bn) ->
        exists s', brelse b s = Done tt s' /\ cache s' (put A bn e) /\ k_disk s' = k_disk s /\
          stable s s' (put A bn e)) /\
     (e_ref e + 1 < 2 ^ 31 -> exists s', bpin b s = Done tt s' /\
        cache s' (<[bn := mkentry (e_ref e + 1) (e_locked e) (e_data e)]> A)) /\
     (1 < e_ref e -> exists s', bunpin b s = Done tt s' /\
        cache s' (<[bn := mkentry (e_ref e - 1) (e_locked e) (e_data e)]> A))).
Proof.
  intros Hc. split.
  - intros bn Hr. destruct (bread_spec fuel_pos s A bn Hc Hr) as (b & s' & E & C1 & C2 & _ & C3 & C4). eauto 10.
  - intros b bn e Hb He. pose proof Hb as Hb0. destruct Hb0 as (B1 & _).
    assert (0 <= e_ref e < 2 ^ 31) as Hr.
    { rewrite (cache_entry s A b bn Hc Hb) in He. injection He as <-. apply (c_buf _ _ Hc b B1). }
    split_and!.
    + intros Hl. destruct (bwrite_spec s A b bn e Hc Hb He Hl) as [E C]. eauto.
    + intros Hl Hcl. destruct (brelse_spec s A b bn e Hc Hb He Hl Hcl) as (s' & E & C1 & _ & C2 & C3). eauto 10.
    + intros H2. destruct (bref_spec s A b bn e 1 Hc Hb He) as (s' & E & C1 & _); [lia|]. eauto.
    + intros H2. destruct (bref_spec s A b bn e (-1) Hc Hb He) as (s' & E & C1 & _); [lia|]. eauto.
Qed.
End Cache.

(* ------------------------------------------------------------------ *)
(** ** Initialisation *)

(** One iteration of the loop of [binit]. *)
Definition binit_step (bc : list buf) (b : nat) : list buf :=
  let n := b_next (bc !!! HEAD) in
  alter (set_b_next b) HEAD (alter (set_b_prev b) n (alter (set_b_lock (mksleeplock 0 0)) b
    (alter (fun x => set_b_prev HEAD (set_b_next n x)) b bc))).

Lemma length_binit_step bc b : length (binit_step bc b) = length bc.
Proof. unfold binit_step. by rewrite !length_alter. Qed.

Lemma binit_step_fields {B} (g : buf -> B) bc b i :
  (forall v x, g (set_b_next v x) = g x) -> (forall v x, g (set_b_prev v x) = g x) ->
  (forall v x, g (set_b_lock v x) = g x) -> g (binit_step bc b !!! i) = g (bc !!! i).
Proof.
  intros E1 E2 E3. unfold binit_step.
  repeat (rewrite lookup_total_alter_field; [|by intros; rewrite ?E1, ?E2, ?E3]). done.
Qed.

Lemma binit_step_links bc b :
  length bc = S NBUF -> (b < NBUF)%nat -> (nxt bc HEAD <= NBUF)%nat ->
  (forall i, nxt (binit_step bc b) i = nupd (nupd (nxt bc) b (nxt bc HEAD)) HEAD b i) /\
  (forall i, prv (binit_step bc b) i = nupd (nupd (prv bc) b HEAD) (nxt bc HEAD) b i).
Proof.
  intros Hlen Hb Hn. unfold binit_step. fold (nxt bc HEAD). set (n := nxt bc HEAD) in *.
  set (bc1 := alter (set_b_lock (mksleeplock 0 0)) b
    (alter (fun x => set_b_prev HEAD (set_b_next n x)) b bc)).
  assert (length bc1 = S NBUF) as L1 by (unfold bc1; by rewrite !length_alter).
  assert (forall i, nxt bc1 i = nupd (nxt bc) b n i) as N1.
  { intros i. unfold nxt at 1, bc1. rewrite lookup_total_alter_field by done. unfold nupd.
    case_decide; subst; [by rewrite list_lookup_total_alter_eq by lia|by rewrite list_lookup_total_alter_ne]. }
  assert (forall i, prv bc1 i = nupd (prv bc) b HEAD i) as P1.
  { intros i. unfold prv at 1, bc1. rewrite lookup_total_alter_field by done. unfold nupd.
    case_decide; subst; [by rewrite list_lookup_total_alter_eq by lia|by rewrite list_lookup_total_alter_ne]. }
  split; intros i.
  - rewrite nxt_set by (rewrite length_alter; lia). unfold nupd at 1 2. case_decide; [done|].
    rewrite nxt_set_prev. apply N1.
  - rewrite prv_set_next, prv_set by lia. unfold nupd at 1 2. case_decide; [done|]. apply P1.
Qed.

Lemma binit_ring bc k :
  length bc = S NBUF -> (k <= NBUF)%nat ->
  nexts (nxt bc) (cyc []) -> nexts (prv bc) (cyc []) ->
  let bc' := foldl binit_step bc (seq 0 k) in
  length bc' = S NBUF /\ nexts (nxt bc') (cyc (reverse (seq 0 k))) /\ nexts (prv bc') (cyc (seq 0 k)).
Proof.
  intros Hlen Hk Hn Hp. induction k as [|k IH]; [done|].
  destruct IH as (L & N & P); [lia|]. rewrite seq_S, foldl_app, reverse_app. cbn [foldl Nat.add].
  set (bc1 := foldl binit_step bc (seq 0 k)) in *. split; [by rewrite length_binit_step|].
  assert (nxt bc1 HEAD = default HEAD (head (reverse (seq 0 k)))) as Eh by (by apply nexts_head).
  destruct (last_exists HEAD (seq 0 k)) as (x & z & Hz). pose proof (last_head_reverse _ _ _ _ Hz) as Ez.
  assert (z ∈ (HEAD :: seq 0 k)) as Hin by (rewrite Hz; set_solver).
  apply elem_of_cons in Hin. rewrite elem_of_seq in Hin.
  assert ((HEAD ∉ seq 0 k) /\ (k ∉ seq 0 k)) as [Hh Hkk] by (rewrite !elem_of_seq; lia).
  destruct (binit_step_links bc1 k) as [En Ep]; [done|lia|lia|]. split.
  - eapply nexts_fun_ext; [intros i; symmetry; apply En|].
    apply nexts_front; [lia|by rewrite elem_of_reverse..|done].
  - eapply nexts_fun_ext; [intros i; symmetry; apply Ep|]. rewrite Eh, <- Ez.
    eapply nexts_back; [lia| |done|exact Hz|done]. constructor; [done|apply NoDup_seq].
Qed.

Lemma binit_eq s :
  k_held s = [] ->
  binit s = Done tt (set_k_bcache (foldl binit_step
    (alter (fun h => set_b_next HEAD (set_b_prev HEAD h)) HEAD (k_bcache s)) (seq 0 NBUF)) s).
Proof.
  intros Hh. unfold binit, initlock, updbuf at 1. rewrite !bind_modify. ksimp. rewrite Hh.
  match goal with |- for_each _ ?body ?t0 = _ =>
    destruct (for_each_inv (fun t => k_held t = []) (seq 0 NBUF)
      (fun b t => set_k_bcache (binit_step (k_bcache t) b) t) body t0) as [-> _] end; [|done|].
  - intros b t _ Ht. split; [|done]. unfold initsleeplock, initlock, setsl, updbuf, getbuf.
    rewrite bind_gets, bind_modify. erewrite bind_done; [|rewrite bind_modify; unfold modify; reflexivity].
    rewrite bind_modify. unfold modify. ksimp. rewrite Ht. f_equal. clear - Ht. destruct t. ksimp in Ht. by subst.
  - apply (f_equal (Done tt)).
    assert (forall l t, foldl (fun t b => set_k_bcache (binit_step (k_bcache t) b) t) t l =
      set_k_bcache (foldl binit_step (k_bcache t) l) t) as E.
    { induction l as [|b l IH]; intros t; [by destruct t|]. cbn [foldl]. rewrite IH. by destruct t. }
    rewrite E. ksimp. rewrite set_k_bcache_twice. cbn [rem1]. clear - Hh. destruct s. ksimp in Hh.
    rewrite Hh. ksimp. reflexivity.
Qed.

Section Init.
Variables (dev : Z) (p : nat) (pid : Z).

(** A buffer as [.bss] has it. *)
Definition fresh_buf (x : buf) : Prop :=
  b_refcnt x = 0 /\ b_valid x = 0 /\ b_lock x = mksleeplock 0 0 /\ b_dev x <> dev /\
  length (b_data x) = 1024%nat.

Lemma binit_fresh bc l i :
  (forall i, fresh_buf (bc !!! i)) -> fresh_buf (foldl binit_step bc l !!! i).
Proof.
  revert bc i. induction l as [|b l IH]; intros bc i Hf; [done|]. cbn [foldl]. apply IH. clear i.
  intros i. destruct (Hf i) as (F1 & F2 & F3 & F4 & F5). unfold fresh_buf.
  rewrite (binit_step_fields b_refcnt), (binit_step_fields b_valid), (binit_step_fields b_dev),
    (binit_step_fields b_data) by done. split_and!; try done. unfold binit_step.
  rewrite (lookup_total_alter_field b_lock (set_b_next b)),
    (lookup_total_alter_field b_lock (set_b_prev b)) by done. set (bc1 := alter _ b bc) in *.
  assert (b_lock (bc1 !!! i) = mksleeplock 0 0) as E1
    by (unfold bc1; by rewrite lookup_total_alter_field).
  rewrite list_lookup_total_alt in E1. rewrite list_lookup_total_alt. destruct (decide (b = i)) as [->|].
  - rewrite list_lookup_alter_eq. destruct (bc1 !! i); simpl; [done|exact E1].
  - by rewrite list_lookup_alter_ne.
Qed.

Lemma binit_cache s :
  procs_wf s -> (p < NPROC)%nat -> k_cur s = Some p -> p_pid (k_proc s !!! p) = pid -> k_held s = [] ->
  length (k_bcache s) = S NBUF -> (forall i, fresh_buf (k_bcache s !!! i)) -> disk_ok (k_disk s) ->
  exists s', binit s = Done tt s' /\ cache dev p pid s' ∅ /\ frame s s' /\ k_disk s' = k_disk s.
Proof.
  intros Hwf Hp Hcur Hpid Hh Hlen Hf Hd. eexists. split; [by apply binit_eq|].
  set (bc0 := alter _ HEAD (k_bcache s)).
  assert (length bc0 = S NBUF) as L0 by (unfold bc0; by rewrite length_alter).
  assert (forall i, fresh_buf (bc0 !!! i)) as Hf0.
  { intros i. unfold fresh_buf, bc0.
    rewrite (lookup_total_alter_field b_refcnt), (lookup_total_alter_field b_valid),
      (lookup_total_alter_field b_lock), (lookup_total_alter_field b_dev),
      (lookup_total_alter_field b_data) by done. apply Hf. }
  destruct (binit_ring bc0 NBUF) as (L & N & P); [done|lia| | |].
  1-2: split; [|done]; unfold nxt, prv, bc0; by rewrite list_lookup_total_alter_eq by lia.
  pose proof (fun i => binit_fresh bc0 (seq 0 NBUF) i Hf0) as Hf'.
  set (bc' := foldl binit_step bc0 (seq 0 NBUF)) in *.
  split_and!; [|by destruct s|done]. split; ksimp; try done.
  - exists (reverse (seq 0 NBUF)). split; [apply reverse_Permutation|done|]. by rewrite reverse_involutive.
  - intros b b' _ _ Hdv. by destruct (Hf' b) as (_ & _ & _ & ? & _).
  - intros b Hb. destruct (Hf' b) as (F1 & F2 & F3 & F4 & F5).
    split; [lia|by left|by left|done|done|done].
Qed.
End Init.

(* ------------------------------------------------------------------ *)
(** ** A concrete cache *)

(** Process 0 runs on a freshly booted machine with an empty disk. *)
Definition cache_demo (d : disk) : kst := set_k_cur (Some 0%nat) (kst0 (fun _ => 0) d).

Lemma cache_demo_init d :
  disk_ok d ->
  exists s', binit (cache_demo d) = Done tt s' /\ cache 1 0 0 s' ∅ /\
    frame (cache_demo d) s' /\ k_disk s' = d.
Proof.
  intros Hd. apply (binit_cache 1 0 0 (cache_demo d)); try done; [lia|]. intros i.
  assert (k_bcache (cache_demo d) !!! i = buf0) as ->; [|by split_and!].
  unfold cache_demo, kst0. ksimp. rewrite list_lookup_total_alt.
  destruct (replicate (S NBUF) buf0 !! i) eqn:E; [|done].
  by apply lookup_replicate in E as [-> _].
Qed.

(** Reading block 5 of a disk whose block 5 was written once. *)
Lemma bcache_refines_map_witness :
  exists s', binit (cache_demo [(5, replicate 1024 7)]) = Done tt s' /\
  exists b s'', @bread 1%nat sync_disk 1 5 s' = Done b s'' /\
    cache 1 0 0 s'' {[ 5 := mkentry 1 true (replicate 1024 7) ]}.
Proof.
  destruct (cache_demo_init [(5, replicate 1024 7)]) as (s' & E & Hc & _ & Hd).
  { by repeat constructor. }
  exists s'. split; [exact E|].
  destruct (@bcache_refines_map 1 0%nat 0 1%nat sync_disk sync_disk_ok ltac:(unfold sleep_fuel; lia)
    s' ∅ Hc) as [Hr _].
  destruct (Hr 5) as (b & s'' & E' & Hc' & _); [unfold readable; rewrite lookup_empty, map_size_empty; lia|].
  exists b, s''. split; [exact E'|]. rewrite Hd in Hc'. exact Hc'.
Defined.
