(* ===== verification/BufRules.v ===== *)
(** * Reasoning rules for clients of the buffer cache

    [own s0 s A D hs]: the state [s], reached from [s0] by operations on
    buffers, has the map of blocks [A] and the disk [D]; this process uses the
    buffers [hs]. One rule per operation, for programs in the monad that must
    return ([runs]). *)

From S2P Require Import Prelude Machine KState Spinlock Sched Printf Print Bio BufCache.
Local Open Scope Z_scope.
Local Open Scope kern_scope.

Lemma frame_refl s : frame s s.
Proof. done. Qed.
Lemma frame_trans s1 s2 s3 : frame s1 s2 -> frame s2 s3 -> frame s1 s3.
Proof. unfold frame. congruence. Qed.
Lemma frame_log s s' : frame s s' -> k_log s' = k_log s.
Proof. intros H. by apply (f_equal k_log) in H. Qed.
Lemma frame_sb s s' : frame s s' -> k_sb s' = k_sb s.
Proof. intros H. by apply (f_equal k_sb) in H. Qed.

Section Rules.
Variables (dev : Z) (p : nat) (pid : Z).
Context `{SleepFuel} `{BlockDev} `{!BlockDevOk}.

Record own (s0 s : kst) (A : gmap Z entry) (D : disk) (hs : list (nat * Z)) : Prop := {
  own_cache : cache dev p pid s A;
  own_frame : frame s0 s;
  own_disk : k_disk s = D;
  own_bufs : forall b bn, (b, bn) ∈ hs -> buf_of dev (k_bcache s) b bn
}.

Lemma own_init s A : cache dev p pid s A -> own s s A (k_disk s) [].
Proof. intros Hc. split; [done..|]. intros b bn Hin. by apply not_elem_of_nil in Hin. Qed.

Lemma own_log s0 s A D hs : own s0 s A D hs -> k_log s = k_log s0.
Proof. intros [_ Hf _ _]. by apply frame_log. Qed.

(** Fewer buffers. *)
Lemma own_weaken s0 s A D hs hs' : own s0 s A D hs -> hs' ⊆ hs -> own s0 s A D hs'.
Proof. intros [C F E B] Hs. split; auto. Qed.

(** The state changes; the buffers of [hs] are still in use. *)
Lemma own_step s0 s s' A A' D D' hs :
  own s0 s A D hs -> cache dev p pid s' A' -> frame s s' -> k_disk s' = D' -> stable dev s s' A' ->
  (forall b bn, (b, bn) ∈ hs -> is_Some (A' !! bn)) -> own s0 s' A' D' hs.
Proof.
  intros [C F E B] C' F' E' S Hin. split; [done|by eapply frame_trans|done|].
  intros b bn Hb. apply S; [by apply B|by eapply Hin].
Qed.

Lemma own_in s0 s A D hs b bn : own s0 s A D hs -> (b, bn) ∈ hs -> is_Some (A !! bn).
Proof.
  intros [C F E B] Hb. rewrite (cache_entry dev p pid s A b bn C (B b bn Hb)). eauto.
Qed.

Lemma own_cons s0 s A D hs b bn :
  own s0 s A D hs -> buf_of dev (k_bcache s) b bn -> own s0 s A D ((b, bn) :: hs).
Proof.
  intros [C F E B] Hb. split; [done..|]. intros b' bn' [Heq|Hin]%elem_of_cons; [|by apply B].
  by injection Heq as -> ->.
Qed.

Lemma rule_bread (fuel_pos : (0 < sleep_fuel)%nat) s0 s A D hs bn (Q : nat -> kst -> Prop) :
  own s0 s A D hs -> readable A bn ->
  (forall b s', own s0 s' (<[bn := got A D bn]> A) D ((b, bn) :: hs) -> Q b s') ->
  runs (bread dev bn) s Q.
Proof.
  intros Ho Hr Hk. pose proof (own_disk _ _ _ _ _ Ho) as <-.
  destruct (bread_spec dev p pid fuel_pos s A bn) as (b & s' & E & C & B & F & D' & S);
    [apply Ho|done|].
  eapply runs_done; [exact E|]. apply (Hk b s'). apply own_cons; [|done].
  eapply own_step; [done..|]. intros b' bn' Hin.
  destruct (decide (bn' = bn)) as [->|]; [rewrite lookup_insert_eq; eauto|].
  rewrite lookup_insert_ne by done. by eapply own_in.
Qed.

Lemma rule_getbuf s0 s A D hs b bn e (Q : buf -> kst -> Prop) :
  own s0 s A D hs -> (b, bn) ∈ hs -> A !! bn = Some e ->
  (forall x, b_data x = e_data e -> b_blockno x = bn -> Q x s) -> runs (getbuf b) s Q.
Proof.
  intros [C F E B] Hin He Hk. apply (runs_done _ _ (k_bcache s !!! b) s); [done|].
  pose proof (B b bn Hin) as Hb. rewrite (cache_entry dev p pid s A b bn C Hb) in He. injection He as <-.
  apply Hk; [done|]. apply Hb.
Qed.

Lemma in_insert s0 s A D hs bn e b' bn' :
  own s0 s A D hs -> (b', bn') ∈ hs -> is_Some (<[bn := e]> A !! bn').
Proof.
  intros Ho Hin. destruct (decide (bn' = bn)) as [->|]; [rewrite lookup_insert_eq; eauto|].
  rewrite lookup_insert_ne by done. by eapply own_in.
Qed.

(** Changing the content. *)
Lemma rule_blit s0 s A D hs b bn e (g : list Z -> list Z) (Q : unit -> kst -> Prop) :
  own s0 s A D hs -> (b, bn) ∈ hs -> A !! bn = Some e -> length (g (e_data e)) = 1024%nat ->
  (forall s', own s0 s' (<[bn := mkentry (e_ref e) (e_locked e) (g (e_data e))]> A) D hs -> Q tt s') ->
  runs (updbuf b (fun x => set_b_data (g (b_data x)) x)) s Q.
Proof.
  intros Ho Hin He Hl Hk. pose proof Ho as [C F E B]. pose proof (B b bn Hin) as Hb.
  apply (runs_done _ _ tt (set_k_bcache (alter (set_b_data (g (e_data e))) b (k_bcache s)) s)).
  - unfold updbuf, modify. do 2 f_equal. apply alter_ext_at.
    rewrite (cache_entry dev p pid s A b bn C Hb) in He. by injection He as <-.
  - apply Hk. destruct (blit_spec dev p pid s A b bn e (g (e_data e)) C Hb He Hl) as (C' & _ & F' & S).
    eapply own_step; [done..|]. intros b' bn'. by eapply in_insert.
Qed.

Lemma rule_bwrite s0 s A D hs b bn e (Q : unit -> kst -> Prop) :
  own s0 s A D hs -> (b, bn) ∈ hs -> A !! bn = Some e -> e_locked e = true ->
  (forall s', own s0 s' A ((bn, e_data e) :: D) hs -> Q tt s') -> runs (bwrite b) s Q.
Proof.
  intros Ho Hin He Hl Hk. pose proof Ho as [C F E B]. subst D.
  destruct (bwrite_spec dev p pid s A b bn e C (B b bn Hin) He Hl) as [Eq C'].
  eapply runs_done; [exact Eq|]. apply Hk. eapply own_step; [done|done|by destruct s|done|by intros ? ?|].
  intros b' bn'. by eapply own_in.
Qed.

Lemma rule_brelse s0 s A D hs hs' b bn e (Q : unit -> kst -> Prop) :
  own s0 s A D hs -> (b, bn) ∈ hs -> A !! bn = Some e -> e_locked e = true ->
  (e_ref e = 1 -> e_data e = dget D bn) ->
  hs' ⊆ hs -> (forall b', (b', bn) ∉ hs') ->
  (forall s', own s0 s' (put A bn e) D hs' -> Q tt s') -> runs (brelse b) s Q.
Proof.
  intros Ho Hin He Hl Hcl Hs Hn Hk. pose proof Ho as [C F E B]. subst D.
  destruct (brelse_spec dev p pid s A b bn e C (B b bn Hin) He Hl Hcl) as (s' & Eq & C' & F' & D' & S).
  eapply runs_done; [exact Eq|]. apply Hk.
  apply (own_step s0 s s' A (put A bn e) (k_disk s)); try done; [by eapply own_weaken|].
  intros b' bn' Hb'. assert (bn' <> bn) as Hne by (intros ->; by destruct (Hn b')).
  unfold put. destruct (e_ref e =? 1); [rewrite lookup_delete_ne by done|rewrite lookup_insert_ne by done];
    eapply own_in; eauto.
Qed.

Lemma rule_bref s0 s A D hs b bn e d (Q : unit -> kst -> Prop) :
  own s0 s A D hs -> (b, bn) ∈ hs -> A !! bn = Some e -> 0 < e_ref e + d < 2 ^ 31 ->
  (forall s', own s0 s' (<[bn := mkentry (e_ref e + d) (e_locked e) (e_data e)]> A) D hs -> Q tt s') ->
  runs (acquire Lbcache ;;;
        updbuf b (fun x => set_b_refcnt (u32 (b_refcnt x + d)) x) ;;;
        release Lbcache) s Q.
Proof.
  intros Ho Hin He Hr Hk. pose proof Ho as [C F E B]. subst D.
  destruct (bref_spec dev p pid s A b bn e d C (B b bn Hin) He Hr) as (s' & Eq & C' & _ & F' & D' & S).
  eapply runs_done; [exact Eq|]. apply Hk. eapply own_step; [done..|]. intros b' bn'. by eapply in_insert.
Qed.

Lemma rule_bpin s0 s A D hs b bn e (Q : unit -> kst -> Prop) :
  own s0 s A D hs -> (b, bn) ∈ hs -> A !! bn = Some e -> 0 < e_ref e + 1 < 2 ^ 31 ->
  (forall s', own s0 s' (<[bn := mkentry (e_ref e + 1) (e_locked e) (e_data e)]> A) D hs -> Q tt s') ->
  runs (bpin b) s Q.
Proof. apply (rule_bref s0 s A D hs b bn e 1). Qed.

Lemma rule_bunpin s0 s A D hs b bn e (Q : unit -> kst -> Prop) :
  own s0 s A D hs -> (b, bn) ∈ hs -> A !! bn = Some e -> 0 < e_ref e - 1 < 2 ^ 31 ->
  (forall s', own s0 s' (<[bn := mkentry (e_ref e - 1) (e_locked e) (e_data e)]> A) D hs -> Q tt s') ->
  runs (bunpin b) s Q.
Proof. apply (rule_bref s0 s A D hs b bn e (-1)). Qed.

(** Messages on the console do not matter. *)
Lemma rule_printf s0 s A D hs fmt ap (Q : unit -> kst -> Prop) :
  own s0 s A D hs -> (forall s', own s0 s' A D hs -> Q tt s') -> runs (printf fmt ap) s Q.
Proof.
  intros [C F E B] Hk. destruct (printf_out fmt ap s) as [out Eo];
    [rewrite (c_held _ _ _ _ _ C); set_solver|].
  eapply runs_done; [exact Eo|]. apply Hk. split; [destruct C; by split|exact F|done|done].
Qed.
End Rules.
