(* ===== verification/Log.v ===== *)
(** * The write-ahead log ([kernel/log.c])

    The in-memory header is [k_log]; the header block on disk holds [n] and
    the block numbers as little-endian [int]s. *)

From S2P Require Import Prelude Machine KState Spinlock Sched Printf Print Bio.
Local Open Scope Z_scope.
Local Open Scope kern_scope.

Definition getlog : K log := gets k_log.
Definition updlog (f : log -> log) : K unit := modify (fun s => set_k_log (f (k_log s)) s).

Definition lh_block (lg : log) (i : Z) : Z := lg_block lg !!! Z.to_nat i.

Section Log.
Context `{SleepFuel} `{BlockDev}.

(** One iteration of the loop of [install_trans]. *)
Definition install_one (recovering : bool) (tail : Z) : K unit :=
  lg <- getlog ;;
  when recovering (printf (nl "recovering tail %d dst %d") [ANum tail; ANum (lh_block lg tail)]) ;;;
  lg <- getlog ;;
  lbuf <- bread (lg_dev lg) (u32 (lg_start lg + tail + 1)) ;;
  lg <- getlog ;;
  dbuf <- bread (lg_dev lg) (u32 (lh_block lg tail)) ;;
  x <- getbuf lbuf ;;
  updbuf dbuf (set_b_data (b_data x)) ;;;
  bwrite dbuf ;;;
  when (negb recovering) (bunpin dbuf) ;;;
  brelse lbuf ;;;
  brelse dbuf.

(** Loop over [tail = 0 .. log.lh.n - 1]; the bound is read each time. *)
Definition for_tail (body : Z -> K unit) : K unit :=
  loop (S (Z.to_nat LOGBLOCKS)) (fun tail =>
    lg <- getlog ;;
    if tail <? lg_n lg then body tail ;;; ret (inl (tail + 1)) else ret (inr tt)) 0.

Definition install_trans (recovering : bool) : K unit := for_tail (install_one recovering).

Definition read_head : K unit :=
  lg <- getlog ;;
  buf <- bread (lg_dev lg) (u32 (lg_start lg)) ;;
  x <- getbuf buf ;;
  let n := i32 (ld32 (b_data x) 0) in
  updlog (set_lg_n n) ;;;
  for_each (seqZ 0 n) (fun i =>
    updlog (fun lg => set_lg_block (<[Z.to_nat i := i32 (ld32 (b_data x) (4 + 4 * i))]> (lg_block lg)) lg)) ;;;
  brelse buf.

Definition write_head : K unit :=
  lg <- getlog ;;
  buf <- bread (lg_dev lg) (u32 (lg_start lg)) ;;
  lg <- getlog ;;
  updbuf buf (fun x => set_b_data (st32 (b_data x) 0 (lg_n lg)) x) ;;;
  for_each (seqZ 0 (lg_n lg)) (fun i =>
    updbuf buf (fun x => set_b_data (st32 (b_data x) (4 + 4 * i) (lh_block lg i)) x)) ;;;
  bwrite buf ;;;
  brelse buf.

Definition recover_from_log : K unit :=
  read_head ;;;
  install_trans true ;;;
  updlog (set_lg_n 0) ;;;
  write_head.

(** [sizeof(struct logheader)]. *)
Definition logheader_size : Z := 4 + 4 * LOGBLOCKS.

Definition initlog (dev : Z) (sb : superblock) : K unit :=
  if BSIZE <=? logheader_size then panic "initlog: too big logheader"
  else
    initlock Llog ;;;
    updlog (fun lg => set_lg_dev dev (set_lg_start (i32 (sb_logstart sb)) lg)) ;;;
    recover_from_log.

(** The condition under which [begin_op] waits for a commit. *)
Definition log_full (lg : log) : bool :=
  LOGBLOCKS <? lg_n lg + (lg_outstanding lg + 1) * MAXOPBLOCKS.

Definition begin_op : K unit :=
  acquire Llog ;;;
  loop sleep_fuel (fun _ : unit =>
    lg <- getlog ;;
    if nz (lg_committing lg) then sleep ChLog Llog ;;; ret (inl tt)
    else if log_full lg then sleep ChLog Llog ;;; ret (inl tt)
    else
      updlog (fun lg => set_lg_outstanding (lg_outstanding lg + 1) lg) ;;;
      release Llog ;;;
      ret (inr tt)) tt.

Definition write_log_one (tail : Z) : K unit :=
  lg <- getlog ;;
  to <- bread (lg_dev lg) (u32 (lg_start lg + tail + 1)) ;;
  lg <- getlog ;;
  from <- bread (lg_dev lg) (u32 (lh_block lg tail)) ;;
  x <- getbuf from ;;
  updbuf to (set_b_data (b_data x)) ;;;
  bwrite to ;;;
  brelse from ;;;
  brelse to.

Definition write_log : K unit := for_tail write_log_one.

Definition commit : K unit :=
  lg <- getlog ;;
  if 0 <? lg_n lg then
    write_log ;;;
    write_head ;;;
    install_trans false ;;;
    updlog (set_lg_n 0) ;;;
    write_head
  else ret tt.

Definition end_op : K unit :=
  acquire Llog ;;;
  updlog (fun lg => set_lg_outstanding (lg_outstanding lg - 1) lg) ;;;
  lg <- getlog ;;
  if nz (lg_committing lg) then panic "log.committing"
  else
    do_commit <- (if lg_outstanding lg =? 0 then
                    updlog (set_lg_committing 1) ;;; ret true
                  else wakeup ChLog ;;; ret false) ;;
    release Llog ;;;
    when do_commit
      (commit ;;;
       acquire Llog ;;;
       updlog (set_lg_committing 0) ;;;
       wakeup ChLog ;;;
       release Llog).

Definition log_write (b : nat) : K unit :=
  acquire Llog ;;;
  lg <- getlog ;;
  if LOGBLOCKS <=? lg_n lg then panic "too big a transaction"
  else if lg_outstanding lg <? 1 then panic "log_write outside of trans"
  else
    x <- getbuf b ;;
    let logged := take (Z.to_nat (lg_n lg)) (lg_block lg) in
    let i := match index_of (fun n => n =? i32 (b_blockno x)) logged with
             | Some i => i
             | None => length logged
             end in
    updlog (fun lg => set_lg_block (<[i := i32 (b_blockno x)]> (lg_block lg)) lg) ;;;
    (if Z.of_nat i =? lg_n lg then
       bpin b ;;;
       updlog (fun lg => set_lg_n (lg_n lg + 1) lg)
     else ret tt) ;;;
    release Llog.
End Log.
