(* ===== verification/Recovery.v ===== *)
(** * Crash safety of the log ([kernel/log.c])

    The disk is the list of all block writes, newest first, so the states a
    crash can leave are its suffixes. [commit] is run on the map of the
    buffer cache ([BufCache]); the writes it adds are the blocks of the
    transaction in the log, the header, the blocks at home, and the cleared
    header. Recovery from every suffix gives either the old or the new
    content of all blocks outside of the log. *)

From S2P Require Import Prelude Machine KState Spinlock Sched Printf Print Bio BufCache BufRules Log.
Local Open Scope Z_scope.
Local Open Scope kern_scope.

(** A loop over the logged blocks that keeps their number. *)
Lemma for_tail_spec (I : Z -> kst -> Prop) n body s (Q : unit -> kst -> Prop) :
  0 <= n <= LOGBLOCKS ->
  (forall i t, 0 <= i <= n -> I i t -> lg_n (k_log t) = n) ->
  (forall i t, 0 <= i < n -> I i t -> runs (body i) t (fun _ t' => I (i + 1) t')) ->
  I 0 s -> (forall t, I n t -> Q tt t) -> runs (for_tail body) s Q.
Proof.
  intros Hn Hlg Hb Hs HQ.
  assert (forall fuel i t, I i t -> 0 <= i <= n -> (Z.to_nat (n - i) < fuel)%nat ->
    runs (loop fuel (fun tail =>
      lg <- getlog ;;
      if tail <? lg_n lg then body tail ;;; ret (inl (tail + 1)) else ret (inr tt)) i) t Q) as Hl;
    [|apply Hl; [done|lia|lia]].
  induction fuel as [|fuel IH]; intros i t Ht Hi Hfuel; [lia|]. cbn [loop]. unfold getlog.
  apply runs_bind, runs_gets. rewrite (Hlg i t Hi Ht). destruct (Z.ltb_spec i n) as [Hlt|Hge].
  - apply runs_bind. eapply runs_mono; [apply Hb; [lia|done]|]. intros [] t' Ht'.
    apply runs_ret, IH; [done|lia|lia].
  - assert (i = n) as -> by lia. by apply runs_ret, HQ.
Qed.

(** Membership in a list of buffers. *)
Ltac hin := first [apply list_elem_of_here | apply list_elem_of_further; hin].

Section Recovery.
Variables (dev : Z) (p : nat) (pid : Z).
Context `{SleepFuel} `{BlockDev} `{!BlockDevOk}.
Hypothesis fuel_pos : (0 < sleep_fuel)%nat.
Abbreviation own := (own dev p pid).
Abbreviation rbread := (rule_bread dev p pid fuel_pos).
Abbreviation rgetbuf := (rule_getbuf dev p pid).
Abbreviation rblit := (rule_blit dev p pid).
Abbreviation rbwrite := (rule_bwrite dev p pid).
Abbreviation rbrelse := (rule_brelse dev p pid).
Abbreviation rbunpin := (rule_bunpin dev p pid).

(** First block of the log: its header. *)
Variable start : Z.
Hypothesis start_range : 0 <= start < 2 ^ 30.

(** The transaction [bns] as the in-memory header has it. *)
Record log_at (lg : log) (bns : list Z) : Prop := {
  la_dev : lg_dev lg = dev;
  la_start : lg_start lg = start;
  la_n : lg_n lg = Z.of_nat (length bns);
  la_max : (length bns <= 30)%nat;
  la_len : length (lg_block lg) = 30%nat;
  la_blocks : forall i bn, bns !! i = Some bn -> lg_block lg !!! i = bn
}.

(** Home blocks are outside of the log. *)
Definition home (bn : Z) : Prop := 0 <= bn < 2 ^ 31 /\ ~ (start <= bn <= start + 30).

Lemma lh_block_at lg bns i bn :
  log_at lg bns -> 0 <= i -> bns !! Z.to_nat i = Some bn -> home bn -> u32 (lh_block lg i) = bn.
Proof.
  intros Hl Hi Hbn [Hr _]. unfold lh_block. rewrite (la_blocks _ _ Hl _ _ Hbn). apply u32_small. lia.
Qed.

Lemma log_block_at lg bns i :
  log_at lg bns -> 0 <= i < 30 -> u32 (lg_start lg + i + 1) = start + i + 1.
Proof. intros Hl Hi. rewrite (la_start _ _ Hl). apply u32_small. lia. Qed.

(** A block that is not in use: after its release the map is as before. *)
Lemma put_new (A : gmap Z entry) bn d : A !! bn = None -> put (<[bn := mkentry 1 true d]> A) bn (mkentry 1 true d) = A.
Proof. intros HA. unfold put. cbn. by rewrite delete_insert_id. Qed.

(** A pinned block: read and released again. *)
Lemma put_again (A : gmap Z entry) bn e :
  A !! bn = Some e -> e_locked e = false -> 0 < e_ref e ->
  put (<[bn := mkentry (e_ref e + 1) true (e_data e)]> A) bn (mkentry (e_ref e + 1) true (e_data e)) = A.
Proof.
  intros HA Hl Hr. unfold put. cbn. rewrite (proj2 (Z.eqb_neq _ _)) by lia.
  rewrite insert_insert_eq. replace (e_ref e + 1 - 1) with (e_ref e) by lia.
  destruct e as [r l d]. cbn in *. subst. by apply insert_id.
Qed.

Lemma put_insert_ne (A : gmap Z entry) bn bn' e e' :
  bn <> bn' -> put (<[bn := e]> A) bn' e' = <[bn := e]> (put A bn' e').
Proof.
  intros Hne. unfold put. case_match.
  - by rewrite delete_insert_ne.
  - by rewrite insert_insert_ne.
Qed.

(** The entry [bread] makes. *)
Lemma got_none A D bn : A !! bn = None -> got A D bn = mkentry 1 true (dget D bn).
Proof. intros HA. unfold got. by rewrite HA. Qed.
Lemma got_some A D bn e : A !! bn = Some e -> got A D bn = mkentry (e_ref e + 1) true (e_data e).
Proof. intros HA. unfold got. by rewrite HA. Qed.

(** Blocks of the transaction are pinned and unlocked, blocks of the log are
    not in use. *)
Definition pinned (A : gmap Z entry) (bn : Z) (d : list Z) : Prop :=
  exists r, A !! bn = Some (mkentry r false d) /\ 0 < r < 2 ^ 31 - 1.
Definition log_free (A : gmap Z entry) : Prop :=
  (size A < NBUF)%nat /\ forall t, start <= t <= start + 30 -> A !! t = None.

Lemma length_pinned s0 s A D hs bn d : own s0 s A D hs -> pinned A bn d -> length d = 1024%nat.
Proof.
  intros Ho (r & HA & _). pose proof (own_cache _ _ _ _ _ _ _ _ Ho) as Hc.
  destruct (c_used _ _ _ _ _ Hc bn _ HA) as (b & Hb).
  rewrite (cache_entry _ _ _ s A b bn Hc Hb) in HA. injection HA as _ _ <-.
  apply (ok_data _ _ _ _ _ (c_buf _ _ _ _ _ Hc b (proj1 Hb))).
Qed.

Lemma home_ne bn t : home bn -> start <= t <= start + 30 -> t <> bn.
Proof. intros [_ Hh] Ht ->. done. Qed.

(** Both loops begin with the block of the log and the block at home. *)
Lemma read_pair s0 s A D bns i bn (k : nat -> nat -> K unit) (Q : unit -> kst -> Prop) :
  let t := start + i + 1 in
  own s0 s A D [] -> log_at (k_log s0) bns -> 0 <= i < Z.of_nat (length bns) ->
  bns !! Z.to_nat i = Some bn -> home bn -> log_free A ->
  readable (<[t := mkentry 1 true (dget D t)]> A) bn ->
  (forall b1 b2 s',
     own s0 s' (<[bn := got A D bn]> (<[t := mkentry 1 true (dget D t)]> A)) D [(b2, bn); (b1, t)] ->
     runs (k b1 b2) s' Q) ->
  runs (lg <- getlog ;;
        b1 <- bread (lg_dev lg) (u32 (lg_start lg + i + 1)) ;;
        lg <- getlog ;;
        b2 <- bread (lg_dev lg) (u32 (lh_block lg i)) ;;
        k b1 b2) s Q.
Proof.
  intros t Ho Hl Hi Hbn Hh [Hsz Hfree] Hr Hk. pose proof (la_max _ _ Hl) as Hm.
  assert (A !! t = None) as Ht by (apply Hfree; unfold t; lia). unfold getlog. apply runs_gets.
  rewrite (own_log _ _ _ _ _ _ _ _ Ho), (la_dev _ _ Hl), (log_block_at _ bns) by (done || lia). fold t.
  apply runs_bind. eapply rbread; [exact Ho|unfold readable; by rewrite Ht|].
  rewrite (got_none A D t Ht). intros b1 s1 O1. apply runs_gets.
  rewrite (own_log _ _ _ _ _ _ _ _ O1), (la_dev _ _ Hl), (lh_block_at _ bns i bn) by (done || lia).
  apply runs_bind. eapply rbread; [exact O1|exact Hr|]. intros b2 s2 O2. apply Hk.
  unfold got in O2. rewrite lookup_insert_ne in O2 by (apply home_ne; [done|unfold t; lia]). exact O2.
Qed.

(** Releasing a buffer whose content is on the disk: the last one of this process. *)
Lemma brelse_last s0 s A D b bn r d (Q : unit -> kst -> Prop) :
  own s0 s (<[bn := mkentry r true d]> A) ((bn, d) :: D) [(b, bn)] ->
  (forall s', own s0 s' (put A bn (mkentry r true d)) ((bn, d) :: D) [] -> Q tt s') ->
  runs (brelse b) s Q.
Proof.
  intros Ho Hk. eapply (rbrelse _ _ _ _ _ []); [exact Ho|hin|apply lookup_insert_eq|done| |set_solver|
    intros b'; apply not_elem_of_nil|].
  - intros _. cbn [e_data dget]. by rewrite Z.eqb_refl.
  - intros s' O'. apply Hk. unfold put in *. cbn [e_ref e_data] in *.
    by rewrite delete_insert_eq, insert_insert_eq in O'.
Qed.

Lemma write_log_one_spec s0 s A D bns i bn d :
  own s0 s A D [] -> log_at (k_log s0) bns -> 0 <= i < Z.of_nat (length bns) ->
  bns !! Z.to_nat i = Some bn -> home bn -> pinned A bn d -> log_free A ->
  runs (write_log_one i) s (fun _ s' => own s0 s' A ((start + i + 1, d) :: D) []).
Proof.
  intros Ho Hl Hi Hbn Hh Hpin Hf. pose proof (la_max _ _ Hl) as Hm.
  pose proof (length_pinned _ _ _ _ _ _ _ Ho Hpin) as Hlen. destruct Hpin as (r & HA & Hr).
  set (t := start + i + 1). assert (t <> bn) as Htb by (apply home_ne; [done|unfold t; lia]).
  assert (A !! t = None) as Ht by (apply Hf; unfold t; lia).
  unfold write_log_one. eapply (read_pair _ _ _ _ _ _ bn); try done.
  { fold t. unfold readable. rewrite lookup_insert_ne, HA by done. cbn. lia. }
  fold t. rewrite (got_some _ D bn _ HA). cbn [e_ref e_data].
  intros b1 b2 s2 O2. apply runs_bind. eapply rgetbuf; [exact O2|hin|apply lookup_insert_eq|].
  cbn [e_data]. intros x Hx _. rewrite Hx. apply runs_bind.
  eapply (rblit _ _ _ _ _ b1 t _ (fun _ => d)); [exact O2|hin|
    rewrite lookup_insert_ne by done; apply lookup_insert_eq|done|].
  cbn [e_ref e_locked]. intros s3 O3. apply runs_bind.
  eapply rbwrite; [exact O3|hin|apply lookup_insert_eq|done|].
  cbn [e_data]. intros s4 O4. apply runs_bind.
  eapply (rbrelse _ _ _ _ _ [(b1, t)]); [exact O4|hin|
    rewrite lookup_insert_ne by done; apply lookup_insert_eq|done|cbn; lia|set_solver|
    intros b' Hb'; apply list_elem_of_singleton in Hb'; congruence|].
  intros s5 O5. rewrite (put_insert_ne _ t bn) in O5 by done.
  rewrite (put_again (<[t := _]> A) bn (mkentry r false d)) in O5
    by (try rewrite lookup_insert_ne; try done; cbn; lia).
  rewrite insert_insert_eq in O5. eapply brelse_last; [exact O5|].
  intros s6 O6. unfold put in O6. cbn in O6. by rewrite delete_id in O6.
Qed.

(** The content of the header block. *)
Definition hdr_bytes (lg : log) (base : list Z) : list Z :=
  foldl (fun bs i => st32 bs (4 + 4 * i) (lh_block lg i)) (st32 base 0 (lg_n lg)) (seqZ 0 (lg_n lg)).

Lemma write_head_spec s0 s A D bns :
  own s0 s A D [] -> log_at (k_log s0) bns -> log_free A ->
  runs write_head s (fun _ s' =>
    own s0 s' A ((start, hdr_bytes (k_log s0) (dget D start)) :: D) []).
Proof.
  intros Ho Hl [Hsz Hfree]. assert (A !! start = None) as Ht by (apply Hfree; lia).
  pose proof (la_max _ _ Hl) as Hm. pose proof (la_n _ _ Hl) as Hn.
  unfold write_head, getlog. apply runs_gets.
  rewrite (own_log _ _ _ _ _ _ _ _ Ho), (la_dev _ _ Hl), (la_start _ _ Hl), u32_small by lia.
  apply runs_bind. eapply rbread; [exact Ho|unfold readable; by rewrite Ht|].
  rewrite (got_none A D start Ht). intros b s1 O1. apply runs_gets.
  rewrite (own_log _ _ _ _ _ _ _ _ O1). set (lg := k_log s0) in *.
  assert (length (dget D start) = 1024%nat) as Hlen.
  { rewrite <- (own_disk _ _ _ _ _ _ _ _ Ho). apply length_dget.
    apply (c_disk _ _ _ _ _ (own_cache _ _ _ _ _ _ _ _ Ho)). }
  apply runs_bind. eapply (rblit _ _ _ _ _ _ _ _ (fun d => st32 d 0 (lg_n lg)));
    [exact O1|hin|apply lookup_insert_eq|cbn; rewrite length_st32; lia|].
  cbn [e_ref e_locked e_data]. rewrite insert_insert_eq. intros s2 O2.
  set (f := fun bs i => st32 bs (4 + 4 * i) (lh_block lg i)).
  apply runs_bind. eapply (runs_for_each (fun pre t =>
    own s0 t (<[start := mkentry 1 true (foldl f (st32 (dget D start) 0 (lg_n lg)) pre)]> A) D [(b, start)] /\
    length (foldl f (st32 (dget D start) 0 (lg_n lg)) pre) = 1024%nat)).
  - split; [exact O2|]. cbn. rewrite length_st32; lia.
  - intros pre i post t Hx [O3 L3].
    assert (0 <= i < 30) as Hi.
    { assert (i ∈ seqZ 0 (lg_n lg)) as Hin by (rewrite Hx; set_solver). apply elem_of_seqZ in Hin. lia. }
    eapply (rblit _ _ _ _ _ _ _ _ (fun d => st32 d (4 + 4 * i) (lh_block lg i)));
      [exact O3|hin|apply lookup_insert_eq|cbn; rewrite length_st32; lia|].
    cbn [e_ref e_locked e_data]. rewrite insert_insert_eq. intros s3 O4. rewrite foldl_app.
    split; [exact O4|]. cbn. unfold f at 1. rewrite length_st32; lia.
  - intros t [O3 L3]. apply runs_bind.
    eapply rbwrite; [exact O3|hin|apply lookup_insert_eq|done|]. cbn [e_data]. intros s4 O4.
    eapply brelse_last; [exact O4|]. intros s6 O6. unfold put in O6. cbn in O6. by rewrite delete_id in O6.
Qed.

(** ** The whole of [write_log], [install_trans], [read_head] *)

(** A transaction: its blocks in the order of the log, with their content. *)
Abbreviation txn := (list (Z * list Z)).

(** The writes to the log area, newest first, from block [a] on. *)
Fixpoint log_writes (a : Z) (tx : txn) : disk :=
  match tx with
  | [] => []
  | (_, d) :: tx => log_writes (a + 1) tx ++ [(a, d)]
  end.

Lemma log_writes_snoc a tx bn d :
  log_writes a (tx ++ [(bn, d)]) = (a + Z.of_nat (length tx), d) :: log_writes a tx.
Proof.
  revert a. induction tx as [|[bn' d'] tx IH]; intros a; cbn [log_writes app length].
  - by rewrite Z.add_0_r.
  - rewrite IH. cbn. do 2 f_equal. lia.
Qed.

(** The blocks of the transaction are at home and pinned with their content. *)
Definition tx_home (tx : txn) : Prop := forall bn d, (bn, d) ∈ tx -> home bn.
Definition tx_pinned (A : gmap Z entry) (tx : txn) : Prop := forall bn d, (bn, d) ∈ tx -> pinned A bn d.

Lemma tx_split (tx : txn) i :
  0 <= i < Z.of_nat (length tx) -> exists bn d, tx !! Z.to_nat i = Some (bn, d) /\ (bn, d) ∈ tx /\
    take (Z.to_nat (i + 1)) tx = take (Z.to_nat i) tx ++ [(bn, d)] /\
    Z.of_nat (length (take (Z.to_nat i) tx)) = i.
Proof.
  intros Hi. destruct (lookup_lt_is_Some_2 tx (Z.to_nat i)) as [[bn d] Hx]; [lia|].
  exists bn, d. split_and!; [done|by eapply list_elem_of_lookup_2| |rewrite length_take; lia].
  rewrite Z2Nat.inj_add, Nat.add_1_r by lia. by apply take_S_r.
Qed.

Lemma write_log_spec s0 s A D tx :
  own s0 s A D [] -> log_at (k_log s0) tx.*1 -> tx_home tx -> tx_pinned A tx -> log_free A ->
  runs write_log s (fun _ s' => own s0 s' A (log_writes (start + 1) tx ++ D) []).
Proof.
  intros Ho Hl Hh Hp Hf. pose proof (la_max _ _ Hl) as Hm. pose proof (la_n _ _ Hl) as Hn.
  rewrite length_fmap in Hm, Hn. unfold write_log.
  apply (for_tail_spec (fun i t =>
    own s0 t A (log_writes (start + 1) (take (Z.to_nat i) tx) ++ D) []) (lg_n (k_log s0)));
    [lia|intros i t _ O1; by rewrite (own_log _ _ _ _ _ _ _ _ O1)| |done|].
  - intros i t Hi O1. rewrite Hn in Hi. destruct (tx_split tx i Hi) as (bn & d & Hx & Hin & Ht & Hlen).
    eapply runs_mono; [apply (write_log_one_spec _ _ _ _ tx.*1 i bn d O1); try done;
      [by rewrite length_fmap|by rewrite list_lookup_fmap, Hx|by eapply Hh|by eapply Hp]|].
    intros [] t' O2. rewrite Ht, log_writes_snoc, Hlen.
    cbn. by replace (start + 1 + i) with (start + i + 1) by lia.
  - intros t O'. rewrite Hn, Nat2Z.id, firstn_all in O'. done.
Qed.

(** What is left of the map after the blocks [bns] have been installed. *)
Definition unpin (A : gmap Z entry) (bn : Z) : gmap Z entry :=
  match A !! bn with
  | Some e => put A bn (mkentry (e_ref e) true (e_data e))
  | None => A
  end.

Lemma unpin_ne A bn bn' : bn <> bn' -> unpin A bn !! bn' = A !! bn'.
Proof.
  intros Hne. unfold unpin, put. destruct (A !! bn); [|done]. case_match.
  - by rewrite lookup_delete_ne.
  - by rewrite lookup_insert_ne.
Qed.

Lemma unpin_size A bn : (size (unpin A bn) <= size A)%nat.
Proof.
  unfold unpin, put. destruct (A !! bn) eqn:HA; [|done]. case_match.
  - rewrite map_size_delete, HA. cbn. lia.
  - rewrite map_size_insert, HA. cbn. lia.
Qed.

Lemma unpin_log_free A bn : log_free A -> home bn -> log_free (unpin A bn).
Proof.
  intros [Hs Hf] [_ Hh]. split; [pose proof (unpin_size A bn); lia|].
  intros t Ht. rewrite unpin_ne; [by apply Hf|]. intros ->. lia.
Qed.

Lemma unpin_pinned A bn bn' d : pinned A bn' d -> bn <> bn' -> pinned (unpin A bn) bn' d.
Proof. intros (r & HA & Hr) Hne. exists r. by rewrite unpin_ne. Qed.

(** Releasing the buffer of the log block. *)
Lemma drop_log s0 s A D b1 b2 t bn d e (Q : unit -> kst -> Prop) :
  own s0 s (<[bn := e]> (<[t := mkentry 1 true d]> A)) ((bn, d) :: D) [(b2, bn); (b1, t)] ->
  t <> bn -> A !! t = None -> dget D t = d ->
  (forall s', own s0 s' (<[bn := e]> A) ((bn, d) :: D) [(b2, bn)] -> Q tt s') ->
  runs (brelse b1) s Q.
Proof.
  intros Ho Hne Ht Hd Hk. eapply (rbrelse _ _ _ _ _ [(b2, bn)] b1 t); [exact Ho|hin|
    rewrite lookup_insert_ne by done; apply lookup_insert_eq|done| |set_solver|
    intros b' Hb'; apply list_elem_of_singleton in Hb'; congruence|].
  - intros _. cbn [e_data dget]. rewrite (proj2 (Z.eqb_neq _ _)); congruence.
  - by rewrite (put_insert_ne _ bn t), put_new by done.
Qed.

Lemma install_one_spec s0 s A D bns i bn d :
  own s0 s A D [] -> log_at (k_log s0) bns -> 0 <= i < Z.of_nat (length bns) ->
  bns !! Z.to_nat i = Some bn -> home bn -> pinned A bn d -> log_free A ->
  dget D (start + i + 1) = d ->
  runs (install_one false i) s (fun _ s' => own s0 s' (unpin A bn) ((bn, d) :: D) []).
Proof.
  intros Ho Hl Hi Hbn Hh Hpin Hf Hd. pose proof (la_max _ _ Hl) as Hm.
  pose proof (length_pinned _ _ _ _ _ _ _ Ho Hpin) as Hlen. destruct Hpin as (r & HA & Hr).
  set (t := start + i + 1) in *. assert (t <> bn) as Htb by (apply home_ne; [done|unfold t; lia]).
  assert (A !! t = None) as Ht by (apply Hf; unfold t; lia).
  unfold install_one. apply runs_gets, runs_bind, runs_ret.
  eapply (read_pair _ _ _ _ _ _ bn); try done.
  { fold t. unfold readable. rewrite lookup_insert_ne, HA by done. cbn. lia. }
  fold t. rewrite (got_some _ D bn _ HA), Hd. cbn [e_ref e_data].
  intros b1 b2 s2 O2. apply runs_bind. eapply (rgetbuf _ _ _ _ _ b1 t); [exact O2|hin|
    rewrite lookup_insert_ne by done; apply lookup_insert_eq|].
  cbn [e_data]. intros x Hx _. rewrite Hx. apply runs_bind.
  eapply (rblit _ _ _ _ _ b2 bn _ (fun _ => d)); [exact O2|hin|apply lookup_insert_eq|done|].
  cbn [e_ref e_locked]. rewrite insert_insert_eq. intros s3 O3. apply runs_bind.
  eapply rbwrite; [exact O3|hin|apply lookup_insert_eq|done|]. cbn [e_data]. intros s4 O4.
  apply runs_bind. cbn [negb when]. eapply (rbunpin _ _ _ _ _ b2 bn); [exact O4|hin|apply lookup_insert_eq|cbn; lia|].
  cbn [e_ref e_locked e_data]. rewrite insert_insert_eq. replace (r + 1 - 1) with r by lia.
  intros s5 O5. apply runs_bind. eapply (drop_log _ _ A _ b1 b2 t bn); [exact O5|done..|].
  intros s6 O6. eapply brelse_last; [exact O6|]. intros s7 O7. unfold unpin. by rewrite HA.
Qed.

(** The same at boot: no block is in use, before and after. *)
Lemma recover_one_spec s0 s D bns i bn d :
  own s0 s ∅ D [] -> log_at (k_log s0) bns -> 0 <= i < Z.of_nat (length bns) ->
  bns !! Z.to_nat i = Some bn -> home bn -> dget D (start + i + 1) = d ->
  runs (install_one true i) s (fun _ s' => own s0 s' ∅ ((bn, d) :: D) []).
Proof.
  intros Ho Hl Hi Hbn Hh Hd. pose proof (la_max _ _ Hl) as Hm.
  assert (length d = 1024%nat) as Hlen.
  { rewrite <- Hd, <- (own_disk _ _ _ _ _ _ _ _ Ho). apply length_dget.
    apply (c_disk _ _ _ _ _ (own_cache _ _ _ _ _ _ _ _ Ho)). }
  set (t := start + i + 1) in *. assert (t <> bn) as Htb by (apply home_ne; [done|unfold t; lia]).
  unfold install_one. apply runs_gets, runs_bind. cbn [when].
  eapply (rule_printf dev p pid); [exact Ho|]. clear dependent s. intros s Ho.
  eapply (read_pair _ _ _ _ _ _ bn); try done.
  { split; [rewrite map_size_empty; lia|done]. }
  { fold t. unfold readable. rewrite lookup_insert_ne, lookup_empty by done.
    rewrite map_size_insert, lookup_empty, map_size_empty. lia. }
  fold t. rewrite (got_none _ D bn) by done. rewrite Hd.
  intros b1 b2 s2 O2. apply runs_bind. eapply (rgetbuf _ _ _ _ _ b1 t); [exact O2|hin|
    rewrite lookup_insert_ne by done; apply lookup_insert_eq|].
  cbn [e_data]. intros x Hx _. rewrite Hx. apply runs_bind.
  eapply (rblit _ _ _ _ _ b2 bn _ (fun _ => d)); [exact O2|hin|apply lookup_insert_eq|done|].
  cbn [e_ref e_locked]. rewrite insert_insert_eq. intros s3 O3. apply runs_bind.
  eapply rbwrite; [exact O3|hin|apply lookup_insert_eq|done|]. cbn [e_data negb when]. intros s4 O4.
  apply runs_bind, runs_ret, runs_bind. eapply (drop_log _ _ ∅ _ b1 b2 t bn); [exact O4|done..|].
  intros s6 O6. eapply brelse_last; [exact O6|]. intros s7 O7. done.
Qed.

Lemma dget_app_ne (l D : disk) bn : bn ∉ l.*1 -> dget (l ++ D) bn = dget D bn.
Proof.
  induction l as [|[b d] l IH]; cbn; [done|]. intros [Hne Hn]%not_elem_of_cons.
  rewrite (proj2 (Z.eqb_neq _ _)) by congruence. by apply IH.
Qed.

Lemma dget_app_eq (l D D' : disk) bn : bn ∈ l.*1 -> dget (l ++ D) bn = dget (l ++ D') bn.
Proof.
  induction l as [|[b d] l IH]; cbn; [by intros ?%elem_of_nil|]. intros [->|Hin]%elem_of_cons.
  - by rewrite Z.eqb_refl.
  - case_match; auto.
Qed.

(** Writes at home do not touch the log. *)
Lemma dget_home tx D t :
  tx_home tx -> start <= t <= start + 30 -> dget (reverse tx ++ D) t = dget D t.
Proof.
  intros Hh Ht. apply dget_app_ne. rewrite fmap_reverse, elem_of_reverse.
  intros ([bn d] & -> & Hin)%list_elem_of_fmap. by apply (home_ne bn bn (Hh _ _ Hin)).
Qed.

Lemma tx_home_take tx k : tx_home tx -> tx_home (take k tx).
Proof. intros Hh bn d Hin. eapply Hh. by eapply subseteq_take. Qed.

Lemma nodup_take (tx : txn) i bn d :
  NoDup tx.*1 -> tx !! i = Some (bn, d) -> bn ∉ (take i tx).*1.
Proof.
  intros Hnd Hi ([bn' d'] & -> & (j & Hj)%list_elem_of_lookup)%list_elem_of_fmap.
  apply lookup_take_Some in Hj as [Hj Hlt].
  assert (j = i); [|lia]. apply (NoDup_lookup _ _ _ bn' Hnd); by rewrite list_lookup_fmap, ?Hj, ?Hi.
Qed.

(** The blocks of the transaction are in the log area. *)
Definition in_log (D : disk) (tx : txn) : Prop :=
  forall i bn d, tx !! i = Some (bn, d) -> dget D (start + Z.of_nat i + 1) = d.

Lemma in_log_at D tx i bn d pre :
  in_log D tx -> tx_home pre -> (length tx <= 30)%nat -> 0 <= i -> tx !! Z.to_nat i = Some (bn, d) ->
  dget (reverse pre ++ D) (start + i + 1) = d.
Proof.
  intros Hin Hh Hm Hi Hx. pose proof (lookup_lt_Some _ _ _ Hx). rewrite dget_home by (done || lia).
  rewrite <- (Hin _ _ _ Hx). f_equal. lia.
Qed.

Lemma unpins_pinned l A bn d : pinned A bn d -> bn ∉ l -> pinned (foldl unpin A l) bn d.
Proof.
  revert A. induction l as [|b l IH]; intros A Hp; cbn; [done|]. intros [Hne Hn]%not_elem_of_cons.
  apply IH; [|done]. by apply unpin_pinned.
Qed.

Lemma unpins_free l A : log_free A -> (forall bn, bn ∈ l -> home bn) -> log_free (foldl unpin A l).
Proof.
  revert A. induction l as [|b l IH]; intros A Hf Hh; cbn; [done|].
  apply IH; [apply unpin_log_free; [done|]|]; intros; apply Hh; set_solver.
Qed.

Lemma tx_home_fst tx bn : tx_home tx -> bn ∈ tx.*1 -> home bn.
Proof. intros Hh ([bn' d] & -> & Hin)%list_elem_of_fmap. by eapply Hh. Qed.

Lemma install_trans_spec s0 s A D tx :
  own s0 s A D [] -> log_at (k_log s0) tx.*1 -> tx_home tx -> NoDup tx.*1 -> tx_pinned A tx ->
  log_free A -> in_log D tx ->
  runs (install_trans false) s (fun _ s' => own s0 s' (foldl unpin A tx.*1) (reverse tx ++ D) []).
Proof.
  intros Ho Hl Hh Hnd Hp Hf Hd. pose proof (la_max _ _ Hl) as Hm. pose proof (la_n _ _ Hl) as Hn.
  rewrite length_fmap in Hm, Hn. unfold install_trans.
  apply (for_tail_spec (fun i t => let pre := take (Z.to_nat i) tx in
    own s0 t (foldl unpin A pre.*1) (reverse pre ++ D) []) (lg_n (k_log s0)));
    [lia|intros i t _ O1; by rewrite (own_log _ _ _ _ _ _ _ _ O1)| |done|].
  - cbv zeta. intros i t Hi O1. rewrite Hn in Hi. destruct (tx_split tx i Hi) as (bn & d & Hx & Hin & Ht & Hlen).
    pose proof (tx_home_take tx (Z.to_nat i) Hh) as Hpre.
    eapply runs_mono; [apply (install_one_spec _ _ _ _ tx.*1 i bn d O1); try done|].
    + by rewrite length_fmap.
    + by rewrite list_lookup_fmap, Hx.
    + by eapply Hh.
    + apply unpins_pinned; [by eapply Hp|by eapply nodup_take].
    + apply unpins_free; [done|]. intros b Hb. by eapply tx_home_fst.
    + eapply in_log_at; try done; lia.
    + intros [] t' O2. by rewrite Ht, fmap_app, foldl_app, reverse_snoc.
  - cbv zeta. intros t O'. by rewrite Hn, Nat2Z.id, firstn_all in O'.
Qed.

Lemma recover_trans_spec s0 s D tx :
  own s0 s ∅ D [] -> log_at (k_log s0) tx.*1 -> tx_home tx -> in_log D tx ->
  runs (install_trans true) s (fun _ s' => own s0 s' ∅ (reverse tx ++ D) []).
Proof.
  intros Ho Hl Hh Hd. pose proof (la_max _ _ Hl) as Hm. pose proof (la_n _ _ Hl) as Hn.
  rewrite length_fmap in Hm, Hn. unfold install_trans.
  apply (for_tail_spec (fun i t =>
    own s0 t ∅ (reverse (take (Z.to_nat i) tx) ++ D) []) (lg_n (k_log s0)));
    [lia|intros i t _ O1; by rewrite (own_log _ _ _ _ _ _ _ _ O1)| |done|].
  - intros i t Hi O1. rewrite Hn in Hi. destruct (tx_split tx i Hi) as (bn & d & Hx & Hin & Ht & Hlen).
    eapply runs_mono; [apply (recover_one_spec _ _ _ tx.*1 i bn d O1); try done|].
    + by rewrite length_fmap.
    + by rewrite list_lookup_fmap, Hx.
    + by eapply Hh.
    + eapply in_log_at; try done; [by apply tx_home_take|lia].
    + intros [] t' O2. by rewrite Ht, reverse_snoc.
  - intros t O'. by rewrite Hn, Nat2Z.id, firstn_all in O'.
Qed.

(** ** The header *)

(** What the header of the disk says. *)
Record on_disk (D : disk) (tx : txn) : Prop := {
  od_n : ld32 (dget D start) 0 = Z.of_nat (length tx);
  od_max : (length tx <= 30)%nat;
  od_block : forall i bn d, tx !! i = Some (bn, d) -> ld32 (dget D start) (4 + 4 * Z.of_nat i) = bn;
  od_home : tx_home tx;
  od_log : in_log D tx
}.

Lemma ld32_fold (v : Z -> Z) (n : nat) base :
  length base = 1024%nat -> (n <= 30)%nat ->
  let h := foldl (fun bs i => st32 bs (4 + 4 * i) (v i)) base (seqZ 0 (Z.of_nat n)) in
  length h = 1024%nat /\ ld32 h 0 = ld32 base 0 /\
  forall i, 0 <= i < Z.of_nat n -> ld32 h (4 + 4 * i) = u32 (v i).
Proof.
  intros Hb. induction n as [|n IH]; intros Hn; [cbn; split_and!; [done..|lia]|].
  destruct IH as (L & E & F); [lia|]. cbv zeta in *.
  rewrite Nat2Z.inj_succ, <- Z.add_1_r, seqZ_app, foldl_app by lia. cbn [seqZ foldl fmap list_fmap].
  change (seqZ (0 + Z.of_nat n) 1) with [0 + (0 + Z.of_nat n)]. cbn [foldl].
  replace (0 + (0 + Z.of_nat n)) with (Z.of_nat n) by lia.
  revert L E F. generalize (foldl (fun bs i => st32 bs (4 + 4 * i) (v i)) base (seqZ 0 (Z.of_nat n))).
  intros h L E F. split_and!; [rewrite length_st32; lia|rewrite ld32_st32_ne; lia|].
  intros i Hi. destruct (decide (i = Z.of_nat n)) as [->|].
  - rewrite ld32_st32_eq; lia || done.
  - rewrite ld32_st32_ne by lia. apply F. lia.
Qed.

(** The header that [write_head] writes is the one [read_head] reads. *)
Lemma hdr_on_disk lg tx D :
  log_at lg tx.*1 -> tx_home tx -> in_log D tx -> length (dget D start) = 1024%nat ->
  on_disk ((start, hdr_bytes lg (dget D start)) :: D) tx.
Proof.
  intros Hl Hh Hd Hlen. pose proof (la_max _ _ Hl) as Hm. pose proof (la_n _ _ Hl) as Hn.
  rewrite length_fmap in Hm, Hn.
  destruct (ld32_fold (lh_block lg) (length tx) (st32 (dget D start) 0 (lg_n lg))) as (L & E & F);
    [rewrite length_st32; lia|done|].
  assert (dget ((start, hdr_bytes lg (dget D start)) :: D) start = hdr_bytes lg (dget D start)) as Eh
    by (cbn; by rewrite Z.eqb_refl).
  split; rewrite ?Eh; unfold hdr_bytes; rewrite ?Hn in *; try done.
  - rewrite E, ld32_st32_eq, u32_small; lia.
  - intros i bn d Hi. rewrite F by (apply lookup_lt_Some in Hi; lia).
    apply (lh_block_at _ tx.*1); [done|lia| |by eapply Hh, list_elem_of_lookup_2].
    by rewrite Nat2Z.id, list_lookup_fmap, Hi.
  - intros i bn d Hi. cbn. pose proof (lookup_lt_Some _ _ _ Hi).
    rewrite (proj2 (Z.eqb_neq _ _)) by lia. by eapply Hd.
Qed.

(** The cache does not see changes of the in-memory header. *)
Lemma rule_updlog f s0 s A D hs (Q : unit -> kst -> Prop) :
  own s0 s A D hs ->
  (forall s', own (set_k_log (f (k_log s0)) s0) s' A D hs -> Q tt s') -> runs (updlog f) s Q.
Proof.
  intros Ho Hk. apply (runs_done _ _ tt (set_k_log (f (k_log s)) s)); [done|]. apply Hk.
  pose proof (own_log _ _ _ _ _ _ _ _ Ho) as El. destruct Ho as [C F E B].
  split; [destruct C; by split| |done|done]. rewrite El. exact (f_equal (set_k_log (f (k_log s0))) F).
Qed.

Record booted (s : kst) (D : disk) : Prop := {
  bt_cache : cache dev p pid s ∅;
  bt_disk : k_disk s = D;
  bt_dev : lg_dev (k_log s) = dev;
  bt_start : lg_start (k_log s) = start;
  bt_block : length (lg_block (k_log s)) = 30%nat
}.

(** One more block number of the header is in memory. *)
Lemma blocks_step (bl : list Z) D tx pre i post :
  on_disk D tx -> seqZ 0 (Z.of_nat (length tx)) = pre ++ i :: post -> length bl = 30%nat ->
  (forall j, (j < length pre)%nat -> bl !!! j = tx.*1 !!! j) ->
  forall j, (j < length pre + 1)%nat ->
    <[Z.to_nat i := i32 (ld32 (dget D start) (4 + 4 * i))]> bl !!! j = tx.*1 !!! j.
Proof.
  intros [Hn Hm Hb Hh Hd] Hx Hl Hpre j Hj.
  assert (i = Z.of_nat (length pre) /\ (length pre < length tx)%nat) as [-> Hlt].
  { apply (f_equal (fun l => l !! length pre)) in Hx. rewrite list_lookup_middle in Hx by done.
    apply lookup_seqZ in Hx. lia. }
  rewrite Nat2Z.id. destruct (decide (j = length pre)) as [->|Hne].
  - rewrite list_lookup_total_insert_eq by lia.
    destruct (lookup_lt_is_Some_2 tx (length pre) Hlt) as [[bn d] Hbn].
    rewrite (Hb _ _ _ Hbn). destruct (Hh bn d) as [Hr _]; [by eapply list_elem_of_lookup_2|].
    rewrite i32_small by lia. rewrite (list_lookup_total_correct tx.*1 _ bn); [done|].
    by rewrite list_lookup_fmap, Hbn.
  - rewrite list_lookup_total_insert_ne by done. apply Hpre. lia.
Qed.

Lemma read_head_spec s D tx :
  booted s D -> on_disk D tx ->
  runs read_head s (fun _ s' => exists s0, own s0 s' ∅ D [] /\ log_at (k_log s0) tx.*1).
Proof.
  intros [C E Hdev Hst Hlb] Hod. pose proof Hod as [Hn Hm Hb Hh Hd]. pose proof (own_init _ _ _ _ _ C) as Ho. rewrite E in Ho.
  unfold read_head, getlog. apply runs_gets. rewrite Hdev, Hst, u32_small by lia.
  apply runs_bind. eapply rbread; [exact Ho|unfold readable; rewrite lookup_empty, map_size_empty; lia|].
  rewrite got_none by done. intros b s1 O1. apply runs_bind.
  eapply rgetbuf; [exact O1|hin|apply lookup_insert_eq|]. cbn [e_data]. intros x Hx _. rewrite Hx, Hn.
  rewrite i32_small by lia. apply runs_bind. eapply rule_updlog; [exact O1|]. intros s2 O2.
  apply runs_bind. eapply (runs_for_each (fun pre t => exists s0,
    own s0 t (<[start := mkentry 1 true (dget D start)]> ∅) D [(b, start)] /\
    lg_dev (k_log s0) = dev /\ lg_start (k_log s0) = start /\ lg_n (k_log s0) = Z.of_nat (length tx) /\
    length (lg_block (k_log s0)) = 30%nat /\
    forall i, (i < length pre)%nat -> lg_block (k_log s0) !!! i = (tx.*1) !!! i)).
  - eexists. split; [exact O2|]. ksimp. split_and!; try done. cbn. lia.
  - intros pre i post t Hx1 (s0 & O3 & E1 & E2 & E3 & E4 & E5). eapply rule_updlog; [exact O3|].
    intros t' O4. eexists. split; [exact O4|]. ksimp. rewrite length_insert, length_app. cbn [length].
    split_and!; try done. by eapply blocks_step.
  - intros t (s0 & O3 & E1 & E2 & E3 & E4 & E5). rewrite length_seqZ in E5.
    eapply (rbrelse _ _ _ _ _ []); [exact O3|hin|apply lookup_insert_eq|done|done|set_solver|
      intros b'; apply not_elem_of_nil|].
    intros s' O4. rewrite put_new in O4 by done. exists s0. split; [done|].
    split; rewrite ?length_fmap; try done. intros i bn Hi. rewrite E5; [by apply list_lookup_total_correct|].
    apply lookup_lt_Some in Hi. rewrite length_fmap in Hi. lia.
Qed.

Lemma own_length_head s0 s A D hs : own s0 s A D hs -> length (dget D start) = 1024%nat.
Proof. intros [C F <- B]. apply length_dget, C. Qed.

Lemma log_at_cleared lg bns : log_at lg bns -> log_at (set_lg_n 0 lg) [].
Proof. intros []. split; cbn; try done; lia. Qed.

(** Clearing the header. *)
Lemma clear_head_spec s0 s A D bns :
  own s0 s A D [] -> log_at (k_log s0) bns -> log_free A ->
  runs (updlog (set_lg_n 0) ;;; write_head) s (fun _ s' =>
    exists h, cache dev p pid s' A /\ k_disk s' = (start, h) :: D /\ on_disk (k_disk s') []).
Proof.
  intros Ho Hl Hf. apply runs_bind. eapply rule_updlog; [exact Ho|]. intros s1 O1.
  eapply runs_mono; [eapply (write_head_spec _ _ _ _ []); [exact O1|by eapply log_at_cleared|done]|].
  cbv beta. intros [] s2 O2. eexists. split; [apply O2|]. rewrite (own_disk _ _ _ _ _ _ _ _ O2).
  split; [done|]. apply hdr_on_disk; try done; [by eapply log_at_cleared|by intros ? ? ?%elem_of_nil|].
  by eapply own_length_head.
Qed.

Lemma log_free_empty : log_free ∅.
Proof. split; [rewrite map_size_empty; lia|done]. Qed.

Lemma recover_spec s D tx :
  booted s D -> on_disk D tx ->
  runs recover_from_log s (fun _ s' => exists h,
    cache dev p pid s' ∅ /\ k_disk s' = (start, h) :: reverse tx ++ D /\ on_disk (k_disk s') []).
Proof.
  intros Hb Hd. unfold recover_from_log. apply runs_bind. eapply runs_mono; [by apply read_head_spec|].
  cbv beta. intros [] s1 (s0 & O1 & Hl). apply runs_bind.
  eapply runs_mono; [eapply recover_trans_spec; [exact O1|done|apply Hd|apply Hd]|].
  cbv beta. intros [] s2 O2. eapply clear_head_spec; [exact O2|done|apply log_free_empty].
Qed.

Lemma log_writes_range a tx b : b ∈ (log_writes a tx).*1 -> a <= b < a + Z.of_nat (length tx).
Proof.
  revert a. induction tx as [|[bn d] tx IH]; intros a; cbn [log_writes length]; [by intros ?%elem_of_nil|].
  rewrite fmap_app, elem_of_app. intros [Hin|Hin].
  - specialize (IH _ Hin). lia.
  - apply list_elem_of_singleton in Hin. cbn in Hin. lia.
Qed.

Lemma dget_log_writes a tx D i bn d :
  tx !! i = Some (bn, d) -> dget (log_writes a tx ++ D) (a + Z.of_nat i) = d.
Proof.
  revert a D i. induction tx as [|[bn' d'] tx IH]; intros a D i; cbn [log_writes]; [done|].
  rewrite <- app_assoc. destruct i as [|i]; cbn [lookup list_lookup].
  - intros [= -> ->]. rewrite dget_app_ne; [|intros Hin; apply log_writes_range in Hin; lia].
    cbn. by rewrite Z.add_0_r, Z.eqb_refl.
  - intros Hi. rewrite <- (IH (a + 1) ([(a, d')] ++ D) i Hi). f_equal. lia.
Qed.

(** ** [commit] *)

(** A transaction ready to be committed: the header in memory lists its
    blocks, which are pinned in the cache; the header on disk is clear. *)
Record ready (s : kst) (A : gmap Z entry) (tx : txn) : Prop := {
  rd_cache : cache dev p pid s A;
  rd_log : log_at (k_log s) tx.*1;
  rd_some : tx <> [];
  rd_home : tx_home tx;
  rd_nodup : NoDup tx.*1;
  rd_pinned : tx_pinned A tx;
  rd_free : log_free A;
  rd_clear : on_disk (k_disk s) []
}.

(** The writes of [commit], newest first. *)
Definition commit_writes (h0 h1 : list Z) (tx : txn) : disk :=
  (start, h0) :: reverse tx ++ (start, h1) :: log_writes (start + 1) tx.

Lemma commit_spec s A tx :
  ready s A tx ->
  runs commit s (fun _ s' => exists h0 h1,
    cache dev p pid s' (foldl unpin A tx.*1) /\ k_disk s' = commit_writes h0 h1 tx ++ k_disk s /\
    on_disk ((start, h1) :: log_writes (start + 1) tx ++ k_disk s) tx /\ on_disk (k_disk s') []).
Proof.
  intros [C Hl Hne Hh Hnd Hp Hf Hc]. pose proof (own_init _ _ _ _ _ C) as Ho.
  unfold commit, getlog. apply runs_gets. rewrite (proj2 (Z.ltb_lt 0 _)).
  2:{ rewrite (la_n _ _ Hl), length_fmap. destruct tx; [done|cbn; lia]. }
  apply runs_bind. eapply runs_mono; [by eapply write_log_spec|]. cbv beta. intros [] s1 O1.
  apply runs_bind. eapply runs_mono; [by eapply write_head_spec|]. cbv beta. intros [] s2 O2.
  eassert (on_disk ((start, hdr_bytes (k_log s) (dget _ start)) :: log_writes (start + 1) tx ++ k_disk s) tx) as Hd.
  { apply hdr_on_disk; [done..| |by eapply own_length_head]. intros i bn d Hi.
    rewrite <- (dget_log_writes (start + 1) tx (k_disk s) i bn d Hi). f_equal. lia. }
  apply runs_bind. eapply runs_mono; [eapply install_trans_spec; try done; apply Hd|].
  cbv beta. intros [] s3 O3. eapply runs_mono; [eapply clear_head_spec; [exact O3|done|]|].
  { apply unpins_free; [done|]. intros bn Hbn. by eapply tx_home_fst. }
  cbv beta. intros [] s4 (h & C4 & D4 & E4). eexists h, _. split; [done|]. split; [|by split].
  rewrite D4. unfold commit_writes. cbn. by rewrite <- app_assoc.
Qed.

(** ** Crashes *)

(** The disks that crashes can leave when the disk was [D0] and [commit]
    wrote [ws]: some of the writes of [commit] have been done, then the
    machine booted any number of times, and each recovery was itself cut
    short after some of its writes. *)
Inductive crash_disk (D0 ws : disk) : disk -> Prop :=
| crash_commit ws' : ws' `suffix_of` ws -> crash_disk D0 ws (ws' ++ D0)
| crash_recovery D r r' ws' ws'' :
    crash_disk D0 ws D -> booted r D -> recover_from_log r = Done tt r' ->
    k_disk r' = ws' ++ D -> ws'' `suffix_of` ws' -> crash_disk D0 ws (ws'' ++ D).

Definition same_home (D D' : disk) : Prop := forall bn, home bn -> dget D bn = dget D' bn.

(** The disk before the transaction takes effect, during the installation,
    and after it. *)
Inductive phase (D0 : disk) (tx : txn) (D : disk) : Prop :=
| ph_old : on_disk D [] -> same_home D D0 -> phase D0 tx D
| ph_mid : on_disk D tx -> (forall bn, home bn -> bn ∉ tx.*1 -> dget D bn = dget D0 bn) -> phase D0 tx D
| ph_new : on_disk D [] -> same_home D (reverse tx ++ D0) -> phase D0 tx D.

Lemma suffix_app_cases {X} (l a b : list X) :
  l `suffix_of` a ++ b -> l `suffix_of` b \/ exists a', a' `suffix_of` a /\ l = a' ++ b.
Proof.
  intros [k Hk]. apply app_eq_app in Hk as (m & [(-> & ->)|(-> & ->)]).
  - right. exists m. split; [by exists k|done].
  - left. by exists m.
Qed.

Lemma suffix_cons_cases {X} (l a : list X) x : l `suffix_of` x :: a -> l = x :: a \/ l `suffix_of` a.
Proof. intros [[|y k] Hk]; [by left|right]. injection Hk as -> ->. by exists k. Qed.

(** [on_disk] only depends on the log area. *)
Lemma on_disk_ext D D' tx :
  on_disk D tx -> (forall t, start <= t <= start + 30 -> dget D' t = dget D t) -> on_disk D' tx.
Proof.
  intros [Hn Hm Hb Hh Hd] He. assert (dget D' start = dget D start) as E0 by (apply He; lia).
  split; rewrite ?E0; try done. intros i bn d Hi. pose proof (lookup_lt_Some _ _ _ Hi).
  rewrite He by lia. by eapply Hd.
Qed.

Lemma on_disk_nil D D' : on_disk D [] -> dget D' start = dget D start -> on_disk D' [].
Proof. intros [Hn Hm Hb Hh Hd] He. split; rewrite ?He; done. Qed.

Lemma same_home_head D h : same_home ((start, h) :: D) D.
Proof.
  intros bn Hh. cbn. rewrite (proj2 (Z.eqb_neq _ _)); [done|]. apply home_ne; [done|lia].
Qed.

Lemma suffix_fst (l tx : txn) bn : l `suffix_of` reverse tx -> bn ∈ l.*1 -> bn ∈ tx.*1.
Proof.
  intros [k Hk] Hin. apply elem_of_reverse. rewrite <- fmap_reverse, Hk, fmap_app. set_solver.
Qed.

(** A part of the blocks of the transaction is installed. *)
Lemma phase_install D0 tx D l :
  on_disk D tx -> (forall bn, home bn -> bn ∉ tx.*1 -> dget D bn = dget D0 bn) ->
  l `suffix_of` reverse tx -> phase D0 tx (l ++ D).
Proof.
  intros Hd Hh Hl. apply ph_mid.
  - eapply on_disk_ext; [done|]. intros t Ht. apply dget_app_ne. intros Hin.
    apply (home_ne t t); [|done..]. eapply tx_home_fst; [apply Hd|by eapply suffix_fst].
  - intros bn Hb Hn. rewrite dget_app_ne by eauto using suffix_fst. auto.
Qed.

(** All blocks are installed and the header is cleared. *)
Lemma phase_installed D0 tx D h :
  (forall bn, home bn -> bn ∉ tx.*1 -> dget D bn = dget D0 bn) ->
  same_home ((start, h) :: reverse tx ++ D) (reverse tx ++ D0).
Proof.
  intros Hh bn Hb. rewrite same_home_head by done.
  destruct (decide (bn ∈ tx.*1)) as [Hin|Hn].
  - apply dget_app_eq. by rewrite fmap_reverse, elem_of_reverse.
  - rewrite !dget_app_ne by (by rewrite fmap_reverse, elem_of_reverse). auto.
Qed.

Lemma phase_commit s A tx h0 h1 ws :
  ready s A tx ->
  on_disk ((start, h1) :: log_writes (start + 1) tx ++ k_disk s) tx ->
  on_disk (commit_writes h0 h1 tx ++ k_disk s) [] ->
  ws `suffix_of` commit_writes h0 h1 tx -> phase (k_disk s) tx (ws ++ k_disk s).
Proof.
  intros Hr Oh1 Oh0 Hs. set (L := log_writes (start + 1) tx) in *.
  assert (forall bn l, l `suffix_of` L -> bn ∈ l.*1 -> start + 1 <= bn <= start + 30) as HL.
  { intros bn l [k Hk] Hin. assert (bn ∈ L.*1) as Hin' by (rewrite Hk, fmap_app; set_solver).
    apply log_writes_range in Hin'. pose proof (od_max _ _ Oh1). lia. }
  assert (forall bn l, home bn -> l `suffix_of` L -> dget (l ++ k_disk s) bn = dget (k_disk s) bn) as HD.
  { intros bn l Hb Hl. apply dget_app_ne. intros Hin. specialize (HL _ _ Hl Hin). apply (home_ne bn bn Hb); lia. }
  assert (forall bn, home bn -> bn ∉ tx.*1 -> dget ((start, h1) :: L ++ k_disk s) bn = dget (k_disk s) bn) as HM.
  { intros bn Hb _. rewrite same_home_head by done. by apply HD. }
  apply suffix_cons_cases in Hs as [->|Hs].
  { apply ph_new; [done|]. cbn. rewrite <- app_assoc. by apply phase_installed. }
  apply suffix_app_cases in Hs as [Hs|(l & Hl & ->)];
    [|rewrite <- app_assoc; by apply phase_install].
  apply suffix_cons_cases in Hs as [->|Hs]; [by apply (phase_install _ _ _ []); [..|apply suffix_nil]|].
  apply ph_old; [|by intros bn Hb; apply HD].
  eapply on_disk_nil; [apply Hr|]. apply dget_app_ne. intros Hin. specialize (HL _ _ Hs Hin). lia.
Qed.

(** Recovery with a clear header only writes the header again. *)
Lemma idle_recovery D r r' ws ws' :
  on_disk D [] -> booted r D -> recover_from_log r = Done tt r' -> k_disk r' = ws ++ D ->
  ws' `suffix_of` ws -> on_disk (ws' ++ D) [] /\ same_home (ws' ++ D) D.
Proof.
  intros Ho Hb Hr Hws Hs.
  destruct (runs_inv _ _ _ (recover_spec r D [] Hb Ho)) as ([] & r1 & E & h & _ & D1 & O1).
  rewrite Hr in E. injection E as <-. rewrite D1 in Hws, O1.
  apply (app_inv_tail D [(start, h)] ws) in Hws. subst ws.
  apply suffix_cons_cases in Hs as [->|Hs%suffix_nil_inv]; [|by subst].
  split; [done|apply same_home_head].
Qed.

Lemma phase_recovery D0 tx D r r' ws ws' :
  phase D0 tx D -> booted r D -> recover_from_log r = Done tt r' -> k_disk r' = ws ++ D ->
  ws' `suffix_of` ws -> phase D0 tx (ws' ++ D).
Proof.
  intros Hp Hb Hr Hws Hs. destruct Hp as [Ho Hh|Hm Hh|Ho Hh].
  - destruct (idle_recovery D r r' ws ws' Ho Hb Hr Hws Hs) as [O' S'].
    apply ph_old; [done|]. intros bn Hbn. rewrite S' by done. by apply Hh.
  - destruct (runs_inv _ _ _ (recover_spec r D tx Hb Hm)) as ([] & r1 & E & h & _ & D1 & O1).
    rewrite Hr in E. injection E as <-. rewrite D1 in Hws, O1. rewrite app_comm_cons in Hws.
    apply app_inv_tail in Hws. subst ws.
    apply suffix_cons_cases in Hs as [->|Hs]; [|by apply phase_install].
    apply ph_new; [done|]. by apply phase_installed.
  - destruct (idle_recovery D r r' ws ws' Ho Hb Hr Hws Hs) as [O' S'].
    apply ph_new; [done|]. intros bn Hbn. rewrite S' by done. by apply Hh.
Qed.

(** What a completed recovery leaves. *)
Lemma recover_phase D0 tx D r :
  phase D0 tx D -> booted r D -> exists r',
    recover_from_log r = Done tt r' /\ cache dev p pid r' ∅ /\ on_disk (k_disk r') [] /\
    (same_home (k_disk r') D0 \/ same_home (k_disk r') (reverse tx ++ D0)) /\
    (same_home D (reverse tx ++ D0) -> same_home (k_disk r') (reverse tx ++ D0)).
Proof.
  intros Hp Hb.
  assert (forall tx', on_disk D tx' -> exists r', recover_from_log r = Done tt r' /\ cache dev p pid r' ∅ /\
    on_disk (k_disk r') [] /\ exists h, k_disk r' = (start, h) :: reverse tx' ++ D) as Hrun.
  { intros tx' Hd. destruct (runs_inv _ _ _ (recover_spec r D tx' Hb Hd)) as ([] & r' & E & h & C & K & O).
    by exists r'; split_and!; [..|exists h]. }
  destruct Hp as [Ho Hh|Hm Hh|Ho Hh].
  1, 3: destruct (Hrun [] Ho) as (r' & E & C & O & h & K); exists r'; split_and!; try done;
    [|intros Hn bn Hbn; rewrite K; cbn -[dget]; rewrite same_home_head by done; by apply Hn].
  - left. intros bn Hbn. rewrite K. cbn -[dget]. rewrite same_home_head by done. by apply Hh.
  - right. intros bn Hbn. rewrite K. cbn -[dget]. rewrite same_home_head by done. by apply Hh.
  - destruct (Hrun tx Hm) as (r' & E & C & O & h & K). exists r'. rewrite K in *.
    split_and!; [done..|right|intros _]; by apply phase_installed.
Qed.

(** C1: A transaction is atomic across crashes. [commit] returns and its
    writes are appended to the disk. Whatever part of them a crash lets
    through, and however often recovery is itself cut short by a crash, the
    next recovery returns, clears the header, and leaves on the disk either
    the old content of all blocks outside of the log or the new content of
    all of them; it is the new one once [commit] has returned. *)
Theorem commit_crash_safe s A tx :
  ready s A tx ->
  exists s' ws, commit s = Done tt s' /\ cache dev p pid s' (foldl unpin A tx.*1) /\
    k_disk s' = ws ++ k_disk s /\ same_home (k_disk s') (reverse tx ++ k_disk s) /\
    forall D r, crash_disk (k_disk s) ws D -> booted r D -> exists r',
      recover_from_log r = Done tt r' /\ cache dev p pid r' ∅ /\ on_disk (k_disk r') [] /\
      (same_home (k_disk r') (k_disk s) \/ same_home (k_disk r') (reverse tx ++ k_disk s)) /\
      (D = k_disk s' -> same_home (k_disk r') (reverse tx ++ k_disk s)).
Proof.
  intros Hr. destruct (runs_inv _ _ _ (commit_spec s A tx Hr)) as ([] & s' & E & h0 & h1 & C & K & O1 & O0).
  assert (same_home (k_disk s') (reverse tx ++ k_disk s)) as Hnew.
  { rewrite K. unfold commit_writes. cbn [app]. rewrite <- app_assoc. apply phase_installed.
    intros bn Hb _. cbn [app]. rewrite same_home_head by done. apply dget_app_ne.
    intros Hin%log_writes_range. pose proof (od_max _ _ O1). apply (home_ne bn bn Hb); lia. }
  exists s', (commit_writes h0 h1 tx). split_and!; [done..|]. rewrite K in O0.
  intros D r Hc Hb. assert (phase (k_disk s) tx D) as Hp.
  { clear Hb. induction Hc; [by eapply phase_commit|by eapply phase_recovery]. }
  destruct (recover_phase _ _ _ _ Hp Hb) as (r' & Er & Cr & Or & H1' & H2'). exists r'.
  split_and!; try done. intros ->. by apply H2'.
Qed.
End Recovery.

(** ** [log_write] and the full cache *)

Section LogWrite.
Variables (dev : Z) (p : nat) (pid : Z).
Context `{SleepFuel} `{BlockDev} `{!BlockDevOk}.
Abbreviation own := (own dev p pid).

(** The slot [log_write] uses for a block: its own if it is already logged. *)
Definition log_slot (lg : log) (bn : Z) : nat :=
  let logged := take (Z.to_nat (lg_n lg)) (lg_block lg) in
  default (length logged) (index_of (fun n => n =? i32 bn) logged).

Lemma bpin_eq b s :
  Lbcache ∉ k_held s ->
  bpin b s = Done tt (set_k_bcache (alter (fun x => set_b_refcnt (u32 (b_refcnt x + 1)) x) b (k_bcache s)) s).
Proof.
  intros Hh. unfold bpin. rewrite bind_acquire by done. unfold updbuf. rewrite bind_modify.
  erewrite release_head by done. by destruct s.
Qed.

(** Without the lock around it. *)
Lemma log_write_eq b s :
  k_held s = [] -> lg_n (k_log s) < LOGBLOCKS -> 1 <= lg_outstanding (k_log s) ->
  log_write b s =
    let bn := b_blockno (k_bcache s !!! b) in
    let i := log_slot (k_log s) bn in
    if Z.of_nat i =? lg_n (k_log s) then
      (bpin b ;;; updlog (fun lg => set_lg_n (lg_n lg + 1) (set_lg_block (<[i := i32 bn]> (lg_block lg)) lg))) s
    else updlog (fun lg => set_lg_block (<[i := i32 bn]> (lg_block lg)) lg) s.
Proof.
  intros Hh Hn Ho. unfold log_write. rewrite bind_acquire by (rewrite Hh; set_solver). unfold getlog.
  rewrite bind_gets. ksimp. rewrite (proj2 (Z.leb_gt _ _) Hn), (proj2 (Z.ltb_ge _ _) Ho).
  unfold getbuf. rewrite bind_gets. ksimp.
  change (match index_of _ _ with Some i => i | None => _ end)
    with (log_slot (k_log s) (b_blockno (k_bcache s !!! b))).
  generalize (log_slot (k_log s) (b_blockno (k_bcache s !!! b))) as i. intros i.
  unfold updlog at 1. rewrite bind_modify. ksimp. cbv zeta. destruct (Z.of_nat i =? lg_n (k_log s)).
  - erewrite bind_bind by (apply bpin_eq; ksimp; rewrite Hh; set_solver).
    erewrite (bind_done (bpin b)) by (apply bpin_eq; ksimp; rewrite Hh; set_solver).
    unfold updlog. rewrite bind_modify. erewrite release_head by done. unfold modify.
    clear - Hh. destruct s. ksimp in Hh. by subst.
  - rewrite bind_ret. erewrite release_head by done. unfold updlog, modify.
    clear - Hh. destruct s. ksimp in Hh. by subst.
Qed.

Variable start : Z.
Abbreviation log_at := (log_at dev start).

Definition log_add (bns : list Z) (bn : Z) : list Z := if decide (bn ∈ bns) then bns else bns ++ [bn].
Definition map_add (A : gmap Z entry) (bns : list Z) (bn : Z) (e : entry) : gmap Z entry :=
  if decide (bn ∈ bns) then A else <[bn := mkentry (e_ref e + 1) (e_locked e) (e_data e)]> A.

Lemma log_at_take lg bns : log_at lg bns -> take (Z.to_nat (lg_n lg)) (lg_block lg) = bns.
Proof.
  intros Hl. rewrite (la_n _ _ _ _ Hl), Nat2Z.id. pose proof (la_max _ _ _ _ Hl).
  pose proof (la_len _ _ _ _ Hl). apply list_eq_same_length with (length bns); [done|rewrite length_take; lia|].
  intros i x y Hi Hx Hy. apply lookup_take_Some in Hx as [Hx _].
  pose proof (la_blocks _ _ _ _ Hl i y Hy) as E. by rewrite (list_lookup_total_correct _ _ _ Hx) in E.
Qed.

Lemma log_slot_at lg bns bn :
  log_at lg bns -> 0 <= bn < 2 ^ 31 ->
  ((bn ∈ bns) /\ exists i, log_slot lg bn = i /\ bns !! i = Some bn) \/
  ((bn ∉ bns) /\ log_slot lg bn = length bns).
Proof.
  intros Hl Hr. unfold log_slot. rewrite (log_at_take lg bns Hl), i32_small by lia.
  destruct (index_of _ bns) as [i|] eqn:E; cbn.
  - left. apply index_of_Some in E as [(x & Hx & ->%Z.eqb_eq) _].
    split; [by eapply list_elem_of_lookup_2|eauto].
  - right. split; [|done]. apply index_of_None in E. rewrite Forall_forall in E. intros Hin.
    specialize (E _ Hin). lia.
Qed.

Lemma log_at_same lg bns i bn :
  log_at lg bns -> bns !! i = Some bn -> log_at (set_lg_block (<[i := bn]> (lg_block lg)) lg) bns.
Proof.
  intros [] Hi. split; cbn; rewrite ?length_insert; try done. intros j bn' Hj.
  destruct (decide (j = i)) as [->|]; [|rewrite list_lookup_total_insert_ne; auto].
  rewrite list_lookup_total_insert_eq by (apply lookup_lt_Some in Hi; lia). congruence.
Qed.

Lemma log_at_more lg bns bn :
  log_at lg bns -> (length bns < 30)%nat ->
  log_at (set_lg_n (lg_n lg + 1) (set_lg_block (<[length bns := bn]> (lg_block lg)) lg)) (bns ++ [bn]).
Proof.
  intros [] Hi. split; cbn; rewrite ?length_insert, ?length_app; cbn; try done; try lia.
  intros j bn' Hj. destruct (decide (j = length bns)) as [->|].
  - rewrite list_lookup_total_insert_eq by lia. rewrite list_lookup_middle in Hj by done. congruence.
  - rewrite list_lookup_total_insert_ne by done. apply la_blocks0.
    apply lookup_app_Some in Hj as [?|[Hge Hj]]; [done|].
    apply lookup_lt_Some in Hj. cbn in Hj. lia.
Qed.

Lemma rule_log_write s0 s A D hs bns b bn e (Q : unit -> kst -> Prop) :
  own s0 s A D hs -> (b, bn) ∈ hs -> A !! bn = Some e -> 0 < e_ref e + 1 < 2 ^ 31 -> 0 <= bn < 2 ^ 31 ->
  log_at (k_log s0) bns -> (length bns < 30)%nat -> 1 <= lg_outstanding (k_log s0) ->
  (forall s0' s', own s0' s' (map_add A bns bn e) D hs -> log_at (k_log s0') (log_add bns bn) ->
     lg_outstanding (k_log s0') = lg_outstanding (k_log s0) -> Q tt s') ->
  runs (log_write b) s Q.
Proof.
  intros Ho Hin He Hr Hbn Hl Hn Hout Hk. pose proof (own_log _ _ _ _ _ _ _ _ Ho) as El.
  pose proof (own_bufs _ _ _ _ _ _ _ _ Ho b bn Hin) as Hb.
  assert (b_blockno (k_bcache s !!! b) = bn) as Eb by apply Hb.
  unfold runs. rewrite log_write_eq;
    [|apply (c_held _ _ _ _ _ (own_cache _ _ _ _ _ _ _ _ Ho))|rewrite El, (la_n _ _ _ _ Hl); lia|by rewrite El].
  cbv zeta. rewrite Eb, El, i32_small by lia. unfold map_add, log_add in Hk.
  destruct (log_slot_at _ bns bn Hl Hbn) as [(Hi & i & -> & Hx)|(Hi & ->)]; rewrite (la_n _ _ _ _ Hl).
  - rewrite (proj2 (Z.eqb_neq _ _)) by (apply lookup_lt_Some in Hx; lia).
    rewrite !decide_True in Hk by done. eapply (rule_updlog dev p pid _ s0); [exact Ho|].
    intros s' O'. eapply Hk; [exact O'|by apply log_at_same|done].
  - rewrite Z.eqb_refl, !decide_False in * by done. apply runs_bind.
    eapply (rule_bpin dev p pid); [exact Ho|exact Hin|exact He|exact Hr|].
    intros s1 O1. eapply (rule_updlog dev p pid _ s0); [exact O1|].
    intros s' O'. eapply Hk; [exact O'|by apply log_at_more|done].
Qed.

(** C26: [log_write] adds a block to the transaction once. In a transaction
    with room the buffer's block number is appended to the header and its
    buffer pinned; a block that is already logged is absorbed, with neither
    changed. Nothing is written to the disk. Outside of a transaction, or when
    the header is full, it panics. *)
Theorem log_write_absorbs s A bns b bn e :
  cache dev p pid s A -> buf_of dev (k_bcache s) b bn -> A !! bn = Some e ->
  0 < e_ref e + 1 < 2 ^ 31 -> 0 <= bn < 2 ^ 31 -> log_at (k_log s) bns ->
  ((length bns < 30)%nat -> 1 <= lg_outstanding (k_log s) ->
   exists s', log_write b s = Done tt s' /\ k_disk s' = k_disk s /\
     cache dev p pid s' (map_add A bns bn e) /\ buf_of dev (k_bcache s') b bn /\
     log_at (k_log s') (log_add bns bn)) /\
  (length bns = 30%nat -> exists s', log_write b s = Panic "too big a transaction" s') /\
  ((length bns < 30)%nat -> lg_outstanding (k_log s) < 1 ->
   exists s', log_write b s = Panic "log_write outside of trans" s').
Proof.
  intros Hc Hb He Hr Hbn Hl. pose proof (la_n _ _ _ _ Hl) as En. split_and!.
  - intros Hn Ho. pose proof (own_cons _ _ _ _ _ _ _ _ _ _ (own_init _ _ _ _ _ Hc) Hb) as O.
    destruct (runs_inv (log_write b) s (fun _ s' => k_disk s' = k_disk s /\
      cache dev p pid s' (map_add A bns bn e) /\ buf_of dev (k_bcache s') b bn /\
      log_at (k_log s') (log_add bns bn))) as ([] & s' & E & P); [|by exists s'].
    eapply rule_log_write; [exact O|hin|exact He|done..|]. intros s0' s' O' Hl' _.
    split_and!; [apply O'|apply O'|apply O'; hin|]. by rewrite (own_log _ _ _ _ _ _ _ _ O').
  - intros Hn. unfold log_write. rewrite bind_acquire by (rewrite (c_held _ _ _ _ _ Hc); set_solver).
    unfold getlog. rewrite bind_gets. ksimp. rewrite (proj2 (Z.leb_le _ _)) by lia. by eexists.
  - intros Hn Ho. unfold log_write. rewrite bind_acquire by (rewrite (c_held _ _ _ _ _ Hc); set_solver).
    unfold getlog. rewrite bind_gets. ksimp. rewrite (proj2 (Z.leb_gt _ _)), (proj2 (Z.ltb_lt _ _)) by lia.
    by eexists.
Qed.

(** C39: a transaction that fills the header cannot be committed: its 30
    blocks pin all of the NBUF buffers, so [write_log] finds no buffer for
    the first block of the log and the kernel panics. *)
Theorem commit_no_buffers s A bns :
  0 <= start < 2 ^ 30 -> cache dev p pid s A -> log_at (k_log s) bns ->
  length bns = 30%nat -> NoDup bns -> (forall bn, bn ∈ bns -> is_Some (A !! bn)) -> A !! (start + 1) = None ->
  exists s', commit s = Panic "bget: no buffers" s'.
Proof.
  intros Hst Hc Hl Hn Hnd Hin Ht. pose proof (la_n _ _ _ _ Hl) as En.
  assert (NBUF <= size A)%nat as Hsz.
  { rewrite <- Hn. transitivity (size (list_to_set bns : gset Z)); [by rewrite size_list_to_set|].
    rewrite <- size_dom. apply subseteq_size. intros bn Hbn%elem_of_list_to_set. by apply elem_of_dom, Hin. }
  destruct (bread_full dev p pid s A (start + 1) Hc Hsz Ht) as [s' E]. exists s'.
  unfold commit, getlog. rewrite bind_gets, (proj2 (Z.ltb_lt _ _)) by lia. apply bind_panic.
  unfold write_log, for_tail. cbn [loop]. apply bind_panic. unfold getlog. rewrite bind_gets.
  rewrite (proj2 (Z.ltb_lt _ _)) by lia. apply bind_panic.
  unfold write_log_one, getlog. rewrite bind_gets, (la_dev _ _ _ _ Hl), (la_start _ _ _ _ Hl).
  rewrite Z.add_0_r, u32_small by lia. by apply bind_panic.
Qed.
End LogWrite.

(** ** Concrete transactions *)

Section Demo.
Instance demo_fuel : SleepFuel := 1%nat.
Existing Instance sync_disk.
Existing Instance sync_disk_ok.
Abbreviation demo_own := (own 1 0 0).

Lemma demo_fuel_pos : (0 < sleep_fuel)%nat.
Proof. unfold sleep_fuel, demo_fuel. lia. Qed.

(** One system call has begun; the log is at block 2 of device 1. *)
Definition log_demo : log := mklog 2 1 0 1 0 (replicate 30 0).
Definition block (x : Z) : list Z := replicate 1024 x.

(** A write of a whole block in a system call. *)
Definition write_block (bn : Z) : K unit :=
  b <- bread 1 bn ;;
  updbuf b (fun x => set_b_data (block 1) x) ;;;
  log_write b ;;;
  brelse b.

Definition filled (bns : list Z) : gmap Z entry :=
  gset_to_gmap (mkentry 1 false (block 1)) (list_to_set bns).

Lemma filled_in bns bn : bn ∈ bns -> filled bns !! bn = Some (mkentry 1 false (block 1)).
Proof. intros Hin. apply lookup_gset_to_gmap_Some. split; [by apply elem_of_list_to_set|done]. Qed.
Lemma filled_out bns bn : bn ∉ bns -> filled bns !! bn = None.
Proof. intros Hin. apply lookup_gset_to_gmap_None. by rewrite elem_of_list_to_set. Qed.
Lemma filled_snoc bns bn : filled (bns ++ [bn]) = <[bn := mkentry 1 false (block 1)]> (filled bns).
Proof.
  unfold filled. rewrite <- gset_to_gmap_union_singleton. f_equal. rewrite list_to_set_app_L. set_solver.
Qed.
Lemma size_filled bns : NoDup bns -> size (filled bns) = length bns.
Proof. intros Hnd. unfold filled. rewrite <- size_dom, dom_gset_to_gmap. by apply size_list_to_set. Qed.

Definition demo_inv (bns : list Z) (s : kst) : Prop :=
  exists s0, demo_own s0 s (filled bns) [] [] /\ log_at 1 2 (k_log s0) bns /\ lg_outstanding (k_log s0) = 1.

Lemma write_block_spec bns bn s :
  demo_inv bns s -> NoDup bns -> (length bns < 30)%nat -> bn ∉ bns -> 0 <= bn < 2 ^ 31 ->
  runs (write_block bn) s (fun _ s' => demo_inv (bns ++ [bn]) s').
Proof.
  intros (s0 & O0 & Hl & Ho) Hnd Hn Hbn Hr. pose proof (filled_out bns bn Hbn) as HA.
  unfold write_block. apply runs_bind. eapply (rule_bread 1 0 0 demo_fuel_pos);
    [exact O0|unfold readable; rewrite HA, size_filled by done; lia|].
  rewrite (got_none _ _ _ HA). intros b s1 O1. apply runs_bind.
  eapply (rule_blit 1 0 0 _ _ _ _ _ b bn _ (fun _ => block 1)); [exact O1|hin|apply lookup_insert_eq|done|].
  cbn [e_ref e_locked]. rewrite insert_insert_eq. intros s2 O2. apply runs_bind.
  eapply (rule_log_write 1 0 0 2);
    [exact O2|hin|apply lookup_insert_eq|cbn; lia|lia|exact Hl|cbn; lia|lia|].
  intros s0' s3 O3 Hl3 Ho3. unfold map_add, log_add in *. rewrite !decide_False in * by done.
  rewrite insert_insert_eq in O3. eapply (rule_brelse 1 0 0 _ _ _ _ _ []);
    [exact O3|hin|apply lookup_insert_eq|done|done|set_solver|intros b'; apply not_elem_of_nil|].
  intros s4 O4. exists s0'. split_and!; [|done|congruence]. unfold put in O4. cbn in O4.
  by rewrite insert_insert_eq, <- filled_snoc in O4.
Qed.

Lemma disk_ok_nil : disk_ok [].
Proof. constructor. Qed.

Lemma demo_start : exists s, booted 1 0 0 2 s [] /\ demo_inv [] s.
Proof.
  destruct (cache_demo_init [] disk_ok_nil) as (s0 & _ & Hc & _ & Hd).
  exists (set_k_log log_demo s0). split; [split; try done; destruct Hc; by split|].
  exists (set_k_log log_demo s0). split_and!; [|split; cbn; try done; lia|done].
  split; [destruct Hc; by split|done|done|]. by intros ? ? ?%elem_of_nil.
Qed.

Lemma demo_run bns :
  NoDup bns -> (length bns <= 30)%nat -> (forall bn, bn ∈ bns -> 0 <= bn < 2 ^ 31) ->
  exists s, cache 1 0 0 s (filled bns) /\ log_at 1 2 (k_log s) bns /\ k_disk s = [].
Proof.
  intros Hnd Hn Hr. destruct demo_start as (s & _ & Hs).
  destruct (runs_inv (for_each bns write_block) s (fun _ s' => demo_inv bns s')) as (? & s' & _ & s0 & O & Hl & _).
  - apply (runs_for_each demo_inv); [done| |done]. intros pre bn post t -> Ht.
    apply NoDup_app in Hnd as (Hp & Hd & _). rewrite length_app in Hn. cbn in Hn.
    apply write_block_spec; [done..|lia| |apply Hr; set_solver]. intros Hin. apply (Hd bn Hin). set_solver.
  - exists s'. split_and!; [apply O| |apply O]. by rewrite (own_log _ _ _ _ _ _ _ _ O).
Qed.

Lemma demo_ready : exists s, ready 1 0 0 2 s (filled [50]) [(50, block 1)] /\ k_disk s = [].
Proof.
  destruct (demo_run [50]) as (s & C & Hl & D);
    [apply NoDup_singleton|cbn; lia|intros bn ->%list_elem_of_singleton; lia|].
  exists s. split; [|done]. split; try done.
  - intros bn d Hin. apply list_elem_of_singleton in Hin. injection Hin as -> ->. split; lia.
  - apply NoDup_singleton.
  - intros bn d Hin. apply list_elem_of_singleton in Hin. injection Hin as -> ->. exists 1.
    split; [by apply filled_in; hin|lia].
  - split; [rewrite size_filled by apply NoDup_singleton; cbn; lia|]. intros t Ht. apply filled_out.
    intros ->%list_elem_of_singleton. lia.
  - rewrite D. split; try done; [cbn; lia|]. by intros ? ? ?%elem_of_nil.
Qed.

Lemma demo_buf : exists s b, cache 1 0 0 s (<[7 := mkentry 1 true (dget [] 7)]> ∅) /\
  buf_of 1 (k_bcache s) b 7 /\ log_at 1 2 (k_log s) [] /\ lg_outstanding (k_log s) = 1.
Proof.
  destruct demo_start as (s & _ & s0 & O0 & Hl & Ho).
  destruct (runs_inv (bread 1 7) s (fun b s' =>
    demo_own s0 s' (<[7 := mkentry 1 true (dget [] 7)]> ∅) [] [(b, 7)])) as (b & s' & _ & O).
  - eapply (rule_bread 1 0 0 demo_fuel_pos); [exact O0| |by intros b s' O].
    unfold readable. rewrite filled_out by apply not_elem_of_nil. rewrite size_filled by apply NoDup_nil_2. cbn. lia.
  - exists s', b. rewrite (own_log _ _ _ _ _ _ _ _ O). split_and!; [apply O|apply O; hin|done|done].
Qed.
End Demo.

(** Block 50 is committed; a machine that crashed before the first write
    recovers. *)
Lemma commit_crash_safe_witness :
  exists s s' r r', @commit 1%nat sync_disk s = Done tt s' /\ dget (k_disk s') 50 = block 1 /\
    @recover_from_log 1%nat sync_disk r = Done tt r' /\
    (dget (k_disk r') 50 = block 0 \/ dget (k_disk r') 50 = block 1).
Proof.
  destruct demo_ready as (s & Hs & D). destruct demo_start as (r & Hr & _).
  destruct (@commit_crash_safe 1 0 0 1%nat sync_disk sync_disk_ok ltac:(unfold sleep_fuel; lia)
    2 ltac:(lia) s _ _ Hs) as (s' & ws & E & _ & K & Hn & Hc).
  rewrite D in *. assert (home 2 50) as H50 by (split; lia).
  destruct (Hc [] r) as (r' & Er & _ & _ & Hor & _); [by apply (crash_commit _ _ _ _ _ _ []), suffix_nil|done|].
  exists s, s', r, r'. split_and!; [done| |done|].
  - by rewrite (Hn 50 H50).
  - destruct Hor as [Hor|Hor]; [left|right]; by rewrite (Hor 50 H50).
Defined.

(** Block 7 is logged. *)
Lemma log_write_absorbs_witness :
  exists s b s', log_write b s = Done tt s' /\ log_at 1 2 (k_log s') [7].
Proof.
  destruct demo_buf as (s & b & C & B & Hl & Ho).
  destruct (log_write_absorbs (H0 := sync_disk) (H1 := sync_disk_ok) 1 0 0 2 s _ [] b 7 (mkentry 1 true (dget [] 7)) C B) as [Hw _].
  - apply lookup_insert_eq.
  - cbn. lia.
  - lia.
  - exact Hl.
  - destruct Hw as (s' & E & _ & _ & _ & Hl'); [cbn; lia|lia|]. exists s, b, s'. split; [exact E|exact Hl'].
Defined.

(** 30 blocks are logged. *)
Lemma commit_no_buffers_witness :
  exists s s', @commit 1%nat sync_disk s = Panic "bget: no buffers" s'.
Proof.
  destruct (demo_run (seqZ 100 30)) as (s & C & Hl & _);
    [apply NoDup_seqZ|done|intros bn [? ?]%elem_of_seqZ; lia|].
  destruct (@commit_no_buffers 1 0 0 1%nat sync_disk sync_disk_ok 2 s (filled (seqZ 100 30)) (seqZ 100 30)) as [s' E].
  - lia.
  - exact C.
  - exact Hl.
  - reflexivity.
  - apply NoDup_seqZ.
  - intros bn Hbn. rewrite filled_in by done. eauto.
  - apply filled_out. intros [? ?]%elem_of_seqZ. lia.
  - exists s, s'. exact E.
Defined.
