(* ===== verification/Fs.v ===== *)
(** * The file system ([kernel/fs.c], [kernel/fs.h])

    Blocks, inodes, inode content, directories and path names. An inode
    pointer is an index into [k_itable]. On-disk structures are byte lists
    with the layout of fs.h; path names are the bytes of the string without
    its NUL. *)

From S2P Require Import Prelude Machine KState Spinlock Kalloc Walk Vm Sched Strings Printf Print Bio Log.
Local Open Scope Z_scope.
Local Open Scope kern_scope.

(* ------------------------------------------------------------------ *)
(** ** Layout (fs.h) *)

Abbreviation ROOTINO := 1%Z.
Abbreviation FSMAGIC := 0x10203040%Z.
Abbreviation NDIRECT := 12%Z.
Abbreviation NINDIRECT := 256%Z.
Abbreviation MAXFILE := 268%Z.
Abbreviation DIRSIZ := 14%nat.
Abbreviation DINODE_SIZE := 64%Z.
Abbreviation DIRENT_SIZE := 16%Z.
Abbreviation T_DIR := 1%Z.
Abbreviation T_FILE := 2%Z.
Abbreviation T_DEVICE := 3%Z.

Abbreviation IPB := 16%Z.
Abbreviation BPB := 8192%Z.
Definition IBLOCK (i : Z) (sb : superblock) : Z := u32 (i / IPB + sb_inodestart sb).
Definition BBLOCK (b : Z) (sb : superblock) : Z := u32 (b / BPB + sb_bmapstart sb).

(** [struct superblock] in a block. *)
Definition sb_of_bytes (bs : list Z) : superblock :=
  mksb (ld32 bs 0) (ld32 bs 4) (ld32 bs 8) (ld32 bs 12) (ld32 bs 16) (ld32 bs 20)
    (ld32 bs 24) (ld32 bs 28).

(** [struct dinode] at [off] of a block: copying it to the fields of a
    [struct inode] and back. *)
Definition dinode_addrs (bs : list Z) (off : Z) : list Z :=
  map (fun i => ld32 bs (off + 12 + 4 * i)) (seqZ 0 13).
Definition dinode_load (bs : list Z) (off : Z) (ip : inode) : inode :=
  set_i_addrs (dinode_addrs bs off) (set_i_size (ld32 bs (off + 8))
    (set_i_nlink (i16 (ld16 bs (off + 6))) (set_i_minor (i16 (ld16 bs (off + 4)))
    (set_i_major (i16 (ld16 bs (off + 2))) (set_i_type (i16 (ld16 bs off)) ip))))).
Definition dinode_bytes (ip : inode) : list Z :=
  le_split 2 (i_type ip) ++ le_split 2 (i_major ip) ++ le_split 2 (i_minor ip) ++
  le_split 2 (i_nlink ip) ++ le_split 4 (i_size ip) ++
  concat (map (le_split 4) (i_addrs ip)).
Definition dinode_off (inum : Z) : Z := DINODE_SIZE * (inum mod IPB).

(** [struct dirent]. *)
Record dirent : Type := mkdirent { de_inum : Z; de_name : list Z }.
Definition dirent_of_bytes (bs : list Z) : dirent := mkdirent (ld16 bs 0) (lget bs 2 14).
Definition dirent_bytes (de : dirent) : list Z := le_split 2 (de_inum de) ++ de_name de.

Definition getinode (ip : nat) : K inode := gets (fun s => k_itable s !!! ip).
Definition updinode (ip : nat) (f : inode -> inode) : K unit :=
  modify (fun s => set_k_itable (alter f ip (k_itable s)) s).

(** Where [readi] delivers bytes: a user address, a kernel address, or a
    local variable of the caller. *)
Inductive iodst : Type := DUser (va : Z) | DKernel (a : Z) | DLocal.
Definition iodst_add (d : iodst) (m : Z) : iodst :=
  match d with
  | DUser va => DUser (u64 (va + m))
  | DKernel a => DKernel (u64 (a + m))
  | DLocal => DLocal
  end.
(** Where [writei] takes bytes from. *)
Inductive iosrc : Type := SUser (va : Z) | SLocal (bs : list Z).
Definition iosrc_add (d : iosrc) (m : Z) : iosrc :=
  match d with
  | SUser va => SUser (u64 (va + m))
  | SLocal bs => SLocal (drop (Z.to_nat m) bs)
  end.

Section Fs.
Context `{KernelImage} `{SleepFuel} `{BlockDev}.

(* ------------------------------------------------------------------ *)
(** ** Blocks *)

Definition readsb (dev : Z) : K unit :=
  bp <- bread dev 1 ;;
  x <- getbuf bp ;;
  modify (set_k_sb (sb_of_bytes (b_data x))) ;;;
  brelse bp.

Definition bzero (dev bno : Z) : K unit :=
  bp <- bread dev (u32 bno) ;;
  updbuf bp (set_b_data zero_block) ;;;
  log_write bp ;;;
  brelse bp.

(** Bit [bi] of a bitmap block. *)
Definition bit_mask (bi : Z) : Z := Z.shiftl 1 (bi mod 8).
Definition bit_byte (data : list Z) (bi : Z) : Z := data !!! Z.to_nat (bi / 8).
Definition bit_free (data : list Z) (bi : Z) : bool := Z.land (bit_byte data bi) (bit_mask bi) =? 0.
Definition set_bit (data : list Z) (bi : Z) : list Z :=
  <[Z.to_nat (bi / 8) := Z.lor (bit_byte data bi) (bit_mask bi)]> data.
Definition clear_bit (data : list Z) (bi : Z) : list Z :=
  <[Z.to_nat (bi / 8) := u8 (Z.land (bit_byte data bi) (Z.lnot (bit_mask bi)))]> data.

Definition balloc (dev : Z) : K Z :=
  sb <- gets k_sb ;;
  o <- for_upto (S (Z.to_nat (sb_size sb / BPB + 1))) 0 (sb_size sb) BPB (fun b =>
         bp <- bread dev (BBLOCK b sb) ;;
         x <- getbuf bp ;;
         match List.find (bit_free (b_data x)) (seqZ 0 (Z.min BPB (sb_size sb - b))) with
         | Some bi =>
             updbuf bp (fun x => set_b_data (set_bit (b_data x) bi) x) ;;;
             log_write bp ;;;
             brelse bp ;;;
             bzero dev (b + bi) ;;;
             ret (Some (b + bi))
         | None => brelse bp ;;; ret None
         end) ;;
  match o with
  | Some b => ret b
  | None => printf (nl "balloc: out of blocks") [] ;;; ret 0
  end.

Definition bfree (dev b : Z) : K unit :=
  sb <- gets k_sb ;;
  bp <- bread dev (BBLOCK b sb) ;;
  x <- getbuf bp ;;
  let bi := b mod BPB in
  if bit_free (b_data x) bi then panic "freeing free block"
  else
    updbuf bp (fun x => set_b_data (clear_bit (b_data x) bi) x) ;;;
    log_write bp ;;;
    brelse bp.

(* ------------------------------------------------------------------ *)
(** ** Inodes *)

Definition iinit : K unit :=
  initlock Litable ;;;
  for_each (seq 0 NINODE) (fun i => initsleeplock (SLinode i)).

Definition iget (dev inum : Z) : K nat :=
  acquire Litable ;;;
  tbl <- gets k_itable ;;
  match index_of (fun ip => (0 <? i_ref ip) && (i_dev ip =? dev) && (i_inum ip =? inum)) tbl with
  | Some ip =>
      updinode ip (fun x => set_i_ref (i_ref x + 1) x) ;;;
      release Litable ;;;
      ret ip
  | None =>
      match index_of (fun ip => i_ref ip =? 0) tbl with
      | None => panic "iget: no inodes"
      | Some ip =>
          updinode ip (fun x => set_i_valid 0 (set_i_ref 1 (set_i_inum inum (set_i_dev dev x)))) ;;;
          release Litable ;;;
          ret ip
      end
  end.

Definition ialloc (dev type : Z) : K (option nat) :=
  sb <- gets k_sb ;;
  o <- for_find (seqZ 1 (sb_ninodes sb - 1)) (fun inum =>
    bp <- bread dev (IBLOCK inum sb) ;;
    x <- getbuf bp ;;
    if i16 (ld16 (b_data x) (dinode_off inum)) =? 0 then
      updbuf bp (fun x => set_b_data
        (st16 (lset (b_data x) (dinode_off inum) (zeros 64)) (dinode_off inum) type) x) ;;;
      log_write bp ;;;
      brelse bp ;;;
      ip <- iget dev inum ;;
      ret (Some ip)
    else brelse bp ;;; ret None) ;;
  match o with
  | Some ip => ret (Some ip)
  | None => printf (nl "ialloc: no inodes") [] ;;; ret None
  end.

Definition iupdate (ip : nat) : K unit :=
  x <- getinode ip ;;
  sb <- gets k_sb ;;
  bp <- bread (i_dev x) (IBLOCK (i_inum x) sb) ;;
  x <- getinode ip ;;
  updbuf bp (fun b => set_b_data (lset (b_data b) (dinode_off (i_inum x)) (dinode_bytes x)) b) ;;;
  log_write bp ;;;
  brelse bp.

Definition idup (ip : nat) : K nat :=
  acquire Litable ;;;
  updinode ip (fun x => set_i_ref (i_ref x + 1) x) ;;;
  release Litable ;;;
  ret ip.

Definition ilock (ip : nat) : K unit :=
  x <- getinode ip ;;
  if i_ref x <? 1 then panic "ilock"
  else
    acquiresleep (SLinode ip) ;;;
    x <- getinode ip ;;
    if i_valid x =? 0 then
      sb <- gets k_sb ;;
      bp <- bread (i_dev x) (IBLOCK (i_inum x) sb) ;;
      b <- getbuf bp ;;
      updinode ip (fun y => dinode_load (b_data b) (dinode_off (i_inum y)) y) ;;;
      brelse bp ;;;
      updinode ip (set_i_valid 1) ;;;
      x <- getinode ip ;;
      if i_type x =? 0 then panic "ilock: no type" else ret tt
    else ret tt.

Definition iunlock (ip : nat) : K unit :=
  h <- holdingsleep (SLinode ip) ;;
  x <- getinode ip ;;
  if negb h || (i_ref x <? 1) then panic "iunlock"
  else releasesleep (SLinode ip).

(* ------------------------------------------------------------------ *)
(** ** Inode content *)

Definition bmap (ip : nat) (bn : Z) : K Z :=
  x <- getinode ip ;;
  if bn <? NDIRECT then
    let addr := i_addrs x !!! Z.to_nat bn in
    if addr =? 0 then
      addr <- balloc (i_dev x) ;;
      if addr =? 0 then ret 0
      else
        updinode ip (fun x => set_i_addrs (<[Z.to_nat bn := addr]> (i_addrs x)) x) ;;;
        ret addr
    else ret addr
  else
    let bn := bn - NDIRECT in
    if bn <? NINDIRECT then
      ind <- (let addr := i_addrs x !!! Z.to_nat NDIRECT in
              if addr =? 0 then
                addr <- balloc (i_dev x) ;;
                when (negb (addr =? 0))
                  (updinode ip (fun x => set_i_addrs (<[Z.to_nat NDIRECT := addr]> (i_addrs x)) x)) ;;;
                ret addr
              else ret addr) ;;
      if ind =? 0 then ret 0
      else
        bp <- bread (i_dev x) ind ;;
        b <- getbuf bp ;;
        let addr := ld32 (b_data b) (4 * bn) in
        addr <- (if addr =? 0 then
                   addr <- balloc (i_dev x) ;;
                   when (negb (addr =? 0))
                     (updbuf bp (fun b => set_b_data (st32 (b_data b) (4 * bn) addr) b) ;;;
                      log_write bp) ;;;
                   ret addr
                 else ret addr) ;;
        brelse bp ;;;
        ret addr
    else panic "bmap: out of range".

Definition itrunc (ip : nat) : K unit :=
  for_each (seqZ 0 NDIRECT) (fun i =>
    x <- getinode ip ;;
    let addr := i_addrs x !!! Z.to_nat i in
    when (negb (addr =? 0))
      (bfree (i_dev x) addr ;;;
       updinode ip (fun x => set_i_addrs (<[Z.to_nat i := 0]> (i_addrs x)) x))) ;;;
  x <- getinode ip ;;
  let ind := i_addrs x !!! Z.to_nat NDIRECT in
  when (negb (ind =? 0))
    (bp <- bread (i_dev x) ind ;;
     for_each (seqZ 0 NINDIRECT) (fun j =>
       b <- getbuf bp ;;
       let addr := ld32 (b_data b) (4 * j) in
       when (negb (addr =? 0)) (bfree (i_dev x) addr)) ;;;
     brelse bp ;;;
     bfree (i_dev x) ind ;;;
     updinode ip (fun x => set_i_addrs (<[Z.to_nat NDIRECT := 0]> (i_addrs x)) x)) ;;;
  updinode ip (set_i_size 0) ;;;
  iupdate ip.

Definition iput (ip : nat) : K unit :=
  acquire Litable ;;;
  x <- getinode ip ;;
  (if (i_ref x =? 1) && nz (i_valid x) && (i_nlink x =? 0) then
     acquiresleep (SLinode ip) ;;;
     release Litable ;;;
     itrunc ip ;;;
     updinode ip (set_i_type 0) ;;;
     iupdate ip ;;;
     updinode ip (set_i_valid 0) ;;;
     releasesleep (SLinode ip) ;;;
     acquire Litable
   else ret tt) ;;;
  updinode ip (fun x => set_i_ref (i_ref x - 1) x) ;;;
  release Litable.

Definition iunlockput (ip : nat) : K unit := iunlock ip ;;; iput ip.

Definition ireclaim (dev : Z) : K unit :=
  sb <- gets k_sb ;;
  for_each (seqZ 1 (sb_ninodes sb - 1)) (fun inum =>
    bp <- bread dev (IBLOCK inum sb) ;;
    b <- getbuf bp ;;
    let off := dinode_off inum in
    ip <- (if negb (i16 (ld16 (b_data b) off) =? 0) && (i16 (ld16 (b_data b) (off + 6)) =? 0) then
             printf (nl "ireclaim: orphaned inode %d") [ANum inum] ;;;
             ip <- iget dev inum ;; ret (Some ip)
           else ret None) ;;
    brelse bp ;;;
    match ip with
    | Some ip =>
        begin_op ;;;
        ilock ip ;;;
        iunlock ip ;;;
        iput ip ;;;
        end_op
    | None => ret tt
    end).

Definition fsinit (dev : Z) : K unit :=
  readsb dev ;;;
  sb <- gets k_sb ;;
  if negb (sb_magic sb =? FSMAGIC) then panic "invalid file system"
  else
    initlog dev sb ;;;
    ireclaim dev.

(** The fields [stati] copies to a [struct stat]. *)
Record stat : Type := mkstat { st_dev : Z; st_ino : Z; st_type : Z; st_nlink : Z; st_size : Z }.
Definition stati (ip : nat) : K stat :=
  x <- getinode ip ;;
  ret (mkstat (i_dev x) (i_inum x) (i_type x) (i_nlink x) (i_size x)).

Definition deliver (dst : iodst) (bs : list Z) : K Z :=
  match dst with
  | DUser va => either_copyout true va bs
  | DKernel a => either_copyout false a bs
  | DLocal => ret 0
  end.

(** The loop of [readi]: returns [tot] and the bytes delivered to a local. *)
Definition readi_step (ip : nat) (n : Z) (x : Z * Z * iodst * list Z) :
    K (Z * Z * iodst * list Z + Z * list Z) :=
  let '(tot, off, dst, acc) := x in
  if negb (tot <? n) then ret (inr (tot, acc))
  else
    addr <- bmap ip (off / BSIZE) ;;
    if addr =? 0 then ret (inr (tot, acc))
    else
      i <- getinode ip ;;
      bp <- bread (i_dev i) addr ;;
      b <- getbuf bp ;;
      let m := Z.min (n - tot) (BSIZE - off mod BSIZE) in
      let bs := lget (b_data b) (off mod BSIZE) m in
      r <- deliver dst bs ;;
      brelse bp ;;;
      if r =? -1 then ret (inr (-1, acc))
      else ret (inl (tot + m, u32 (off + m), iodst_add dst m, acc ++ bs)).

Definition readi (ip : nat) (dst : iodst) (off n : Z) : K (Z * list Z) :=
  x <- getinode ip ;;
  if (i_size x <? off) || (u32 (off + n) <? off) then ret (0, [])
  else
    let n := if i_size x <? off + n then i_size x - off else n in
    loop (S (Z.to_nat n)) (readi_step ip n) (0, off, dst, []).

Definition fetch (src : iosrc) (m : Z) : K (Z * list Z) :=
  match src with
  | SUser va => either_copyin true va m
  | SLocal bs => ret (0, take (Z.to_nat m) bs)
  end.

(** The loop of [writei]: returns [tot] and the offset reached. A failed
    [either_copyin] may have changed part of the buffer. *)
Definition writei_step (ip : nat) (n : Z) (x : Z * Z * iosrc) : K (Z * Z * iosrc + Z * Z) :=
  let '(tot, off, src) := x in
  if negb (tot <? n) then ret (inr (tot, off))
  else
    addr <- bmap ip (off / BSIZE) ;;
    if addr =? 0 then ret (inr (tot, off))
    else
      i <- getinode ip ;;
      bp <- bread (i_dev i) addr ;;
      let m := Z.min (n - tot) (BSIZE - off mod BSIZE) in
      r <- fetch src m ;;
      updbuf bp (fun b => set_b_data (lset (b_data b) (off mod BSIZE) r.2) b) ;;;
      if r.1 =? -1 then brelse bp ;;; ret (inr (tot, off))
      else
        log_write bp ;;;
        brelse bp ;;;
        ret (inl (tot + m, u32 (off + m), iosrc_add src m)).

Definition writei (ip : nat) (src : iosrc) (off n : Z) : K Z :=
  x <- getinode ip ;;
  if (i_size x <? off) || (u32 (off + n) <? off) then ret (-1)
  else if MAXFILE * BSIZE <? off + n then ret (-1)
  else
    r <- loop (S (Z.to_nat n)) (writei_step ip n) (0, off, src) ;;
    x <- getinode ip ;;
    when (i_size x <? r.2) (updinode ip (set_i_size r.2)) ;;;
    iupdate ip ;;;
    ret r.1.

(* ------------------------------------------------------------------ *)
(** ** Directories *)

(** The array a [char *name] of at least [DIRSIZ] bytes points to. *)
Definition namecmp (s t : list Z) : Z := strncmp_l (take DIRSIZ s) (take DIRSIZ t).

(** Reads the entry at [off]; [None] when [readi] falls short. *)
Definition read_dirent (dp : nat) (off : Z) : K (option dirent) :=
  r <- readi dp DLocal off DIRENT_SIZE ;;
  ret (if r.1 =? DIRENT_SIZE then Some (dirent_of_bytes r.2) else None).

(** Returns the inode and the offset of its entry. *)
Definition dirlookup (dp : nat) (name : list Z) : K (option (nat * Z)) :=
  x <- getinode dp ;;
  if negb (i_type x =? T_DIR) then panic "dirlookup not DIR"
  else
    for_upto (S (Z.to_nat (i_size x / DIRENT_SIZE + 1))) 0 (i_size x) DIRENT_SIZE (fun off =>
      o <- read_dirent dp off ;;
      match o with
      | None => panic "dirlookup read"
      | Some de =>
          if de_inum de =? 0 then ret None
          else if namecmp name (de_name de) =? 0 then
            ip <- iget (i_dev x) (de_inum de) ;;
            ret (Some (ip, off))
          else ret None
      end).

(** The first free entry, or the end of the directory. *)
Definition dir_slot (dp : nat) : K Z :=
  x <- getinode dp ;;
  o <- for_upto (S (Z.to_nat (i_size x / DIRENT_SIZE + 1))) 0 (i_size x) DIRENT_SIZE (fun off =>
         o <- read_dirent dp off ;;
         match o with
         | None => panic "dirlink read"
         | Some de => ret (if de_inum de =? 0 then Some off else None)
         end) ;;
  ret (default ((i_size x + DIRENT_SIZE - 1) / DIRENT_SIZE * DIRENT_SIZE) o).

Definition dirlink (dp : nat) (name : list Z) (inum : Z) : K Z :=
  o <- dirlookup dp name ;;
  match o with
  | Some (ip, _) => iput ip ;;; ret (-1)
  | None =>
      off <- dir_slot dp ;;
      let de := mkdirent (u16 inum) (strncpy_l name DIRSIZ) in
      r <- writei dp (SLocal (dirent_bytes de)) off DIRENT_SIZE ;;
      if negb (r =? DIRENT_SIZE) then ret (-1) else ret 0
  end.
End Fs.

(* ------------------------------------------------------------------ *)
(** ** Path names *)

Abbreviation SLASH := 47%Z.

Fixpoint skip_slashes (path : list Z) : list Z :=
  match path with
  | c :: path' => if c =? SLASH then skip_slashes path' else path
  | [] => []
  end.
(** The bytes up to the next slash, and what follows. *)
Fixpoint span_elem (path : list Z) : list Z * list Z :=
  match path with
  | [] => ([], [])
  | c :: path' =>
      if c =? SLASH then ([], path)
      else let '(e, r) := span_elem path' in (c :: e, r)
  end.

(** The array [name] after the element [s] was copied to it. *)
Definition copy_elem (name s : list Z) : list Z :=
  if (DIRSIZ <=? length s)%nat then take DIRSIZ s
  else s ++ [0] ++ drop (length s + 1) name.

Definition skipelem (path name : list Z) : option (list Z * list Z) :=
  match skip_slashes path with
  | [] => None
  | path =>
      let '(s, rest) := span_elem path in
      Some (skip_slashes rest, copy_elem name s)
  end.

Section Namei.
Context `{KernelImage} `{SleepFuel} `{BlockDev}.

(** Returns the inode and the last element copied to [name]. *)
Definition namex_step (nameiparent : bool) (x : nat * list Z * list Z) :
    K (nat * list Z * list Z + option nat * list Z) :=
  let '(ip, path, name) := x in
  match skipelem path name with
  | None =>
      if nameiparent then iput ip ;;; ret (inr (None, name))
      else ret (inr (Some ip, name))
  | Some (path, name) =>
      ilock ip ;;;
      i <- getinode ip ;;
      if negb (i_type i =? T_DIR) then iunlockput ip ;;; ret (inr (None, name))
      else if nameiparent && bool_decide (path = []) then iunlock ip ;;; ret (inr (Some ip, name))
      else
        next <- dirlookup ip name ;;
        match next with
        | None => iunlockput ip ;;; ret (inr (None, name))
        | Some (next, _) => iunlockput ip ;;; ret (inl (next, path, name))
        end
  end.

Definition namex (path : list Z) (nameiparent : bool) (name : list Z) : K (option nat * list Z) :=
  ip <- (if bool_decide (head path = Some SLASH) then iget ROOTDEV ROOTINO
         else
           p <- curproc ;;
           pr <- getproc p ;;
           match p_cwd pr with
           | Some c => idup c
           | None => panic "null inode pointer"
           end) ;;
  loop (S (length path)) (namex_step nameiparent) (ip, path, name).

Definition namei (path : list Z) : K (option nat) :=
  r <- namex path false (zeros 14) ;; ret r.1.
Definition nameiparent (path name : list Z) : K (option nat * list Z) := namex path true name.
End Namei.

(* ------------------------------------------------------------------ *)
(** ** Path elements *)

(** The non-empty pieces of a path between slashes. *)
Fixpoint elems_acc (path cur : list Z) : list (list Z) :=
  match path with
  | [] => if bool_decide (cur = []) then [] else [cur]
  | c :: path =>
      if c =? SLASH then
        if bool_decide (cur = []) then elems_acc path [] else cur :: elems_acc path []
      else elems_acc path (cur ++ [c])
  end.
Definition elems (path : list Z) : list (list Z) := elems_acc path [].

Lemma elems_skip path : elems (skip_slashes path) = elems path.
Proof.
  induction path as [|c path IH]; [done|]. simpl. unfold elems at 2. simpl.
  destruct (c =? SLASH) eqn:E; [exact IH|]. unfold elems. simpl. by rewrite E.
Qed.

Lemma skip_slashes_head path c rest : skip_slashes path = c :: rest -> (c =? SLASH) = false.
Proof.
  induction path as [|d path IH]; simpl; [done|]. destruct (d =? SLASH) eqn:E; [done|].
  by intros [= -> ->].
Qed.

Lemma skip_slashes_length path : (length (skip_slashes path) <= length path)%nat.
Proof. induction path as [|c path IH]; simpl; [lia|]. case_match; simpl; lia. Qed.

Lemma span_elem_acc path cur :
  cur ++ (span_elem path).1 <> [] ->
  elems_acc path cur = (cur ++ (span_elem path).1) :: elems (span_elem path).2.
Proof.
  revert cur. induction path as [|c path IH]; intros cur; simpl.
  - rewrite app_nil_r. intros Hc. by rewrite bool_decide_eq_false_2.
  - destruct (c =? SLASH) eqn:E; simpl.
    + rewrite app_nil_r. intros Hc. rewrite bool_decide_eq_false_2 by done.
      f_equal. unfold elems. simpl. by rewrite E.
    + destruct (span_elem path) as [e r] eqn:Hs. simpl in *. intros _.
      rewrite IH, <- app_assoc; [done|]. rewrite <- app_assoc. by destruct cur.
Qed.

Lemma span_elem_length path :
  (length (span_elem path).1 + length (span_elem path).2 = length path)%nat /\
  Forall (fun c => c <> SLASH) (span_elem path).1.
Proof.
  induction path as [|c path [IH1 IH2]]; simpl; [done|].
  destruct (Z.eqb_spec c SLASH); simpl; [by split; [|constructor]|].
  destruct (span_elem path) as [e r]. simpl in *. split; [lia|by constructor].
Qed.

Lemma Forall_elems_nz path : Forall (fun c => c <> 0) path ->
  Forall (fun c => c <> 0) (skip_slashes path) /\ Forall (fun c => c <> 0) (span_elem path).1.
Proof.
  induction path as [|c path IH]; intros Hf; [by split; constructor|].
  apply Forall_cons in Hf as [Hc Hf]. destruct (IH Hf) as [H1 H2]. simpl. split.
  - case_match; [done|by constructor].
  - case_match; [by constructor|]. destruct (span_elem path). by constructor.
Qed.

(** A string without NULs read back from the array it was copied to. *)
Lemma cstr_nz l : Forall (fun c => c <> 0) l -> cstr l = l.
Proof.
  induction 1 as [|c l Hc _ IH]; [done|]. simpl. rewrite (proj2 (nz_true c)) by done. by f_equal.
Qed.

Lemma cstr_app l r : Forall (fun c => c <> 0) l -> cstr (l ++ r) = l ++ cstr r.
Proof.
  induction 1 as [|c l Hc _ IH]; [done|]. simpl. rewrite (proj2 (nz_true c)) by done. by f_equal.
Qed.

Lemma copy_elem_cstr name e :
  length name = DIRSIZ -> Forall (fun c => c <> 0) e ->
  cstr (copy_elem name e) = take DIRSIZ e /\ length (copy_elem name e) = DIRSIZ.
Proof.
  intros Hn He. unfold copy_elem. destruct (Nat.leb_spec DIRSIZ (length e)) as [Hge|Hlt].
  - split; [by apply cstr_nz, Forall_take|]. rewrite length_take. lia.
  - rewrite take_ge by lia. split; [rewrite cstr_app by done; simpl; by rewrite app_nil_r|].
    rewrite !length_app, length_drop. simpl. lia.
Qed.

(** [skipelem] walks through the non-empty elements of a path. It returns a
    null pointer exactly when no element is left; otherwise the element it
    stores in [name], cut at 14 bytes, is the first one, the returned path has
    exactly the remaining elements, is shorter, has no leading slash, and is
    empty exactly when the element was the last. *)
Theorem skipelem_elems path name :
  Forall (fun c => c <> 0) path -> length name = DIRSIZ ->
  match skipelem path name with
  | None => elems path = []
  | Some (rest, name') =>
      exists e, elems path = e :: elems rest /\ e <> [] /\
        cstr name' = take DIRSIZ e /\ length name' = DIRSIZ /\
        (length rest < length path)%nat /\ head rest <> Some SLASH /\
        (rest = [] <-> elems rest = [])
  end.
Proof.
  intros Hnz Hname. unfold skipelem. rewrite <- (elems_skip path).
  destruct (skip_slashes path) as [|c p] eqn:Hp; [done|].
  destruct (span_elem (c :: p)) as [e r] eqn:Hs. exists e.
  pose proof (skip_slashes_head _ _ _ Hp) as Hc. pose proof (skip_slashes_length path) as Hl.
  pose proof (span_elem_length (c :: p)) as [Hsl _]. rewrite Hs, Hp in *. simpl in Hsl, Hl.
  assert (e <> []) as Hne.
  { simpl in Hs. rewrite Hc in Hs. destruct (span_elem p). by injection Hs as <- <-. }
  assert (elems (c :: p) = e :: elems r) as He.
  { unfold elems at 1. rewrite span_elem_acc; rewrite Hs; done. }
  destruct (Forall_elems_nz path Hnz) as [Hnz1 _]. rewrite Hp in Hnz1.
  destruct (Forall_elems_nz (c :: p) Hnz1) as [_ Hnz2]. rewrite Hs in Hnz2.
  destruct (copy_elem_cstr name e Hname Hnz2) as [Hcs Hlen].
  pose proof (skip_slashes_length r). rewrite elems_skip.
  assert (length e <> 0)%nat by (by destruct e). split_and!; try done; [lia|..].
  - intros Hh. destruct (skip_slashes r) as [|d q] eqn:Hr; [done|]. injection Hh as ->.
    by apply skip_slashes_head in Hr.
  - rewrite <- elems_skip. destruct (skip_slashes r) as [|d q] eqn:Hr; [done|].
    split; [done|]. apply skip_slashes_head in Hr. unfold elems. simpl. rewrite Hr.
    rewrite span_elem_acc; [done|]. by destruct (span_elem q).
Qed.

Lemma skipelem_elems_witness :
  match skipelem [47; 97; 47; 47; 98] (zeros 14) with
  | None => False
  | Some (rest, _) => elems [47; 97; 47; 47; 98] = [97] :: elems rest
  end.
Proof.
  pose proof (skipelem_elems [47; 97; 47; 47; 98] (zeros 14)) as H.
  destruct (skipelem [47; 97; 47; 47; 98] (zeros 14)) as [[rest name]|] eqn:E; [|discriminate E].
  destruct H as (e & He & _).
  - repeat constructor; lia.
  - reflexivity.
  - rewrite He. f_equal. injection E as <- <-. vm_compute in He. congruence.
Defined.
