(* ===== verification/Txn.v ===== *)
(** * Blocks inside a transaction

    A process between [begin_op] and [end_op], not interrupted, sees every
    block through the buffer cache. [tx s L V hs it]: the state [s] has the
    blocks [L] in the log, block [bn] reads as [V bn], this process has the
    buffers [hs] locked, and [it] is the table of inodes. One rule per
    operation on blocks; then the block allocator of fs.c ([balloc],
    [bfree]). *)

From S2P Require Import Prelude Machine KState Spinlock Kalloc Walk Vm Sched Strings Printf Print Bio BufCache BufRules Log Fs.
Local Open Scope Z_scope.
Local Open Scope kern_scope.

(** A function changed at one point. *)
Definition bupd {A} (bn : Z) (v : A) (V : Z -> A) : Z -> A := fun x => if decide (x = bn) then v else V x.

Lemma bupd_eq {A} bn (v : A) V : bupd bn v V bn = v.
Proof. unfold bupd. by rewrite decide_True. Qed.
Lemma bupd_ne {A} bn x (v : A) V : x <> bn -> bupd bn v V x = V x.
Proof. intros H. unfold bupd. by rewrite decide_False. Qed.

(** The log grew by at most [k] blocks. *)
Definition grow (k : nat) (L L' : list Z) : Prop := L ⊆ L' /\ (length L' <= length L + k)%nat.

Lemma grow_refl k L : grow k L L.
Proof. split; [done|lia]. Qed.
Lemma grow_trans j k L1 L2 L3 : grow j L1 L2 -> grow k L2 L3 -> grow (j + k) L1 L3.
Proof. intros [H1 H2] [H3 H4]. split; [set_solver|lia]. Qed.
Lemma grow_le j k L L' : grow j L L' -> (j <= k)%nat -> grow k L L'.
Proof. intros [H1 H2] ?. split; [done|lia]. Qed.

(** The entry of a block in the cache: one reference if it is in the log, one
    if this process uses it. *)
Definition count_in (l : list Z) (bn : Z) : Z := if decide (bn ∈ l) then 1 else 0.
Definition centry (L : list Z) (V : Z -> list Z) (hs : list Z) (bn : Z) : option entry :=
  if decide (bn ∈ L ++ hs) then Some (mkentry (count_in L bn + count_in hs bn) (bool_decide (bn ∈ hs)) (V bn))
  else None.

(** A block added to the log. *)
Definition log_add (L : list Z) (bn : Z) : list Z := if decide (bn ∈ L) then L else L ++ [bn].

Lemma elem_of_log_add L bn x : x ∈ log_add L bn <-> x ∈ L \/ x = bn.
Proof. unfold log_add. destruct (decide (bn ∈ L)); set_solver. Qed.
Lemma grow_log_add L bn : grow 1 L (log_add L bn).
Proof.
  split; [intros x Hx; apply elem_of_log_add; auto|].
  unfold log_add. destruct (decide (bn ∈ L)); [lia|]. rewrite length_app. simpl. lia.
Qed.

Lemma range_step_split lo step n pre b post :
  range_step lo step n = pre ++ b :: post -> b = lo + step * Z.of_nat (length pre) /\ (length pre < n)%nat.
Proof.
  revert lo n. induction pre as [|x pre IH]; intros lo [|n] Hr; try done; rewrite range_step_S in Hr; simpl in Hr.
  - injection Hr as <- _. simpl. lia.
  - injection Hr as _ Hr. apply IH in Hr. simpl. lia.
Qed.

(* ------------------------------------------------------------------ *)
(** ** The bitmap *)

Lemma bit_free_testbit data bi :
  0 <= bi -> bit_free data bi = negb (Z.testbit (bit_byte data bi) (bi mod 8)).
Proof.
  intros Hb. unfold bit_free, bit_mask. rewrite Z.shiftl_1_l.
  set (k := bi mod 8). assert (0 <= k) by (apply Z.mod_pos_bound; lia). clearbody k.
  destruct (Z.testbit (bit_byte data bi) k) eqn:E; simpl.
  - apply Z.eqb_neq. intros E'. apply (f_equal (fun z => Z.testbit z k)) in E'.
    by rewrite Z.land_spec, E, Z.pow2_bits_true, Z.bits_0 in E' by done.
  - apply Z.eqb_eq. apply Z.bits_inj'. intros n Hn. rewrite Z.land_spec, Z.bits_0.
    destruct (decide (n = k)) as [->|]; [by rewrite E|]. rewrite Z.pow2_bits_false by done. by rewrite andb_false_r.
Qed.

Lemma div_mod8_inj a b : a / 8 = b / 8 -> a mod 8 = b mod 8 -> a = b.
Proof. intros H1' H2'. rewrite (Z.div_mod a 8), (Z.div_mod b 8) by lia. congruence. Qed.

Lemma bit_byte_insert data bi bj v :
  0 <= bi < BPB -> 0 <= bj -> length data = 1024%nat ->
  bit_byte (<[Z.to_nat (bi / 8) := v]> data) bj = if decide (bj / 8 = bi / 8) then v else bit_byte data bj.
Proof.
  intros Hi Hj Hl. unfold bit_byte. assert (0 <= bi / 8 < 1024) by (split; [apply Z.div_pos|apply Z.div_lt_upper_bound]; lia).
  assert (0 <= bj / 8) by (apply Z.div_pos; lia).
  destruct (decide (bj / 8 = bi / 8)) as [->|Hne].
  - by rewrite list_lookup_total_insert_eq by lia.
  - by rewrite list_lookup_total_insert_ne by lia.
Qed.

Lemma bit_free_set data bi bj :
  0 <= bi < BPB -> 0 <= bj -> length data = 1024%nat ->
  bit_free (set_bit data bi) bj = if decide (bj = bi) then false else bit_free data bj.
Proof.
  intros Hi Hj Hl. rewrite !bit_free_testbit by lia. unfold set_bit, bit_mask.
  rewrite bit_byte_insert by done. rewrite Z.shiftl_1_l.
  assert (0 <= bj mod 8) by (apply Z.mod_pos_bound; lia).
  destruct (decide (bj / 8 = bi / 8)) as [Hd|Hd]; [|rewrite decide_False by congruence; done].
  rewrite Z.lor_spec. destruct (decide (bj = bi)) as [->|Hne].
  - by rewrite Z.pow2_bits_true, orb_true_r by done.
  - rewrite Z.pow2_bits_false, orb_false_r by (intros E; apply Hne, div_mod8_inj; congruence).
    unfold bit_byte. by rewrite Hd.
Qed.

Lemma bit_free_clear data bi bj :
  0 <= bi < BPB -> 0 <= bj -> length data = 1024%nat ->
  bit_free (clear_bit data bi) bj = if decide (bj = bi) then true else bit_free data bj.
Proof.
  intros Hi Hj Hl. rewrite !bit_free_testbit by lia. unfold clear_bit, bit_mask.
  rewrite bit_byte_insert by done. rewrite Z.shiftl_1_l.
  assert (0 <= bj mod 8 < 8) by (apply Z.mod_pos_bound; lia).
  destruct (decide (bj / 8 = bi / 8)) as [Hd|Hd]; [|rewrite decide_False by congruence; done].
  unfold u8. change 256 with (2 ^ 8). rewrite Z.mod_pow2_bits_low by lia. rewrite Z.land_spec, Z.lnot_spec by lia.
  destruct (decide (bj = bi)) as [->|Hne].
  - by rewrite Z.pow2_bits_true, andb_false_r by lia.
  - rewrite Z.pow2_bits_false, andb_true_r by (intros E; apply Hne, div_mod8_inj; congruence).
    unfold bit_byte. by rewrite Hd.
Qed.


Section Bitmap.
Variable sb : superblock.

(** Where things are on the disk: everything before the data area is
    reserved. *)
Definition data_start : Z := sb_bmapstart sb + (sb_size sb - 1) / BPB + 1.
Definition used (V : Z -> list Z) (b : Z) : Prop := bit_free (V (BBLOCK b sb)) (b mod BPB) = false.
Definition bitmap_block (bn : Z) : Prop := sb_bmapstart sb <= bn < data_start.

Record layout : Prop := {
  lay_bmap : 0 <= sb_bmapstart sb;
  lay_pos : 0 < sb_size sb;
  lay_size : data_start <= sb_size sb < 2 ^ 31
}.

Definition reserved (V : Z -> list Z) : Prop := forall bn, 0 <= bn < data_start -> used V bn.
Definition held_ok (V : Z -> list Z) (hs : list (nat * Z)) : Prop :=
  forall bn, bn ∈ hs.*2 -> used V bn /\ ~ bitmap_block bn.

(** The blocks after [balloc] gave out [a], and after [bfree]. *)
Definition balloc_V (V : Z -> list Z) (a : Z) : Z -> list Z :=
  bupd a zero_block (bupd (BBLOCK a sb) (set_bit (V (BBLOCK a sb)) (a mod BPB)) V).
Definition bfree_V (V : Z -> list Z) (a : Z) : Z -> list Z :=
  bupd (BBLOCK a sb) (clear_bit (V (BBLOCK a sb)) (a mod BPB)) V.

Hypothesis lay : layout.

Lemma BBLOCK_eq b : 0 <= b < sb_size sb -> BBLOCK b sb = b / BPB + sb_bmapstart sb.
Proof.
  intros Hb. destruct lay as [L1 L0 L2]. unfold data_start in *. unfold BBLOCK. apply u32_small.
  assert (0 <= b / BPB) by (apply Z.div_pos; lia).
  assert (b / BPB <= (sb_size sb - 1) / BPB) by (apply Z.div_le_mono; lia). lia.
Qed.

Lemma BBLOCK_bitmap b : 0 <= b < sb_size sb -> bitmap_block (BBLOCK b sb) /\ 0 <= BBLOCK b sb < 2 ^ 31.
Proof.
  intros Hb. rewrite BBLOCK_eq by done. destruct lay as [L1 L0 L2]. unfold bitmap_block, data_start in *.
  assert (0 <= b / BPB) by (apply Z.div_pos; lia).
  assert (b / BPB <= (sb_size sb - 1) / BPB) by (apply Z.div_le_mono; lia). lia.
Qed.

Lemma BBLOCK_add b bi : 0 <= b -> b mod BPB = 0 -> 0 <= bi < BPB -> BBLOCK (b + bi) sb = BBLOCK b sb /\ (b + bi) mod BPB = bi.
Proof.
  intros Hb Hm Hbi. unfold BBLOCK. rewrite (Z.div_mod b BPB) at 1 3 by lia. rewrite Hm, Z.add_0_r, (Z.mul_comm BPB).
  rewrite Z.div_add_l, (Z.div_small bi) by lia. split; [f_equal; lia|].
  rewrite Z.add_comm, Z.mod_add by lia. by apply Z.mod_small.
Qed.

Lemma BBLOCK_inj b c : 0 <= b < sb_size sb -> 0 <= c < sb_size sb ->
  BBLOCK b sb = BBLOCK c sb -> b mod BPB = c mod BPB -> b = c.
Proof.
  intros Hb Hc. rewrite !BBLOCK_eq by done. intros E1 E2.
  rewrite (Z.div_mod b BPB), (Z.div_mod c BPB) by lia. rewrite E2. f_equal. f_equal. lia.
Qed.

(** The bitmap after [balloc]: block [a], and no other, has become used. *)
Lemma used_balloc V a b :
  (forall bn, length (V bn) = 1024%nat) -> data_start <= a < sb_size sb -> 0 <= b < sb_size sb ->
  used (balloc_V V a) b <-> used V b \/ b = a.
Proof.
  intros Hl Ha Hb. unfold used, balloc_V.
  assert (0 <= data_start) by (destruct lay; unfold data_start in *; pose proof (Z.div_pos (sb_size sb - 1) BPB); lia).
  destruct (BBLOCK_bitmap b Hb) as [[_ Hbb] _].
  rewrite bupd_ne by lia. destruct (decide (BBLOCK b sb = BBLOCK a sb)) as [E|E].
  - rewrite E, bupd_eq, bit_free_set by (try done; apply Z.mod_pos_bound; lia).
    destruct (decide (b mod BPB = a mod BPB)) as [E'|E'].
    + assert (b = a) by (apply BBLOCK_inj; auto; lia). tauto.
    + split; [by left|]. intros [?| ->]; done.
  - rewrite bupd_ne by done. split; [by left|]. intros [?| ->]; done.
Qed.

Lemma used_bfree V a b :
  (forall bn, length (V bn) = 1024%nat) -> 0 <= a < sb_size sb -> 0 <= b < sb_size sb ->
  used (bfree_V V a) b <-> used V b /\ b <> a.
Proof.
  intros Hl Ha Hb. unfold used, bfree_V. destruct (decide (BBLOCK b sb = BBLOCK a sb)) as [E|E].
  - rewrite E, bupd_eq, bit_free_clear by (try done; apply Z.mod_pos_bound; lia).
    destruct (decide (b mod BPB = a mod BPB)) as [E'|E'].
    + assert (b = a) by (apply BBLOCK_inj; auto; lia). split; [done|tauto].
    + split; [|tauto]. intros Hu. split; [done|]. intros ->. done.
  - rewrite bupd_ne by done. split; [|tauto]. intros Hu. split; [done|]. intros ->. done.
Qed.

(** A bitmap block without a free bit. *)
Lemma none_free V b :
  0 <= b < sb_size sb -> b mod BPB = 0 ->
  find (bit_free (V (BBLOCK b sb))) (seqZ 0 (Z.min BPB (sb_size sb - b))) = None ->
  forall b', b <= b' < b + BPB -> b' < sb_size sb -> used V b'.
Proof.
  intros Hb Hm Hf b' Hb' Hs. destruct (BBLOCK_add b (b' - b)) as [E1 E2]; [lia..|].
  replace (b + (b' - b)) with b' in * by lia. unfold used. rewrite E1, E2.
  apply (find_not _ _ _ Hf). apply elem_of_seqZ. lia.
Qed.

Lemma some_free V b bi :
  0 <= b < sb_size sb -> b mod BPB = 0 ->
  find (bit_free (V (BBLOCK b sb))) (seqZ 0 (Z.min BPB (sb_size sb - b))) = Some bi ->
  0 <= bi < BPB /\ b + bi < sb_size sb /\ ~ used V (b + bi).
Proof.
  intros Hb Hm Hf. apply find_in in Hf as [Hin Hf]. apply elem_of_seqZ in Hin.
  destruct (BBLOCK_add b bi) as [E1 E2]; [lia..|]. unfold used. rewrite E1, E2. split_and!; [lia..|]. congruence.
Qed.

End Bitmap.

Section Txn.
Variables (dev : Z) (p : nat) (pid : Z) (D : disk) (sb : superblock).
Context `{SleepFuel} `{BlockDev} `{!BlockDevOk}.

Record log_has (lg : log) (L : list Z) : Prop := {
  lh_n : lg_n lg = Z.of_nat (length L);
  lh_list : take (length L) (lg_block lg) = L;
  lh_len : length (lg_block lg) = Z.to_nat LOGBLOCKS;
  lh_open : 1 <= lg_outstanding lg;
  lh_range : Forall (fun bn => 0 <= bn < 2 ^ 31) L
}.

Record tx (s : kst) (L : list Z) (V : Z -> list Z) (hs : list (nat * Z)) (it : list inode) : Prop := {
  tx_own : exists A, own dev p pid s s A D hs /\ forall bn, A !! bn = centry L V (hs.*2) bn;
  tx_log : log_has (k_log s) L;
  tx_clean : forall bn, bn ∉ L -> bn ∉ hs.*2 -> V bn = dget D bn;
  tx_held : NoDup (hs.*2);
  tx_it : k_itable s = it;
  tx_sb : k_sb s = sb
}.

Lemma own_rebase s0 s A hs : own dev p pid s0 s A D hs -> own dev p pid s s A D hs.
Proof. intros [C F E B]. by split. Qed.

Lemma frame_itable s s' : frame s s' -> k_itable s' = k_itable s.
Proof. intros Hf. by apply (f_equal k_itable) in Hf. Qed.

(** After an operation that changes only buffers. *)
Lemma tx_after s s' A' L V V' hs hs' it :
  tx s L V hs it -> own dev p pid s s' A' D hs' -> (forall bn, A' !! bn = centry L V' (hs'.*2) bn) ->
  (forall bn, bn ∉ L -> bn ∉ hs'.*2 -> V' bn = dget D bn) -> NoDup (hs'.*2) -> tx s' L V' hs' it.
Proof.
  intros [T1 T2 T3 T4 T5 T6] Ho HA Hc Hn. pose proof (own_frame _ _ _ _ _ _ _ _ Ho) as F. split.
  - exists A'. split; [by eapply own_rebase|done].
  - by rewrite (frame_log _ _ F).
  - done.
  - done.
  - by rewrite (frame_itable _ _ F).
  - by rewrite (frame_sb _ _ F).
Qed.

Lemma size_list_le (l : list Z) : (size (list_to_set (C := gset Z) l) <= length l)%nat.
Proof.
  induction l as [|x l IH]; simpl; [done|]. rewrite size_union_alt, size_singleton.
  assert (size (list_to_set (C := gset Z) l ∖ {[x]}) <= size (list_to_set (C := gset Z) l))%nat;
    [apply subseteq_size; set_solver|lia].
Qed.

Lemma size_centry (A : gmap Z entry) L V (hs : list Z) :
  (forall bn, A !! bn = centry L V hs bn) -> (size A <= length L + length hs)%nat.
Proof.
  intros HA. rewrite <- length_app, <- size_dom.
  etransitivity; [|apply size_list_le]. apply subseteq_size.
  intros bn [e He]%elem_of_dom. rewrite HA in He. unfold centry in He.
  destruct (decide (bn ∈ L ++ hs)); [|done]. by apply elem_of_list_to_set.
Qed.

Lemma tx_bread (fuel_pos : (0 < sleep_fuel)%nat) s L V hs it bn (Q : nat -> kst -> Prop) :
  tx s L V hs it -> bn ∉ hs.*2 -> (length L + length hs < NBUF)%nat ->
  (forall b s', tx s' L V ((b, bn) :: hs) it -> Q b s') -> runs (bread dev bn) s Q.
Proof.
  intros Ht Hbn Hlen Hk. destruct (tx_own _ _ _ _ _ Ht) as (A & Ho & HA).
  assert (A !! bn = if decide (bn ∈ L) then Some (mkentry 1 false (V bn)) else None) as He.
  { rewrite HA. unfold centry, count_in. rewrite (decide_False (P := bn ∈ hs.*2)), bool_decide_eq_false_2 by done.
    destruct (decide (bn ∈ L)); [rewrite decide_True by set_solver|rewrite decide_False by set_solver]; done. }
  apply (rule_bread dev p pid fuel_pos s s A D hs bn); [done| |].
  - unfold readable. rewrite He. destruct (decide (bn ∈ L)); [simpl; lia|].
    pose proof (size_centry _ _ _ _ HA) as Hs. rewrite length_fmap in Hs. lia.
  - intros b s' Ho'. apply Hk. eapply tx_after; [done|exact Ho'| | |].
    + intros bn'. destruct (decide (bn' = bn)) as [->|Hne].
      * rewrite lookup_insert_eq. unfold got, centry, count_in. rewrite He. cbn [fst snd fmap list_fmap].
        rewrite (decide_True (P := bn ∈ L ++ _)), (decide_True (P := bn ∈ bn :: _)), bool_decide_eq_true_2 by set_solver.
        destruct (decide (bn ∈ L)) as [HL|HL]; [done|]. by rewrite (tx_clean _ _ _ _ _ Ht).
      * rewrite lookup_insert_ne, HA by done. unfold centry, count_in. cbn [fst snd fmap list_fmap].
        by rewrite (decide_ext (bn' ∈ bn :: hs.*2) (bn' ∈ hs.*2)), (decide_ext (bn' ∈ L ++ bn :: hs.*2) (bn' ∈ L ++ hs.*2)),
          (bool_decide_ext (bn' ∈ bn :: hs.*2) (bn' ∈ hs.*2)) by set_solver.
    + intros bn' H1' H2'. apply Ht; set_solver.
    + cbn. constructor; [done|apply Ht].
Qed.

Lemma centry_held L V (hs : list Z) bn : bn ∈ hs -> centry L V hs bn = Some (mkentry (count_in L bn + 1) true (V bn)).
Proof.
  intros Hin. unfold centry. rewrite decide_True by set_solver. rewrite bool_decide_eq_true_2 by done.
  unfold count_in at 2. by rewrite decide_True.
Qed.

Lemma in_fst (hs : list (nat * Z)) b bn : (b, bn) ∈ hs -> bn ∈ hs.*2.
Proof. intros Hin. apply list_elem_of_fmap. by exists (b, bn). Qed.

Lemma tx_getbuf s L V hs it b bn (Q : buf -> kst -> Prop) :
  tx s L V hs it -> (b, bn) ∈ hs ->
  (forall x, b_data x = V bn -> b_blockno x = bn -> Q x s) -> runs (getbuf b) s Q.
Proof.
  intros Ht Hin Hk. destruct (tx_own _ _ _ _ _ Ht) as (A & Ho & HA).
  eapply rule_getbuf; [done|done|rewrite HA; apply centry_held; by eapply in_fst|exact Hk].
Qed.

(** Blocks have 1024 bytes. *)
Lemma tx_length s L V hs it bn : tx s L V hs it -> length (V bn) = 1024%nat.
Proof.
  intros Ht. destruct (tx_own _ _ _ _ _ Ht) as (A & Ho & HA).
  pose proof (own_cache _ _ _ _ _ _ _ _ Ho) as C.
  destruct (decide (bn ∈ L ++ hs.*2)) as [Hin|Hin].
  - destruct (A !! bn) as [e|] eqn:E; [|rewrite HA in E; unfold centry in E; by rewrite decide_True in E].
    destruct (c_used _ _ _ _ _ C bn e E) as (b & Hb).
    pose proof E as E'. rewrite (cache_entry _ _ _ _ _ _ _ C Hb) in E'. rewrite HA in E. unfold centry in E.
    rewrite decide_True in E by done. injection E as <-. injection E' as _ _ <-.
    apply (ok_data _ _ _ _ _ (c_buf _ _ _ _ _ C b (proj1 Hb))).
  - rewrite (tx_clean _ _ _ _ _ Ht) by set_solver. apply length_dget.
    pose proof (c_disk _ _ _ _ _ C) as Hd. by rewrite (own_disk _ _ _ _ _ _ _ _ Ho) in Hd.
Qed.

Lemma tx_blit s L V hs it b bn (g : list Z -> list Z) (Q : unit -> kst -> Prop) :
  tx s L V hs it -> (b, bn) ∈ hs -> length (g (V bn)) = 1024%nat ->
  (forall s', tx s' L (bupd bn (g (V bn)) V) hs it -> Q tt s') ->
  runs (updbuf b (fun x => set_b_data (g (b_data x)) x)) s Q.
Proof.
  intros Ht Hin Hl Hk. destruct (tx_own _ _ _ _ _ Ht) as (A & Ho & HA).
  pose proof (in_fst _ _ _ Hin) as Hin2.
  eapply rule_blit; [done|done|rewrite HA; by apply centry_held|done|].
  intros s' Ho'. apply Hk. eapply tx_after; [done|exact Ho'| | |apply Ht].
  - intros bn'. destruct (decide (bn' = bn)) as [->|Hne].
    + by rewrite lookup_insert_eq, centry_held, bupd_eq.
    + rewrite lookup_insert_ne, HA by done. unfold centry. by rewrite bupd_ne.
  - intros bn' H1' H2'. rewrite bupd_ne by set_solver. by apply Ht.
Qed.

Lemma tx_brelse s L V hs it b bn (Q : unit -> kst -> Prop) :
  tx s L V ((b, bn) :: hs) it -> (bn ∈ L \/ V bn = dget D bn) ->
  (forall s', tx s' L V hs it -> Q tt s') -> runs (brelse b) s Q.
Proof.
  intros Ht Hcl Hk. destruct (tx_own _ _ _ _ _ Ht) as (A & Ho & HA).
  pose proof (tx_held _ _ _ _ _ Ht) as Hnd. cbn in Hnd. apply NoDup_cons in Hnd as [Hn1 Hnd].
  eapply (rule_brelse dev p pid s s A D ((b, bn) :: hs) hs b bn);
    [done|set_solver|rewrite HA; apply centry_held; set_solver|done| |set_solver| |].
  - cbn. unfold count_in. destruct (decide (bn ∈ L)); [lia|]. intros _. by destruct Hcl.
  - intros b' Hb'. by apply in_fst in Hb'.
  - intros s' Ho'. apply Hk. eapply tx_after; [done|exact Ho'| | |done].
    + intros bn'. unfold put. cbn [e_ref e_data]. destruct (decide (bn' = bn)) as [->|Hne].
      * unfold centry, count_in. rewrite (decide_False (P := bn ∈ hs.*2)), bool_decide_eq_false_2 by done.
        destruct (decide (bn ∈ L)) as [HL|HL]; [change (1 + 1 =? 1) with false|change (0 + 1 =? 1) with true]; cbv iota.
        -- rewrite lookup_insert_eq. rewrite decide_True by set_solver. done.
        -- rewrite lookup_delete_eq. by rewrite decide_False by set_solver.
      * transitivity (A !! bn'); [destruct (_ =? 1); by simplify_map_eq|]. rewrite HA.
        unfold centry, count_in. cbn [fst snd fmap list_fmap].
        by rewrite (decide_ext (bn' ∈ bn :: hs.*2) (bn' ∈ hs.*2)), (decide_ext (bn' ∈ L ++ bn :: hs.*2) (bn' ∈ L ++ hs.*2)),
          (bool_decide_ext (bn' ∈ bn :: hs.*2) (bn' ∈ hs.*2)) by set_solver.
    + intros bn' H1' H2'. destruct (decide (bn' = bn)) as [->|Hne]; [by destruct Hcl|].
      apply Ht; set_solver.
Qed.

Lemma bpin_done b s : Lbcache ∉ k_held s ->
  bpin b s = Done tt (set_k_bcache (alter (fun x => set_b_refcnt (u32 (b_refcnt x + 1)) x) b (k_bcache s)) s).
Proof.
  intros Hh. unfold bpin. rewrite bind_acquire by done. unfold updbuf. rewrite bind_modify.
  erewrite release_head by done. by destruct s.
Qed.

Lemma index_of_block L bn :
  index_of (fun n => n =? bn) L = None <-> bn ∉ L.
Proof.
  rewrite index_of_None, Forall_forall. split.
  - intros Hn Hin. apply Hn in Hin. by rewrite Z.eqb_refl in Hin.
  - intros Hn n Hin. apply Z.eqb_neq. intros ->. done.
Qed.

(** [log_write] on a block that is in the log, and on one that is not. *)
Lemma log_write_old b s L :
  k_held s = [] -> log_has (k_log s) L -> (length L < Z.to_nat LOGBLOCKS)%nat ->
  b_blockno (k_bcache s !!! b) ∈ L ->
  log_write b s = Done tt s.
Proof.
  intros Hh [L1 L2 L3 L4 L5] Hlt Hin. unfold log_write, getlog, getbuf, updlog.
  rewrite bind_acquire by (rewrite Hh; set_solver).
  rewrite bind_gets. ksimp. rewrite L1.
  rewrite (proj2 (Z.leb_gt _ _)) by lia. rewrite (proj2 (Z.ltb_ge _ 1)) by lia.
  rewrite bind_gets. ksimp. rewrite Nat2Z.id, L2.
  rewrite Forall_forall in L5. rewrite i32_small by (apply L5 in Hin; lia).
  destruct (index_of _ L) as [i|] eqn:E; [|by apply index_of_block in E].
  apply index_of_Some in E as ((n & Hn & Hnb%Z.eqb_eq) & _). pose proof (lookup_lt_Some _ _ _ Hn) as Hi2.
  rewrite bind_modify. ksimp. rewrite <- Hnb.
  rewrite (list_insert_id (lg_block (k_log s)) i); [|rewrite <- L2 in Hn; by apply lookup_take_Some in Hn as [? _]].
  rewrite (proj2 (Z.eqb_neq _ _)) by lia. rewrite bind_ret.
  erewrite release_head by done. destruct s; ksimp in *. subst. by destruct k_log.
Qed.

Lemma log_write_new b s L :
  k_held s = [] -> log_has (k_log s) L -> (length L < Z.to_nat LOGBLOCKS)%nat ->
  let bn := b_blockno (k_bcache s !!! b) in
  bn ∉ L -> 0 <= bn < 2 ^ 31 ->
  exists s1 lg', bpin b s = Done tt s1 /\ log_write b s = Done tt (set_k_log lg' s1) /\ log_has lg' (L ++ [bn]).
Proof.
  intros Hh [L1 L2 L3 L4 L5] Hlt bn Hin Hr. eexists _, _. rewrite bpin_done by (rewrite Hh; set_solver).
  split; [done|]. unfold log_write, getlog, getbuf, updlog.
  rewrite bind_acquire by (rewrite Hh; set_solver).
  rewrite bind_gets. ksimp. rewrite L1.
  rewrite (proj2 (Z.leb_gt _ _)) by lia. rewrite (proj2 (Z.ltb_ge _ 1)) by lia.
  rewrite bind_gets. ksimp. rewrite Nat2Z.id, L2. rewrite (i32_small (b_blockno _)) by (subst bn; lia).
  rewrite (proj2 (index_of_block _ _)) by done. rewrite bind_modify. ksimp.
  rewrite Z.eqb_refl. erewrite bind_bind; [|apply bpin_done; ksimp; rewrite Hh; set_solver].
  rewrite bind_modify. erewrite release_head by done. ksimp. rewrite Hh. split.
  - f_equal. instantiate (1 := set_lg_n (Z.of_nat (length L) + 1) (set_lg_block (<[length L := bn]> (lg_block (k_log s))) (k_log s))).
    rewrite <- L1. destruct s. ksimp in *. subst. done.
  - split; ksimp.
    + rewrite length_app. simpl. lia.
    + rewrite length_app. simpl. rewrite Nat.add_1_r.
      rewrite (take_S_r _ _ bn) by (rewrite list_lookup_insert_eq; [done|lia]).
      rewrite take_insert_ge by lia. by rewrite L2.
    + by rewrite length_insert.
    + done.
    + apply Forall_app. split; [done|]. by apply Forall_singleton.
Qed.

Lemma cache_other s A lg it :
  cache dev p pid s A -> cache dev p pid (set_k_itable it (set_k_log lg s)) A.
Proof. intros []. by split. Qed.

Lemma tx_log_write s L V hs it b bn (Q : unit -> kst -> Prop) :
  tx s L V hs it -> (b, bn) ∈ hs -> 0 <= bn < 2 ^ 31 -> (length L < NBUF)%nat ->
  (forall s', tx s' (log_add L bn) V hs it -> Q tt s') -> runs (log_write b) s Q.
Proof.
  intros Ht Hin Hr Hlen Hk. destruct (tx_own _ _ _ _ _ Ht) as (A & Ho & HA).
  pose proof (c_held _ _ _ _ _ (own_cache _ _ _ _ _ _ _ _ Ho)) as Hh.
  destruct (own_bufs _ _ _ _ _ _ _ _ Ho b bn Hin) as (_ & _ & Hbn & _).
  pose proof (in_fst _ _ _ Hin) as Hin2. pose proof (tx_log _ _ _ _ _ Ht) as Hlog.
  unfold log_add in Hk. destruct (decide (bn ∈ L)) as [HL|HL].
  - eapply runs_done; [eapply log_write_old; try done; by rewrite Hbn|]. by apply Hk.
  - destruct (log_write_new b s L) as (s1 & lg' & E1 & E2 & Hlog'); try done; [by rewrite Hbn..|].
    rewrite Hbn in Hlog'.
    assert (runs (bpin b) s (fun _ s1 => own dev p pid s s1 (<[bn := mkentry 2 true (V bn)]> A) D hs)) as Hp.
    { apply (rule_bpin dev p pid s s A D hs b bn (mkentry 1 true (V bn))); [done|done| |cbn; lia|done].
      rewrite HA, centry_held by done. unfold count_in. by rewrite decide_False. }
    unfold runs in Hp. rewrite E1 in Hp. eapply runs_done; [exact E2|]. apply Hk.
    pose proof (own_frame _ _ _ _ _ _ _ _ Hp) as F. split.
    + eexists. split.
      * destruct Hp as [C _ Ed B]. split; [|done|done|exact B]. 
        apply (cache_other _ _ lg' (k_itable s1)) in C. by destruct s1.
      * intros bn'. destruct (decide (bn' = bn)) as [->|Hne].
        -- rewrite lookup_insert_eq, centry_held by done. unfold count_in. by rewrite decide_True by set_solver.
        -- rewrite lookup_insert_ne, HA by done. unfold centry, count_in.
           by rewrite (decide_ext (bn' ∈ (L ++ [bn]) ++ hs.*2) (bn' ∈ L ++ hs.*2)), (decide_ext (bn' ∈ L ++ [bn]) (bn' ∈ L)) by set_solver.
    + done.
    + intros bn' H1' H2'. apply Ht; set_solver.
    + apply Ht.
    + transitivity (k_itable s1); [done|]. rewrite (frame_itable _ _ F). apply Ht.
    + transitivity (k_sb s1); [done|]. rewrite (frame_sb _ _ F). apply Ht.
Qed.

Lemma tx_printf s L V hs it fmt ap (Q : unit -> kst -> Prop) :
  tx s L V hs it -> (forall s', tx s' L V hs it -> Q tt s') -> runs (printf fmt ap) s Q.
Proof.
  intros Ht Hk. destruct (tx_own _ _ _ _ _ Ht) as (A & Ho & HA).
  apply (rule_printf dev p pid s s A D hs); [done|]. intros s' Ho'. apply Hk. eapply tx_after; [done|done|done| |]; apply Ht.
Qed.

Lemma tx_updinode s L V hs it ip f (Q : unit -> kst -> Prop) :
  tx s L V hs it -> (forall s', tx s' L V hs (alter f ip it) -> Q tt s') -> runs (updinode ip f) s Q.
Proof.
  intros [T1 T2 T3 T4 T5 T6] Hk. eapply runs_done; [done|]. apply Hk. split; try done.
  - destruct T1 as (A & [C _ E B] & HA). exists A. split; [|done].
    split; [|done|done|exact B]. apply (cache_other _ _ (k_log s) (alter f ip (k_itable s))) in C. by destruct s.
  - by rewrite <- T5.
Qed.

Lemma tx_getinode {B} s L V hs it ip (f : inode -> K B) (Q : B -> kst -> Prop) :
  tx s L V hs it -> runs (f (it !!! ip)) s Q -> runs (i <- getinode ip ;; f i) s Q.
Proof. intros Ht Hk. apply runs_gets. by rewrite (tx_it _ _ _ _ _ Ht). Qed.

Lemma tx_getsb {B} s L V hs it (f : superblock -> K B) (Q : B -> kst -> Prop) :
  tx s L V hs it -> runs (f sb) s Q -> runs (x <- gets k_sb ;; f x) s Q.
Proof. intros Ht Hk. apply runs_gets. by rewrite (tx_sb _ _ _ _ _ Ht). Qed.


(* ------------------------------------------------------------------ *)
(** ** The block allocator *)

Section Alloc.
Hypothesis fuel_pos : (0 < sleep_fuel)%nat.
Hypothesis lay : layout sb.

(** [bzero]. *)
Lemma bzero_spec s L V hs it bn (Q : unit -> kst -> Prop) :
  tx s L V hs it -> bn ∉ hs.*2 -> 0 <= bn < 2 ^ 31 -> (length L + length hs < NBUF)%nat ->
  (forall s', tx s' (log_add L bn) (bupd bn zero_block V) hs it -> Q tt s') -> runs (bzero dev bn) s Q.
Proof.
  intros Ht Hbn Hr Hlen Hk. unfold bzero. rewrite u32_small by lia.
  apply runs_bind. eapply tx_bread; [done|done..|]. intros b s1 T1.
  apply runs_bind. eapply (tx_blit _ _ _ _ _ _ bn (fun _ => zero_block)); [exact T1|left|apply length_replicate|].
  intros s2 T2. apply runs_bind. eapply tx_log_write; [exact T2|left|done|lia|]. intros s3 T3.
  eapply tx_brelse; [exact T3| |exact Hk]. left. apply elem_of_log_add. by right.
Qed.

(** [bfree] of a block in use. *)
Lemma bfree_spec s L V hs it a (Q : unit -> kst -> Prop) :
  tx s L V hs it -> 0 <= a < sb_size sb -> used sb V a -> held_ok sb V hs -> (length L + length hs < NBUF)%nat ->
  (forall s', tx s' (log_add L (BBLOCK a sb)) (bfree_V sb V a) hs it -> Q tt s') -> runs (bfree dev a) s Q.
Proof.
  intros Ht Ha Hu Hh Hlen Hk. destruct (BBLOCK_bitmap sb lay a Ha) as [Hbm Hr]. unfold bfree.
  eapply tx_getsb; [done|]. apply runs_bind. eapply tx_bread; [done|done| |done|].
  { intros Hin. by apply Hh in Hin as [_ ?]. }
  intros b s1 T1. apply runs_bind. eapply tx_getbuf; [exact T1|left|]. intros x Hx _. rewrite Hx, Hu.
  apply runs_bind. eapply (tx_blit _ _ _ _ _ _ (BBLOCK a sb) (fun d => clear_bit d (a mod BPB))); [exact T1|left| |].
  { unfold clear_bit. rewrite length_insert. by eapply tx_length. }
  intros s2 T2. apply runs_bind. eapply tx_log_write; [exact T2|left|done|lia|]. intros s3 T3.
  eapply tx_brelse; [exact T3| |exact Hk]. left. apply elem_of_log_add. by right.
Qed.

(** One bitmap block of [balloc] in which a bit is free. *)
Lemma balloc_found s L V hs it b bi bp (Q : option Z -> kst -> Prop) :
  tx s L V ((bp, BBLOCK b sb) :: hs) it -> 0 <= b -> b mod BPB = 0 -> 0 <= bi < BPB -> b + bi < sb_size sb ->
  ~ used sb V (b + bi) -> held_ok sb V hs -> (length L + length hs + 2 <= NBUF)%nat ->
  (forall s' L', grow 2 L L' /\ b + bi ∈ L' -> tx s' L' (balloc_V sb V (b + bi)) hs it -> Q (Some (b + bi)) s') ->
  runs (updbuf bp (fun x => set_b_data (set_bit (b_data x) bi) x) ;;;
        log_write bp ;;; brelse bp ;;; bzero dev (b + bi) ;;; ret (Some (b + bi))) s Q.
Proof.
  intros Ht Hb Hm Hbi Hlt Hu Hh Hlen Hk. destruct (BBLOCK_bitmap sb lay b) as [Hbm Hr]; [lia|].
  destruct (BBLOCK_add sb b bi Hb Hm Hbi) as [E1 E2]. destruct lay as [La1 La0 La2].
  apply runs_bind. eapply (tx_blit _ _ _ _ _ _ (BBLOCK b sb) (fun d => set_bit d bi)); [exact Ht|left| |].
  { unfold set_bit. rewrite length_insert. by eapply tx_length. }
  intros s2 T2. apply runs_bind. eapply tx_log_write; [exact T2|left|done|lia|]. intros s3 T3.
  pose proof (grow_log_add L (BBLOCK b sb)) as Hg.
  apply runs_bind. eapply tx_brelse; [exact T3|left; apply elem_of_log_add; by right|]. intros s4 T4.
  apply runs_bind. eapply bzero_spec; [exact T4| |lia|destruct Hg; lia|].
  { intros Hin. by apply Hh in Hin as [? _]. }
  intros s5 T5. apply runs_ret. eapply Hk.
  { split; [eapply (grow_trans 1 1); [done|apply grow_log_add]|apply elem_of_log_add; by right]. }
  unfold balloc_V. by rewrite E1, E2.
Qed.

Lemma balloc_iter L V hs it b t (Q : option Z -> kst -> Prop) :
  tx t L V hs it -> 0 <= b < sb_size sb -> b mod BPB = 0 -> held_ok sb V hs -> (length L + length hs + 2 <= NBUF)%nat ->
  (forall t', tx t' L V hs it -> (forall b', b <= b' < b + BPB -> b' < sb_size sb -> used sb V b') -> Q None t') ->
  (forall a t' L', 0 <= a < sb_size sb -> ~ used sb V a -> grow 2 L L' /\ a ∈ L' -> tx t' L' (balloc_V sb V a) hs it -> Q (Some a) t') ->
  runs (bp <- bread dev (BBLOCK b sb) ;;
        x <- getbuf bp ;;
        match List.find (bit_free (b_data x)) (seqZ 0 (Z.min BPB (sb_size sb - b))) with
        | Some bi =>
            updbuf bp (fun x => set_b_data (set_bit (b_data x) bi) x) ;;;
            log_write bp ;;; brelse bp ;;; bzero dev (b + bi) ;;; ret (Some (b + bi))
        | None => brelse bp ;;; ret None
        end) t Q.
Proof.
  intros Ht Hb Hm Hh Hlen Hn Hs. destruct (BBLOCK_bitmap sb lay b) as [Hbm Hr]; [lia|].
  assert (BBLOCK b sb ∉ hs.*2) as Hnb by (intros Hin; by apply Hh in Hin as [_ ?]).
  apply runs_bind. eapply tx_bread; [done|done..|lia|]. intros bp s1 T1.
  apply runs_bind. eapply tx_getbuf; [exact T1|left|]. intros x Hx _. rewrite Hx.
  destruct (find _ _) as [bi|] eqn:E.
  - apply some_free in E as (E1 & E2 & E3); [|done..]. eapply balloc_found; [done..|lia|done|done|lia|done|done|done|].
    intros s' L' Hg T'. apply (Hs _ _ L'); auto; lia.
  - apply runs_bind. eapply tx_brelse; [exact T1| |].
    + destruct (decide (BBLOCK b sb ∈ L)); [by left|right]. by apply Ht.
    + intros s2 T2. apply runs_ret. apply Hn; [done|]. by apply none_free.
Qed.

Lemma balloc_spec s L V hs it (Q : Z -> kst -> Prop) :
  tx s L V hs it -> reserved sb V -> held_ok sb V hs -> (length L + length hs + 2 <= NBUF)%nat ->
  (forall s', tx s' L V hs it -> (forall b, 0 <= b < sb_size sb -> used sb V b) -> Q 0 s') ->
  (forall a s' L', data_start sb <= a < sb_size sb -> ~ used sb V a -> grow 2 L L' /\ a ∈ L' ->
     tx s' L' (balloc_V sb V a) hs it -> Q a s') ->
  runs (balloc dev) s Q.
Proof.
  intros Ht Hres Hh Hlen Hfull Hok. pose proof lay as [La1 La0 La2].
  assert (0 <= (sb_size sb - 1) / BPB) as Hq by (apply Z.div_pos; lia).
  pose proof (Z.mul_div_le (sb_size sb - 1) BPB ltac:(lia)) as Hd1.
  pose proof (Z.mul_succ_div_gt (sb_size sb - 1) BPB ltac:(lia)) as Hd2.
  pose proof (Z.div_le_mono (sb_size sb - 1) (sb_size sb) BPB ltac:(lia) ltac:(lia)) as Hd3.
  unfold balloc. eapply tx_getsb; [done|]. apply runs_bind.
  set (n := S (Z.to_nat ((sb_size sb - 1) / BPB))).
  unfold runs at 1. rewrite (for_upto_list n) by lia.
  apply (runs_for_find (fun pre t => tx t L V hs it /\
    forall b, 0 <= b < BPB * Z.of_nat (length pre) -> b < sb_size sb -> used sb V b)).
  - split; [done|]. simpl. lia.
  - intros pre b post t Hr [T0 Hu]. apply range_step_split in Hr as [-> Hp].
    eapply balloc_iter; [exact T0|lia| |done|done| |].
    + rewrite Z.add_0_l, Z.mul_comm. by apply Z.mod_mul.
    + intros t' T' Hu'. split; [done|]. intros b Hb Hs. rewrite length_app in Hb. simpl in Hb.
      destruct (decide (b < BPB * Z.of_nat (length pre))); [apply Hu; lia|apply Hu'; lia].
    + intros a t' L' Ha Hna Hg T'. eapply Hok; [|done..].
      split; [|lia]. apply Z.nlt_ge. intros Hlt. apply Hna, Hres. lia.
  - intros t [T0 Hu]. apply runs_bind. eapply tx_printf; [exact T0|]. intros s' T'. apply runs_ret.
    apply Hfull; [done|]. intros b Hb. apply Hu; [|lia]. unfold range_step. rewrite length_map, length_seqZ. lia.
Qed.

(** C18: [balloc] gives out a block of the data area that was free: it is now
    in use and zeroed, no other bit of the bitmap and no other block outside
    the bitmap has changed, and at most two blocks were added to the log. It
    returns 0 only when every block is in use, and then changes nothing. *)
Theorem balloc_fresh s L V hs it :
  tx s L V hs it -> reserved sb V -> held_ok sb V hs -> (length L + length hs + 2 <= NBUF)%nat ->
  runs (balloc dev) s (fun a s' =>
    a = 0 /\ tx s' L V hs it /\ (forall b, 0 <= b < sb_size sb -> used sb V b) \/
    data_start sb <= a < sb_size sb /\ ~ used sb V a /\
    exists L' V', grow 2 L L' /\ tx s' L' V' hs it /\ V' a = zero_block /\
      (forall b, 0 <= b < sb_size sb -> used sb V' b <-> used sb V b \/ b = a) /\
      (forall b, b <> a -> ~ bitmap_block sb b -> V' b = V b)).
Proof.
  intros Ht Hres Hh Hlen. eapply balloc_spec; [exact Ht|done|done|done|by left|].
  intros a s' L' Ha Hu [Hg _] T'. right. split; [done|]. split; [done|]. exists L', (balloc_V sb V a).
  assert (forall bn, length (V bn) = 1024%nat) as Hl by (intros bn; by eapply tx_length).
  assert (0 <= a < sb_size sb) as Har by (destruct lay; unfold data_start in *; pose proof (Z.div_pos (sb_size sb - 1) BPB); lia).
  split_and!; [done|done|apply bupd_eq|intros b Hb; by apply used_balloc|].
  intros b Hne Hb. unfold balloc_V. rewrite !bupd_ne; [done| |done].
  intros ->. by apply Hb, BBLOCK_bitmap.
Qed.
End Alloc.
End Txn.

(* ------------------------------------------------------------------ *)
(** ** A small file system

    20 blocks; block 2 has the inodes, block 3 is the bitmap. Inode 1 is a
    directory; its content, the entry [.], is in block 5. *)
Definition demo_sb : superblock := mksb 0x10203040 20 16 16 0 2 2 3.
Definition demo_dir : inode :=
  mkinode 1 1 1 (mksleeplock 1 0) 1 T_DIR 0 0 1 16 (5 :: zeros 12).
Definition demo_dot : list Z := dirent_bytes (mkdirent 1 (46 :: zeros 13)).
Definition demo_disk : disk :=
  [(2, zeros 64 ++ dinode_bytes demo_dir ++ zeros 896); (3, 47 :: zeros 1023); (5, demo_dot ++ zeros 1008)].
Definition demo_it : list inode := demo_dir :: replicate (NINODE - 1) inode0.
Definition demo_log : log := mklog 2 1 0 1 0 (zeros 30).

Lemma demo_layout : layout demo_sb.
Proof. split; vm_compute; try split; discriminate || done. Qed.

Lemma demo_tx : exists s, tx 1 0 0 demo_disk demo_sb s [] (dget demo_disk) [] demo_it.
Proof.
  destruct (cache_demo_init demo_disk) as (s & _ & C & _ & E); [by repeat constructor|].
  exists (set_k_sb demo_sb (set_k_itable demo_it (set_k_log demo_log s))). split; try done.
  - exists ∅. split; [|done]. split; [|done|done|intros ? ? []%not_elem_of_nil].
    destruct C. by split.
  - constructor.
Qed.

Lemma demo_reserved : reserved demo_sb (dget demo_disk).
Proof.
  intros bn Hb. change (data_start demo_sb) with 4 in Hb.
  assert (bn = 0 \/ bn = 1 \/ bn = 2 \/ bn = 3) as [->|[->|[->| ->]]] by lia; vm_compute; done.
Qed.

Lemma balloc_fresh_witness :
  exists s a s', @balloc 1%nat sync_disk 1 s = Done a s' /\ (a = 0 \/ 4 <= a < 20).
Proof.
  destruct demo_tx as [s Ht]. exists s.
  destruct (runs_inv _ _ _ (@balloc_fresh 1 0 0 demo_disk demo_sb 1%nat sync_disk sync_disk_ok ltac:(unfold sleep_fuel; lia)
    demo_layout s [] (dget demo_disk) [] demo_it Ht demo_reserved ltac:(by intros ? []%not_elem_of_nil) ltac:(cbn; lia)))
    as (a & s' & E & Hpost).
  exists a, s'. split; [exact E|]. destruct Hpost as [[-> _]|[Ha _]]; [by left|right]. exact Ha.
Defined.
