(* ===== verification/Content.v ===== *)
(** * The content of a file

    An inode holds the numbers of 12 blocks and of a block of 256 more
    numbers. [oblk V x i] is the [i]-th block of inode [x]: 0 to 11 are the
    direct blocks, 12 the indirect one, 13 to 268 the blocks it lists. The
    content is the list of bytes [fdata V x]. [readi] reads a slice of that
    list and [writei] overwrites and extends it. *)

From S2P Require Import Prelude Machine KState Spinlock Kalloc Walk Vm Sched Strings Printf Print Bio BufCache BufRules Log Fs Txn.
Local Open Scope Z_scope.
Local Open Scope kern_scope.

Definition NSLOT : Z := 269.
(** The slot of the [n]-th block of the content. *)
Definition slot (n : Z) : Z := if n <? NDIRECT then n else n + 1.
Definition oblk (V : Z -> list Z) (x : inode) (i : Z) : Z :=
  if i <=? NDIRECT then i_addrs x !!! Z.to_nat i
  else
    let ind := i_addrs x !!! Z.to_nat NDIRECT in
    if ind =? 0 then 0 else ld32 (V ind) (4 * (i - 13)).

(** Byte [k] of the content. *)
Definition fbyte (V : Z -> list Z) (x : inode) (k : Z) : Z :=
  V (oblk V x (slot (k / BSIZE))) !!! Z.to_nat (k mod BSIZE).
Definition fdata (V : Z -> list Z) (x : inode) : list Z := map (fbyte V x) (seqZ 0 (i_size x)).

Lemma slot_inj n m : 0 <= n -> 0 <= m -> slot n = slot m -> n = m.
Proof. unfold slot. intros Hn Hm. destruct (Z.ltb_spec n 12), (Z.ltb_spec m 12); lia. Qed.
Lemma slot_range n : 0 <= n < MAXFILE -> 0 <= slot n < NSLOT /\ slot n <> NDIRECT.
Proof. unfold slot, NSLOT. intros Hn. destruct (Z.ltb_spec n 12); lia. Qed.
Lemma block_range k : 0 <= k < MAXFILE * BSIZE -> 0 <= k / BSIZE < MAXFILE.
Proof. intros Hk. split; [apply Z.div_pos; lia|apply Z.div_lt_upper_bound; lia]. Qed.

Lemma ld32_zero off : ld32 zero_block off = 0.
Proof.
  unfold ld32, lget, zero_block. rewrite drop_replicate, take_replicate.
  generalize (Z.to_nat 4 `min` (1024 - Z.to_nat off))%nat. intros n. induction n as [|n IH]; [done|].
  simpl. by rewrite IH.
Qed.

Lemma lookup_seqZ_map (f : Z -> Z) o m i :
  map f (seqZ o m) !! i = if decide (Z.of_nat i < m) then Some (f (o + Z.of_nat i)) else None.
Proof.
  change (map f) with (fmap (M := list) f). rewrite list_lookup_fmap. destruct (decide _) as [Hlt|Hge].
  - by rewrite lookup_seqZ_lt.
  - rewrite lookup_seqZ_ge by lia. done.
Qed.

(* ------------------------------------------------------------------ *)
(** ** Inodes on the disk *)

Lemma lget_lset_in bs off new k n :
  0 <= off -> off + Z.of_nat (length new) <= Z.of_nat (length bs) ->
  0 <= k -> 0 <= n -> k + n <= Z.of_nat (length new) ->
  lget (lset bs off new) (off + k) n = lget new k n.
Proof.
  intros Ho Hl Hk Hn Hkn. apply list_eq. intros i. unfold lget. destruct (decide (Z.of_nat i < n)).
  - rewrite !lookup_take_lt, !lookup_drop, lookup_lset, decide_True by lia. f_equal. lia.
  - by rewrite !lookup_take_ge by lia.
Qed.

Lemma ld32_list pre l i :
  (i < length l)%nat ->
  ld32 (pre ++ concat (map (le_split 4) l)) (Z.of_nat (length pre) + 4 * Z.of_nat i) = u32 (l !!! i).
Proof.
  revert pre i. induction l as [|v l IH]; intros pre i Hi; simpl in Hi; [lia|]. cbn [map concat].
  destruct i as [|i].
  - unfold ld32, lget. rewrite Z.add_0_r, Nat2Z.id, drop_app_length. apply (le_combine_split 4).
  - rewrite (app_assoc pre). replace (Z.of_nat (length pre) + 4 * Z.of_nat (S i))
      with (Z.of_nat (length (pre ++ le_split 4 v)) + 4 * Z.of_nat i) by (rewrite length_app, length_le_split; lia).
    rewrite IH by lia. done.
Qed.

Lemma i16_mod v : - 2 ^ 15 <= v < 2 ^ 15 -> i16 (v mod 2 ^ 16) = v.
Proof.
  intros Hv. unfold i16, sext. rewrite Zmod_mod. change (2 ^ (16 - 1)) with (2 ^ 15).
  destruct (Z.ltb_spec (v mod 2 ^ 16) (2 ^ 15)) as [Hlt|Hge].
  - destruct (decide (0 <= v)); [apply Z.mod_small; lia|].
    rewrite <- (Z.mod_add v 1), Z.mod_small in Hlt by lia. lia.
  - destruct (decide (0 <= v)); [rewrite Z.mod_small in Hge by lia; lia|].
    rewrite <- (Z.mod_add v 1), Z.mod_small by lia. lia.
Qed.

(** The fields fit their types. *)
Record fields_ok (x : inode) : Prop := {
  fi_type : - 2 ^ 15 <= i_type x < 2 ^ 15;
  fi_major : - 2 ^ 15 <= i_major x < 2 ^ 15;
  fi_minor : - 2 ^ 15 <= i_minor x < 2 ^ 15;
  fi_nlink : - 2 ^ 15 <= i_nlink x < 2 ^ 15
}.

Lemma length_concat_le l : length (concat (map (le_split 4) l)) = (4 * length l)%nat.
Proof. induction l as [|v l IH]; [done|]. cbn [map concat]. rewrite length_app, length_le_split, IH. simpl. lia. Qed.

Lemma length_dinode_bytes x : length (i_addrs x) = 13%nat -> length (dinode_bytes x) = 64%nat.
Proof. intros Hl. unfold dinode_bytes. rewrite !length_app, !length_le_split, length_concat_le, Hl. done. Qed.

(** What [iupdate] writes, [ilock] reads back. *)
Lemma dinode_load_bytes bs off x y :
  0 <= off -> off + 64 <= Z.of_nat (length bs) -> length (i_addrs x) = 13%nat -> fields_ok x ->
  0 <= i_size x < 2 ^ 32 -> Forall (fun a => 0 <= a < 2 ^ 32) (i_addrs x) ->
  dinode_load (lset bs off (dinode_bytes x)) off y =
  mkinode (i_dev y) (i_inum y) (i_ref y) (i_lock y) (i_valid y) (i_type x) (i_major x) (i_minor x) (i_nlink x)
    (i_size x) (i_addrs x).
Proof.
  intros Ho Hl Hla [F1 F2 F3 F4] Hs Ha. pose proof (length_dinode_bytes x Hla) as H64.
  assert (forall k n, 0 <= k -> 0 <= n -> k + n <= 64 -> lget (lset bs off (dinode_bytes x)) (off + k) n = lget (dinode_bytes x) k n) as Hg.
  { intros k n Hk Hn Hkn. apply lget_lset_in; lia. }
  assert (lget (lset bs off (dinode_bytes x)) off 2 = lget (dinode_bytes x) 0 2) as Hg0
    by (rewrite <- Hg by lia; by rewrite Z.add_0_r).
  assert (dinode_addrs (lset bs off (dinode_bytes x)) off = i_addrs x) as Had.
  { unfold dinode_addrs. apply list_eq. intros i. rewrite lookup_seqZ_map.
    destruct (decide (Z.of_nat i < 13)) as [Hi|Hi]; [|symmetry; apply lookup_ge_None; lia].
    rewrite list_lookup_lookup_total_lt by lia. f_equal. rewrite Z.add_0_l. unfold ld32. rewrite <- Z.add_assoc, Hg by lia.
    etransitivity; [apply (ld32_list (le_split 2 (i_type x) ++ le_split 2 (i_major x) ++ le_split 2 (i_minor x) ++
       le_split 2 (i_nlink x) ++ le_split 4 (i_size x)) (i_addrs x) i); lia|].
    apply u32_small. rewrite Forall_lookup in Ha. apply (Ha i). apply list_lookup_lookup_total_lt. lia. }
  unfold dinode_load. rewrite Had. unfold ld16, ld32. rewrite Hg0, !Hg by lia.
  change (lget (dinode_bytes x) 0 2) with (le_split 2 (i_type x)). change (lget (dinode_bytes x) 2 2) with (le_split 2 (i_major x)).
  change (lget (dinode_bytes x) 4 2) with (le_split 2 (i_minor x)). change (lget (dinode_bytes x) 6 2) with (le_split 2 (i_nlink x)).
  change (lget (dinode_bytes x) 8 4) with (le_split 4 (i_size x)). rewrite !le_combine_split.
  change (8 * Z.of_nat 2) with 16. change (8 * Z.of_nat 4) with 32. rewrite !i16_mod, Z.mod_small by done. by destruct y.
Qed.

Section Content.
Variable sb : superblock.
Hypothesis lay : layout sb.

Definition in_data (a : Z) : Prop := data_start sb <= a < sb_size sb.

(** The blocks of an inode are different blocks of the data area, in use in
    the bitmap; all blocks up to the size are there. *)
Record file_ok (V : Z -> list Z) (x : inode) : Prop := {
  fo_addrs : length (i_addrs x) = 13%nat;
  fo_range : forall i, 0 <= i < NSLOT -> oblk V x i <> 0 -> in_data (oblk V x i) /\ used sb V (oblk V x i);
  fo_inj : forall i j, 0 <= i < NSLOT -> 0 <= j < NSLOT -> oblk V x i <> 0 -> oblk V x i = oblk V x j -> i = j;
  fo_alloc : forall n, 0 <= n -> n * BSIZE < i_size x -> oblk V x (slot n) <> 0;
  fo_size : 0 <= i_size x <= MAXFILE * BSIZE
}.

Lemma data_start_pos : 0 < data_start sb.
Proof.
  destruct lay as [L1 L0 L2]. unfold data_start in *.
  pose proof (Z.div_pos (sb_size sb - 1) BPB ltac:(lia) ltac:(lia)). lia.
Qed.

Lemma data_not_bitmap a : in_data a -> ~ bitmap_block sb a.
Proof. unfold in_data, bitmap_block. lia. Qed.

(** The inode got more blocks; what it had, and what others have, is as it
    was. *)
Record ext (V : Z -> list Z) (x : inode) (V' : Z -> list Z) (x' : inode) : Prop := {
  ex_x : exists ad, x' = set_i_addrs ad x;
  ex_ok : file_ok V' x';
  ex_keep : forall i, 0 <= i < NSLOT -> oblk V x i <> 0 -> oblk V' x' i = oblk V x i;
  ex_fresh : forall i, 0 <= i < NSLOT -> oblk V x i = 0 -> oblk V' x' i <> 0 -> ~ used sb V (oblk V' x' i);
  ex_used : forall b, 0 <= b < sb_size sb -> used sb V b -> used sb V' b;
  ex_other : forall b, 0 <= b < sb_size sb -> used sb V b -> ~ bitmap_block sb b -> b <> oblk V x NDIRECT -> V' b = V b;
  ex_zero : forall i, 0 <= i < NSLOT -> i <> NDIRECT -> oblk V x i = 0 -> oblk V' x' i <> 0 ->
    V' (oblk V' x' i) = zero_block
}.

Lemma ext_refl V x : file_ok V x -> ext V x V x.
Proof. intros Hx. split; try done. exists (i_addrs x). by destruct x. Qed.

Lemma in_data_pos a : in_data a -> 0 < a < sb_size sb.
Proof. pose proof data_start_pos. unfold in_data. lia. Qed.

Lemma ext_trans V1 x1 V2 x2 V3 x3 : file_ok V1 x1 -> ext V1 x1 V2 x2 -> ext V2 x2 V3 x3 -> ext V1 x1 V3 x3.
Proof.
  intros Hx [A1 A2 A3 A4 A5 A6 A7] [B1 B2 B3 B4 B5 B6 B7]. split.
  - destruct A1 as [a1 ->], B1 as [a2 ->]. by exists a2.
  - done.
  - intros i Hi Hn. rewrite B3, A3; auto. by rewrite A3.
  - intros i Hi Hz Hn. destruct (decide (oblk V2 x2 i = 0)) as [E|E].
    + intros Hu. pose proof (fo_range _ _ B2 i Hi Hn) as [Hd _]. apply in_data_pos in Hd.
      apply (B4 i Hi E Hn). apply A5; [lia|done].
    + rewrite B3 in * by auto. by apply A4.
  - auto.
  - intros b Hb Hu Hbm Hne. rewrite B6; auto.
    destruct (decide (oblk V1 x1 NDIRECT = 0)) as [E|E]; [|rewrite A3; auto; unfold NSLOT; lia].
    destruct (decide (oblk V2 x2 NDIRECT = 0)) as [E2|E2]; [by rewrite E2; rewrite E in Hne|].
    intros ->. by apply (A4 NDIRECT); unfold NSLOT; try lia.
  - intros i Hi Hni Hz Hn. destruct (decide (oblk V2 x2 i = 0)) as [E|E]; [by apply B7|].
    rewrite B3 in * by auto. pose proof (fo_range _ _ A2 i Hi E) as [Hd Hu].
    rewrite B6; [by apply A7| |done|by apply data_not_bitmap|].
    + apply in_data_pos in Hd. lia.
    + intros E'. apply Hni. apply (fo_inj _ _ A2); auto; unfold NSLOT; lia.
Qed.

(** Slot [i] gets the block [a]. *)
Lemma ext_slot V x V' x' i a :
  file_ok V x -> 0 <= i < NSLOT -> oblk V x i = 0 -> in_data a -> ~ used sb V a ->
  (exists ad, x' = set_i_addrs ad x /\ length ad = 13%nat) ->
  (forall j, 0 <= j < NSLOT -> oblk V' x' j = if decide (j = i) then a else oblk V x j) ->
  (forall b, 0 <= b < sb_size sb -> used sb V' b <-> used sb V b \/ b = a) ->
  (forall b, 0 <= b < sb_size sb -> used sb V b -> ~ bitmap_block sb b -> b <> oblk V x NDIRECT -> V' b = V b) ->
  (i <> NDIRECT -> V' a = zero_block) -> ext V x V' x'.
Proof.
  intros Hx Hi Hz Ha Hu (ad & -> & Hl) Hb Hus Ho Hzero.
  assert (forall j, 0 <= j < NSLOT -> oblk V x j <> 0 -> oblk V x j <> a) as Hfr.
  { intros j Hj Hn E. apply Hu. rewrite <- E. by apply (fo_range _ _ Hx j). }
  pose proof (in_data_pos a Ha) as Hp. split.
  - by exists ad.
  - destruct Hx as [X1 X2 X3 X4 X5]. split.
    + done.
    + intros j Hj. rewrite Hb by done. destruct (decide (j = i)) as [->|]; [intros _; split; [done|apply Hus; [lia|auto]]|].
      intros Hn. destruct (X2 j Hj Hn) as [Y1 Y2]. split; [done|]. apply in_data_pos in Y1. apply Hus; [lia|auto].
    + intros j k Hj Hk. rewrite !Hb by done. destruct (decide (j = i)) as [->|], (decide (k = i)) as [->|]; auto.
      * intros _ E. exfalso. apply (Hfr k); auto. lia.
      * intros Hn E. exfalso. by apply (Hfr j).
    + intros n Hn Hs. change (i_size (set_i_addrs ad x)) with (i_size x) in Hs.
      rewrite Hb by (apply slot_range; lia). destruct (decide _); [lia|auto].
    + done.
  - intros j Hj Hn. rewrite Hb by done. rewrite decide_False; [done|]. intros ->. done.
  - intros j Hj Hn. rewrite Hb by done. destruct (decide (j = i)); [done|]. intros ?. done.
  - intros b Hbr Hu'. apply Hus; auto.
  - done.
  - intros j Hj Hnj Hn. rewrite Hb by done. destruct (decide (j = i)) as [->|]; [auto|]. done.
Qed.

Lemma balloc_V_other V a b : in_data a -> b <> a -> ~ bitmap_block sb b -> balloc_V sb V a b = V b.
Proof.
  intros Ha Hb Hbm. unfold balloc_V. rewrite !bupd_ne; [done| |done]. intros ->. apply Hbm.
  apply (proj1 (BBLOCK_bitmap sb lay a ltac:(apply in_data_pos in Ha; lia))).
Qed.

Lemma used_bupd V bn d b : ~ bitmap_block sb bn -> 0 <= b < sb_size sb -> used sb (bupd bn d V) b <-> used sb V b.
Proof.
  intros Hn Hb. unfold used. rewrite bupd_ne; [done|]. intros E. apply Hn. rewrite <- E. by apply (BBLOCK_bitmap sb lay b Hb).
Qed.

Lemma oblk_low V x i : i <= NDIRECT -> oblk V x i = i_addrs x !!! Z.to_nat i.
Proof. intros Hi. unfold oblk. by rewrite (proj2 (Z.leb_le _ _)). Qed.
Lemma oblk_high V x i : NDIRECT < i ->
  oblk V x i = if oblk V x NDIRECT =? 0 then 0 else ld32 (V (oblk V x NDIRECT)) (4 * (i - 13)).
Proof. intros Hi. rewrite (oblk_low _ _ NDIRECT) by lia. unfold oblk. by rewrite (proj2 (Z.leb_gt _ _)). Qed.

(** [balloc] for a number in the inode. *)
Lemma ext_direct V x i a :
  (forall bn, length (V bn) = 1024%nat) -> file_ok V x -> 0 <= i <= NDIRECT -> oblk V x i = 0 ->
  in_data a -> ~ used sb V a ->
  ext V x (balloc_V sb V a) (set_i_addrs (<[Z.to_nat i := a]> (i_addrs x)) x).
Proof.
  intros Hl Hx Hi Hz Ha Hu. pose proof (in_data_pos a Ha) as Hp. pose proof (fo_addrs _ _ Hx) as Hlen.
  assert (forall j, 0 <= j <= NDIRECT ->
    oblk (balloc_V sb V a) (set_i_addrs (<[Z.to_nat i := a]> (i_addrs x)) x) j = if decide (j = i) then a else oblk V x j) as Hlow.
  { intros j Hj. rewrite !oblk_low by lia. change (i_addrs (set_i_addrs ?l x)) with l. destruct (decide (j = i)) as [->|].
    - by rewrite list_lookup_total_insert_eq by lia.
    - by rewrite list_lookup_total_insert_ne by lia. }
  apply (ext_slot V x _ _ i a); auto; [unfold NSLOT; lia| | | | |].
  - eexists. split; [done|]. by rewrite length_insert.
  - intros j Hj. destruct (decide (j <= NDIRECT)) as [Hjl|Hjl]; [apply Hlow; lia|].
    rewrite decide_False by lia. rewrite (oblk_high _ _ j), (oblk_high V x j), Hlow by lia. destruct (decide (NDIRECT = i)) as [<-|].
    + rewrite Hz. rewrite (proj2 (Z.eqb_neq a 0)) by lia. unfold balloc_V. by rewrite bupd_eq, ld32_zero.
    + destruct (Z.eqb_spec (oblk V x NDIRECT) 0) as [E|E]; [done|].
      destruct (fo_range _ _ Hx NDIRECT) as [Y1 Y2]; [unfold NSLOT; lia|done|].
      rewrite balloc_V_other; [done|done|congruence|by apply data_not_bitmap].
  - intros b Hb. by apply used_balloc.
  - intros b Hb Hub Hbm _. apply balloc_V_other; [done|congruence|done].
  - intros _. unfold balloc_V. apply bupd_eq.
Qed.

(** [balloc] for a number in the indirect block. *)
Lemma ext_entry V x i a :
  (forall bn, length (V bn) = 1024%nat) -> file_ok V x -> NDIRECT < i < NSLOT -> oblk V x i = 0 ->
  in_data a -> ~ used sb V a -> oblk V x NDIRECT <> 0 ->
  let ind := oblk V x NDIRECT in
  ext V x (bupd ind (st32 (balloc_V sb V a ind) (4 * (i - 13)) a) (balloc_V sb V a)) x.
Proof.
  intros Hl Hx Hi Hz Ha Hu Hind ind. pose proof (in_data_pos a Ha) as Hp. unfold NSLOT in *.
  destruct (fo_range _ _ Hx NDIRECT) as [Y1 Y2]; [unfold NSLOT; lia|done|]. fold ind in Y1, Y2.
  pose proof (data_not_bitmap _ Y1) as Y3. assert (ind <> a) as Hia by congruence.
  assert (balloc_V sb V a ind = V ind) as Hbi by (by apply balloc_V_other).
  destruct lay as [La1 La0 La2]. unfold in_data in *.
  apply (ext_slot V x _ _ i a); auto; unfold NSLOT; try lia.
  - exists (i_addrs x). split; [by destruct x|apply Hx].
  - intros j Hj. destruct (decide (j <= NDIRECT)) as [Hjl|Hjl].
    + rewrite decide_False by lia. by rewrite !oblk_low by lia.
    + rewrite (oblk_high _ _ j), (oblk_low _ _ NDIRECT), <- (oblk_low V x NDIRECT) by lia. fold ind.
      rewrite (proj2 (Z.eqb_neq ind 0)) by done. rewrite bupd_eq, Hbi. destruct (decide (j = i)) as [->|].
      * rewrite ld32_st32_eq by (rewrite ?Hl; lia). apply u32_small. lia.
      * rewrite ld32_st32_ne by (rewrite ?Hl; lia). rewrite oblk_high by lia. fold ind. by rewrite (proj2 (Z.eqb_neq ind 0)).
  - intros b Hb. rewrite used_bupd by done. apply used_balloc; auto.
  - intros b Hb Hub Hbm Hne. rewrite bupd_ne by done. apply balloc_V_other; [done|congruence|done].
  - intros _. rewrite bupd_ne by done. unfold balloc_V. apply bupd_eq.
Qed.
(** The bytes [bs] were written from position [off] on. *)
Record wrote (V : Z -> list Z) (x : inode) (V' : Z -> list Z) (x' : inode) (off : Z) (bs : list Z) : Prop := {
  wr_x : exists ad, x' = set_i_addrs ad x;
  wr_ok : file_ok V' x';
  wr_keep : forall i, 0 <= i < NSLOT -> oblk V x i <> 0 -> oblk V' x' i = oblk V x i;
  wr_fresh : forall i, 0 <= i < NSLOT -> oblk V x i = 0 -> oblk V' x' i <> 0 -> ~ used sb V (oblk V' x' i);
  wr_used : forall b, 0 <= b < sb_size sb -> used sb V b -> used sb V' b;
  wr_other : forall b, 0 <= b < sb_size sb -> used sb V b -> ~ bitmap_block sb b ->
    (forall i, 0 <= i < NSLOT -> b <> oblk V x i) -> V' b = V b;
  wr_old : forall k, 0 <= k < MAXFILE * BSIZE -> oblk V x (slot (k / BSIZE)) <> 0 ->
    ~ off <= k < off + Z.of_nat (length bs) -> fbyte V' x' k = fbyte V x k;
  wr_new : forall k, off <= k < off + Z.of_nat (length bs) ->
    oblk V' x' (slot (k / BSIZE)) <> 0 /\ fbyte V' x' k = bs !!! Z.to_nat (k - off)
}.

Lemma wrote_refl V x off : file_ok V x -> wrote V x V x off [].
Proof. intros Hx. split; try done; [exists (i_addrs x); by destruct x|simpl; lia]. Qed.

Lemma ext_fbyte V x V' x' k :
  file_ok V x -> ext V x V' x' -> 0 <= k < MAXFILE * BSIZE -> oblk V x (slot (k / BSIZE)) <> 0 ->
  fbyte V' x' k = fbyte V x k.
Proof.
  intros Hx He Hk Hn. destruct (slot_range (k / BSIZE) (block_range k Hk)) as [Hs1 Hs2].
  destruct (fo_range _ _ Hx _ Hs1 Hn) as [Hd Hu]. unfold fbyte. rewrite (ex_keep _ _ _ _ He) by done.
  rewrite (ex_other _ _ _ _ He); [done| |done|by apply data_not_bitmap|].
  - apply in_data_pos in Hd. lia.
  - intros E. apply Hs2, (fo_inj _ _ Hx); auto. unfold NSLOT. lia.
Qed.

Lemma wrote_ext V x V1 x1 V2 x2 off bs :
  0 <= off -> off + Z.of_nat (length bs) <= MAXFILE * BSIZE ->
  wrote V x V1 x1 off bs -> ext V1 x1 V2 x2 -> wrote V x V2 x2 off bs.
Proof.
  intros Hoff Hmax [W1 W2 W3 W4 W5 W6 W7 W8] He. pose proof He as [B1 B2 B3 B4 B5 B6 B7]. split.
  - destruct W1 as [a1 ->], B1 as [a2 ->]. by exists a2.
  - done.
  - intros i Hi Hn. rewrite B3, W3; auto. by rewrite W3.
  - intros i Hi Hz Hn. destruct (decide (oblk V1 x1 i = 0)) as [E|E]; [|rewrite B3 in * by auto; by apply W4].
    intros Hu. destruct (fo_range _ _ B2 i Hi Hn) as [Hd%in_data_pos _]. apply (B4 i Hi E Hn), W5; [lia|done].
  - auto.
  - intros b Hb Hu Hbm Hne. rewrite B6; auto. assert (0 <= NDIRECT < NSLOT) as Hd by (unfold NSLOT; lia).
    destruct (decide (oblk V x NDIRECT = 0)) as [E|E]; [|rewrite W3; auto].
    destruct (decide (oblk V1 x1 NDIRECT = 0)) as [E2|E2]; [rewrite E2, <- E; by apply Hne|].
    intros ->. by apply (W4 NDIRECT).
  - intros k Hk Hn Hk2. destruct (slot_range (k / BSIZE) (block_range k Hk)) as [Hs1 Hs2].
    rewrite <- W7 by done. apply ext_fbyte; auto. by rewrite W3.
  - intros k Hk. destruct (W8 k Hk) as [Y1 Y2]. assert (0 <= k < MAXFILE * BSIZE) as Hk' by lia.
    destruct (slot_range (k / BSIZE) (block_range k Hk')) as [Hs1 Hs2].
    rewrite B3 by done. split; [done|]. rewrite <- Y2. by apply ext_fbyte.
Qed.

(** A change inside the block [a] of the content. *)
Lemma oblk_data V x n d :
  file_ok V x -> 0 <= n < MAXFILE -> oblk V x (slot n) <> 0 ->
  forall i, oblk (bupd (oblk V x (slot n)) d V) x i = oblk V x i.
Proof.
  intros Hx Hn Hz i. destruct (slot_range n Hn) as [Hs1 Hs2].
  destruct (decide (i <= NDIRECT)) as [Hi|Hi]; [by rewrite !oblk_low by done|].
  rewrite (oblk_high _ _ i), (oblk_high V x i) by lia. rewrite !(oblk_low _ _ NDIRECT), <- !(oblk_low V x NDIRECT) by lia.
  destruct (Z.eqb_spec (oblk V x NDIRECT) 0) as [E|E]; [done|]. rewrite bupd_ne; [done|].
  intros E'. apply Hs2. symmetry. apply (fo_inj _ _ Hx); auto. unfold NSLOT. lia.
Qed.

Lemma file_ok_data V x n d :
  file_ok V x -> 0 <= n < MAXFILE -> oblk V x (slot n) <> 0 -> file_ok (bupd (oblk V x (slot n)) d V) x.
Proof.
  intros Hx Hn Hz. pose proof (oblk_data V x n d Hx Hn Hz) as Ho. destruct (slot_range n Hn) as [Hs1 Hs2].
  destruct (fo_range _ _ Hx _ Hs1 Hz) as [Hd Hu]. pose proof (data_not_bitmap _ Hd) as Hbm.
  set (V' := bupd _ d V) in *. pose proof Hx as [X1 X2 X3 X4 X5]. split.
  - done.
  - intros i Hi. rewrite Ho. intros Hn'. destruct (X2 i Hi Hn') as [Y1 Y2]. split; [done|].
    apply in_data_pos in Y1. apply used_bupd; [done|lia|done].
  - intros i j Hi Hj. rewrite !Ho. by apply X3.
  - intros m Hm Hs. rewrite Ho. by apply X4.
  - done.
Qed.

Lemma fbyte_data V x o bs k :
  file_ok V x -> 0 <= o -> o mod BSIZE + Z.of_nat (length bs) <= BSIZE -> o + Z.of_nat (length bs) <= MAXFILE * BSIZE ->
  0 < Z.of_nat (length bs) ->
  let a := oblk V x (slot (o / BSIZE)) in a <> 0 -> length (V a) = 1024%nat ->
  0 <= k < MAXFILE * BSIZE -> oblk V x (slot (k / BSIZE)) <> 0 ->
  fbyte (bupd a (lset (V a) (o mod BSIZE) bs) V) x k =
  if decide (o <= k < o + Z.of_nat (length bs)) then bs !!! Z.to_nat (k - o) else fbyte V x k.
Proof.
  intros Hx Ho Hb Hmax Hpos a Ha Hl Hk Hn. assert (0 <= o / BSIZE < MAXFILE) as Hob by (apply block_range; lia).
  unfold fbyte. rewrite (oblk_data V x (o / BSIZE)) by done. fold a.
  pose proof (Z.div_mod o BSIZE ltac:(lia)) as D1. pose proof (Z.div_mod k BSIZE ltac:(lia)) as D2.
  pose proof (Z.mod_pos_bound o BSIZE ltac:(lia)) as M1. pose proof (Z.mod_pos_bound k BSIZE ltac:(lia)) as M2.
  destruct (decide (k / BSIZE = o / BSIZE)) as [E|E].
  - rewrite E. fold a. rewrite bupd_eq, !list_lookup_total_alt, lookup_lset by lia.
    rewrite (decide_ext (o mod BSIZE <= Z.of_nat (Z.to_nat (k mod BSIZE)) < o mod BSIZE + Z.of_nat (length bs))
               (o <= k < o + Z.of_nat (length bs))) by lia.
    destruct (decide _); [|done]. do 2 f_equal. lia.
  - rewrite decide_False by (intros ?; apply E; symmetry; apply (Z.div_unique_pos _ _ _ (k - BSIZE * (o / BSIZE))); lia).
    rewrite bupd_ne; [done|]. intros E'. apply E.
    destruct (slot_range _ Hob) as [Hs1 _], (slot_range _ (block_range k Hk)) as [Hs2 _].
    apply slot_inj; [lia|apply Z.div_pos; lia|]. by apply (fo_inj _ _ Hx).
Qed.

Lemma wrote_blit V x V1 x1 off bs bs2 :
  let o := off + Z.of_nat (length bs) in
  let a := oblk V1 x1 (slot (o / BSIZE)) in
  0 <= off -> wrote V x V1 x1 off bs -> a <> 0 -> length (V1 a) = 1024%nat ->
  o mod BSIZE + Z.of_nat (length bs2) <= BSIZE -> 0 < Z.of_nat (length bs2) -> o + Z.of_nat (length bs2) <= MAXFILE * BSIZE ->
  wrote V x (bupd a (lset (V1 a) (o mod BSIZE) bs2) V1) x1 off (bs ++ bs2).
Proof.
  intros o a Hoff [W1 W2 W3 W4 W5 W6 W7 W8] Ha Hl Hb Hpos Hmax.
  assert (0 <= o / BSIZE < MAXFILE) as Hob by (apply block_range; lia).
  destruct (slot_range _ Hob) as [Hs1 Hs2]. destruct (fo_range _ _ W2 _ Hs1 Ha) as [Hd Hu].
  pose proof (data_not_bitmap _ Hd) as Hbm. fold a in Hd, Hu, Hbm.
  pose proof (oblk_data V1 x1 (o / BSIZE) (lset (V1 a) (o mod BSIZE) bs2) W2 Hob Ha) as Hob'. fold a in Hob'.
  assert (forall k, 0 <= k < MAXFILE * BSIZE -> oblk V1 x1 (slot (k / BSIZE)) <> 0 ->
    fbyte (bupd a (lset (V1 a) (o mod BSIZE) bs2) V1) x1 k =
    if decide (o <= k < o + Z.of_nat (length bs2)) then bs2 !!! Z.to_nat (k - o) else fbyte V1 x1 k) as Hfb
    by (intros k Hk Hn; apply fbyte_data; auto; lia).
  split.
  - done.
  - by apply file_ok_data.
  - intros i Hi Hn. rewrite Hob'. by apply W3.
  - intros i Hi Hn. rewrite Hob'. by apply W4.
  - intros b Hbr Hub. apply used_bupd; auto.
  - intros b Hbr Hub Hbb Hne. rewrite bupd_ne; [by apply W6|]. intros ->.
    destruct (decide (oblk V x (slot (o / BSIZE)) = 0)) as [E|E]; [by apply (W4 _ Hs1 E)|].
    apply (Hne _ Hs1). by rewrite <- W3.
  - intros k Hk Hn Hk2. rewrite length_app in Hk2.
    destruct (slot_range _ (block_range k Hk)) as [Hk3 _].
    rewrite Hfb by (auto; by rewrite W3). rewrite decide_False by lia. apply W7; auto. lia.
  - intros k Hk. rewrite length_app in Hk. rewrite Hob'.
    assert (oblk V1 x1 (slot (k / BSIZE)) <> 0) as Hn.
    { destruct (decide (k < o)); [apply W8; lia|].
      replace (k / BSIZE) with (o / BSIZE); [done|]. pose proof (Z.div_mod o BSIZE ltac:(lia)).
      pose proof (Z.mod_pos_bound o BSIZE ltac:(lia)).
      apply (Z.div_unique_pos _ _ _ (k - BSIZE * (o / BSIZE))); lia. }
    split; [done|]. rewrite Hfb by (auto; lia).
    destruct (decide (o <= k < _)).
    + rewrite !list_lookup_total_alt, lookup_app_r by lia. do 2 f_equal. lia.
    + rewrite (list_lookup_total_alt (bs ++ bs2)), lookup_app_l, <- list_lookup_total_alt by lia. apply W8. lia.
Qed.
(** A change outside the data area and the bitmap. *)
Lemma oblk_meta V x bn d i : file_ok V x -> ~ in_data bn -> oblk (bupd bn d V) x i = oblk V x i.
Proof.
  intros Hx Hb. destruct (decide (i <= NDIRECT)) as [Hi|Hi]; [by rewrite !oblk_low by done|].
  rewrite (oblk_high _ _ i), (oblk_high V x i) by lia. rewrite !(oblk_low _ _ NDIRECT), <- !(oblk_low V x NDIRECT) by lia.
  destruct (Z.eqb_spec (oblk V x NDIRECT) 0) as [E|E]; [done|]. rewrite bupd_ne; [done|]. intros <-.
  apply Hb, (fo_range _ _ Hx); [unfold NSLOT; lia|done].
Qed.

Lemma fbyte_meta V x bn d k :
  file_ok V x -> ~ in_data bn -> 0 <= k < i_size x -> fbyte (bupd bn d V) x k = fbyte V x k.
Proof.
  intros Hx Hb Hk. unfold fbyte. rewrite oblk_meta by done. pose proof (fo_size _ _ Hx) as Hs.
  assert (0 <= k / BSIZE < MAXFILE) as Hkb by (apply block_range; lia).
  rewrite bupd_ne; [done|]. intros E. apply Hb. rewrite <- E. apply (fo_range _ _ Hx); [by apply slot_range|].
  apply (fo_alloc _ _ Hx); [lia|]. pose proof (Z.mul_div_le k BSIZE). lia.
Qed.

Lemma file_ok_meta V x bn d :
  file_ok V x -> ~ in_data bn -> ~ bitmap_block sb bn -> file_ok (bupd bn d V) x.
Proof.
  intros Hx Hb Hbm. pose proof Hx as [X1 X2 X3 X4 X5]. split.
  - done.
  - intros i Hi. rewrite oblk_meta by done. intros Hn. destruct (X2 i Hi Hn) as [Y1 Y2]. split; [done|].
    apply in_data_pos in Y1. apply used_bupd; [done|lia|done].
  - intros i j Hi Hj. rewrite !oblk_meta by done. by apply X3.
  - intros n Hn Hs. rewrite oblk_meta by done. by apply X4.
  - done.
Qed.

Lemma fdata_meta V x bn d : file_ok V x -> ~ in_data bn -> fdata (bupd bn d V) x = fdata V x.
Proof.
  intros Hx Hb. apply map_ext_in. intros k Hk%list_elem_of_In%elem_of_seqZ. apply fbyte_meta; [done..|lia].
Qed.

Lemma lookup_fdata V x i : fdata V x !! i = if decide (Z.of_nat i < i_size x) then Some (fbyte V x (Z.of_nat i)) else None.
Proof. unfold fdata. by rewrite lookup_seqZ_map, Z.add_0_l. Qed.

Lemma length_fdata V x : length (fdata V x) = Z.to_nat (i_size x).
Proof. unfold fdata. by rewrite length_map, length_seqZ. Qed.

Lemma oblk_size V x z i : oblk V (set_i_size z x) i = oblk V x i.
Proof. done. Qed.

(** The size of the file after a write, and its content. *)
Lemma wrote_size V x V' x' off bs :
  file_ok V x -> wrote V x V' x' off bs -> 0 <= off <= i_size x -> off + Z.of_nat (length bs) <= MAXFILE * BSIZE ->
  file_ok V' (set_i_size (Z.max (i_size x) (off + Z.of_nat (length bs))) x').
Proof.
  intros Hx Hw Ho Hmax. pose proof (fo_size _ _ Hx) as Hs. destruct (wr_ok _ _ _ _ _ _ Hw) as [Y1 Y2 Y3 Y4 Y5].
  split; try done; [|simpl; lia]. intros n Hn Hlt. change (i_size (set_i_size ?z x')) with z in Hlt. rewrite oblk_size.
  destruct (decide (n * BSIZE < i_size x)) as [H1|H1].
  - rewrite (wr_keep _ _ _ _ _ _ Hw); [by apply (fo_alloc _ _ Hx)|apply slot_range; lia|by apply (fo_alloc _ _ Hx)].
  - destruct (wr_new _ _ _ _ _ _ Hw (n * BSIZE)) as [Hz _]; [lia|]. by rewrite Z.div_mul in Hz by lia.
Qed.

Lemma wrote_fdata V x V' x' off bs :
  file_ok V x -> wrote V x V' x' off bs -> 0 <= off <= i_size x -> off + Z.of_nat (length bs) <= MAXFILE * BSIZE ->
  fdata V' (set_i_size (Z.max (i_size x) (off + Z.of_nat (length bs))) x') = lset (fdata V x) off bs.
Proof.
  intros Hx Hw Ho Hmax. pose proof (fo_size _ _ Hx) as Hs. apply list_eq. intros i. rewrite lookup_fdata.
  change (i_size (set_i_size ?z x')) with z. change (fbyte V' (set_i_size ?z x')) with (fbyte V' x').
  assert (forall k, 0 <= k < i_size x -> ~ off <= k < off + Z.of_nat (length bs) -> fbyte V' x' k = fbyte V x k) as Hold.
  { intros k Hk Hk2. apply (wr_old _ _ _ _ _ _ Hw); [lia| |done]. apply (fo_alloc _ _ Hx); [apply Z.div_pos; lia|].
    pose proof (Z.mul_div_le k BSIZE). lia. }
  unfold lset. destruct (decide (Z.of_nat i < off)) as [H1|H1].
  - rewrite decide_True by lia. rewrite lookup_app_l by (rewrite length_take, length_fdata; lia).
    rewrite lookup_take_lt, lookup_fdata, decide_True by lia. f_equal. apply Hold; lia.
  - rewrite lookup_app_r by (rewrite length_take, length_fdata; lia). rewrite length_take, length_fdata, Nat.min_l by lia.
    destruct (decide (Z.of_nat i < off + Z.of_nat (length bs))) as [H2|H2].
    + rewrite decide_True by lia. rewrite lookup_app_l by lia.
      rewrite list_lookup_lookup_total_lt by lia. f_equal. destruct (wr_new _ _ _ _ _ _ Hw (Z.of_nat i)) as [_ ->]; [lia|].
      f_equal. lia.
    + rewrite lookup_app_r, lookup_drop, lookup_fdata by lia.
      replace (Z.to_nat off + length bs + (i - Z.to_nat off - length bs))%nat with i by lia.
      destruct (decide (Z.of_nat i < i_size x)); [rewrite decide_True by lia; f_equal; apply Hold; lia|].
      by rewrite decide_False by lia.
Qed.

(** The block of inode [x] is before the bitmap; the inode is there as it is
    in memory. *)
Definition iblock (x : inode) : Z := IBLOCK (i_inum x) sb.
Definition inode_ok (x : inode) : Prop := 0 <= i_inum x /\ 0 <= iblock x < sb_bmapstart sb /\ fields_ok x.
Definition inode_saved (V : Z -> list Z) (x : inode) : Prop :=
  dinode_load (V (iblock x)) (dinode_off (i_inum x)) x = x.

Lemma iblock_meta x : inode_ok x -> ~ in_data (iblock x) /\ ~ bitmap_block sb (iblock x) /\ 0 <= iblock x < 2 ^ 31.
Proof.
  intros (_ & Hb & _). pose proof data_start_pos. destruct lay. unfold in_data, bitmap_block, data_start in *.
  pose proof (Z.div_pos (sb_size sb - 1) BPB). lia.
Qed.

Lemma dinode_off_range i : 0 <= dinode_off i /\ dinode_off i + 64 <= 1024.
Proof. unfold dinode_off. pose proof (Z.mod_pos_bound i IPB). lia. Qed.

Lemma addrs_range V x : file_ok V x -> Forall (fun a => 0 <= a < 2 ^ 32) (i_addrs x).
Proof.
  intros Hx. pose proof (fo_addrs _ _ Hx) as Hl. apply Forall_lookup. intros i a Ha.
  pose proof (lookup_lt_Some _ _ _ Ha) as Hi. destruct (decide (a = 0)) as [->|Hn]; [lia|].
  assert (oblk V x (Z.of_nat i) = a) as Ho by (rewrite oblk_low, Nat2Z.id by lia; by apply list_lookup_total_correct).
  destruct (fo_range _ _ Hx (Z.of_nat i)) as [Hd _]; [unfold NSLOT; lia|by rewrite Ho|]. rewrite Ho in Hd.
  apply in_data_pos in Hd. destruct lay. lia.
Qed.

Lemma inode_saved_update V x :
  file_ok V x -> inode_ok x -> length (V (iblock x)) = 1024%nat ->
  inode_saved (bupd (iblock x) (lset (V (iblock x)) (dinode_off (i_inum x)) (dinode_bytes x)) V) x.
Proof.
  intros Hx (H0' & Hb & Hf) Hl. pose proof (dinode_off_range (i_inum x)). pose proof (fo_size _ _ Hx).
  unfold inode_saved. rewrite bupd_eq, dinode_load_bytes; try done; [by destruct x|lia|lia|apply Hx|lia|by eapply addrs_range].
Qed.

End Content.

Lemma list_alter_at {A} `{Inhabited A} (f : A -> A) (l : list A) i :
  (i < length l)%nat -> alter f i l = <[i := f (l !!! i)]> l.
Proof.
  intros Hi. apply list_eq. intros j. destruct (decide (j = i)) as [->|].
  - rewrite list_lookup_alter_eq, list_lookup_insert_eq by done.
    by rewrite (list_lookup_lookup_total_lt l i) by done.
  - by rewrite list_lookup_alter_ne, list_lookup_insert_ne by done.
Qed.

(** A slice of the content. *)
Lemma lget_fdata V x o m : 0 <= o -> o + m <= i_size x -> lget (fdata V x) o m = map (fbyte V x) (seqZ o m).
Proof.
  intros Ho Hm. apply list_eq. intros i. rewrite lookup_seqZ_map. unfold lget.
  destruct (decide (Z.of_nat i < m)).
  - rewrite lookup_take_lt, lookup_drop by lia. unfold fdata. rewrite lookup_seqZ_map, decide_True by lia.
    do 2 f_equal. lia.
  - by rewrite lookup_take_ge by lia.
Qed.

(** The part of a block between [o] and the end of the block. *)
Lemma lget_block V x o m :
  0 <= o -> 0 <= m <= BSIZE - o mod BSIZE -> length (V (oblk V x (slot (o / BSIZE)))) = 1024%nat ->
  lget (V (oblk V x (slot (o / BSIZE)))) (o mod BSIZE) m = map (fbyte V x) (seqZ o m).
Proof.
  intros Ho Hm Hl. pose proof (Z.mod_pos_bound o BSIZE ltac:(lia)). apply list_eq. intros i.
  rewrite lookup_seqZ_map. unfold lget. destruct (decide (Z.of_nat i < m)) as [Hi|]; [|by rewrite lookup_take_ge by lia].
  rewrite lookup_take_lt, lookup_drop by lia. unfold fbyte.
  pose proof (Z.div_mod o BSIZE ltac:(lia)) as Hdm.
  assert ((o + Z.of_nat i) / BSIZE = o / BSIZE /\ (o + Z.of_nat i) mod BSIZE = o mod BSIZE + Z.of_nat i) as [-> ->].
  { split; symmetry; [apply (Z.div_unique_pos _ _ _ (o mod BSIZE + Z.of_nat i))|apply (Z.mod_unique_pos _ _ (o / BSIZE))]; lia. }
  rewrite list_lookup_lookup_total_lt by lia. do 2 f_equal. lia.
Qed.

(** Blocks the log may need for the indirect block: itself and its bitmap
    block when it is missing, itself when it is not in the log. *)
Definition pot (L : list Z) (x : inode) : nat :=
  let ind := i_addrs x !!! Z.to_nat NDIRECT in
  if decide (ind = 0) then 2 else if decide (ind ∈ L) then 0 else 1.

(** Blocks the log needs for a block of the content: itself, and its bitmap
    block when it is missing. *)
Definition cost (V : Z -> list Z) (x : inode) (n : Z) : nat :=
  if decide (oblk V x (slot n) = 0) then 2 else 1.

Lemma pot_mono L L' x x' :
  i_addrs x' !!! Z.to_nat NDIRECT = i_addrs x !!! Z.to_nat NDIRECT -> L ⊆ L' -> (pot L' x' <= pot L x)%nat.
Proof.
  intros Ho HL. unfold pot. rewrite Ho. destruct (decide (_ = 0)); [done|].
  destruct (decide (_ ∈ L)); [rewrite decide_True by auto; lia|]. destruct (decide _); lia.
Qed.

Lemma pot_in V L x : oblk V x NDIRECT <> 0 -> oblk V x NDIRECT ∈ L -> pot L x = 0%nat.
Proof. rewrite oblk_low by lia. intros Hn Hin. unfold pot. by rewrite decide_False, decide_True. Qed.

(** The log stays within [K] blocks when a write from [o] to [e] is under way:
    two for each block of the content, one for the first block when it is
    there, those of the indirect block, and the one of the inode. *)
Definition room (K : nat) (L : list Z) (V : Z -> list Z) (x : inode) (o e : Z) : Prop :=
  Z.of_nat (length L + pot L x) + 1 +
    (if o <? e then 2 * ((e - 1) / BSIZE - o / BSIZE) + Z.of_nat (cost V x (o / BSIZE)) else 0) <= Z.of_nat K.

Lemma room_first K L V x o e : o < e -> room K L V x o e -> (length L + pot L x + cost V x (o / BSIZE) + 1 <= K)%nat.
Proof.
  intros Hlt Hr. unfold room in Hr. rewrite (proj2 (Z.ltb_lt o e)) in Hr by done.
  pose proof (Z.div_le_mono o (e - 1) BSIZE). lia.
Qed.

Lemma cost_le V x n : (cost V x n <= 2)%nat.
Proof. unfold cost. destruct (decide _); lia. Qed.

Lemma room_next K L L' V V' x x' o e m :
  0 <= o -> o < e -> room K L V x o e -> (length L' + pot L' x' <= length L + pot L x + cost V x (o / BSIZE))%nat ->
  m = Z.min (e - o) (BSIZE - o mod BSIZE) -> room K L' V' x' (o + m) e.
Proof.
  intros Ho Hlt Hr Hl ->. pose proof (room_first _ _ _ _ _ _ Hlt Hr) as H8. unfold room in *. rewrite (proj2 (Z.ltb_lt o e)) in Hr by done.
  pose proof (Z.div_mod o BSIZE ltac:(lia)) as Hdm. pose proof (Z.mod_pos_bound o BSIZE ltac:(lia)) as Hm.
  set (m := Z.min _ _). destruct (Z.ltb_spec (o + m) e) as [H1'|H1']; [|lia].
  replace ((o + m) / BSIZE) with (o / BSIZE + 1) by (apply (Z.div_unique_pos _ _ _ 0); lia).
  pose proof (cost_le V' x' (o / BSIZE + 1)). lia.
Qed.

Lemma pot_le L x : (pot L x <= 2)%nat.
Proof. unfold pot. repeat destruct (decide _); lia. Qed.

(** Three blocks of content, wherever they start in a block, fit in what one
    call may log: a write that does not start a block starts in one that is
    there. *)
Lemma room_op sb L V x off n :
  file_ok sb V x -> 0 <= off <= i_size x -> 0 <= n <= (MAXOPBLOCKS - 1 - 1 - 2) / 2 * BSIZE -> off + n <= MAXFILE * BSIZE ->
  room (length L + Z.to_nat MAXOPBLOCKS) L V x off (off + n).
Proof.
  intros Hx Ho Hn Hmax. change ((MAXOPBLOCKS - 1 - 1 - 2) / 2 * BSIZE) with 3072 in Hn. unfold room.
  pose proof (pot_le L x) as Hp. destruct (Z.ltb_spec off (off + n)) as [Hlt|Hge]; [|lia].
  pose proof (Z.div_mod off BSIZE ltac:(lia)) as Hdm. pose proof (Z.mod_pos_bound off BSIZE ltac:(lia)) as Hm.
  pose proof (Z.div_mod (off + n - 1) BSIZE ltac:(lia)) as Hde. pose proof (Z.mod_pos_bound (off + n - 1) BSIZE ltac:(lia)) as Hme.
  pose proof (cost_le V x (off / BSIZE)) as Hc. destruct (decide (off mod BSIZE = 0)) as [Hal|Hal]; [lia|].
  assert (cost V x (off / BSIZE) = 1%nat); [|lia]. unfold cost. rewrite decide_False; [done|].
  apply (fo_alloc _ _ _ Hx); [apply block_range; lia|lia].
Qed.

Section Ops.
Variables (dev : Z) (p : nat) (pid : Z) (D : disk) (sb : superblock).
Context `{KernelImage} `{SleepFuel} `{BlockDev} `{!BlockDevOk}.
Hypothesis fuel_pos : (0 < sleep_fuel)%nat.
Hypothesis lay : layout sb.
Abbreviation tx := (tx dev p pid D sb).
Abbreviation r_bread := (tx_bread dev p pid D sb fuel_pos).
Abbreviation r_getbuf := (tx_getbuf dev p pid D sb).
Abbreviation r_blit := (tx_blit dev p pid D sb).
Abbreviation r_log_write := (tx_log_write dev p pid D sb).
Abbreviation r_brelse := (tx_brelse dev p pid D sb).
Abbreviation r_updinode := (tx_updinode dev p pid D sb).
Abbreviation r_getinode := (tx_getinode dev p pid D sb).
Abbreviation r_getsb := (tx_getsb dev p pid D sb).
Abbreviation r_balloc := (balloc_spec dev p pid D sb fuel_pos lay).

Lemma bmap_found s L V it ip n (Q : Z -> kst -> Prop) :
  let x := it !!! ip in
  tx s L V [] it -> i_dev x = dev -> 0 <= n < MAXFILE -> oblk V x (slot n) <> 0 -> (length L < NBUF)%nat ->
  (forall s', tx s' L V [] it -> Q (oblk V x (slot n)) s') -> runs (bmap ip n) s Q.
Proof.
  intros x Ht Hd Hn Hz Hlen Hk. unfold bmap. eapply r_getinode; [done|]. fold x. unfold slot in *.
  destruct (Z.ltb_spec n NDIRECT) as [Hlt|Hge].
  - rewrite oblk_low in * by lia. rewrite (proj2 (Z.eqb_neq _ _)) by done. apply runs_ret. by apply Hk.
  - rewrite (proj2 (Z.ltb_lt _ _)) by lia. rewrite <- (oblk_low V x NDIRECT) by lia.
    rewrite (oblk_high V x (n + 1)) in * by lia. replace (n + 1 - 13) with (n - NDIRECT) in * by lia.
    destruct (Z.eqb_spec (oblk V x NDIRECT) 0) as [E|E]; [done|]. apply runs_bind, runs_ret.
    rewrite (proj2 (Z.eqb_neq (oblk V x NDIRECT) 0)) by done. rewrite Hd.
    apply runs_bind. eapply r_bread; [done|set_solver|simpl; lia|]. intros b s1 T1.
    apply runs_bind. eapply r_getbuf; [exact T1|left|]. intros y Hy _. rewrite Hy.
    rewrite (proj2 (Z.eqb_neq _ _)) by done. apply runs_bind, runs_ret.
    apply runs_bind. eapply r_brelse; [exact T1| |intros s2 T2; apply runs_ret; by apply Hk].
    destruct (decide (oblk V x NDIRECT ∈ L)); [by left|right]. apply Ht; set_solver.
Qed.

(** What [bmap] does when a number is missing: it calls [balloc], and stores
    the new number. *)
Lemma balloc_direct s L V it ip i (Q : Z -> kst -> Prop) (k : Z -> K Z) :
  let x := it !!! ip in
  tx s L V [] it -> (ip < length it)%nat -> i_dev x = dev -> file_ok sb V x -> reserved sb V ->
  0 <= i <= NDIRECT -> oblk V x i = 0 -> (length L + 2 <= NBUF)%nat ->
  (forall s', tx s' L V [] it -> (forall b, 0 <= b < sb_size sb -> used sb V b) -> runs (k 0) s' Q) ->
  (forall s' a L' V', grow 2 L L' /\ a ∈ L' /\ V' a = zero_block -> a <> 0 ->
     let x' := set_i_addrs (<[Z.to_nat i := a]> (i_addrs x)) x in
     ext sb V x V' x' -> oblk V' x' i = a -> tx s' L' V' [] it -> runs (k a) s' Q) ->
  runs (a <- balloc dev ;; k a) s Q.
Proof.
  intros x Ht Hip Hd Hx Hres Hi Hz Hlen Hfull Hk. apply runs_bind.
  eapply r_balloc; [exact Ht|done|unfold held_ok; set_solver|simpl; lia| |].
  - intros s' T' Hu. by apply Hfull.
  - intros a s' L' Ha Hu [Hg Hin] T'.
    assert (ext sb V x (balloc_V sb V a) (set_i_addrs (<[Z.to_nat i := a]> (i_addrs x)) x)) as He
      by (apply ext_direct; try done; intros bn; by eapply tx_length).
    eapply Hk; [split; [done|split; [done|apply bupd_eq]]| |exact He| |exact T'].
    + apply (in_data_pos sb lay) in Ha. lia.
    + rewrite oblk_low by lia. change (i_addrs (set_i_addrs ?l x)) with l.
      rewrite list_lookup_total_insert_eq; [done|]. rewrite (fo_addrs _ _ _ Hx). lia.
Qed.

Lemma full_mono V V' : (forall b, 0 <= b < sb_size sb -> used sb V b -> used sb V' b) ->
  reserved sb V -> reserved sb V'.
Proof. intros Hm Hr b Hb. destruct lay. apply Hm; [lia|]. by apply Hr. Qed.

(** The part of [bmap] that uses the indirect block [ind]. *)
Definition bmap_entry (ind m : Z) : K Z :=
  bp <- bread dev ind ;;
  b <- getbuf bp ;;
  let addr := ld32 (b_data b) (4 * m) in
  addr <- (if addr =? 0 then
             addr <- balloc dev ;;
             when (negb (addr =? 0))
               (updbuf bp (fun b => set_b_data (st32 (b_data b) (4 * m) addr) b) ;;;
                log_write bp) ;;;
             ret addr
           else ret addr) ;;
  brelse bp ;;;
  ret addr.

(** The new number is in the indirect block. *)
Lemma entry_written V x m a :
  let ind := oblk V x NDIRECT in
  let V2 := bupd ind (st32 (balloc_V sb V a ind) (4 * m) a) (balloc_V sb V a) in
  ind <> 0 -> 0 <= m < NINDIRECT -> (forall bn, length (balloc_V sb V a bn) = 1024%nat) -> 0 < a < 2 ^ 32 ->
  oblk V2 x (m + 13) = a /\ oblk V2 x NDIRECT = ind.
Proof.
  intros ind V2 Hi Hm Hl Ha. split; [|by rewrite !oblk_low by lia].
  rewrite oblk_high by lia. rewrite (oblk_low _ x NDIRECT), <- (oblk_low V x NDIRECT) by lia. fold ind.
  rewrite (proj2 (Z.eqb_neq ind 0)) by done. unfold V2. rewrite bupd_eq. replace (m + 13 - 13) with m by lia.
  rewrite ld32_st32_eq by (rewrite ?Hl; lia). apply u32_small. lia.
Qed.

Lemma bmap_entry_spec s L V it x m (Q : Z -> kst -> Prop) :
  let ind := oblk V x NDIRECT in
  tx s L V [] it -> file_ok sb V x -> reserved sb V -> 0 <= m < NINDIRECT -> ind <> 0 -> oblk V x (m + 13) = 0 ->
  (length L + 3 <= NBUF)%nat ->
  (forall s', tx s' L V [] it -> (forall b, 0 <= b < sb_size sb -> used sb V b) -> Q 0 s') ->
  (forall s' L' V', (length L' + pot L' x <= length L + pot L x + 2)%nat -> ext sb V x V' x -> tx s' L' V' [] it ->
     oblk V' x (m + 13) <> 0 -> oblk V' x (m + 13) ∈ L' -> Q (oblk V' x (m + 13)) s') ->
  runs (bmap_entry ind m) s Q.
Proof.
  intros ind Ht Hx Hres Hm Hi Hz Hlen Hfull Hk. destruct (fo_range _ _ _ Hx NDIRECT) as [Hda Hu]; [unfold NSLOT; lia|done|].
  assert (oblk V x (m + 13) = ld32 (V ind) (4 * m)) as Ho.
  { rewrite oblk_high by lia. fold ind. rewrite (proj2 (Z.eqb_neq ind 0)) by done. do 2 f_equal. lia. }
  assert (ind ∈ L \/ V ind = dget D ind) as Hcl.
  { destruct (decide (ind ∈ L)); [by left|right]. apply Ht; set_solver. }
  unfold bmap_entry. apply runs_bind. eapply r_bread; [done|set_solver|simpl; lia|]. intros b s1 T1.
  apply runs_bind. eapply r_getbuf; [exact T1|left|]. intros y Hy _. rewrite Hy, <- Ho, Hz. cbn [Z.eqb]. apply runs_bind.
  apply runs_bind. eapply r_balloc; [exact T1|done| |simpl; lia| |].
  { intros bn [->|[]%not_elem_of_nil]%elem_of_cons. split; [done|]. by apply data_not_bitmap. }
  - intros s2 T2 Hall. apply runs_bind, runs_ret, runs_ret, runs_bind.
    eapply r_brelse; [exact T2|done|]. intros s3 T3. apply runs_ret. by apply Hfull.
  - intros a s2 L' Ha Hua [[Hg1 Hg2] Hain] T2. assert (0 < a < sb_size sb) as Hap by (by apply in_data_pos).
    assert (ext sb V x (bupd ind (st32 (balloc_V sb V a ind) (4 * m) a) (balloc_V sb V a)) x) as He.
    { replace (4 * m) with (4 * (m + 13 - 13)) by lia.
      apply ext_entry; auto; [intros bn; by eapply tx_length|unfold NSLOT; lia]. }
    rewrite (proj2 (Z.eqb_neq a 0)) by lia. apply runs_bind. cbn [negb when]. destruct lay as [La1 La0 La2].
    unfold when. apply runs_bind. eapply (r_blit _ _ _ _ _ _ ind (fun d => st32 d (4 * m) a)); [exact T2|left| |].
    { rewrite length_st32 by (rewrite ?(tx_length _ _ _ _ _ _ _ _ _ _ _ T2); lia). by eapply tx_length. }
    intros s3 T3. eapply r_log_write; [exact T3|left|unfold in_data in *; pose proof (data_start_pos sb lay); lia|lia|]. intros s4 T4.
    apply runs_ret, runs_bind. eapply r_brelse; [exact T4|left; apply elem_of_log_add; by right|]. intros s5 T5. apply runs_ret.
    set (V2 := bupd ind _ _) in *. destruct (entry_written V x m a) as [Ha2 Hi2]; [done|lia|intros bn; by eapply tx_length|lia|]. fold ind V2 in Ha2, Hi2.
    rewrite <- Ha2. eapply Hk; [|exact He|exact T5|rewrite Ha2; lia|rewrite Ha2; apply elem_of_log_add; by left].
    rewrite (pot_in V2) by (rewrite Hi2; (done || (apply elem_of_log_add; by right))).
    unfold log_add, pot. rewrite <- (oblk_low V x NDIRECT) by lia. fold ind. cbv zeta. rewrite (decide_False (P := ind = 0)) by done. destruct (decide (ind ∈ L)) as [HL|HL].
    + rewrite decide_True by set_solver. lia.
    + destruct (decide (ind ∈ L')); [lia|]. rewrite length_app. simpl. lia.
Qed.

Lemma tx_setinode s L V hs it ip f (Q : unit -> kst -> Prop) :
  tx s L V hs it -> (ip < length it)%nat -> (forall s', tx s' L V hs (<[ip := f (it !!! ip)]> it) -> Q tt s') ->
  runs (updinode ip f) s Q.
Proof. intros Ht Hip Hk. eapply r_updinode; [exact Ht|]. rewrite list_alter_at by done. exact Hk. Qed.

Lemma insert_same it ip : (ip < length it)%nat -> <[ip := it !!! ip]> it = (it : list inode).
Proof. intros Hip. apply list_insert_id. by apply list_lookup_lookup_total_lt. Qed.

(** [bmap] on a file: it returns the number of the block, which it allocates
    when it is missing; 0 when no block is free. A block that is there costs
    the log nothing; a new one is in the log already. *)
Section Bmap.
Variables (s : kst) (L : list Z) (V : Z -> list Z) (it : list inode) (ip : nat) (n : Z) (Q : Z -> kst -> Prop).
Let x := it !!! ip.
Hypothesis Ht : tx s L V [] it.
Hypothesis Hip : (ip < length it)%nat.
Hypothesis Hd : i_dev x = dev.
Hypothesis Hx : file_ok sb V x.
Hypothesis Hres : reserved sb V.
Hypothesis Hlen : (length L + pot L x + cost V x n + 1 <= NBUF)%nat.
Hypothesis Hfull : oblk V x (slot n) = 0 -> forall s' L' V' x', (length L' + pot L' x' <= length L + pot L x + 2)%nat ->
  ext sb V x V' x' -> tx s' L' V' [] (<[ip := x']> it) -> (forall b, 0 <= b < sb_size sb -> used sb V' b) -> Q 0 s'.
Hypothesis Hk : forall s' L' V' x', let a := oblk V' x' (slot n) in
  (length (log_add L' a) + pot (log_add L' a) x' <= length L + pot L x + cost V x n)%nat ->
  ext sb V x V' x' -> tx s' L' V' [] (<[ip := x']> it) -> a <> 0 -> Q a s'.

Lemma bmap_new s' L' V' x' : oblk V x (slot n) = 0 ->
  (length L' + pot L' x' <= length L + pot L x + 2)%nat -> ext sb V x V' x' -> tx s' L' V' [] (<[ip := x']> it) ->
  oblk V' x' (slot n) <> 0 -> oblk V' x' (slot n) ∈ L' -> Q (oblk V' x' (slot n)) s'.
Proof using All.
  intros Hz Hl He T' Hn Hin. eapply Hk; eauto. unfold log_add. rewrite decide_True by done.
  unfold cost. by rewrite decide_True.
Qed.

Lemma full_now s' : oblk V x (slot n) = 0 -> tx s' L V [] it -> (forall b, 0 <= b < sb_size sb -> used sb V b) -> Q 0 s'.
Proof using All.
  intros Hz T' Hu. apply (Hfull Hz s' L V x); [lia|by apply ext_refl| |done]. unfold x. by rewrite insert_same.
Qed.

Lemma bmap_direct : 0 <= n < NDIRECT -> oblk V x (slot n) = 0 -> runs (bmap ip n) s Q.
Proof using All.
  intros Hn Hz. pose proof (fun s' L' V' x' => bmap_new s' L' V' x' Hz) as Hnew.
  pose proof (fun s' => full_now s' Hz) as Hnow. assert (cost V x n = 2%nat) as Hc by (by apply decide_True).
  unfold bmap. eapply r_getinode; [done|]. fold x.
  assert (slot n = n) as Hsl by (unfold slot; by rewrite (proj2 (Z.ltb_lt n NDIRECT)) by lia).
  rewrite Hsl in *. rewrite (proj2 (Z.ltb_lt n NDIRECT)) by lia. rewrite <- (oblk_low V x n), Hz, Hd by lia. cbn [Z.eqb].
  apply (balloc_direct s L V it ip n); [done..|lia|done|lia| |]; fold x.
  - intros s' T' Hu. apply runs_ret. by apply Hnow.
  - intros s' a L' V' [[Hg1 Hg2] [Hin Hzb]] Ha x' He Hoa T'. rewrite (proj2 (Z.eqb_neq a 0)) by done. apply runs_bind.
    eapply tx_setinode; [exact T'|done|]. intros s2 T2. apply runs_ret. rewrite <- Hoa.
    apply (Hnew s2 L' V' x'); [|done|done|congruence|by rewrite Hoa].
    assert (pot L' x' <= pot L x)%nat; [|lia]. apply pot_mono; [|done].
    change (i_addrs x') with (<[Z.to_nat n := a]> (i_addrs x)).
    by rewrite list_lookup_total_insert_ne by lia.
Qed.

Lemma bmap_indirect : NDIRECT <= n < MAXFILE -> oblk V x (slot n) = 0 -> runs (bmap ip n) s Q.
Proof using All.
  intros Hn Hz. pose proof (fun s' L' V' x' => bmap_new s' L' V' x' Hz) as Hnew. pose proof (Hfull Hz) as Hfull'.
  pose proof (fun s' => full_now s' Hz) as Hnow. assert (cost V x n = 2%nat) as Hc by (by apply decide_True).
  unfold bmap. eapply r_getinode; [done|]. fold x.
  assert (slot n = n - NDIRECT + 13) as Hsl by (unfold slot; rewrite (proj2 (Z.ltb_ge n NDIRECT)) by lia; lia).
  rewrite Hsl in *. rewrite (proj2 (Z.ltb_ge n NDIRECT)) by lia.
  rewrite (proj2 (Z.ltb_lt _ _)) by lia. rewrite <- (oblk_low V x NDIRECT), Hd by lia. cbv zeta.
  change (runs (ind <- (if oblk V x NDIRECT =? 0 then
     addr <- balloc dev ;;
     when (negb (addr =? 0))
       (updinode ip (fun x => set_i_addrs (<[Z.to_nat NDIRECT := addr]> (i_addrs x)) x)) ;;;
     ret addr else ret (oblk V x NDIRECT)) ;;
     if ind =? 0 then ret 0 else bmap_entry ind (n - NDIRECT)) s Q).
  apply runs_bind.
  destruct (Z.eqb_spec (oblk V x NDIRECT) 0) as [E|E].
  - assert (pot L x = 2%nat) as Hp2 by (unfold pot; rewrite <- (oblk_low V x NDIRECT) by lia; by rewrite decide_True).
    apply (balloc_direct s L V it ip NDIRECT); [done..|lia|done|lia| |]; fold x.
    + intros s' T' Hu. apply runs_bind, runs_ret, runs_ret, runs_ret. by apply Hnow.
    + intros s' a L' V' [[Hg1 Hg2] [Hin Hzb]] Ha x' He Hoa T'. rewrite (proj2 (Z.eqb_neq a 0)) by done. apply runs_bind.
      eapply tx_setinode; [exact T'|done|]. intros s2 T2. apply runs_ret.
      rewrite (proj2 (Z.eqb_neq a 0)), <- Hoa by done. fold x in T2. fold x' in T2.
      pose proof (full_mono _ _ (ex_used _ _ _ _ _ He) Hres) as Hres'.
      assert (pot L' x' = 0%nat) as Hp0 by (apply (pot_in V'); rewrite Hoa; done).
      assert (oblk V' x' (n - NDIRECT + 13) = 0) as Hz' by (rewrite oblk_high, Hoa, (proj2 (Z.eqb_neq a 0)), Hzb by (done || lia); apply ld32_zero).
      apply (bmap_entry_spec s2 L' V' (<[ip := x']> it)); [done|apply He|done|lia|congruence|done|lia| |].
      * intros s3 T3 Hu. apply (Hfull' s3 L' V' x'); auto. lia.
      * intros s3 L3 V3 Hg3 He3 T3 Hn3 Hin3. apply (Hnew s3 L3 V3 x'); auto; [lia|by eapply ext_trans].
  - apply runs_ret. rewrite (proj2 (Z.eqb_neq _ 0)) by done.
    apply (bmap_entry_spec s L V it); [done|done|done|lia|done|done|lia|by apply Hnow|].
    intros s3 L3 V3 Hg3 He3 T3 Hn3 Hin3. apply (Hnew s3 L3 V3 x); auto. unfold x. by rewrite insert_same.
Qed.

Lemma bmap_spec : 0 <= n < MAXFILE -> runs (bmap ip n) s Q.
Proof using All.
  intros Hn. destruct (decide (oblk V x (slot n) = 0)) as [Hz|Hz].
  - destruct (decide (n < NDIRECT)); [apply bmap_direct|apply bmap_indirect]; auto; lia.
  - apply (bmap_found s L V it); auto; [lia|]. intros s' T'. apply (Hk s' L V x); auto.
    + destruct (grow_log_add L (oblk V x (slot n))) as [Hg1 Hg2]. pose proof (pot_mono L _ x x eq_refl Hg1).
      unfold cost. rewrite decide_False by done. lia.
    + by apply ext_refl.
    + unfold x. by rewrite insert_same.
Qed.
End Bmap.

Lemma readi_loop fuel s L V it ip off n tot (Q : Z * list Z -> kst -> Prop) :
  let x := it !!! ip in
  tx s L V [] it -> i_dev x = dev -> file_ok sb V x -> (length L < NBUF)%nat ->
  0 <= off -> 0 <= tot <= n -> off + n <= i_size x -> n - tot < Z.of_nat fuel ->
  (forall s', tx s' L V [] it -> Q (n, map (fbyte V x) (seqZ off n)) s') ->
  runs (loop fuel (readi_step ip n) (tot, off + tot, DLocal, map (fbyte V x) (seqZ off tot))) s Q.
Proof.
  intros x Ht Hd Hx Hlen Ho Htot Hn Hf Hk. revert s tot Ht Htot Hf.
  induction fuel as [|fuel IH]; intros s tot Ht Htot Hf; [lia|]. cbn [loop]. apply runs_bind. unfold readi_step.
  pose proof (fo_size _ _ _ Hx) as Hsz.
  destruct (Z.ltb_spec tot n) as [Hlt|Hge]; cbn [negb].
  2:{ apply runs_ret, runs_ret. replace tot with n by lia. by apply Hk. }
  assert (0 <= (off + tot) / BSIZE < MAXFILE) as Hb by (apply block_range; lia).
  assert (oblk V x (slot ((off + tot) / BSIZE)) <> 0) as Hz.
  { apply Hx; [lia|]. pose proof (Z.mul_div_le (off + tot) BSIZE). lia. }
  pose proof (Z.mod_pos_bound (off + tot) BSIZE ltac:(lia)) as Hm.
  set (m := Z.min (n - tot) (BSIZE - (off + tot) mod BSIZE)). assert (0 < m <= n - tot /\ m <= BSIZE - (off + tot) mod BSIZE) as Hmr by lia.
  apply runs_bind. apply (bmap_found s L V it); auto. fold x. intros s1 T1. rewrite (proj2 (Z.eqb_neq _ 0)) by done.
  eapply r_getinode; [exact T1|]. fold x. rewrite Hd.
  apply runs_bind. eapply r_bread; [exact T1|set_solver|simpl; lia|]. intros bp s2 T2.
  apply runs_bind. eapply r_getbuf; [exact T2|left|]. intros y Hy _. rewrite Hy. fold m.
  apply runs_bind, runs_ret, runs_bind. eapply r_brelse; [exact T2| |].
  { destruct (decide (oblk V x (slot ((off + tot) / BSIZE)) ∈ L)); [by left|right]. apply T1; set_solver. }
  intros s3 T3. cbn [Z.eqb]. apply runs_ret. rewrite lget_block by (try lia; by eapply tx_length).
  rewrite <- map_app, <- seqZ_app by lia. rewrite u32_small, <- Z.add_assoc by lia.
  apply IH; [done|lia|lia].
Qed.

(** [readi] into a local reads a slice of the content. *)
Lemma readi_spec s L V it ip off n (Q : Z * list Z -> kst -> Prop) :
  let x := it !!! ip in
  tx s L V [] it -> i_dev x = dev -> file_ok sb V x -> (length L < NBUF)%nat ->
  0 <= off <= i_size x -> 0 <= n -> off + n < 2 ^ 32 ->
  (forall s', tx s' L V [] it -> let m := Z.min n (i_size x - off) in Q (m, lget (fdata V x) off m) s') ->
  runs (readi ip DLocal off n) s Q.
Proof.
  intros x Ht Hd Hx Hlen Ho Hn Hov Hk. unfold readi. eapply r_getinode; [done|]. fold x.
  rewrite (proj2 (Z.ltb_ge _ off)) by lia. rewrite u32_small, (proj2 (Z.ltb_ge _ off)) by lia. cbn [orb].
  set (m := Z.min n (i_size x - off)) in *.
  replace (if i_size x <? off + n then i_size x - off else n) with m by (subst m; destruct (Z.ltb_spec (i_size x) (off + n)); lia).
  pose proof (readi_loop (S (Z.to_nat m)) s L V it ip off m 0 Q) as HL. rewrite Z.add_0_r in HL.
  apply HL; auto; fold x; try lia. intros s' T'. rewrite <- lget_fdata by lia. by apply Hk.
Qed.

Lemma writei_iter s L V it ip n tot off rest (Q : Z * Z * iosrc + Z * Z -> kst -> Prop) :
  let x := it !!! ip in let o := off + tot in
  let m := Z.min (n - tot) (BSIZE - o mod BSIZE) in
  tx s L V [] it -> (ip < length it)%nat -> i_dev x = dev -> file_ok sb V x -> reserved sb V ->
  0 <= o -> 0 <= tot < n -> o + (n - tot) <= MAXFILE * BSIZE -> n - tot <= Z.of_nat (length rest) ->
  (length L + pot L x + cost V x (o / BSIZE) + 1 <= NBUF)%nat ->
  (forall s' L' V' x', (length L' + pot L' x' <= length L + pot L x + cost V x (o / BSIZE))%nat ->
     ext sb V x V' x' -> tx s' L' V' [] (<[ip := x']> it) ->
     (forall b, 0 <= b < sb_size sb -> used sb V' b) -> Q (inr (tot, o)) s') ->
  (forall s' L' V' x', (length L' + pot L' x' <= length L + pot L x + cost V x (o / BSIZE))%nat -> ext sb V x V' x' ->
     let a := oblk V' x' (slot (o / BSIZE)) in a <> 0 -> length (V' a) = 1024%nat ->
     tx s' L' (bupd a (lset (V' a) (o mod BSIZE) (take (Z.to_nat m) rest)) V') [] (<[ip := x']> it) ->
     Q (inl (tot + m, o + m, SLocal (drop (Z.to_nat m) rest))) s') ->
  runs (writei_step ip n (tot, o, SLocal rest)) s Q.
Proof.
  intros x o m Ht Hip Hd Hx Hres Ho Htot Hmax Hrest Hlen Hfull Hk. unfold writei_step.
  rewrite (proj2 (Z.ltb_lt _ _)) by lia. cbn [negb]. fold m.
  assert (0 <= o / BSIZE < MAXFILE) as Hb by (apply block_range; lia).
  pose proof (Z.mod_pos_bound o BSIZE ltac:(lia)) as Hmo. assert (0 < m <= n - tot /\ m <= BSIZE - o mod BSIZE) as Hm by lia.
  apply runs_bind. apply (bmap_spec s L V it); auto; fold x.
  - intros Hz s' L' V' x' Hg He T' Hu. cbn [Z.eqb]. apply runs_ret. eapply Hfull; [|done..].
    unfold cost. by rewrite decide_True.
  - intros s1 L1 V1 x1 a Hg He T1 Hn. rewrite (proj2 (Z.eqb_neq _ 0)) by done.
    assert (length (V1 a) = 1024%nat) as Hla by (by eapply tx_length). destruct (grow_log_add L1 a) as [Hg1 Hg2].
    assert (length L1 <= length (log_add L1 a))%nat as Hll by (unfold log_add; destruct (decide _); rewrite ?length_app; lia).
    destruct (fo_range _ _ _ (ex_ok _ _ _ _ _ He) (slot (o / BSIZE))) as [Hda _]; [by apply slot_range|done|]. fold a in Hda.
    eapply r_getinode; [exact T1|]. rewrite list_lookup_total_insert_eq by done.
    destruct (ex_x _ _ _ _ _ He) as [ad Had]. replace (i_dev x1) with dev by (by rewrite Had).
    apply runs_bind. eapply r_bread; [exact T1|set_solver|simpl; lia|]. intros bp s2 T2.
    apply runs_bind, runs_ret. cbn [fst snd]. apply runs_bind.
    eapply (r_blit _ _ _ _ _ _ a (fun d => lset d (o mod BSIZE) (take (Z.to_nat m) rest))); [exact T2|left| |].
    { rewrite length_lset; [done|lia|]. rewrite Hla, length_take. lia. }
    intros s3 T3. change (0 =? -1) with false. cbv iota. apply runs_bind.
    eapply r_log_write; [exact T3|left| |lia|]; [pose proof (in_data_pos sb lay a Hda); destruct lay; lia|]. intros s4 T4.
    apply runs_bind. eapply r_brelse; [exact T4|left; apply elem_of_log_add; by right|]. intros s5 T5. apply runs_ret.
    rewrite u32_small by lia. by apply (Hk s5 (log_add L1 a) V1 x1).
Qed.

Lemma writei_loop fuel K s L V0 x0 V it ip off bs tot (Q : Z * Z -> kst -> Prop) :
  let x := it !!! ip in let n := Z.of_nat (length bs) in
  tx s L V [] it -> (ip < length it)%nat -> i_dev x = dev -> reserved sb V0 ->
  wrote sb V0 x0 V x off (take (Z.to_nat tot) bs) -> 0 <= off -> 0 <= tot <= n -> off + n <= MAXFILE * BSIZE ->
  n - tot < Z.of_nat fuel -> (K <= NBUF)%nat -> room K L V x (off + tot) (off + n) ->
  (forall s' L' V' x' r, tx s' L' V' [] (<[ip := x']> it) -> wrote sb V0 x0 V' x' off (take (Z.to_nat r) bs) ->
     0 <= r <= n -> (r < n -> forall b, 0 <= b < sb_size sb -> used sb V' b) -> (length L' + 1 <= K)%nat ->
     Q (r, off + r) s') ->
  runs (loop fuel (writei_step ip n) (tot, off + tot, SLocal (drop (Z.to_nat tot) bs))) s Q.
Proof.
  intros x n. revert s L V it x tot. induction fuel as [|fuel IH]; intros s L V it x tot Ht Hip Hd Hres Hw Ho Htot Hmax Hf HK Hr Hk; [lia|].
  assert (<[ip := x]> it = it) as Hid by (apply list_insert_id; by apply list_lookup_lookup_total_lt).
  cbn [loop]. apply runs_bind. destruct (decide (tot < n)) as [Hlt|Hge].
  2:{ unfold writei_step. rewrite (proj2 (Z.ltb_ge _ _)) by lia. apply runs_ret, runs_ret.
      apply (Hk s L V x); [by rewrite Hid|done|lia|lia|]. unfold room in Hr. destruct (Z.ltb_spec (off + tot) (off + n)); lia. }
  pose proof (full_mono _ _ (wr_used _ _ _ _ _ _ _ Hw) Hres) as Hres'.
  pose proof (wr_ok _ _ _ _ _ _ _ Hw) as Hx.
  assert (length L + pot L x + cost V x ((off + tot) / BSIZE) + 1 <= K)%nat as H8 by (eapply room_first; [|exact Hr]; lia).
  assert (Z.of_nat (length (take (Z.to_nat tot) bs)) = tot) as Hlt' by (rewrite length_take; lia).
  pose proof (Z.mod_pos_bound (off + tot) BSIZE ltac:(lia)) as Hmo.
  apply (writei_iter s L V it); auto; try lia; fold x.
  { rewrite length_drop. lia. } { lia. }
  - intros s' L' V' x' Hl He T' Hu. apply runs_ret. apply (Hk s' L' V' x' tot); [done| |lia|done|lia].
    eapply wrote_ext; [done|lia| |done|done]. lia.
  - intros s' L' V' x' Hl He a Ha Hla T'. set (m := Z.min _ _) in *.
    rewrite drop_drop, <- Z2Nat.inj_add, <- Z.add_assoc by lia. destruct (ex_x _ _ _ _ _ He) as [ad Had].
    assert (wrote sb V0 x0 V' x' off (take (Z.to_nat tot) bs)) as Hw' by (eapply wrote_ext; [done|lia|lia|done|done]).
    assert (take (Z.to_nat (tot + m)) bs = take (Z.to_nat tot) bs ++ take (Z.to_nat m) (drop (Z.to_nat tot) bs)) as Htk
      by (rewrite take_take_drop, Z2Nat.inj_add by lia; done).
    assert (Z.of_nat (length (take (Z.to_nat m) (drop (Z.to_nat tot) bs))) = m) as Hlm
      by (rewrite length_take, length_drop; lia).
    pose proof (wrote_blit sb lay V0 x0 V' x' off _ (take (Z.to_nat m) (drop (Z.to_nat tot) bs)) Ho Hw') as Hw2.
    cbv zeta in Hw2. rewrite Hlt', Hlm, <- Htk in Hw2. fold a in Hw2. specialize (Hw2 Ha Hla ltac:(lia) ltac:(lia) ltac:(lia)).
    eapply IH; [exact T'|by rewrite length_insert|..]; rewrite ?list_lookup_total_insert_eq by done; try lia.
    + by rewrite Had.
    + done.
    + done.
    + rewrite Z.add_assoc. eapply room_next; [| |exact Hr|exact Hl|]; [lia..|]. subst m. f_equal. lia.
    + intros s2 L2 V2 x2 r T2. rewrite list_insert_insert_eq in T2. intros. by eapply Hk.
Qed.

Lemma iupdate_spec s L V it ip (Q : unit -> kst -> Prop) :
  let x := it !!! ip in
  tx s L V [] it -> i_dev x = dev -> inode_ok sb x -> file_ok sb V x -> (length L < NBUF)%nat ->
  (forall s', tx s' (log_add L (iblock sb x)) (bupd (iblock sb x) (lset (V (iblock sb x)) (dinode_off (i_inum x)) (dinode_bytes x)) V) [] it ->
     Q tt s') ->
  runs (iupdate ip) s Q.
Proof.
  intros x Ht Hd Hi Hx Hlen Hk. destruct (iblock_meta sb lay x Hi) as (_ & _ & Hr). pose proof (dinode_off_range (i_inum x)) as Hdo.
  unfold iupdate. eapply r_getinode; [done|]. fold x. eapply r_getsb; [done|]. rewrite Hd. fold (iblock sb x).
  apply runs_bind. eapply r_bread; [done|set_solver|simpl; lia|]. intros bp s1 T1.
  eapply r_getinode; [exact T1|]. fold x. apply runs_bind.
  eapply (r_blit _ _ _ _ _ _ (iblock sb x) (fun d => lset d (dinode_off (i_inum x)) (dinode_bytes x))); [exact T1|left| |].
  { assert (length (V (iblock sb x)) = 1024%nat) as Hl by (by eapply tx_length).
    rewrite length_lset; rewrite ?length_dinode_bytes by apply Hx; lia. }
  intros s2 T2. apply runs_bind. eapply r_log_write; [exact T2|left|done|simpl; lia|]. intros s3 T3.
  eapply r_brelse; [exact T3|left; apply elem_of_log_add; by right|exact Hk].
Qed.

(** [writei] overwrites and extends the content. It writes less than it
    should only when no block is free; then the file ends where the write
    stopped. No other file changes. *)
Lemma writei_spec K s L V it ip off bs (Q : Z -> kst -> Prop) :
  let x := it !!! ip in let n := Z.of_nat (length bs) in
  tx s L V [] it -> (ip < length it)%nat -> i_dev x = dev -> file_ok sb V x -> reserved sb V -> inode_ok sb x ->
  0 <= off <= i_size x -> off + n <= MAXFILE * BSIZE -> (K <= NBUF)%nat -> room K L V x off (off + n) ->
  (forall s' L' V' x' r, tx s' L' V' [] (<[ip := x']> it) ->
     (length L' <= K)%nat -> 0 <= r <= n -> (r < n -> forall b, 0 <= b < sb_size sb -> used sb V' b) ->
     fdata V' x' = lset (fdata V x) off (take (Z.to_nat r) bs) ->
     file_ok sb V' x' -> reserved sb V' -> inode_saved sb V' x' ->
     (exists ad, x' = set_i_size (Z.max (i_size x) (off + r)) (set_i_addrs ad x)) ->
     (forall b, 0 <= b < sb_size sb -> used sb V b -> ~ bitmap_block sb b -> b <> iblock sb x ->
        (forall i, 0 <= i < NSLOT -> b <> oblk V x i) -> V' b = V b) ->
     Q r s') ->
  runs (writei ip (SLocal bs) off n) s Q.
Proof.
  intros x n Ht Hip Hd Hx Hres Hi Ho Hmax HK Hr Hk. pose proof (fo_size _ _ _ Hx) as Hsz.
  unfold writei. eapply r_getinode; [done|]. fold x.
  rewrite (proj2 (Z.ltb_ge _ off)) by lia. rewrite u32_small, (proj2 (Z.ltb_ge _ off)) by lia. cbn [orb].
  rewrite (proj2 (Z.ltb_ge (MAXFILE * BSIZE) _)) by lia. apply runs_bind.
  pose proof (writei_loop (S (Z.to_nat n)) K s L V x V it ip off bs 0) as HL. cbv zeta in HL. fold x n in HL.
  rewrite Z.add_0_r in HL. change (drop (Z.to_nat 0) bs) with bs in HL. apply HL; auto; try lia; [by apply wrote_refl|]. clear HL.
  intros s1 L1 V1 x1 r T1 Hw Hrr Hfull Hlen. cbn [fst snd].
  assert (Z.of_nat (length (take (Z.to_nat r) bs)) = r) as Hlr by (rewrite length_take; lia).
  pose proof (wrote_size sb V x V1 x1 off _ Hx Hw Ho ltac:(lia)) as Hok.
  pose proof (wrote_fdata sb V x V1 x1 off _ Hx Hw Ho ltac:(lia)) as Hfd. rewrite Hlr in Hok, Hfd.
  set (x2 := set_i_size (Z.max (i_size x) (off + r)) x1) in *. destruct (wr_x _ _ _ _ _ _ _ Hw) as [ad Had].
  assert (inode_ok sb x2) as Hi2 by (subst x2; rewrite Had; destruct Hi as (? & ? & []); split; [done|split; [done|by split]]).
  eapply r_getinode; [exact T1|]. rewrite list_lookup_total_insert_eq by done. replace (i_size x1) with (i_size x) by (by rewrite Had).
  apply runs_bind. eapply (runs_mono _ _ (fun _ t => tx t L1 V1 [] (<[ip := x2]> it))).
  { unfold when. destruct (Z.ltb_spec (i_size x) (off + r)) as [Hlt|Hge].
    - eapply tx_setinode; [exact T1|by rewrite length_insert|]. intros s2.
      rewrite list_insert_insert_eq, list_lookup_total_insert_eq by done. subst x2. by rewrite Z.max_r by lia.
    - apply runs_ret. replace x2 with x1; [done|]. subst x2. rewrite Z.max_l, Had by lia. by destruct x. }
  intros _ s2 T2. destruct (iblock_meta sb lay x2 Hi2) as (Hm1 & Hm2 & _).
  apply runs_bind. eapply iupdate_spec; [exact T2|..]; rewrite ?list_lookup_total_insert_eq by done.
  { subst x2. by rewrite Had. } { done. } { done. } { lia. }
  intros s3 T3. apply runs_ret. assert (length (V1 (iblock sb x2)) = 1024%nat) as Hl1 by (by eapply tx_length).
  eapply Hk; [exact T3| |done| | | | | | |].
  - destruct (grow_log_add L1 (iblock sb x2)). lia.
  - intros Hlt b Hb. apply (used_bupd sb lay); auto.
  - by rewrite (fdata_meta sb).
  - by apply file_ok_meta.
  - eapply full_mono; [|exact Hres]. intros b Hb Hu. apply (used_bupd sb lay); auto. by apply (wr_used _ _ _ _ _ _ _ Hw).
  - by apply inode_saved_update.
  - exists ad. subst x2. by rewrite Had.
  - intros b Hb Hu Hbm Hne Hob. replace (iblock sb x2) with (iblock sb x) by (subst x2; by rewrite Had).
    rewrite bupd_ne by done. by apply (wr_other _ _ _ _ _ _ _ Hw).
Qed.



End Ops.

(* ------------------------------------------------------------------ *)
(** ** The directory of the small file system *)

Lemma demo_oblk i : 0 <= i < NSLOT -> oblk (dget demo_disk) demo_dir i = if decide (i = 0) then 5 else 0.
Proof.
  intros Hi. destruct (decide (i <= NDIRECT)) as [Hl|Hl]; [|by rewrite oblk_high, decide_False by lia].
  rewrite oblk_low by done. unfold demo_dir. cbn [i_addrs]. destruct (decide (i = 0)) as [->|Hne]; [done|].
  destruct (Z.to_nat i) as [|k] eqn:E; [lia|]. rewrite list_lookup_total_alt.
  change ((5 :: zeros 12) !! S k) with (zeros 12 !! k). unfold zeros. rewrite lookup_replicate_2 by lia. done.
Qed.

Lemma demo_file_ok : file_ok demo_sb (dget demo_disk) demo_dir.
Proof.
  split.
  - done.
  - intros i Hi. rewrite demo_oblk by done. destruct (decide (i = 0)); [|done]. intros _.
    split; [split; vm_compute; done|vm_compute; done].
  - intros i j Hi Hj. rewrite !demo_oblk by done. destruct (decide (i = 0)), (decide (j = 0)); congruence || done.
  - intros n Hn Hlt. change (i_size demo_dir) with 16 in Hlt. assert (n = 0) as -> by lia. vm_compute. done.
  - split; vm_compute; done.
Qed.

Lemma demo_inode_ok : inode_ok demo_sb demo_dir.
Proof. split; [done|]. split; [split; vm_compute; done|]. split; vm_compute; done. Qed.





