(* ===== verification/Trunc.v ===== *)
(** * Truncating a file

    [itrunc] gives back every block of an inode, the indirect block included,
    and nothing else. The file system has one bitmap block, as mkfs.c makes
    it (2000 blocks; a bitmap block has 8192 bits). *)

From S2P Require Import Prelude Machine KState Spinlock Kalloc Walk Vm Sched Strings Printf Print Bio BufCache BufRules Log Fs Txn Content.
Local Open Scope Z_scope.
Local Open Scope kern_scope.

Lemma addrs_zero ad : length ad = 13%nat -> (forall i, 0 <= i <= NDIRECT -> ad !!! Z.to_nat i = 0) -> ad = zeros 13.
Proof.
  intros Hl Hz. apply list_eq. intros i. unfold zeros. destruct (decide (i < 13)%nat) as [Hi|Hi].
  - rewrite lookup_replicate_2, list_lookup_lookup_total_lt by lia. f_equal. rewrite <- (Nat2Z.id i). apply Hz. lia.
  - rewrite !lookup_ge_None_2; [done|rewrite length_replicate; lia|lia].
Qed.

Lemma oblk_empty W y i : i_addrs y = zeros 13 -> 0 <= i < NSLOT -> oblk W y i = 0.
Proof.
  intros Ha Hi. assert (forall k, 0 <= k <= NDIRECT -> oblk W y k = 0) as Hlow.
  { intros k Hk. rewrite oblk_low, Ha by lia. unfold zeros. apply list_lookup_total_correct, lookup_replicate_2. lia. }
  destruct (decide (i <= NDIRECT)); [apply Hlow; lia|]. by rewrite oblk_high, Hlow by lia.
Qed.

Lemma file_ok_empty sb W y : i_addrs y = zeros 13 -> i_size y = 0 -> file_ok sb W y.
Proof.
  intros Ha Hs. split.
  - by rewrite Ha.
  - intros i Hi. by rewrite oblk_empty.
  - intros i j Hi Hj. by rewrite oblk_empty.
  - intros n Hn Hlt. lia.
  - lia.
Qed.

Section Trunc.
Variables (dev : Z) (p : nat) (pid : Z) (D : disk) (sb : superblock).
Context `{KernelImage} `{SleepFuel} `{BlockDev} `{!BlockDevOk}.
Hypothesis fuel_pos : (0 < sleep_fuel)%nat.
Hypothesis lay : layout sb.
Hypothesis one_bitmap : sb_size sb <= BPB.
Abbreviation tx := (tx dev p pid D sb).
Abbreviation bb := (sb_bmapstart sb).

(** The blocks [S] were freed. *)
Record freed (V V' : Z -> list Z) (S : Z -> Prop) : Prop := {
  fr_used : forall b, 0 <= b < sb_size sb -> used sb V' b <-> used sb V b /\ ~ S b;
  fr_other : forall b, ~ bitmap_block sb b -> V' b = V b
}.

Lemma freed_refl V : freed V V (fun _ => False).
Proof. split; [|done]. intros b Hb. tauto. Qed.

Lemma freed_iff V V' S S' : freed V V' S -> (forall b, 0 <= b < sb_size sb -> S b <-> S' b) -> freed V V' S'.
Proof. intros [F1 F2] HS. split; [|done]. intros b Hb. rewrite F1 by done. rewrite (HS b) by done. done. Qed.

Lemma freed_step V V' S a :
  (forall bn, length (V' bn) = 1024%nat) -> in_data sb a -> freed V V' S -> freed V (bfree_V sb V' a) (fun b => S b \/ b = a).
Proof.
  intros Hl Ha [F1 F2]. apply (in_data_pos sb lay) in Ha. split.
  - intros b Hb. rewrite (used_bfree sb lay), F1 by (auto; lia). tauto.
  - intros b Hb. unfold bfree_V. rewrite bupd_ne; [by apply F2|]. intros ->. apply Hb, (BBLOCK_bitmap sb lay); lia.
Qed.

Lemma BBLOCK_one a : 0 <= a < sb_size sb -> BBLOCK a sb = bb.
Proof. intros Ha. rewrite (BBLOCK_eq sb lay) by done. rewrite Z.div_small by lia. lia. Qed.

(** The log, after some blocks were freed. *)
Definition bitlog (L L' : list Z) : Prop := L' = L \/ L' = log_add L bb.

Lemma log_add_twice L bn : log_add (log_add L bn) bn = log_add L bn.
Proof. unfold log_add at 1. rewrite decide_True; [done|]. apply elem_of_log_add. by right. Qed.

Lemma bitlog_add L L' : bitlog L L' -> bitlog L (log_add L' bb).
Proof. intros [->| ->]; right; [done|apply log_add_twice]. Qed.

Lemma bitlog_grow L L' : bitlog L L' -> grow 1 L L'.
Proof. intros [->| ->]; [apply grow_refl|apply grow_log_add]. Qed.

(** [bfree] of a block [a] that has not been freed yet. *)
Lemma tx_bfree s L V V' S L' hs it a (Q : unit -> kst -> Prop) :
  tx s L' V' hs it -> freed V V' S -> bitlog L L' -> in_data sb a -> used sb V a -> ~ S a -> held_ok sb V' hs ->
  (length L + length hs + 1 < NBUF)%nat ->
  (forall s' L2 V2, tx s' L2 V2 hs it -> freed V V2 (fun b => S b \/ b = a) -> bitlog L L2 -> Q tt s') ->
  runs (bfree dev a) s Q.
Proof.
  intros Ht Hf Hb Ha Hu HS Hh Hlen Hk. pose proof (in_data_pos sb lay a Ha) as Har. destruct (bitlog_grow _ _ Hb) as [_ Hg].
  eapply (bfree_spec dev p pid D sb fuel_pos lay); [exact Ht|lia| |done|lia|].
  - apply (fr_used _ _ _ Hf); [lia|done].
  - rewrite BBLOCK_one by lia. intros s' T'. eapply Hk; [exact T'| |by apply bitlog_add].
    apply freed_step; [intros bn; by eapply tx_length|done|done].
Qed.

Section File.
Variables (L : list Z) (V : Z -> list Z) (it : list inode) (ip : nat).
Let x := it !!! ip.
Hypothesis Hip : (ip < length it)%nat.
Hypothesis Hd : i_dev x = dev.
Hypothesis Hx : file_ok sb V x.
Hypothesis Hlen : (length L + 3 <= NBUF)%nat.

(** The blocks in the slots [P]. *)
Definition blocks (P : Z -> Prop) (b : Z) : Prop := b <> 0 /\ exists i, 0 <= i < NSLOT /\ P i /\ oblk V x i = b.

Lemma blocks_add (P P' : Z -> Prop) i b :
  0 <= i < NSLOT -> (forall j, P' j <-> P j \/ j = i) ->
  blocks P' b <-> blocks P b \/ (b = oblk V x i /\ oblk V x i <> 0).
Proof.
  intros Hi HP. unfold blocks. split.
  - intros (Hb & j & Hj & [HPj| ->]%HP & E); [left|right]; [|by subst]. split; [done|]. by exists j.
  - intros [(Hb & j & Hj & HPj & E)|[-> Hn]]; (split; [done|]); [exists j|exists i]; (split; [done|]); (split; [|done]); apply HP; auto.
Qed.

Lemma blocks_fresh (P : Z -> Prop) i : 0 <= i < NSLOT -> ~ P i -> oblk V x i <> 0 -> ~ blocks P (oblk V x i).
Proof.
  intros Hi HP Hn (_ & j & Hj & HPj & E). apply HP. by rewrite <- (fo_inj _ _ _ Hx j i) by congruence.
Qed.

(** Slot [i] of the file is freed, if it has a block. *)
Lemma free_slot t L' V' hs it' (P P' : Z -> Prop) i (Q : unit -> kst -> Prop) :
  tx t L' V' hs it' -> freed V V' (blocks P) -> bitlog L L' -> 0 <= i < NSLOT -> ~ P i -> (forall j, P' j <-> P j \/ j = i) ->
  oblk V x i <> 0 -> held_ok sb V' hs -> (length hs <= 1)%nat ->
  (forall t' L2 V2, tx t' L2 V2 hs it' -> freed V V2 (blocks P') -> bitlog L L2 -> Q tt t') ->
  runs (bfree dev (oblk V x i)) t Q.
Proof.
  intros Ht Hf Hb Hi HP HP' Hn Hh Hl Hk. destruct (fo_range _ _ _ Hx i Hi Hn) as [Hda Hu].
  eapply (tx_bfree t L V V'); [exact Ht|exact Hf|done|done|done|by apply blocks_fresh|done|lia|].
  intros t' L2 V2 T2 Hf2 Hb2. eapply Hk; [exact T2| |done].
  eapply freed_iff; [exact Hf2|]. intros b _. rewrite (blocks_add P P' i b Hi HP'). 
  split; [intros [?| ->]; auto|intros [?|[-> _]]; auto].
Qed.

Lemma skip_slot (P P' : Z -> Prop) V' i :
  freed V V' (blocks P) -> 0 <= i < NSLOT -> (forall j, P' j <-> P j \/ j = i) -> oblk V x i = 0 ->
  freed V V' (blocks P').
Proof.
  intros Hf Hi HP' Hz. eapply freed_iff; [exact Hf|]. intros b _. rewrite (blocks_add P P' i b Hi HP').
  split; [auto|]. intros [?|[_ ?]]; [done|congruence].
Qed.

(** The direct blocks. *)
Definition addrs_from (k : Z) (ad : list Z) : Prop :=
  length ad = 13%nat /\ forall i, 0 <= i <= NDIRECT -> ad !!! Z.to_nat i = if decide (i < k) then 0 else oblk V x i.

Lemma trunc_direct s (Q : unit -> kst -> Prop) :
  tx s L V [] it ->
  (forall s' L' V' ad, tx s' L' V' [] (<[ip := set_i_addrs ad x]> it) -> freed V V' (blocks (fun i => i < NDIRECT)) ->
     bitlog L L' -> addrs_from NDIRECT ad -> Q tt s') ->
  runs (for_each (seqZ 0 NDIRECT) (fun i =>
    x <- getinode ip ;;
    let addr := i_addrs x !!! Z.to_nat i in
    when (negb (addr =? 0))
      (bfree (i_dev x) addr ;;;
       updinode ip (fun x => set_i_addrs (<[Z.to_nat i := 0]> (i_addrs x)) x)))) s Q.
Proof.
  intros Ht Hk.
  apply (runs_for_each (fun pre t => let k := Z.of_nat (length pre) in exists L' V' ad,
    tx t L' V' [] (<[ip := set_i_addrs ad x]> it) /\ freed V V' (blocks (fun i => i < k)) /\ bitlog L L' /\ addrs_from k ad)).
  - exists L, V, (i_addrs x). split_and!.
    + rewrite list_insert_id; [done|]. rewrite (list_lookup_lookup_total_lt it ip) by done. fold x. by destruct x.
    + eapply freed_iff; [apply freed_refl|]. intros b _. split; [done|]. intros (_ & i & ? & ? & _). simpl in *. lia.
    + by left.
    + split; [apply Hx|]. intros i Hi. rewrite decide_False by (simpl; lia). by rewrite oblk_low by lia.
  - intros pre i post t Hs (L' & V' & ad & T' & Hf & Hb & Hal & Had).
    assert (i = Z.of_nat (length pre) /\ i < NDIRECT) as [Hi Hlt].
    { assert (seqZ 0 NDIRECT !! length pre = Some i) as Hl by (rewrite Hs; by apply list_lookup_middle).
      apply lookup_seqZ in Hl. lia. }
    rewrite <- Hi in *. eapply (tx_getinode dev p pid D sb); [exact T'|]. rewrite list_lookup_total_insert_eq by done.
    cbv zeta. change (i_addrs (set_i_addrs ?l x)) with l. change (i_dev (set_i_addrs ad x)) with (i_dev x). rewrite Hd, Had, decide_False by lia.
    replace (Z.of_nat (length (pre ++ [i]))) with (i + 1) by (rewrite length_app; simpl; lia).
    assert (forall j, j < i + 1 <-> j < i \/ j = i) as HP by lia. assert (0 <= i < NSLOT) as Hir by (unfold NSLOT; lia).
    unfold when. destruct (Z.eqb_spec (oblk V x i) 0) as [E|E]; cbn [negb].
    + apply runs_ret. exists L', V', ad. split_and!; [done|by eapply skip_slot|done|split; [done|]].
      intros j Hj. rewrite Had by done. destruct (decide (j < i)), (decide (j < i + 1)); try lia.
      by replace j with i by lia.
    + apply runs_bind. eapply free_slot; [exact T'|exact Hf|done|done|cbv beta; lia|exact HP|done|unfold held_ok; set_solver|simpl; lia|].
      intros t2 L2 V2 T2 Hf2 Hb2. eapply (tx_setinode dev p pid D sb); [exact T2|by rewrite length_insert|].
      rewrite list_lookup_total_insert_eq, list_insert_insert_eq by done. intros t3 T3.
      exists L2, V2, (<[Z.to_nat i := 0]> ad). split_and!; [done|done|done|split; [by rewrite length_insert|]].
      intros j Hj. destruct (decide (j = i)) as [->|Hne].
      * rewrite list_lookup_total_insert_eq, decide_True by lia. done.
      * rewrite list_lookup_total_insert_ne, Had by lia. destruct (decide (j < i)), (decide (j < i + 1)); try lia; done.
  - intros t (L' & V' & ad & T' & Hf & Hb & Had). rewrite length_seqZ in *. by eapply Hk.
Qed.

Let ind := oblk V x NDIRECT.

Lemma ind_held V' bp (P : Z -> Prop) : ind <> 0 -> ~ P NDIRECT -> freed V V' (blocks P) -> held_ok sb V' [(bp, ind)].
Proof.
  intros Hi HP Hf. assert (0 <= NDIRECT < NSLOT) as H12 by (unfold NSLOT; lia).
  destruct (fo_range _ _ _ Hx NDIRECT H12 Hi) as [Hda Hu]. fold ind in Hda, Hu.
  intros bn [->|[]%not_elem_of_nil]%elem_of_cons. cbn [snd]. split; [|by apply data_not_bitmap].
  apply (fr_used _ _ _ Hf); [apply (in_data_pos sb lay) in Hda; lia|]. split; [done|]. by apply blocks_fresh.
Qed.

(** The blocks of the indirect block. *)
Lemma trunc_entries s L1 V1 it1 bp (Q : unit -> kst -> Prop) :
  tx s L1 V1 [(bp, ind)] it1 -> ind <> 0 -> freed V V1 (blocks (fun i => i < NDIRECT)) -> bitlog L L1 ->
  (forall s' L' V', tx s' L' V' [(bp, ind)] it1 -> freed V V' (blocks (fun i => i <> NDIRECT)) -> bitlog L L' -> Q tt s') ->
  runs (for_each (seqZ 0 NINDIRECT) (fun j =>
    b <- getbuf bp ;;
    let addr := ld32 (b_data b) (4 * j) in
    when (negb (addr =? 0)) (bfree dev addr))) s Q.
Proof.
  intros Ht Hi Hf1 Hb1 Hk.
  apply (runs_for_each (fun pre t => let k := Z.of_nat (length pre) in exists L' V',
    tx t L' V' [(bp, ind)] it1 /\ freed V V' (blocks (fun i => i < NDIRECT \/ 13 <= i < 13 + k)) /\ bitlog L L')).
  - exists L1, V1. split_and!; [done| |done]. eapply freed_iff; [exact Hf1|]. intros b _. unfold blocks. simpl.
    split; intros (Hb & i & Hir & HP & E); (split; [done|]); exists i; split_and!; try done; lia.
  - intros pre j post t Hs (L' & V' & T' & Hf & Hb).
    assert (j = Z.of_nat (length pre) /\ 0 <= j < NINDIRECT) as [Hj Hlt].
    { assert (seqZ 0 NINDIRECT !! length pre = Some j) as Hl by (rewrite Hs; by apply list_lookup_middle).
      apply lookup_seqZ in Hl. lia. }
    cbv zeta in Hf. rewrite <- Hj in *.
    replace (Z.of_nat (length (pre ++ [j]))) with (j + 1) by (rewrite length_app; simpl; lia).
    destruct (ind_held V' bp (fun i => i < NDIRECT \/ 13 <= i < 13 + j) Hi ltac:(cbv beta; lia) Hf ind) as [_ Hnb]; [left|].
    apply runs_bind. eapply (tx_getbuf dev p pid D sb); [exact T'|left|]. intros y Hy _. cbv zeta.
    assert (ld32 (b_data y) (4 * j) = oblk V x (13 + j)) as ->.
    { rewrite Hy, (fr_other _ _ _ Hf) by done. rewrite (oblk_high V x (13 + j)) by lia. fold ind.
      rewrite (proj2 (Z.eqb_neq ind 0)) by done. do 2 f_equal. lia. }
    assert (forall i, (i < NDIRECT \/ 13 <= i < 13 + (j + 1)) <-> (i < NDIRECT \/ 13 <= i < 13 + j) \/ i = 13 + j) as HP by lia.
    assert (0 <= 13 + j < NSLOT) as Hir by (unfold NSLOT; lia). unfold when.
    destruct (Z.eqb_spec (oblk V x (13 + j)) 0) as [E|E]; cbn [negb].
    + apply runs_ret. exists L', V'. split_and!; [done| |done]. by eapply skip_slot.
    + eapply free_slot; [exact T'|exact Hf|done|done|cbv beta; lia|exact HP|done| |simpl; lia|].
      { eapply ind_held; [done| |exact Hf]. cbv beta. lia. }
      intros t2 L2 V2 T2 Hf2 Hb2. by exists L2, V2.
  - intros t (L' & V' & T' & Hf & Hb). eapply Hk; [exact T'| |done]. eapply freed_iff; [exact Hf|]. intros b _.
    rewrite length_seqZ. unfold blocks, NSLOT. split; intros (Hbz & i & Hir & HP & E); (split; [done|]); exists i; split_and!; try done; lia.
Qed.

(** The indirect block itself. *)
Lemma trunc_indirect s L1 V1 ad (Q : unit -> kst -> Prop) :
  let it1 := <[ip := set_i_addrs ad x]> it in
  tx s L1 V1 [] it1 -> freed V V1 (blocks (fun i => i < NDIRECT)) -> bitlog L L1 -> addrs_from NDIRECT ad -> ind <> 0 ->
  (forall s' L' V', tx s' L' V' [] (<[ip := set_i_addrs (<[12%nat := 0]> ad) x]> it) -> freed V V' (blocks (fun _ => True)) ->
     bitlog L L' -> Q tt s') ->
  runs (bp <- bread dev ind ;;
     for_each (seqZ 0 NINDIRECT) (fun j =>
       b <- getbuf bp ;;
       let addr := ld32 (b_data b) (4 * j) in
       when (negb (addr =? 0)) (bfree dev addr)) ;;;
     brelse bp ;;;
     bfree dev ind ;;;
     updinode ip (fun x => set_i_addrs (<[Z.to_nat NDIRECT := 0]> (i_addrs x)) x)) s Q.
Proof.
  intros it1 Ht Hf1 Hb1 [Hal Had] Hi Hk. assert (0 <= NDIRECT < NSLOT) as H12 by (unfold NSLOT; lia).
  destruct (bitlog_grow _ _ Hb1) as [_ Hg1]. destruct (fo_range _ _ _ Hx NDIRECT H12 Hi) as [Hda Hu]. fold ind in Hda, Hu.
  pose proof (data_not_bitmap sb _ Hda) as Hnb.
  apply runs_bind. eapply (tx_bread dev p pid D sb fuel_pos); [exact Ht|set_solver|simpl; lia|]. intros bp s1 T1.
  apply runs_bind. eapply trunc_entries; [exact T1|done|done|done|]. intros s2 L2 V2 T2 Hf2 Hb2.
  apply runs_bind. eapply (tx_brelse dev p pid D sb); [exact T2| |].
  { destruct (decide (ind ∈ L2)) as [HL|HL]; [by left|right]. rewrite (fr_other _ _ _ Hf2), <- (fr_other _ _ _ Hf1) by done.
    apply Ht; [|set_solver]. intros Hin. destruct Hb1 as [->| ->], Hb2 as [->| ->]; try done.
    - apply HL, elem_of_log_add. by left.
    - apply elem_of_log_add in Hin as [Hin|Hin]; [done|]. apply Hnb. unfold bitmap_block, data_start. rewrite Hin.
      pose proof (Z.div_pos (sb_size sb - 1) BPB). destruct lay. lia. }
  intros s3 T3. apply runs_bind. eapply free_slot; [exact T3|exact Hf2|done|exact H12|cbv beta; by intros ?| |done|unfold held_ok; set_solver|simpl; lia|].
  { instantiate (1 := fun _ => True). intros j. cbv beta. split; [|done]. intros _. destruct (decide (j = NDIRECT)); auto. }
  intros s4 L4 V4 T4 Hf4 Hb4. eapply (tx_setinode dev p pid D sb); [exact T4|by unfold it1; rewrite length_insert|].
  unfold it1. rewrite list_lookup_total_insert_eq, list_insert_insert_eq by done. intros s5 T5. by eapply Hk.
Qed.

(** The end of [itrunc]: every slot is empty. *)
Lemma trunc_end s L1 V1 (Q : unit -> kst -> Prop) :
  let y := set_i_size 0 (set_i_addrs (zeros 13) x) in
  tx s L1 V1 [] (<[ip := set_i_addrs (zeros 13) x]> it) -> inode_ok sb x -> freed V V1 (blocks (fun _ => True)) -> bitlog L L1 ->
  (forall s' L' V', tx s' L' V' [] (<[ip := y]> it) -> grow 2 L L' ->
     (forall b, 0 <= b < sb_size sb -> used sb V' b <-> used sb V b /\ ~ blocks (fun _ => True) b) ->
     (forall b, ~ bitmap_block sb b -> b <> iblock sb x -> V' b = V b) -> inode_saved sb V' y -> Q tt s') ->
  runs (updinode ip (set_i_size 0) ;;; iupdate ip) s Q.
Proof.
  intros y Ht Hi Hf Hb Hk. apply runs_bind.
  eapply (tx_setinode dev p pid D sb); [exact Ht|by rewrite length_insert|].
  rewrite list_lookup_total_insert_eq, list_insert_insert_eq by done. fold y. intros s1 T1.
  assert (inode_ok sb y) as Hiy by (destruct Hi as (? & ? & []); split; [done|split; [done|by split]]).
  destruct (iblock_meta sb lay y Hiy) as (Hm1 & Hm2 & _). change (iblock sb y) with (iblock sb x) in *.
  pose proof (file_ok_empty sb V1 y eq_refl eq_refl) as Hoy. destruct (bitlog_grow _ _ Hb) as [Hg1 Hg2].
  eapply (iupdate_spec dev p pid D sb fuel_pos lay); [exact T1|..]; rewrite ?list_lookup_total_insert_eq by done; [done|done|done|lia|].
  intros s2 T2. assert (length (V1 (iblock sb x)) = 1024%nat) as Hl by (by eapply tx_length).
  eapply Hk; [exact T2| | | |].
  - apply (grow_trans 1 1 _ L1); [by apply bitlog_grow|apply grow_log_add].
  - intros b Hbr. rewrite (used_bupd sb lay) by done. by apply Hf.
  - intros b Hnb Hne. rewrite bupd_ne by done. by apply Hf.
  - by apply inode_saved_update.
Qed.
End File.

(** C20: [itrunc] frees exactly the blocks of the file, the indirect block and
    the blocks it lists included: in the bitmap they, and no other block, have
    become free. The inode is empty in memory and on the disk, no other block
    has changed, and the log grew by at most two blocks. *)
Theorem itrunc_frees s L V it ip :
  let x := it !!! ip in
  tx s L V [] it -> (ip < length it)%nat -> i_dev x = dev -> file_ok sb V x -> inode_ok sb x -> (length L + 3 <= NBUF)%nat ->
  runs (itrunc ip) s (fun _ s' => exists L' V', let y := set_i_size 0 (set_i_addrs (zeros 13) x) in
    tx s' L' V' [] (<[ip := y]> it) /\ grow 2 L L' /\
    (forall b, 0 <= b < sb_size sb ->
       used sb V' b <-> used sb V b /\ ~ (b <> 0 /\ exists i, 0 <= i < NSLOT /\ oblk V x i = b)) /\
    (forall b, ~ bitmap_block sb b -> b <> iblock sb x -> V' b = V b) /\ inode_saved sb V' y).
Proof.
  intros x Ht Hip Hd Hx Hi Hlen. unfold itrunc. apply runs_bind.
  apply (trunc_direct L V it ip Hip Hd Hx Hlen); [done|]. fold x. intros s1 L1 V1 ad T1 Hf1 Hb1 [Hal Had].
  eapply (tx_getinode dev p pid D sb); [exact T1|]. rewrite list_lookup_total_insert_eq by done. cbv zeta.
  change (i_addrs (set_i_addrs ad x)) with ad. change (i_dev (set_i_addrs ad x)) with (i_dev x).
  rewrite Hd, (Had NDIRECT), decide_False by lia.
  apply runs_bind. eapply (runs_mono _ _ (fun _ t => exists L2 V2, tx t L2 V2 [] (<[ip := set_i_addrs (zeros 13) x]> it) /\
    freed V V2 (blocks V it ip (fun _ => True)) /\ bitlog L L2)).
  - fold x. unfold when at 1.
    destruct (Z.eqb_spec (oblk V x NDIRECT) 0) as [E|E]; cbn [negb].
    + apply runs_ret. cbv beta. exists L1, V1. split_and!; [| |done].
      * rewrite <- (addrs_zero ad); [done|done|]. intros i Hir. rewrite Had by done.
        destruct (decide (i < NDIRECT)); [done|]. by replace i with NDIRECT by lia.
      * eapply freed_iff; [exact Hf1|]. intros b _. unfold blocks. fold x.
        split; intros (Hz & i & Hir & HP & Eb); (split; [done|]); exists i; (split; [done|]); (split; [|done]); [done|].
        apply Z.nle_gt. intros Hge. apply Hz. rewrite <- Eb. destruct (decide (i = NDIRECT)) as [->|]; [done|].
        by rewrite oblk_high, E by lia.
    + eapply (trunc_indirect L V it ip Hip Hd Hx Hlen); [exact T1|done|done|by split|done|].
      intros s2 L2 V2 T2 Hf2 Hb2. exists L2, V2. split_and!; [|done|done].
      rewrite <- (addrs_zero (<[12%nat := 0]> ad)); [done|by rewrite length_insert|]. intros i Hir.
      destruct (decide (i = NDIRECT)) as [->|Hne]; [by rewrite list_lookup_total_insert_eq by lia|].
      by rewrite list_lookup_total_insert_ne, Had, decide_True by lia.
  - intros _ s2 (L2 & V2 & T2 & Hf2 & Hb2). apply (trunc_end L V it ip Hip Hd Hlen s2 L2 V2); auto. fold x.
    intros s3 L3 V3 T3 Hg3 Hu3 Ho3 Hs3. exists L3, V3. split_and!; auto. intros b Hb. rewrite Hu3 by done.
    unfold blocks. fold x. split; intros [Hu Hn]; (split; [done|]); intros (Hz & i & Hir & E); apply Hn; (split; [done|]); exists i; tauto.
Qed.
End Trunc.



(** The directory of the small file system is emptied. *)
Lemma itrunc_frees_witness :
  exists s s', @itrunc 1%nat sync_disk 0 s = Done tt s' /\ i_size (k_itable s' !!! 0%nat) = 0.
Proof.
  destruct demo_tx as [s Ht]. exists s.
  destruct (runs_inv _ _ _ (@itrunc_frees 1 0 0 demo_disk demo_sb 1%nat sync_disk sync_disk_ok
    ltac:(unfold sleep_fuel; lia) demo_layout ltac:(vm_compute; discriminate) s [] (dget demo_disk) demo_it 0 Ht
    ltac:(cbn; lia) eq_refl demo_file_ok demo_inode_ok ltac:(cbn; lia))) as ([] & s' & E & L' & V' & T' & _).
  exists s'. split; [exact E|]. by rewrite (tx_it _ _ _ _ _ _ _ _ _ _ T').
Defined.
