(* ===== verification/Dirs.v ===== *)
(** * Directories

    A directory is a file of 16-byte entries. [dlookup F name] is the first
    entry of the content [F] that is in use and has that name: [dirlookup]
    finds it, and [dirlink] adds one. *)

From S2P Require Import Prelude Machine KState Spinlock Kalloc Walk Vm Sched Strings Printf Print Bio BufCache BufRules Log Fs Txn Content.
Local Open Scope Z_scope.
Local Open Scope kern_scope.

(** Entry [j] of a directory with the content [F]. *)
Definition dent (F : list Z) (j : Z) : dirent := dirent_of_bytes (lget F (DIRENT_SIZE * j) DIRENT_SIZE).
Definition dmatch (name : list Z) (de : dirent) : bool :=
  negb (de_inum de =? 0) && (namecmp name (de_name de) =? 0).
Definition nents (F : list Z) : Z := Z.of_nat (length F) / DIRENT_SIZE.
(** The inode number and the offset of the entry for [name]. *)
Definition dlookup (F name : list Z) : option (Z * Z) :=
  (fun j => (de_inum (dent F j), DIRENT_SIZE * j)) <$> find (fun j => dmatch name (dent F j)) (seqZ 0 (nents F)).

(** The first number below [n] that satisfies [f]. *)
Lemma find_seqZ (f : Z -> bool) n j :
  find f (seqZ 0 n) = Some j <-> 0 <= j < n /\ f j = true /\ forall k, 0 <= k < j -> f k = false.
Proof.
  assert (forall a m, find f (seqZ a (Z.of_nat m)) = Some j <->
    a <= j < a + Z.of_nat m /\ f j = true /\ forall k, a <= k < j -> f k = false) as Hg.
  { intros a m. revert a. induction m as [|m IH]; intros a; [simpl; split; [done|lia]|].
    rewrite seqZ_cons by lia. replace (Z.pred (Z.of_nat (S m))) with (Z.of_nat m) by lia. simpl.
    destruct (f a) eqn:Ea.
    - split; [intros [= <-]; split; [lia|]; split; [done|lia]|]. intros (Hj & Hf & Hl). f_equal.
      destruct (decide (a = j)) as [|]; [done|]. rewrite Hl in Ea; [done|lia].
    - rewrite IH. split; intros (Hj & Hf & Hl); (split; [|split; [done|]]).
      + lia.
      + intros k Hk. destruct (decide (k = a)) as [->|]; [done|apply Hl; lia].
      + destruct (decide (j = a)) as [->|]; [congruence|lia].
      + intros k Hk. apply Hl. lia. }
  destruct (decide (0 <= n)) as [Hn|Hn].
  - rewrite <- (Z2Nat.id n) at 1 by done. rewrite Hg. by rewrite Z.add_0_l, Z2Nat.id by done.
  - rewrite seqZ_nil by lia. split; [done|lia].
Qed.

Lemma find_seqZ_Some (f : Z -> bool) n j :
  0 <= j < n -> f j = true -> (forall k, 0 <= k < j -> f k = false) -> find f (seqZ 0 n) = Some j.
Proof. intros. by apply find_seqZ. Qed.

Lemma find_seqZ_None (f : Z -> bool) n : find f (seqZ 0 n) = None <-> forall k, 0 <= k < n -> f k = false.
Proof.
  split.
  - intros E k Hk. apply (find_not _ _ _ E). apply elem_of_seqZ. lia.
  - intros Hf. destruct (find f (seqZ 0 n)) as [k|] eqn:E; [|done].
    apply find_seqZ in E as (Hr & Hk & _). by rewrite Hf in Hk.
Qed.

(** Writing at a position inside the list or at its end. *)
Lemma lookup_lset_ext bs off new i :
  0 <= off <= Z.of_nat (length bs) ->
  lset bs off new !! i =
    if decide (off <= Z.of_nat i < off + Z.of_nat (length new))
    then new !! (i - Z.to_nat off)%nat else bs !! i.
Proof.
  intros Ho. unfold lset. destruct (decide (Z.of_nat i < off)) as [Hlt|Hge].
  - rewrite decide_False by lia. rewrite lookup_app_l by (rewrite length_take; lia). apply lookup_take_lt. lia.
  - rewrite lookup_app_r by (rewrite length_take; lia). rewrite length_take, Nat.min_l by lia.
    destruct (decide (Z.of_nat i < off + Z.of_nat (length new))).
    + rewrite decide_True by lia. by rewrite lookup_app_l by lia.
    + rewrite decide_False by lia. rewrite lookup_app_r, lookup_drop by lia. f_equal. lia.
Qed.

Lemma length_dirent_bytes de : length (de_name de) = DIRSIZ -> length (dirent_bytes de) = 16%nat.
Proof. intros Hl. unfold dirent_bytes. by rewrite length_app, length_le_split, Hl. Qed.

Lemma dirent_roundtrip de :
  0 <= de_inum de < 2 ^ 16 -> length (de_name de) = DIRSIZ -> dirent_of_bytes (dirent_bytes de) = de.
Proof.
  intros Hi Hl. destruct de as [n nm]. unfold dirent_of_bytes, dirent_bytes. simpl de_inum in *. simpl de_name in *. f_equal.
  - change (ld16 (le_split 2 n ++ nm) 0) with (le_combine (le_split 2 n)). rewrite le_combine_split. by apply Z.mod_small.
  - change (lget (le_split 2 n ++ nm) 2 14) with (take 14 nm). apply take_ge. lia.
Qed.

(** The entries after an entry was written to the place [j0]. *)
Section Write.
Variables (F : list Z) (j0 : Z) (de : dirent).
Hypothesis HF : Z.of_nat (length F) = DIRENT_SIZE * nents F.
Hypothesis Hj0 : 0 <= j0 <= nents F.
Hypothesis Hde : 0 <= de_inum de < 2 ^ 16 /\ length (de_name de) = DIRSIZ.
Let F' := lset F (DIRENT_SIZE * j0) (dirent_bytes de).

Lemma nents_write : nents F' = Z.max (nents F) (j0 + 1).
Proof.
  unfold nents at 1, F', lset. rewrite !length_app, length_take, length_drop, (length_dirent_bytes de) by apply Hde.
  symmetry. apply (Z.div_unique_pos _ _ _ 0); lia.
Qed.

Lemma dent_write j : 0 <= j < nents F' -> dent F' j = if decide (j = j0) then de else dent F j.
Proof.
  intros Hj. rewrite nents_write in Hj. pose proof (length_dirent_bytes de (proj2 Hde)) as Hl.
  assert (forall i, F' !! i = if decide (DIRENT_SIZE * j0 <= Z.of_nat i < DIRENT_SIZE * j0 + 16)
    then dirent_bytes de !! (i - Z.to_nat (DIRENT_SIZE * j0))%nat else F !! i) as Hlk.
  { intros i. unfold F'. rewrite lookup_lset_ext by lia. by rewrite Hl. }
  unfold dent. destruct (decide (j = j0)) as [->|Hne].
  - transitivity (dirent_of_bytes (dirent_bytes de)); [|by apply dirent_roundtrip; apply Hde]. f_equal. apply list_eq. intros i. unfold lget.
    destruct (decide (i < 16)%nat); [|rewrite lookup_take_ge by lia; symmetry; apply lookup_ge_None; lia].
    rewrite lookup_take_lt, lookup_drop, Hlk, decide_True by lia. f_equal. lia.
  - f_equal. apply list_eq. intros i. unfold lget.
    destruct (decide (i < 16)%nat); [|by rewrite !lookup_take_ge by lia].
    rewrite !lookup_take_lt, !lookup_drop, Hlk, decide_False by lia. done.
Qed.

(** The new entry is found; lookups of other names give what they gave. *)
Lemma dlookup_new name :
  dmatch name de = true -> dlookup F name = None -> dlookup F' name = Some (de_inum de, DIRENT_SIZE * j0).
Proof.
  intros Hm Hn. unfold dlookup in *. rewrite fmap_None, find_seqZ_None in Hn. pose proof nents_write as Hw.
  rewrite (find_seqZ_Some _ _ j0); [cbn [fmap option_fmap option_map]; by rewrite dent_write, decide_True by lia|lia|by rewrite dent_write, decide_True by lia|].
  intros k Hk. rewrite dent_write, decide_False by lia. apply Hn. lia.
Qed.

Lemma dlookup_others name :
  dmatch name de = false -> (j0 < nents F -> dmatch name (dent F j0) = false) -> dlookup F' name = dlookup F name.
Proof.
  intros Hm Hf. unfold dlookup. pose proof nents_write as Hw.
  destruct (find (fun j => dmatch name (dent F j)) (seqZ 0 (nents F))) as [j|] eqn:E.
  - apply find_seqZ in E as (Hj & Hmj & Hl). assert (j <> j0) as Hne by (intros ->; rewrite Hf in Hmj; [done|lia]).
    rewrite (find_seqZ_Some _ _ j); [cbn [fmap option_fmap option_map]; by rewrite dent_write, decide_False by lia|lia|by rewrite dent_write, decide_False by lia|].
    intros k Hk. rewrite dent_write by lia. destruct (decide (k = j0)); [done|]. by apply Hl.
  - rewrite find_seqZ_None in E. rewrite (proj2 (find_seqZ_None _ _)); [done|].
    intros k Hk. rewrite dent_write by done. destruct (decide (k = j0)); [done|]. apply E. lia.
Qed.
End Write.

Lemma strncmp_cstr q k : strncmp_l q (cstr q ++ replicate k 0) = 0.
Proof.
  induction q as [|a q IH]; [done|]. simpl. destruct (nz a) eqn:E; simpl.
  - by rewrite Z.eqb_refl.
  - apply nz_false in E as ->. by destruct k.
Qed.

Lemma length_strncpy_l name n : length (strncpy_l name n) = n.
Proof.
  unfold strncpy_l. rewrite length_app, length_replicate. pose proof (cstr_length (take n name)) as Hc.
  rewrite length_take in Hc. lia.
Qed.

Lemma namecmp_strncpy name : namecmp name (strncpy_l name DIRSIZ) = 0.
Proof.
  unfold namecmp. rewrite (take_ge (strncpy_l name DIRSIZ)) by (rewrite length_strncpy_l; lia). apply strncmp_cstr.
Qed.

Section Dirs.
Variables (dev : Z) (p : nat) (pid : Z) (D : disk) (sb : superblock).
Context `{KernelImage} `{SleepFuel} `{BlockDev} `{!BlockDevOk}.
Hypothesis fuel_pos : (0 < sleep_fuel)%nat.
Hypothesis lay : layout sb.
Abbreviation tx := (tx dev p pid D sb).

Definition refers (dv inum : Z) (x : inode) : bool := (0 <? i_ref x) && (i_dev x =? dv) && (i_inum x =? inum).

(** The slot of the table [iget] uses, and the inode it leaves there. *)
Definition iget_slot (it : list inode) (dv inum : Z) : option nat :=
  match index_of (refers dv inum) it with
  | Some ip => Some ip
  | None => index_of (fun x => i_ref x =? 0) it
  end.
Definition iget_inode (dv inum : Z) (x : inode) : inode :=
  if refers dv inum x then set_i_ref (i_ref x + 1) x
  else set_i_valid 0 (set_i_ref 1 (set_i_inum inum (set_i_dev dv x))).

Lemma iget_eq dv inum s ip :
  k_held s = [] -> iget_slot (k_itable s) dv inum = Some ip ->
  iget dv inum s = Done ip (set_k_itable (alter (iget_inode dv inum) ip (k_itable s)) s).
Proof.
  intros Hh Hs. unfold iget. rewrite bind_acquire by (rewrite Hh; set_solver). rewrite bind_gets. ksimp.
  unfold iget_slot in Hs. change (fun ip0 => (0 <? i_ref ip0) && (i_dev ip0 =? dv) && (i_inum ip0 =? inum)) with (refers dv inum).
  destruct (index_of (refers dv inum) (k_itable s)) as [i|] eqn:E.
  - injection Hs as ->. apply index_of_Some in E as [(x & Hx & Hr) _]. unfold updinode. rewrite bind_modify. ksimp.
    erewrite bind_release by (ksimp; by rewrite Hh).
    unfold ret. rewrite (alter_ext_at (fun x => set_i_ref (i_ref x + 1) x) (iget_inode dv inum)); [destruct s; ksimp in *; by subst|].
    rewrite (list_lookup_total_correct _ _ _ Hx). unfold iget_inode. by rewrite Hr.
  - rewrite Hs. rewrite index_of_None, Forall_forall in E. apply index_of_Some in Hs as [(x & Hx & _) _].
    unfold updinode. rewrite bind_modify. ksimp. erewrite bind_release by (ksimp; by rewrite Hh).
    unfold ret. rewrite (alter_ext_at _ (iget_inode dv inum)); [destruct s; ksimp in *; by subst|].
    rewrite (list_lookup_total_correct _ _ _ Hx). unfold iget_inode. rewrite E; [done|]. by apply list_elem_of_lookup_2 in Hx.
Qed.

Lemma tx_iget s L V hs it dv inum ip (Q : nat -> kst -> Prop) :
  tx s L V hs it -> iget_slot it dv inum = Some ip ->
  (forall s', tx s' L V hs (alter (iget_inode dv inum) ip it) -> Q ip s') -> runs (iget dv inum) s Q.
Proof.
  intros Ht Hs Hk. destruct (tx_own _ _ _ _ _ _ _ _ _ _ Ht) as (A & Ho & _).
  pose proof (c_held _ _ _ _ _ (own_cache _ _ _ _ _ _ _ _ Ho)) as Hh. pose proof (tx_it _ _ _ _ _ _ _ _ _ _ Ht) as Hit.
  eapply runs_done; [apply iget_eq; [done|by rewrite Hit]|]. apply Hk.
  assert (runs (updinode ip (iget_inode dv inum)) s (fun _ s' => tx s' L V hs (alter (iget_inode dv inum) ip it))) as Hu
    by (eapply (tx_updinode dev p pid D sb); [exact Ht|done]).
  exact Hu.
Qed.

Section Scan.
Variables (s : kst) (L : list Z) (V : Z -> list Z) (it : list inode) (dp : nat).
Let x := it !!! dp.
Hypothesis Ht : tx s L V [] it.
Hypothesis Hd : i_dev x = dev.
Hypothesis Hx : file_ok sb V x.
Hypothesis H16 : i_size x mod DIRENT_SIZE = 0.
Hypothesis Hlen : (length L < NBUF)%nat.
Let F := fdata V x.

Lemma nents_size : i_size x = DIRENT_SIZE * nents F /\ 0 <= nents F.
Proof using Hx H16.
  clear Hlen fuel_pos.
  unfold nents, F. pose proof (fo_size _ _ _ Hx). rewrite length_fdata, Z2Nat.id by lia.
  pose proof (Z.div_mod (i_size x) DIRENT_SIZE ltac:(lia)). pose proof (Z.div_pos (i_size x) DIRENT_SIZE). lia.
Qed.

Lemma read_dirent_spec t j (Q : option dirent -> kst -> Prop) :
  tx t L V [] it -> 0 <= j < nents F -> (forall t', tx t' L V [] it -> Q (Some (dent F j)) t') ->
  runs (read_dirent dp (DIRENT_SIZE * j)) t Q.
Proof.
  intros T Hj Hk. destruct nents_size as [Hs _]. pose proof (fo_size _ _ _ Hx).
  unfold read_dirent. apply runs_bind.
  apply (readi_spec dev p pid D sb fuel_pos lay t L V it dp); auto; fold x; [lia|lia|lia|].
  intros t' T'. cbv zeta. rewrite Z.min_l by lia. apply runs_ret. by apply Hk.
Qed.

(** A search through the entries. *)
Lemma scan_spec {R} (body : Z -> K (option R)) (f : Z -> bool) (Q : option R -> kst -> Prop) :
  (forall t j, tx t L V [] it -> 0 <= j < nents F -> (forall k, 0 <= k < j -> f k = false) ->
     runs (body (DIRENT_SIZE * j)) t (fun o t' =>
       match o with None => tx t' L V [] it /\ f j = false | Some r => Q (Some r) t' end)) ->
  (forall t, tx t L V [] it -> find f (seqZ 0 (nents F)) = None -> Q None t) ->
  runs (for_upto (S (Z.to_nat (i_size x / DIRENT_SIZE + 1))) 0 (i_size x) DIRENT_SIZE body) s Q.
Proof.
  intros Hb Hn. destruct nents_size as [Hs Hp]. pose proof (fo_size _ _ _ Hx).
  assert (i_size x / DIRENT_SIZE = nents F) as Hdiv by (rewrite Hs, Z.mul_comm; apply Z.div_mul; lia).
  unfold runs. rewrite (for_upto_list (Z.to_nat (nents F))) by lia.
  apply (runs_for_find (fun pre t => tx t L V [] it /\ forall j, 0 <= j < Z.of_nat (length pre) -> f j = false)).
  - split; [done|]. simpl. lia.
  - intros pre o post t Hr [T Hf]. apply range_step_split in Hr as [-> Hp'].
    rewrite Z.add_0_l. eapply runs_mono; [apply Hb; [done|lia|done]|]. intros [r|] t'; [done|].
    intros [T' Hfj]. split; [done|]. intros j Hj. rewrite length_app in Hj. simpl in Hj.
    destruct (decide (j = Z.of_nat (length pre))) as [->|]; [done|apply Hf; lia].
  - intros t [T Hf]. apply Hn; [done|]. apply find_seqZ_None. intros k Hk. apply Hf.
    unfold range_step. rewrite length_map, length_seqZ. lia.
Qed.

Lemma dirlookup_spec name (Q : option (nat * Z) -> kst -> Prop) :
  i_type x = T_DIR ->
  (forall s', dlookup F name = None -> tx s' L V [] it -> Q None s') ->
  (forall inum off, dlookup F name = Some (inum, off) -> exists ip, iget_slot it dev inum = Some ip /\
     forall s', tx s' L V [] (alter (iget_inode dev inum) ip it) -> Q (Some (ip, off)) s') ->
  runs (dirlookup dp name) s Q.
Proof.
  intros Hty HN HS. unfold dirlookup. eapply (tx_getinode dev p pid D sb); [exact Ht|]. fold x.
  rewrite Hty. cbn [Z.eqb Pos.eqb negb]. apply (scan_spec _ (fun j => dmatch name (dent F j))).
  - intros t j T Hj Hlow. apply runs_bind. apply read_dirent_spec; [done|done|]. intros t' T'.
    destruct (dmatch name (dent F j)) eqn:Em; pose proof Em as Em'; unfold dmatch in Em'.
    + apply andb_true_iff in Em' as [E1 E2]. apply negb_true_iff in E1. rewrite E1, E2.
      destruct (HS (de_inum (dent F j)) (DIRENT_SIZE * j)) as (ip & Hip & Hk).
      { unfold dlookup. by rewrite (find_seqZ_Some _ _ j). }
      rewrite Hd. apply runs_bind. eapply tx_iget; [exact T'|done|]. intros t2 T2. apply runs_ret. by apply Hk.
    + destruct (de_inum (dent F j) =? 0); [by apply runs_ret|]. cbn [negb andb] in Em'. rewrite Em'. by apply runs_ret.
  - intros t T Hn. apply HN; [|done]. unfold dlookup. by rewrite Hn.
Qed.

(** The first unused entry, or the end. *)
Definition dslot : Z :=
  match find (fun j => de_inum (dent F j) =? 0) (seqZ 0 (nents F)) with
  | Some j => DIRENT_SIZE * j
  | None => i_size x
  end.

Lemma dir_slot_spec (Q : Z -> kst -> Prop) :
  (forall s', tx s' L V [] it -> Q dslot s') -> runs (dir_slot dp) s Q.
Proof.
  intros Hk. unfold dir_slot. eapply (tx_getinode dev p pid D sb); [exact Ht|]. fold x. apply runs_bind.
  apply (scan_spec _ (fun j => de_inum (dent F j) =? 0)).
  - intros t j T Hj Hlow. apply runs_bind. apply read_dirent_spec; [done|done|]. intros t' T'. apply runs_ret.
    destruct (de_inum (dent F j) =? 0) eqn:E; [|done]. apply runs_ret. cbn [default]. 
    replace (DIRENT_SIZE * j) with dslot by (unfold dslot; by rewrite (find_seqZ_Some _ _ j)). by apply Hk.
  - intros t T Hn. apply runs_ret. cbn [default]. destruct nents_size as [Hs Hp].
    replace ((i_size x + DIRENT_SIZE - 1) / DIRENT_SIZE * DIRENT_SIZE) with dslot; [by apply Hk|].
    unfold dslot. rewrite Hn. rewrite Hs at 1 2. 
    replace ((DIRENT_SIZE * nents F + DIRENT_SIZE - 1) / DIRENT_SIZE) with (nents F); [lia|].
    apply (Z.div_unique_pos _ _ _ (DIRENT_SIZE - 1)); lia.
Qed.
End Scan.

Lemma dslot_range V it dp :
  let x := it !!! dp in
  file_ok sb V x -> i_size x mod DIRENT_SIZE = 0 ->
  exists j, dslot V it dp = DIRENT_SIZE * j /\ 0 <= j <= nents (fdata V x) /\
    (j < nents (fdata V x) -> de_inum (dent (fdata V x) j) = 0).
Proof.
  intros x Hx H16. destruct (nents_size V it dp Hx H16) as [Hs Hp]. fold x in Hs, Hp. unfold dslot. fold x.
  destruct (find _ _) as [j|] eqn:E.
  - apply find_seqZ in E as (Hj & Hf & _). exists j. split; [done|]. split; [lia|]. intros _. by apply Z.eqb_eq.
  - exists (nents (fdata V x)). split; [done|]. split; lia.
Qed.

Lemma dmatch_strncpy name inum : 0 < inum < 2 ^ 16 -> dmatch name (mkdirent (u16 inum) (strncpy_l name DIRSIZ)) = true.
Proof.
  intros Hi. unfold dmatch. cbn [de_inum de_name]. rewrite namecmp_strncpy.
  unfold u16. rewrite Z.mod_small by lia. by rewrite (proj2 (Z.eqb_neq inum 0)) by lia.
Qed.

(** C13: [dirlink] adds a name to a directory: when it returns 0 a lookup of
    the name gives the inode number, a lookup of any other name gives what it
    gave before, and the directory is well-formed and saved. It returns -1
    only when no block is free. It adds at most [MAXOPBLOCKS] blocks to the
    log. *)
Theorem dirlink_binds s L V it dp name inum :
  let x := it !!! dp in let F := fdata V x in let off := dslot V it dp in
  tx s L V [] it -> (dp < length it)%nat -> i_dev x = dev -> file_ok sb V x -> reserved sb V -> inode_ok sb x ->
  i_type x = T_DIR -> i_size x mod DIRENT_SIZE = 0 -> 0 < inum < 2 ^ 16 ->
  off + DIRENT_SIZE <= MAXFILE * BSIZE -> Z.of_nat (length L) + MAXOPBLOCKS <= LOGBLOCKS -> dlookup F name = None ->
  runs (dirlink dp name inum) s (fun r s' => exists L' V' x',
    tx s' L' V' [] (<[dp := x']> it) /\ Z.of_nat (length L') <= Z.of_nat (length L) + MAXOPBLOCKS /\
    file_ok sb V' x' /\ inode_saved sb V' x' /\
    (r = -1 /\ (forall b, 0 <= b < sb_size sb -> used sb V' b) \/
     r = 0 /\ i_type x' = T_DIR /\ i_size x' mod DIRENT_SIZE = 0 /\
     dlookup (fdata V' x') name = Some (inum, off) /\
     forall name', namecmp name' (strncpy_l name DIRSIZ) <> 0 -> dlookup (fdata V' x') name' = dlookup F name')).
Proof.
  intros x F off Ht Hdp Hd Hx Hres Hi Hty H16 Hin Hmax Hroom Hnone.
  destruct (dslot_range V it dp Hx H16) as (j & Hoff & Hj & Hfree). fold x F off in Hoff, Hj, Hfree.
  destruct (nents_size V it dp Hx H16) as [Hsz _]. fold x F in Hsz. pose proof (fo_size _ _ _ Hx) as Hs0.
  assert (length L < NBUF)%nat as Hlen by lia.
  set (de := mkdirent (u16 inum) (strncpy_l name DIRSIZ)).
  assert (0 <= de_inum de < 2 ^ 16 /\ length (de_name de) = DIRSIZ) as Hde
    by (split; [apply Z.mod_pos_bound; lia|apply length_strncpy_l]).
  assert (de_inum de = inum) as Hdi by (apply Z.mod_small; lia).
  pose proof (length_dirent_bytes de (proj2 Hde)) as Hl16.
  unfold dirlink. apply runs_bind. apply (dirlookup_spec s L V it dp Ht Hd Hx H16 Hlen); auto; fold x F; [|congruence].
  intros s1 _ T1. apply runs_bind. apply (dir_slot_spec s1 L V it dp T1 Hd Hx H16 Hlen). fold off. intros s2 T2.
  cbv zeta. fold de. apply runs_bind. change DIRENT_SIZE with (Z.of_nat 16). rewrite <- Hl16 at 1.
  apply (writei_spec dev p pid D sb fuel_pos lay (length L + Z.to_nat MAXOPBLOCKS) s2 L V it dp); auto; fold x; rewrite ?Hl16;
    [lia|lia|lia|apply (room_op sb); [done|lia|vm_compute; split; discriminate|lia]|].
  intros s3 L3 V3 x3 r T3 Hl3 Hr Hfull HF Hok Hres3 Hsv (ad & Hx3) Hoth.
  change (Z.of_nat 16) with DIRENT_SIZE in *. unfold runs. destruct (Z.eqb_spec r DIRENT_SIZE) as [->|Hne]; cbn [negb]; unfold ret; exists L3, V3, x3; split_and!; try done; try lia.
  2:{ left. split; [done|]. apply Hfull. lia. }
  rewrite take_ge, Hoff in HF by lia. fold F in HF.
  assert (Z.of_nat (length F) = DIRENT_SIZE * nents F) as HFl by (unfold F; rewrite length_fdata; fold F; lia).
  right. split_and!; [done|by rewrite Hx3| | |].
  - rewrite Hx3. change (i_size (set_i_size ?z _)) with z. rewrite Hsz, Hoff.
    replace (Z.max _ _) with (Z.max (nents F) (j + 1) * DIRENT_SIZE) by lia. by apply Z.mod_mul.
  - rewrite HF, (dlookup_new F j de HFl Hj Hde), Hdi, Hoff; [done|by apply dmatch_strncpy|done].
  - intros name' Hn. rewrite HF. apply (dlookup_others F j de HFl Hj Hde).
    + unfold dmatch. by rewrite (proj2 (Z.eqb_neq (namecmp _ _) 0)), andb_false_r by done.
    + intros Hlt. unfold dmatch. by rewrite Hfree.
Qed.

(** The inode [iget] returns is the one asked for, and has a reference more. *)
Lemma iget_slot_spec it dv inum ip :
  iget_slot it dv inum = Some ip ->
  let y := alter (iget_inode dv inum) ip it !!! ip in
  i_dev y = dv /\ i_inum y = inum /\ i_ref y = i_ref (it !!! ip) + 1.
Proof.
  intros Hs. assert (exists x, it !! ip = Some x /\ (refers dv inum x = true \/ i_ref x = 0)) as (x & Hx & Hr).
  { unfold iget_slot in Hs. destruct (index_of (refers dv inum) it) as [i|] eqn:E.
    - injection Hs as ->. apply index_of_Some in E as [(x & ? & ?) _]. eauto.
    - apply index_of_Some in Hs as [(x & ? & H0'%Z.eqb_eq) _]. eauto. }
  rewrite list_lookup_total_alter_eq by (by eapply lookup_lt_Some). rewrite (list_lookup_total_correct _ _ _ Hx).
  cbv zeta. unfold iget_inode. destruct (refers dv inum x) eqn:E.
  - unfold refers in E. apply andb_true_iff in E as [[_ E1]%andb_true_iff E2].
    apply Z.eqb_eq in E1, E2. by rewrite <- E1, <- E2.
  - destruct Hr as [?|Hr]; [done|]. by rewrite Hr.
Qed.

(** [dirlookup] returns the offset of the first entry of the directory
    that is in use and has the name, with the in-memory inode of its number,
    which has a reference more; or nothing when there is no such entry. It
    changes no block. *)
Theorem dirlookup_finds s L V it dp name :
  let x := it !!! dp in let F := fdata V x in
  tx s L V [] it -> i_dev x = dev -> file_ok sb V x -> i_size x mod DIRENT_SIZE = 0 -> (length L < NBUF)%nat ->
  i_type x = T_DIR ->
  (forall inum off, dlookup F name = Some (inum, off) -> iget_slot it dev inum <> None) ->
  runs (dirlookup dp name) s (fun o s' =>
    match dlookup F name with
    | None => o = None /\ tx s' L V [] it
    | Some (inum, off) => exists ip it', o = Some (ip, off) /\ tx s' L V [] it' /\
        i_dev (it' !!! ip) = dev /\ i_inum (it' !!! ip) = inum /\ i_ref (it' !!! ip) = i_ref (it !!! ip) + 1 /\
        forall j, j <> ip -> it' !!! j = it !!! j
    end).
Proof.
  intros x F Ht Hd Hx H16 Hlen Hty Hroom. apply (dirlookup_spec s L V it dp Ht Hd Hx H16 Hlen); auto; fold x F.
  - intros s' -> T'. done.
  - intros inum off E. rewrite E. destruct (iget_slot it dev inum) as [ip|] eqn:Es; [|by eapply Hroom in E].
    exists ip. split; [done|]. intros s' T'. exists ip, (alter (iget_inode dev inum) ip it).
    apply iget_slot_spec in Es as (E1 & E2 & E3). split_and!; auto. intros j Hj. by apply list_lookup_total_alter_ne.
Qed.
End Dirs.

(** [.] is found in the directory of the small file system; [a] is added. *)
Lemma dirlookup_finds_witness :
  exists s ip s', @dirlookup demo_image 1%nat sync_disk 0 (46 :: zeros 13) s = Done (Some (ip, 0)) s' /\
    i_inum (k_itable s' !!! ip) = 1.
Proof.
  destruct demo_tx as [s Ht]. exists s.
  destruct (runs_inv _ _ _ (@dirlookup_finds 1 0 0 demo_disk demo_sb demo_image 1%nat sync_disk sync_disk_ok
    ltac:(unfold sleep_fuel; lia) demo_layout s [] (dget demo_disk) demo_it 0 (46 :: zeros 13) Ht eq_refl demo_file_ok
    eq_refl ltac:(cbn; lia) eq_refl ltac:(vm_compute; intros ? ? [= <- <-]; discriminate))) as (o & s' & E & Hpost).
  change (dlookup _ _) with (Some (1, 0)) in Hpost. destruct Hpost as (ip & it' & -> & T' & _ & Hi & _).
  exists ip, s'. split; [exact E|]. rewrite (tx_it _ _ _ _ _ _ _ _ _ _ T'). exact Hi.
Defined.

Lemma dirlink_binds_witness :
  exists s r s', @dirlink demo_image 1%nat sync_disk 0 (97 :: zeros 13) 7 s = Done r s' /\ (r = -1 \/ r = 0).
Proof.
  destruct demo_tx as [s Ht]. exists s.
  destruct (runs_inv _ _ _ (@dirlink_binds 1 0 0 demo_disk demo_sb demo_image 1%nat sync_disk sync_disk_ok
    ltac:(unfold sleep_fuel; lia) demo_layout s [] (dget demo_disk) demo_it 0 (97 :: zeros 13) 7 Ht ltac:(cbn; lia) eq_refl
    demo_file_ok demo_reserved demo_inode_ok eq_refl eq_refl ltac:(lia) ltac:(vm_compute; discriminate)
    ltac:(vm_compute; discriminate) eq_refl)) as (r & s' & E & L' & V' & x' & _ & _ & _ & _ & Hor).
  exists r, s'. split; [exact E|]. destruct Hor as [[Hr _]|[Hr _]]; [by left|by right].
Defined.


