(* ===== verification/Names.v ===== *)
(** * Path names

    [resolve V n es]: the inode number that the path elements [es] lead to
    from directory [n], read off the blocks [V]. [namei] on an absolute path
    returns that inode, or nothing when there is none, and leaves no other
    reference and no lock behind. *)

From S2P Require Import Prelude Machine KState Spinlock Kalloc Walk Vm Sched Strings Printf Print Bio BufCache BufRules Log Fs Txn Content Dirs.
Local Open Scope Z_scope.
Local Open Scope kern_scope.

(** [skipelem] takes the first element off a path. *)
Lemma skipelem_step path name :
  match skipelem path name with
  | None => elems path = []
  | Some (rest, name') => exists e, elems path = e :: elems rest /\ name' = copy_elem name e /\ (length rest < length path)%nat
  end.
Proof.
  unfold skipelem. rewrite <- (elems_skip path). destruct (skip_slashes path) as [|c q] eqn:Hp; [done|].
  destruct (span_elem (c :: q)) as [e r] eqn:Hs. exists e.
  pose proof (skip_slashes_head _ _ _ Hp) as Hc. pose proof (skip_slashes_length path) as Hl.
  pose proof (span_elem_length (c :: q)) as [Hsl _]. rewrite Hs, Hp in *. simpl in Hsl, Hl.
  assert (e <> []) as Hne.
  { simpl in Hs. rewrite Hc in Hs. destruct (span_elem q). by injection Hs as <- <-. }
  assert (length e <> 0)%nat by (by destruct e). pose proof (skip_slashes_length r).
  split; [|split; [done|lia]]. rewrite elems_skip. unfold elems at 1. rewrite span_elem_acc; rewrite Hs; done.
Qed.

(** What follows the NUL of a name does not matter. *)
Lemma strncmp_nul e r r' q : strncmp_l (e ++ 0 :: r) q = strncmp_l (e ++ 0 :: r') q.
Proof. revert q. induction e as [|a e IH]; intros [|b q]; try done. simpl. by rewrite IH. Qed.

Lemma namecmp_copy name e t : namecmp (copy_elem name e) t = namecmp (copy_elem [] e) t.
Proof.
  unfold namecmp, copy_elem. destruct (Nat.leb_spec DIRSIZ (length e)); [done|].
  rewrite !firstn_app, !(take_ge e) by lia. destruct (DIRSIZ - length e)%nat as [|k] eqn:E; [lia|]. simpl. apply strncmp_nul.
Qed.

Lemma dlookup_copy F name e : dlookup F (copy_elem name e) = dlookup F (copy_elem [] e).
Proof.
  unfold dlookup. f_equal. induction (seqZ 0 (nents F)) as [|j l IH]; [done|]. simpl. rewrite IH.
  unfold dmatch at 1. rewrite namecmp_copy. done.
Qed.

Section Names.
Variables (p : nat) (pid : Z) (D : disk) (sb : superblock).
Context `{KernelImage} `{SleepFuel} `{BlockDev} `{!BlockDevOk}.
Hypothesis fuel_pos : (0 < sleep_fuel)%nat.
Hypothesis lay : layout sb.
Abbreviation tx := (tx ROOTDEV p pid D sb).

(* ------------------------------------------------------------------ *)
(** ** Locks of inodes *)

Lemma tx_set_it s L V hs it it' : tx s L V hs it -> tx (set_k_itable it' s) L V hs it'.
Proof.
  intros [T1 T2 T3 T4 T5 T6]. split; try done.
  destruct T1 as (A & [C _ E B] & HA). exists A. split; [|done].
  split; [|done|done|exact B]. apply (cache_other _ _ _ _ _ (k_log s) it') in C. by destruct s.
Qed.

Lemma tx_procs s L V hs it ch :
  tx s L V hs it -> tx (set_k_proc (imap (woken (k_cur s) ch) (k_proc s)) s) L V hs it.
Proof.
  intros [T1 T2 T3 T4 T5 T6]. split; try done.
  destruct T1 as (A & [C _ E B] & HA). exists A. split; [|done].
  split; [by apply cache_procs|done|done|exact B].
Qed.

Lemma tx_acquiresleep s L V hs it ip (Q : unit -> kst -> Prop) :
  tx s L V hs it -> i_lock (it !!! ip) = mksleeplock 0 0 ->
  (forall s', tx s' L V hs (alter (set_i_lock (mksleeplock 1 pid)) ip it) -> Q tt s') ->
  runs (acquiresleep (SLinode ip)) s Q.
Proof.
  intros Ht Hl Hk. destruct (tx_own _ _ _ _ _ _ _ _ _ _ Ht) as (A & [C _ _ _] & _).
  pose proof (tx_it _ _ _ _ _ _ _ _ _ _ Ht) as Hit. pose proof (c_held _ _ _ _ _ C) as Hh.
  apply (runs_done _ _ tt (set_k_itable (alter (set_i_lock (mksleeplock 1 pid)) ip (k_itable s)) s)).
  - unfold acquiresleep. rewrite bind_acquire by (rewrite Hh; set_solver).
    erewrite bind_done; cycle 1.
    { destruct (sleep_fuel) as [|n] eqn:E; [lia|]. cbn [loop]. unfold getsl. unfold bind at 1.
      rewrite bind_gets. ksimp. rewrite Hit, Hl. cbn. reflexivity. }
    rewrite (bind_curproc p) by apply C. unfold getproc, setsl. rewrite bind_gets, bind_modify. ksimp.
    rewrite (c_pid _ _ _ _ _ C). erewrite release_head by done. by destruct s.
  - apply Hk. rewrite Hit. by eapply tx_set_it.
Qed.

Lemma tx_holdingsleep s L V hs it ip (Q : bool -> kst -> Prop) :
  tx s L V hs it -> i_lock (it !!! ip) = mksleeplock 1 pid -> Q true s -> runs (holdingsleep (SLinode ip)) s Q.
Proof.
  intros Ht Hl Hk. destruct (tx_own _ _ _ _ _ _ _ _ _ _ Ht) as (A & [C _ _ _] & _).
  pose proof (tx_it _ _ _ _ _ _ _ _ _ _ Ht) as Hit. pose proof (c_held _ _ _ _ _ C) as Hh.
  apply (runs_done _ _ true s); [|done].
  unfold holdingsleep. rewrite bind_acquire by (rewrite Hh; set_solver).
  unfold getsl. rewrite bind_gets. ksimp. rewrite Hit, Hl. rewrite (bind_curproc p) by apply C.
  unfold getproc. rewrite bind_gets. erewrite bind_release by done. ksimp.
  rewrite (c_pid _ _ _ _ _ C). cbn [sl_locked sl_pid nz Z.eqb negb andb]. rewrite Z.eqb_refl.
  unfold ret. f_equal. by destruct s.
Qed.

Lemma tx_releasesleep s L V hs it ip (Q : unit -> kst -> Prop) :
  tx s L V hs it -> (forall s', tx s' L V hs (alter (set_i_lock (mksleeplock 0 0)) ip it) -> Q tt s') ->
  runs (releasesleep (SLinode ip)) s Q.
Proof.
  intros Ht Hk. destruct (tx_own _ _ _ _ _ _ _ _ _ _ Ht) as (A & [C _ _ _] & _).
  pose proof (tx_it _ _ _ _ _ _ _ _ _ _ Ht) as Hit. pose proof (c_held _ _ _ _ _ C) as Hh.
  apply (runs_done _ _ tt (set_k_itable (alter (set_i_lock (mksleeplock 0 0)) ip (k_itable s))
    (set_k_proc (imap (woken (k_cur s) (ChSleep (SLinode ip))) (k_proc s)) s))).
  - unfold releasesleep. rewrite bind_acquire by (rewrite Hh; set_solver).
    unfold setsl. rewrite bind_modify. erewrite bind_done; cycle 1.
    { apply wakeup_eq; [apply C|]. intros i. ksimp. rewrite Hh. set_solver. }
    erewrite release_head by done. ksimp. rewrite Hh. destruct s; ksimp in *. by subst.
  - apply Hk. rewrite Hit. eapply tx_set_it. by apply tx_procs.
Qed.

(** ** [ilock], [iunlockput] *)

(** The inode that [ilock] leaves: read from its block if it was not valid. *)
Definition ilocked (V : Z -> list Z) (x : inode) : inode :=
  set_i_lock (mksleeplock 1 pid)
    (if i_valid x =? 0 then set_i_valid 1 (dinode_load (V (iblock sb x)) (dinode_off (i_inum x)) x) else x).

Lemma ilock_spec s L V it ip (Q : unit -> kst -> Prop) :
  let x := it !!! ip in
  tx s L V [] it -> (ip < length it)%nat -> 1 <= i_ref x -> i_lock x = mksleeplock 0 0 -> i_dev x = ROOTDEV ->
  i_type (ilocked V x) <> 0 -> (length L < NBUF)%nat ->
  (forall s', tx s' L V [] (<[ip := ilocked V x]> it) -> Q tt s') -> runs (ilock ip) s Q.
Proof.
  intros x Ht Hip Hr Hl Hd Hty Hlen Hk. unfold ilock. eapply (tx_getinode ROOTDEV p pid D sb); [exact Ht|]. fold x.
  rewrite (proj2 (Z.ltb_ge _ 1)) by lia. apply runs_bind. eapply tx_acquiresleep; [exact Ht|exact Hl|].
  rewrite list_alter_at by done. fold x. intros s1 T1.
  eapply (tx_getinode ROOTDEV p pid D sb); [exact T1|]. rewrite list_lookup_total_insert_eq by done.
  change (i_valid (set_i_lock _ x)) with (i_valid x). unfold ilocked in *. destruct (i_valid x =? 0) eqn:Ev.
  2:{ apply runs_ret. by apply Hk. }
  eapply (tx_getsb ROOTDEV p pid D sb); [exact T1|].
  change (i_dev (set_i_lock _ x)) with (i_dev x). change (i_inum (set_i_lock _ x)) with (i_inum x). rewrite Hd.
  apply runs_bind. eapply (tx_bread ROOTDEV p pid D sb fuel_pos); [exact T1|set_solver|simpl; lia|]. intros bp s2 T2.
  apply runs_bind. eapply (tx_getbuf ROOTDEV p pid D sb); [exact T2|left|]. intros y Hy _. rewrite Hy.
  apply runs_bind. eapply (tx_setinode ROOTDEV p pid D sb); [exact T2|by rewrite length_insert|].
  rewrite list_lookup_total_insert_eq, list_insert_insert_eq by done. intros s3 T3.
  apply runs_bind. eapply (tx_brelse ROOTDEV p pid D sb); [exact T3| |].
  { fold (iblock sb x). destruct (decide (iblock sb x ∈ L)); [by left|right]. apply T1; set_solver. }
  intros s4 T4. apply runs_bind. eapply (tx_setinode ROOTDEV p pid D sb); [exact T4|by rewrite length_insert|].
  rewrite list_lookup_total_insert_eq, list_insert_insert_eq by done. intros s5 T5.
  eapply (tx_getinode ROOTDEV p pid D sb); [exact T5|]. rewrite list_lookup_total_insert_eq by done.
  rewrite (proj2 (Z.eqb_neq _ 0)) by (by destruct x). apply runs_ret. apply Hk. by destruct x.
Qed.

Lemma iput_spec s L V hs it ip (Q : unit -> kst -> Prop) :
  let x := it !!! ip in
  tx s L V hs it -> (ip < length it)%nat -> i_nlink x <> 0 ->
  (forall s', tx s' L V hs (<[ip := set_i_ref (i_ref x - 1) x]> it) -> Q tt s') -> runs (iput ip) s Q.
Proof.
  intros x Ht Hip Hn Hk. destruct (tx_own _ _ _ _ _ _ _ _ _ _ Ht) as (A & [C _ _ _] & _).
  pose proof (tx_it _ _ _ _ _ _ _ _ _ _ Ht) as Hit. pose proof (c_held _ _ _ _ _ C) as Hh.
  apply (runs_done _ _ tt (set_k_itable (<[ip := set_i_ref (i_ref x - 1) x]> it) s)); [|apply Hk; by eapply tx_set_it].
  unfold iput, getinode, updinode. rewrite bind_acquire by (rewrite Hh; set_solver). rewrite bind_gets. ksimp. rewrite Hit. fold x.
  rewrite (proj2 (Z.eqb_neq (i_nlink x) 0)), andb_false_r by done. rewrite bind_ret, bind_modify. ksimp.
  rewrite Hit, list_alter_at by done. fold x. erewrite release_head by (ksimp; by rewrite Hh).
  destruct s; ksimp in *. by subst.
Qed.

Lemma iunlockput_spec s L V hs it ip (Q : unit -> kst -> Prop) :
  let x := it !!! ip in
  tx s L V hs it -> (ip < length it)%nat -> 1 <= i_ref x -> i_lock x = mksleeplock 1 pid -> i_nlink x <> 0 ->
  (forall s', tx s' L V hs (<[ip := set_i_ref (i_ref x - 1) (set_i_lock (mksleeplock 0 0) x)]> it) -> Q tt s') ->
  runs (iunlockput ip) s Q.
Proof.
  intros x Ht Hip Hr Hl Hn Hk. unfold iunlockput, iunlock. apply runs_bind, runs_bind.
  eapply tx_holdingsleep; [exact Ht|exact Hl|]. eapply (tx_getinode ROOTDEV p pid D sb); [exact Ht|]. fold x.
  rewrite (proj2 (Z.ltb_ge _ 1)) by lia. cbn [negb orb]. eapply tx_releasesleep; [exact Ht|].
  rewrite list_alter_at by done. fold x. intros s1 T1.
  eapply iput_spec; [exact T1|by rewrite length_insert|..]; rewrite list_lookup_total_insert_eq by done; [done|].
  rewrite list_insert_insert_eq. exact Hk.
Qed.

(* ------------------------------------------------------------------ *)
(** ** Resolving a path *)

(** Inode [n] as the disk has it. *)
Definition disk_inode (V : Z -> list Z) (n : Z) : inode :=
  dinode_load (V (IBLOCK n sb)) (dinode_off n) (mkinode ROOTDEV n 0 sleeplock0 0 0 0 0 0 0 []).

Fixpoint resolve (V : Z -> list Z) (n : Z) (es : list (list Z)) : option Z :=
  match es with
  | [] => Some n
  | e :: es =>
      let x := disk_inode V n in
      if i_type x =? T_DIR then
        match dlookup (fdata V x) (copy_elem [] e) with
        | Some (m, _) => resolve V m es
        | None => None
        end
      else None
  end.

(** A set of inodes in use that is closed under the entries of its
    directories. *)
Record node (V : Z -> list Z) (x : inode) : Prop := {
  nd_type : i_type x <> 0;
  nd_nlink : i_nlink x <> 0;
  nd_file : file_ok sb V x;
  nd_dir : i_type x = T_DIR -> i_size x mod DIRENT_SIZE = 0
}.
Definition tree (V : Z -> list Z) (N : Z -> Prop) : Prop :=
  forall n, N n -> node V (disk_inode V n) /\
    (i_type (disk_inode V n) = T_DIR ->
     forall name m off, dlookup (fdata V (disk_inode V n)) name = Some (m, off) -> N m).

(** The table of inodes: no lock is held, slot [j] has [R j] references, and
    what is marked valid agrees with the disk. *)
Definition entry_ok (V : Z -> list Z) (r : Z) (x : inode) : Prop :=
  i_lock x = mksleeplock 0 0 /\ i_ref x = r /\ (0 < r -> i_dev x = ROOTDEV /\ (i_valid x <> 0 -> inode_saved sb V x)).
Definition it_ok (V : Z -> list Z) (it : list inode) (R : nat -> Z) : Prop :=
  length it = NINODE /\ forall j, (j < NINODE)%nat -> 0 <= R j /\ entry_ok V (R j) (it !!! j).

(** One more reference. *)
Definition bump (R : nat -> Z) (ip : nat) : nat -> Z := fun j => if decide (j = ip) then R j + 1 else R j.

(** The fields that the disk determines. *)
Definition same_file (x y : inode) : Prop :=
  i_type x = i_type y /\ i_nlink x = i_nlink y /\ i_size x = i_size y /\ i_addrs x = i_addrs y.

Lemma saved_same V x : inode_saved sb V x -> same_file x (disk_inode V (i_inum x)).
Proof.
  intros Hs. unfold inode_saved, iblock in Hs. unfold same_file. rewrite <- Hs at 1 3 5 7.
  unfold disk_inode, dinode_load. done.
Qed.

Lemma ilocked_saved V x : (i_valid x <> 0 -> inode_saved sb V x) -> inode_saved sb V (ilocked V x) /\ i_valid (ilocked V x) <> 0.
Proof.
  intros Hs. unfold ilocked. destruct (Z.eqb_spec (i_valid x) 0) as [E|E]; [by destruct x|].
  split; [|by destruct x]. apply Hs in E. unfold inode_saved, iblock in *. destruct x. unfold dinode_load in *. ksimp in *.
  injection E as -> -> -> -> -> E. by rewrite E.
Qed.

Lemma oblk_same V x y i : i_addrs x = i_addrs y -> oblk V x i = oblk V y i.
Proof. intros Ha. unfold oblk. by rewrite Ha. Qed.

Lemma fdata_same V x y : same_file x y -> fdata V x = fdata V y.
Proof.
  intros (_ & _ & Hs & Ha). unfold fdata. rewrite Hs. apply map_ext. intros k. unfold fbyte. by rewrite (oblk_same V x y).
Qed.

Lemma node_same V x y : same_file x y -> node V y -> node V x.
Proof.
  intros (H1' & H2' & Hs & Ha) [N1 N2 [F1 F2 F3 F4 F5] N4]. split; [congruence|congruence| |rewrite H1', Hs; done].
  pose proof (fun i => oblk_same V x y i Ha) as Ho. split.
  - by rewrite Ha.
  - intros i Hi. rewrite Ho. by apply F2.
  - intros i j Hi Hj. rewrite !Ho. by apply F3.
  - intros n Hn. rewrite Hs, Ho. by apply F4.
  - by rewrite Hs.
Qed.

Lemma saved_set V r l x : inode_saved sb V x -> inode_saved sb V (set_i_ref r (set_i_lock l x)).
Proof.
  unfold inode_saved, iblock. destruct x. unfold dinode_load. ksimp. intros E. injection E as -> -> -> -> -> E. by rewrite E.
Qed.

Lemma it_ok_insert V it R R' ip x :
  it_ok V it R -> (ip < NINODE)%nat -> 0 <= R' ip -> entry_ok V (R' ip) x -> (forall j, j <> ip -> R' j = R j) ->
  it_ok V (<[ip := x]> it) R'.
Proof.
  intros [Hl He] Hip Hr Hx HR. split; [by rewrite length_insert|]. intros j Hj. destruct (decide (j = ip)) as [->|Hne].
  - by rewrite list_lookup_total_insert_eq by lia.
  - rewrite list_lookup_total_insert_ne by done. rewrite HR by done. by apply He.
Qed.

Section Walk.
Variables (L : list Z) (V : Z -> list Z) (R0 : nat -> Z) (N : Z -> Prop).
Hypothesis Htree : tree V N.
Hypothesis Hfree : exists j1 j2, (j1 < NINODE)%nat /\ (j2 < NINODE)%nat /\ j1 <> j2 /\ R0 j1 = 0 /\ R0 j2 = 0.
Hypothesis Hlen : (length L < NBUF)%nat.

(** The walk holds one reference, on the inode [ip]. *)
Record at_inode (it : list inode) (ip : nat) : Prop := {
  at_lt : (ip < NINODE)%nat;
  at_pos : 0 <= R0 ip;
  at_ok : it_ok V it (bump R0 ip);
  at_node : N (i_inum (it !!! ip))
}.

Lemma at_entry it ip : at_inode it ip ->
  let x := it !!! ip in i_lock x = mksleeplock 0 0 /\ i_ref x = R0 ip + 1 /\ i_dev x = ROOTDEV /\
  inode_saved sb V (ilocked V x) /\ i_valid (ilocked V x) <> 0 /\ same_file (ilocked V x) (disk_inode V (i_inum x)).
Proof.
  intros [A1 A2 [_ He] _] x. destruct (He ip A1) as (_ & E1 & E2 & E3). unfold bump in *. rewrite decide_True in * by done.
  destruct (E3 ltac:(lia)) as [E4 E5]. destruct (ilocked_saved V x E5) as [S1 S2].
  pose proof (saved_same V _ S1) as Hsame. replace (i_inum (ilocked V x)) with (i_inum x) in Hsame.
  - by split_and!.
  - unfold ilocked. by destruct x, (_ =? 0).
Qed.

Lemma empty_slot it ip y m : at_inode it ip -> iget_slot (<[ip := y]> it) ROOTDEV m <> None.
Proof.
  intros [A1 A2 [Hl He] _] E. unfold iget_slot in E. destruct (index_of (refers ROOTDEV m) _) in E; [done|].
  rewrite index_of_None, Forall_lookup in E.
  assert (exists j, (j < NINODE)%nat /\ j <> ip /\ R0 j = 0) as (j & Hj & Hne & Hr).
  { destruct Hfree as (j1 & j2 & H1' & H2' & Hn & Hr1 & Hr2). destruct (decide (j1 = ip)) as [->|]; [exists j2|exists j1]; auto. }
  destruct (He j Hj) as (_ & _ & E2 & _). unfold bump in E2. rewrite decide_False in E2 by done.
  specialize (E j (it !!! j)). rewrite E2, Hr in E. apply (f_equal negb) in E; [done|].
  rewrite list_lookup_insert_ne by done. apply list_lookup_lookup_total_lt. lia.
Qed.

(** The table when the walk gives up the inode [ip], which [y] holds. *)
Lemma at_leave it ip y r :
  it_ok V it (bump R0 ip) -> (ip < NINODE)%nat -> 0 <= r ->
  i_dev y = ROOTDEV -> inode_saved sb V y ->
  forall R', R' ip = r -> (forall j, j <> ip -> R' j = R0 j) ->
  it_ok V (<[ip := set_i_ref r (set_i_lock (mksleeplock 0 0) y)]> it) R'.
Proof.
  intros Hok Hip Hr Hd Hs R' HR HR'. apply (it_ok_insert V it (bump R0 ip)); auto; [lia| |].
  - split; [done|]. split; [by rewrite HR|]. intros _. split; [done|]. intros _. by apply saved_set.
  - intros j Hj. unfold bump. rewrite decide_False by done. auto.
Qed.

(** Following an entry to inode number [m], which is in the slot [next]. *)
Definition followed (it : list inode) (ip : nat) (m : Z) (next : nat) : list inode :=
  let it1 := alter (iget_inode ROOTDEV m) next (<[ip := ilocked V (it !!! ip)]> it) in
  <[ip := set_i_ref (i_ref (it1 !!! ip) - 1) (set_i_lock (mksleeplock 0 0) (it1 !!! ip))]> it1.

Lemma entry_iget r m x :
  0 <= r -> entry_ok V r x -> i_ref (iget_inode ROOTDEV m x) = i_ref x + 1 -> entry_ok V (r + 1) (iget_inode ROOTDEV m x).
Proof.
  intros Hr (E1 & E2 & E3) E4. split; [|split; [by rewrite E4, E2|]]; unfold iget_inode in *.
  - by destruct (refers _ _ _), x.
  - intros _. destruct (refers ROOTDEV m x) eqn:E; [|by split; destruct x].
    unfold refers in E. apply andb_true_iff in E as [[E%Z.ltb_lt _]%andb_true_iff _].
    destruct E3 as [F1 F2]; [lia|]. split; [by destruct x|]. intros Hv. destruct x; ksimp in *.
    by apply (saved_set V _ i_lock), F2.
Qed.

Lemma follow_same it ip m :
  at_inode it ip -> N m -> refers ROOTDEV m (ilocked V (it !!! ip)) = true ->
  at_inode (followed it ip m ip) ip /\ i_inum (followed it ip m ip !!! ip) = m.
Proof.
  intros Ha Hm Hr. destruct (at_entry it ip Ha) as (E1 & E2 & E3 & E4 & _ & _). pose proof Ha as [A1 A2 A3 A4].
  assert (ip < length it)%nat as Hip by (rewrite (proj1 A3); lia).
  set (x := ilocked V (it !!! ip)) in *. assert (i_ref x = R0 ip + 1) as Hrx
    by (unfold x, ilocked; rewrite <- E2; by destruct (it !!! ip), (_ =? 0)).
  assert (i_dev x = ROOTDEV) as Hdx by (unfold x, ilocked; rewrite <- E3; by destruct (it !!! ip), (_ =? 0)).
  assert (i_inum x = m) as Hm' by (by unfold refers in Hr; apply andb_true_iff in Hr as [_ ?%Z.eqb_eq]).
  assert (followed it ip m ip = <[ip := set_i_ref (R0 ip + 1) (set_i_lock (mksleeplock 0 0) x)]> it) as ->.
  { unfold followed. fold x. rewrite list_alter_at by (by rewrite length_insert).
    rewrite !list_lookup_total_insert_eq by (rewrite ?length_insert; done). rewrite !list_insert_insert_eq. f_equal.
    unfold iget_inode. rewrite Hr. destruct x; ksimp in *. by replace (i_ref + 1 - 1) with (R0 ip + 1) by lia. }
  rewrite list_lookup_total_insert_eq by done. split; [|by destruct x].
  split; [done|done| |by rewrite list_lookup_total_insert_eq by done; destruct x; ksimp in *; subst].
  eapply at_leave; [exact A3|done|lia|done|done| |].
  - unfold bump. by rewrite decide_True.
  - intros j Hj. unfold bump. by rewrite decide_False.
Qed.

Lemma follow_other it ip m next :
  at_inode it ip -> N m -> next <> ip -> iget_slot (<[ip := ilocked V (it !!! ip)]> it) ROOTDEV m = Some next ->
  at_inode (followed it ip m next) next /\ i_inum (followed it ip m next !!! next) = m.
Proof.
  intros Ha Hm Hne Hs. destruct (at_entry it ip Ha) as (E1 & E2 & E3 & E4 & _ & _). pose proof Ha as [A1 A2 A3 A4].
  assert (ip < length it)%nat as Hip by (rewrite (proj1 A3); lia). pose proof (iget_slot_spec _ _ _ _ Hs) as (I1 & I2 & I3).
  assert (next < NINODE)%nat as Hn.
  { rewrite <- (proj1 A3). unfold iget_slot in Hs. destruct (index_of _ _) as [i|] eqn:E in Hs; [injection Hs as ->; apply index_of_lt in E|apply index_of_lt in Hs];
      by rewrite length_insert in *. }
  set (x := ilocked V (it !!! ip)) in *. assert (i_ref x = R0 ip + 1) as Hrx
    by (unfold x, ilocked; rewrite <- E2; by destruct (it !!! ip), (_ =? 0)).
  assert (i_dev x = ROOTDEV) as Hdx by (unfold x, ilocked; rewrite <- E3; by destruct (it !!! ip), (_ =? 0)).
  assert (next < length it)%nat as Hnl by (rewrite (proj1 A3); lia).
  rewrite list_alter_at in I1, I2, I3 by (by rewrite length_insert).
  rewrite list_lookup_total_insert_eq, list_lookup_total_insert_ne in I1, I2, I3 by (rewrite ?length_insert; done).
  assert (followed it ip m next = <[next := iget_inode ROOTDEV m (it !!! next)]>
    (<[ip := set_i_ref (R0 ip) (set_i_lock (mksleeplock 0 0) x)]> it)) as ->.
  { unfold followed. fold x. rewrite list_alter_at by (by rewrite length_insert).
    rewrite (list_lookup_total_insert_ne _ ip next), (list_lookup_total_insert_ne _ next ip) by done.
    rewrite list_lookup_total_insert_eq, Hrx by done. rewrite (list_insert_insert_ne _ ip next), list_insert_insert_eq by done.
    by replace (R0 ip + 1 - 1) with (R0 ip) by lia. }
  rewrite list_lookup_total_insert_eq by (by rewrite length_insert). split; [|done].
  destruct (proj2 A3 next Hn) as [Hrn Hen]. unfold bump in Hrn, Hen. rewrite decide_False in Hrn, Hen by done.
  split; [done|done| |by rewrite list_lookup_total_insert_eq by (by rewrite length_insert); rewrite I2].
  apply (it_ok_insert V _ R0); [|done| | |].
  - eapply at_leave; [exact A3|done|done|done|done|done|done].
  - unfold bump. rewrite decide_True by done. lia.
  - unfold bump. rewrite decide_True by done. by apply entry_iget.
  - intros j Hj. unfold bump. by rewrite decide_False.
Qed.

Lemma ilocked_fields x : i_lock (ilocked V x) = mksleeplock 1 pid /\ i_ref (ilocked V x) = i_ref x /\
  i_dev (ilocked V x) = i_dev x /\ i_inum (ilocked V x) = i_inum x.
Proof. unfold ilocked. by destruct x, (_ =? 0). Qed.

Lemma at_locked it ip : at_inode it ip -> node V (ilocked V (it !!! ip)) /\ (ip < length it)%nat.
Proof.
  intros Ha. destruct (at_entry it ip Ha) as (_ & _ & _ & _ & _ & Hsm). pose proof Ha as [A1 A2 A3 A4].
  split; [eapply node_same; [exact Hsm|by apply Htree]|]. rewrite (proj1 A3). done.
Qed.

(** The walk ends without a result. *)
Lemma walk_fails s it ip (Q : unit -> kst -> Prop) :
  let x := ilocked V (it !!! ip) in
  at_inode it ip -> tx s L V [] (<[ip := x]> it) ->
  (forall s' it', tx s' L V [] it' -> it_ok V it' R0 -> Q tt s') -> runs (iunlockput ip) s Q.
Proof.
  intros x Ha Ht Hk. destruct (at_entry it ip Ha) as (E1 & E2 & E3 & E4 & _ & _). pose proof Ha as [A1 A2 A3 A4].
  destruct (at_locked it ip Ha) as [[_ Hnl _ _] Hip]. destruct (ilocked_fields (it !!! ip)) as (F1 & F2 & F3 & F4). fold x in F1, F2, F3, Hnl, E4.
  eapply iunlockput_spec; [exact Ht|by rewrite length_insert|..]; rewrite list_lookup_total_insert_eq by done; [lia|done|done|].
  rewrite list_insert_insert_eq. intros s' T'. eapply Hk; [exact T'|].
  eapply at_leave; [exact A3|done|lia|by rewrite F3|done|lia|done].
Qed.

(** The walk follows an entry. *)
Lemma follow s it ip m next (Q : unit -> kst -> Prop) :
  at_inode it ip -> N m -> iget_slot (<[ip := ilocked V (it !!! ip)]> it) ROOTDEV m = Some next ->
  tx s L V [] (alter (iget_inode ROOTDEV m) next (<[ip := ilocked V (it !!! ip)]> it)) ->
  (forall s' it', tx s' L V [] it' -> at_inode it' next -> i_inum (it' !!! next) = m -> Q tt s') -> runs (iunlockput ip) s Q.
Proof.
  intros Ha Hm Hs Ht Hk. destruct (at_entry it ip Ha) as (E1 & E2 & E3 & E4 & _ & _). pose proof Ha as [A1 A2 A3 A4].
  destruct (at_locked it ip Ha) as [[_ Hnl _ _] Hip]. destruct (ilocked_fields (it !!! ip)) as (F1 & F2 & F3 & F4).
  assert (at_inode (followed it ip m next) next /\ i_inum (followed it ip m next !!! next) = m) as [Ha' Hm'].
  { destruct (decide (next = ip)) as [->|Hne]; [|by apply follow_other]. apply follow_same; [done|done|].
    unfold iget_slot in Hs. destruct (index_of (refers _ _) _) as [i|] eqn:E in Hs.
    - injection Hs as ->. apply index_of_Some in E as [(y & Hy & Hr) _].
      rewrite list_lookup_insert_eq in Hy by done. by injection Hy as <-.
    - apply index_of_Some in Hs as [(y & Hy & Hr%Z.eqb_eq) _]. rewrite list_lookup_insert_eq in Hy by done.
      injection Hy as <-. lia. }
  set (it1 := alter _ next _) in *.
  assert (i_lock (it1 !!! ip) = mksleeplock 1 pid /\ 1 <= i_ref (it1 !!! ip) /\ i_nlink (it1 !!! ip) <> 0) as (G1 & G2 & G3).
  { unfold it1. destruct (decide (next = ip)) as [->|Hne].
    - rewrite list_alter_at, !list_lookup_total_insert_eq by (rewrite ?length_insert; done).
      unfold iget_inode. destruct (refers _ _ _); destruct (ilocked V (it !!! ip)); ksimp in *; split_and!; auto; lia.
    - rewrite list_lookup_total_alter_ne, list_lookup_total_insert_eq by done. split_and!; [done|lia|done]. }
  eapply iunlockput_spec; [exact Ht|unfold it1; by rewrite length_alter, length_insert|done|done|done|].
  intros s' T'. by eapply Hk.
Qed.

Definition walked (n : Z) (es : list (list Z)) (o : option nat) (s : kst) : Prop :=
  match resolve V n es with
  | Some m => exists ip it, o = Some ip /\ tx s L V [] it /\ at_inode it ip /\ i_inum (it !!! ip) = m
  | None => o = None /\ exists it, tx s L V [] it /\ it_ok V it R0
  end.

Lemma namex_loop fuel s it ip path name :
  tx s L V [] it -> at_inode it ip -> (length path < fuel)%nat ->
  runs (loop fuel (namex_step false) (ip, path, name)) s (fun r s' => walked (i_inum (it !!! ip)) (elems path) r.1 s').
Proof.
  revert s it ip path name. induction fuel as [|fuel IH]; intros s it ip path name Ht Ha Hf; [lia|].
  cbn [loop]. apply runs_bind. unfold namex_step. pose proof (skipelem_step path name) as Hsk.
  destruct (skipelem path name) as [[rest name']|]; cycle 1.
  { rewrite Hsk. apply runs_ret, runs_ret. unfold walked. cbn [resolve fst]. exists ip, it. by split_and!. }
  destruct Hsk as (e & He & -> & Hlr). rewrite He. destruct (at_entry it ip Ha) as (E1 & E2 & E3 & E4 & E5 & E6).
  destruct (at_locked it ip Ha) as [Hnode Hip]. pose proof Ha as [A1 A2 A3 A4]. destruct Hnode as [N1 N2 N3 N4].
  destruct (ilocked_fields (it !!! ip)) as (F1 & F2 & F3 & F4).
  apply runs_bind. apply (ilock_spec s L V it); auto; [lia|]. intros s1 T1. set (x := ilocked V (it !!! ip)) in *.
  eapply (tx_getinode ROOTDEV p pid D sb); [exact T1|]. rewrite list_lookup_total_insert_eq by done.
  unfold walked. cbn [resolve]. pose proof E6 as (S1 & _ & _ & _). rewrite <- S1, <- (fdata_same V x) by done.
  destruct (Z.eqb_spec (i_type x) T_DIR) as [Hty|Hty]; cbn [negb]; cycle 1.
  { apply runs_bind. eapply walk_fails; [exact Ha|exact T1|]. intros s2 it2 T2 Hok. apply runs_ret, runs_ret. split; [done|]. by exists it2. }
  cbn [andb]. apply runs_bind.
  apply (dirlookup_spec ROOTDEV p pid D sb fuel_pos lay s1 L V (<[ip := x]> it) ip);
    rewrite ?list_lookup_total_insert_eq by done; auto; [by rewrite F3|..].
  - rewrite (dlookup_copy _ name). intros s2 Hn T2. rewrite Hn. apply runs_bind.
    eapply walk_fails; [exact Ha|exact T2|]. intros s3 it3 T3 Hok. apply runs_ret, runs_ret. split; [done|]. by exists it3.
  - rewrite (dlookup_copy _ name). intros m off Hn. rewrite Hn.
    destruct (iget_slot (<[ip := x]> it) ROOTDEV m) as [next|] eqn:Es; [|by apply empty_slot in Es].
    exists next. split; [done|]. intros s2 T2. apply runs_bind. destruct (Htree (i_inum (it !!! ip)) A4) as [_ Hcl].
    eapply follow; [exact Ha| |exact Es|exact T2|].
    { eapply Hcl; [by rewrite <- S1|]. rewrite <- (fdata_same V x) by done. exact Hn. }
    intros s3 it3 T3 Ha3 Hi3. apply runs_ret. eapply runs_mono; [apply (IH s3 it3); [done|done|lia]|].
    intros r s4. unfold walked. by rewrite Hi3.
Qed.

Lemma bump_eq ip : bump R0 ip ip = R0 ip + 1.
Proof. unfold bump. by rewrite decide_True. Qed.

(** The walk starts: at the root, or at the working directory. *)
Lemma start_root s it (Q : nat -> kst -> Prop) :
  tx s L V [] it -> it_ok V it R0 -> N ROOTINO ->
  (forall ip s' it', tx s' L V [] it' -> at_inode it' ip -> i_inum (it' !!! ip) = ROOTINO -> Q ip s') ->
  runs (iget ROOTDEV ROOTINO) s Q.
Proof.
  intros Ht [Hl He] Hroot Hk. destruct (iget_slot it ROOTDEV ROOTINO) as [ip|] eqn:Es; cycle 1.
  { exfalso. destruct Hfree as (j & _ & Hj & _ & _ & Hr & _). unfold iget_slot in Es.
    destruct (index_of (refers _ _) it); [done|]. rewrite index_of_None, Forall_lookup in Es.
    destruct (He j Hj) as (_ & _ & E & _). specialize (Es j (it !!! j)). rewrite E, Hr in Es.
    apply (f_equal negb) in Es; [done|]. apply list_lookup_lookup_total_lt. lia. }
  pose proof (iget_slot_spec _ _ _ _ Es) as (I1 & I2 & I3).
  assert (ip < NINODE)%nat as Hip.
  { rewrite <- Hl. unfold iget_slot in Es.
    destruct (index_of _ _) as [i|] eqn:E in Es; [injection Es as ->; by apply index_of_lt in E|by apply index_of_lt in Es]. }
  rewrite list_alter_at, list_lookup_total_insert_eq in I1, I2, I3 by lia. destruct (He ip Hip) as [Hr Hen].
  eapply (tx_iget ROOTDEV p pid D sb fuel_pos lay); [exact Ht|exact Es|]. rewrite list_alter_at by lia. intros s' T'.
  eapply Hk; [exact T'| |by rewrite list_lookup_total_insert_eq by lia].
  split; [done|done| |by rewrite list_lookup_total_insert_eq by lia; rewrite I2].
  apply (it_ok_insert V it R0); [by split|done|rewrite bump_eq; lia|rewrite bump_eq; by apply entry_iget|].
  intros j Hj. unfold bump. by rewrite decide_False.
Qed.

Lemma start_cwd s it c (Q : nat -> kst -> Prop) :
  tx s L V [] it -> it_ok V it R0 -> (c < NINODE)%nat -> 0 < R0 c -> N (i_inum (it !!! c)) ->
  (forall s' it', tx s' L V [] it' -> at_inode it' c -> i_inum (it' !!! c) = i_inum (it !!! c) -> Q c s') ->
  runs (idup c) s Q.
Proof.
  intros Ht [Hl He] Hc Hr Hn Hk. destruct (tx_own _ _ _ _ _ _ _ _ _ _ Ht) as (A & [C _ _ _] & _).
  pose proof (tx_it _ _ _ _ _ _ _ _ _ _ Ht) as Hit. pose proof (c_held _ _ _ _ _ C) as Hh.
  set (x := it !!! c) in *.
  apply (runs_done _ _ c (set_k_itable (<[c := set_i_ref (i_ref x + 1) x]> it) s)).
  - unfold idup, updinode. rewrite bind_acquire by (rewrite Hh; set_solver). rewrite bind_modify. ksimp.
    rewrite Hit, list_alter_at by lia. fold x. erewrite bind_release by (ksimp; by rewrite Hh). unfold ret.
    destruct s; ksimp in *. by subst.
  - destruct (He c Hc) as (_ & E1 & E2 & E3). fold x in E1, E2, E3.
    eapply Hk; [by eapply tx_set_it| |by rewrite list_lookup_total_insert_eq by lia].
    split; [done|lia| |by rewrite list_lookup_total_insert_eq by lia].
    apply (it_ok_insert V it R0); [by split|done|rewrite bump_eq; lia| |].
    + rewrite bump_eq. split; [done|]. split; [cbn; lia|]. intros _. destruct (E3 Hr) as [F1 F2]. split; [done|].
      intros Hv. destruct x; ksimp in *. by apply (saved_set V _ i_lock), F2.
    + intros j Hj. unfold bump. by rewrite decide_False.
Qed.

(** The inode number at which the resolution of a path starts. *)
Definition start_inum (s : kst) (path : list Z) : Z :=
  if bool_decide (head path = Some SLASH) then ROOTINO
  else match p_cwd (k_proc s !!! p) with Some c => i_inum (k_itable s !!! c) | None => 0 end.

(** C19: [namei] resolves a path name: from the root, or from the working
    directory for a relative path, it follows the elements of the path through
    the entries of the directories on the disk. It returns the in-memory inode
    of the inode number that this leads to, with one reference more; or a null
    pointer when an element is missing or is not in a directory. Every other
    reference and every lock that it took on the way is given back, and no
    block has changed. *)
Theorem namei_resolves s it path :
  tx s L V [] it -> it_ok V it R0 -> N (start_inum s path) ->
  (head path <> Some SLASH -> exists c, p_cwd (k_proc s !!! p) = Some c /\ (c < NINODE)%nat /\ 0 < R0 c) ->
  runs (namei path) s (fun o s' =>
    match resolve V (start_inum s path) (elems path) with
    | Some m => exists ip it', o = Some ip /\ (ip < NINODE)%nat /\ tx s' L V [] it' /\ it_ok V it' (bump R0 ip) /\
        i_inum (it' !!! ip) = m
    | None => o = None /\ exists it', tx s' L V [] it' /\ it_ok V it' R0
    end).
Proof.
  intros Ht Hok Hn Hcwd. unfold namei, namex. apply runs_bind, runs_bind.
  assert (forall ip s' it', tx s' L V [] it' -> at_inode it' ip -> i_inum (it' !!! ip) = start_inum s path ->
    runs (loop (S (length path)) (namex_step false) (ip, path, zeros 14)) s' (fun r s'' =>
      runs (ret r.1) s'' (fun o s3 => match resolve V (start_inum s path) (elems path) with
        | Some m => exists ip it', o = Some ip /\ (ip < NINODE)%nat /\ tx s3 L V [] it' /\ it_ok V it' (bump R0 ip) /\
            i_inum (it' !!! ip) = m
        | None => o = None /\ exists it', tx s3 L V [] it' /\ it_ok V it' R0
        end))) as Hgo.
  { intros ip s' it' T' Ha Hi. eapply runs_mono; [apply (namex_loop _ s' it'); [done|done|lia]|].
    intros r s2. unfold walked. rewrite Hi. intros Hw. apply runs_ret. destruct (resolve _ _ _); [|done].
    destruct Hw as (ip2 & it2 & E & T2 & [] & Hi2). exists ip2, it2. by split_and!. }
  unfold start_inum in *. rewrite (tx_it _ _ _ _ _ _ _ _ _ _ Ht) in *.
  destruct (bool_decide_reflect (head path = Some SLASH)) as [Hh|Hh].
  - eapply start_root; [exact Ht|done|done|exact Hgo].
  - destruct (Hcwd Hh) as (c & Hc & Hcl & Hr). rewrite Hc in *.
    destruct (tx_own _ _ _ _ _ _ _ _ _ _ Ht) as (A & [C _ _ _] & _).
    unfold runs at 1. rewrite (bind_curproc p) by apply C. unfold getproc. rewrite bind_gets, Hc.
    eapply start_cwd; [exact Ht|done|done|done|done|]. intros s' it' T' Ha Hi. by eapply Hgo.
Qed.
End Walk.
End Names.



(* ------------------------------------------------------------------ *)
(** ** A path in the small file system *)

Lemma demo_root : disk_inode demo_sb (dget demo_disk) 1 = mkinode 1 1 0 sleeplock0 0 T_DIR 0 0 1 16 (5 :: zeros 12).
Proof. vm_compute. reflexivity. Qed.

Lemma demo_tree : tree demo_sb (dget demo_disk) (fun n => n = 1).
Proof.
  intros n ->. rewrite demo_root. split.
  - eapply (node_same demo_sb _ _ demo_dir); [done|]. split; [done|done|apply demo_file_ok|done].
  - intros _ name m off. unfold dlookup.
    change (seqZ 0 _) with [0]. cbn [find fmap option_fmap option_map]. destruct (dmatch name _); [|done].
    intros E. injection E as <- _. reflexivity.
Qed.

(** [/.] is the root. *)
Lemma namei_resolves_witness :
  exists s ip s', @namei demo_image 1%nat sync_disk [47; 46] s = Done (Some ip) s' /\ i_inum (k_itable s' !!! ip) = 1.
Proof.
  destruct demo_tx as [s Ht].
  pose proof (tx_set_it 0 0 demo_disk demo_sb s [] (dget demo_disk) [] demo_it (replicate NINODE inode0) Ht) as Ht'.
  exists (set_k_itable (replicate NINODE inode0) s).
  destruct (runs_inv _ _ _ (@namei_resolves 0 0 demo_disk demo_sb demo_image 1%nat sync_disk sync_disk_ok
    ltac:(unfold sleep_fuel; lia) demo_layout [] (dget demo_disk) (fun _ => 0) (fun n => n = 1) demo_tree
    ltac:(exists 0%nat, 1%nat; split_and!; lia) ltac:(cbn; lia) _ (replicate NINODE inode0) [47; 46] Ht'
    ltac:(split; [done|]; intros j Hj; rewrite lookup_total_replicate_2 by done; split; [lia|]; split_and!; [done|done|lia])
    eq_refl ltac:(done))) as (o & s' & E & Hpost).
  change (resolve _ _ _ _) with (Some 1) in Hpost. destruct Hpost as (ip & it' & -> & _ & T' & _ & Hi).
  exists ip, s'. split; [exact E|]. rewrite (tx_it _ _ _ _ _ _ _ _ _ _ T'). exact Hi.
Defined.
