(* ===== verification/Console.v ===== *)
(** * Console and UART ([kernel/console.c], [kernel/uart.c]; [procdump])

    The UART's transmit register is the list [h_uart_tx] of characters sent,
    its receive register the queue [h_uart_rx]; output without interrupts is
    in [Print]. *)

From S2P Require Import Prelude Machine KState Spinlock Kalloc Walk Vm Sched Strings Printf Print.
Local Open Scope Z_scope.
Local Open Scope kern_scope.

(* ------------------------------------------------------------------ *)
(** ** Output *)

Definition state_name (st : procstate) : list Z :=
  chr match st with
      | UNUSED => "unused" | USED => "used" | SLEEPING => "sleep "
      | RUNNABLE => "runble" | RUNNING => "run   " | ZOMBIE => "zombie"
      end.

Definition procdump : K unit :=
  printf newline [] ;;;
  for_each (seq 0 NPROC) (fun i =>
    p <- getproc i ;;
    if bool_decide (p_state p = UNUSED) then ret tt
    else
      printf "%d %s %s" [ANum (p_pid p); AStr (Some (state_name (p_state p)));
                         AStr (Some (cstr (p_name p)))] ;;;
      printf newline []).

Definition getcons : K console := gets k_cons.
Definition updcons (f : console -> console) : K unit := modify (fun s => set_k_cons (f (k_cons s)) s).
Definition cons_at (c : console) (i : Z) : Z := c_buf c !!! Z.to_nat (i mod INPUT_BUF_SIZE).

Abbreviation CTRL_D := 4%Z.
Abbreviation CTRL_H := 8%Z.
Abbreviation CTRL_P := 16%Z.
Abbreviation CTRL_U := 21%Z.

Section Console.
Context `{KernelImage} `{SleepFuel}.

Definition uartwrite (buf : list Z) : K unit :=
  acquire Ltx_lock ;;;
  for_each buf (fun c =>
    loop sleep_fuel (fun _ : unit =>
      busy <- gets k_tx_busy ;;
      if negb (busy =? 0) then sleep ChTx Ltx_lock ;;; ret (inl tt) else ret (inr tt)) tt ;;;
    uart_send c ;;;
    modify (set_k_tx_busy 1)) ;;;
  release Ltx_lock.

Definition uartgetc : K Z :=
  rx <- gets (fun s => h_uart_rx (k_hw s)) ;;
  match rx with
  | [] => ret (-1)
  | c :: rx => modify (fun s => set_k_hw (set_h_uart_rx rx (k_hw s)) s) ;;; ret (u8 c)
  end.

Definition consolewrite (user_src : bool) (src n : Z) : K Z :=
  loop (S (Z.to_nat n)) (fun i =>
    if negb (i <? n) then ret (inr i)
    else
      let nn := Z.min 32 (n - i) in
      r <- either_copyin user_src (u64 (src + i)) nn ;;
      if r.1 =? -1 then ret (inr i)
      else uartwrite r.2 ;;; ret (inl (i + nn))) 0.

(* ------------------------------------------------------------------ *)
(** ** Input *)

(** The wait for input: whether the process was killed. *)
Definition cons_wait : K bool :=
  loop sleep_fuel (fun _ : unit =>
    c <- getcons ;;
    if negb (c_r c =? c_w c) then ret (inr false)
    else
      p <- curproc ;;
      k <- killed p ;;
      if nz k then ret (inr true)
      else sleep ChCons Lcons ;;; ret (inl tt)) tt.

Definition consoleread (user_dst : bool) (dst n : Z) : K Z :=
  let target := n in
  acquire Lcons ;;;
  r <- loop (S (Z.to_nat n)) (fun '(n, dst) =>
         if negb (0 <? n) then ret (inr (Some n))
         else
           dead <- cons_wait ;;
           if dead : bool then release Lcons ;;; ret (inr None)
           else
             cs <- getcons ;;
             let c := cons_at cs (c_r cs) in
             updcons (fun cs => set_c_r (u32 (c_r cs + 1)) cs) ;;;
             if c =? CTRL_D then
               when (n <? target) (updcons (fun cs => set_c_r (u32 (c_r cs - 1)) cs)) ;;;
               ret (inr (Some n))
             else
               r <- either_copyout user_dst dst [c] ;;
               if r =? -1 then ret (inr (Some n))
               else
                 let n := n - 1 in
                 if c =? 10 then ret (inr (Some n))
                 else ret (inl (n, u64 (dst + 1)))) (n, dst) ;;
  match r with
  | None => ret (-1)
  | Some n => release Lcons ;;; ret (target - n)
  end.
End Console.

(** The [while] loop of the kill-line character. *)
Definition kill_line : K unit :=
  c <- gets k_cons ;;
  loop (S (Z.to_nat (u32 (c_e c - c_w c)))) (fun _ : unit =>
    c <- gets k_cons ;;
    if negb (c_e c =? c_w c) && negb (cons_at c (u32 (c_e c - 1)) =? 10) then
      updcons (fun c => set_c_e (u32 (c_e c - 1)) c) ;;;
      consputc BACKSPACE ;;;
      ret (inl tt)
    else ret (inr tt)) tt.

(** The default case of the [switch]: an ordinary character. *)
Definition cons_store (c : Z) : K unit :=
  cs <- gets k_cons ;;
  if negb (c =? 0) && (u32 (c_e cs - c_r cs) <? INPUT_BUF_SIZE) then
    let c := if c =? 13 then 10 else c in
    consputc c ;;;
    updcons (fun cs => set_c_e (u32 (c_e cs + 1))
      (set_c_buf (<[Z.to_nat (c_e cs mod INPUT_BUF_SIZE) := u8 c]> (c_buf cs)) cs)) ;;;
    cs <- gets k_cons ;;
    when ((c =? 10) || (c =? CTRL_D) || (u32 (c_e cs - c_r cs) =? INPUT_BUF_SIZE))
      (updcons (fun cs => set_c_w (c_e cs) cs) ;;;
       wakeup ChCons)
  else ret tt.

Definition consoleintr (c : Z) : K unit :=
  acquire Lcons ;;;
  (if c =? CTRL_P then procdump
   else if c =? CTRL_U then kill_line
   else if (c =? CTRL_H) || (c =? 127) then
     cs <- gets k_cons ;;
     when (negb (c_e cs =? c_w cs))
       (updcons (fun cs => set_c_e (u32 (c_e cs - 1)) cs) ;;;
        consputc BACKSPACE)
   else cons_store c) ;;;
  release Lcons.

Definition uartintr : K unit :=
  acquire Ltx_lock ;;;
  idle <- gets (fun s => h_uart_idle (k_hw s)) ;;
  when idle (modify (set_k_tx_busy 0) ;;; wakeup ChTx) ;;;
  release Ltx_lock ;;;
  rx <- gets (fun s => h_uart_rx (k_hw s)) ;;
  loop (S (length rx)) (fun _ : unit =>
    c <- uartgetc ;;
    if c =? -1 then ret (inr tt) else consoleintr c ;;; ret (inl tt)) tt.

(** Major number of the console; its driver's functions are registered. *)
Abbreviation CONSOLE := 1%nat.
Definition consoleinit : K unit :=
  initlock Lcons ;;;
  uartinit ;;;
  modify (fun s => set_k_devsw (<[CONSOLE := true]> (k_devsw s)) s).

(* ------------------------------------------------------------------ *)
(** ** Line editing *)

(** What the input buffer means: the committed bytes, which [consoleread] may
    return, and the line being edited. The indices are 32-bit counters. *)
Record cons_abs (cs : console) (committed line : list Z) : Prop := {
  ca_len : length (c_buf cs) = Z.to_nat INPUT_BUF_SIZE;
  ca_r : 0 <= c_r cs < 2 ^ 32;
  ca_w : c_w cs = u32 (c_r cs + Z.of_nat (length committed));
  ca_e : c_e cs = u32 (c_r cs + Z.of_nat (length (committed ++ line)));
  ca_cap : Z.of_nat (length (committed ++ line)) <= INPUT_BUF_SIZE;
  ca_data : forall i x, (committed ++ line) !! i = Some x -> cons_at cs (c_r cs + Z.of_nat i) = x;
}.

(** Deletes the trailing characters up to a newline. *)
Fixpoint kill_back (rline : list Z) : list Z :=
  match rline with
  | [] => []
  | c :: r => if c =? 10 then rline else kill_back r
  end.

(** The line editor: what one input character does. *)
Definition edit (c : Z) (st : list Z * list Z) : list Z * list Z :=
  let '(committed, line) := st in
  if c =? CTRL_P then st
  else if c =? CTRL_U then (committed, rev (kill_back (rev line)))
  else if (c =? CTRL_H) || (c =? 127) then (committed, removelast line)
  else if negb (c =? 0) && (Z.of_nat (length (committed ++ line)) <? INPUT_BUF_SIZE) then
    let c := u8 (if c =? 13 then 10 else c) in
    if (c =? 10) || (c =? CTRL_D) || (Z.of_nat (length (committed ++ line)) + 1 =? INPUT_BUF_SIZE)
    then (committed ++ line ++ [c], [])
    else (committed, line ++ [c])
  else st.

Lemma u32_mod128 x : u32 x mod INPUT_BUF_SIZE = x mod INPUT_BUF_SIZE.
Proof. unfold u32. Z.div_mod_to_equations. lia. Qed.

Lemma cons_at_u32 cs x : cons_at cs (u32 x) = cons_at cs x.
Proof. unfold cons_at. by rewrite u32_mod128. Qed.

Lemma u32_sub a n : 0 <= a < 2 ^ 32 -> 0 <= n < 2 ^ 32 -> u32 (u32 (a + n) - a) = n.
Proof.
  intros Ha Hn. unfold u32. rewrite Zminus_mod_idemp_l.
  replace (a + n - a) with n by lia. apply Z.mod_small. lia.
Qed.

(** The counters agree exactly when the lengths do. *)
Lemma u32_eqb a m n :
  0 <= m < 2 ^ 32 -> 0 <= n < 2 ^ 32 -> (u32 (a + m) =? u32 (a + n)) = (m =? n).
Proof.
  intros Hm Hn. destruct (Z.eqb_spec m n) as [->|Hne]; [apply Z.eqb_refl|].
  apply Z.eqb_neq. unfold u32. intros E. apply Hne. Z.div_mod_to_equations. lia.
Qed.

Lemma length_snoc_lt {A} (l : list A) x : length (l ++ [x]) = S (length l).
Proof. rewrite length_app. simpl. lia. Qed.

(** Erasing the last character. *)
Lemma cons_abs_erase cs committed line c :
  cons_abs cs committed (line ++ [c]) ->
  cons_abs (set_c_e (u32 (c_e cs - 1)) cs) committed line /\
  cons_at cs (u32 (c_e cs - 1)) = c /\ (c_e cs =? c_w cs) = false.
Proof.
  intros [Hl Hr Hw He Hc Hd]. rewrite app_assoc, length_snoc_lt in *.
  assert (u32 (c_e cs - 1) = u32 (c_r cs + Z.of_nat (length (committed ++ line)))) as E.
  { rewrite He. unfold u32. rewrite Zminus_mod_idemp_l. f_equal. lia. }
  split_and!.
  - split; ksimp; try done; [lia|]. intros i x Hi. apply Hd. by apply lookup_app_l_Some.
  - rewrite E, cons_at_u32. apply Hd. by rewrite list_lookup_middle.
  - rewrite Hw, He. rewrite u32_eqb; [apply Z.eqb_neq; rewrite length_app; lia|lia|].
    rewrite length_app in Hc. lia.
Qed.

Lemma cons_abs_empty cs committed :
  cons_abs cs committed [] -> (c_e cs =? c_w cs) = true.
Proof. intros [_ _ Hw He _ _]. rewrite Hw, He, app_nil_r. apply Z.eqb_refl. Qed.

(** Storing a character. *)
Lemma cons_abs_store cs committed line c :
  cons_abs cs committed line -> Z.of_nat (length (committed ++ line)) < INPUT_BUF_SIZE ->
  let cs' := set_c_e (u32 (c_e cs + 1))
    (set_c_buf (<[Z.to_nat (c_e cs mod INPUT_BUF_SIZE) := c]> (c_buf cs)) cs) in
  cons_abs cs' committed (line ++ [c]) /\
  u32 (c_e cs' - c_r cs') = Z.of_nat (length (committed ++ line)) + 1.
Proof.
  intros [Hl Hr Hw He Hc Hd] Hlt cs'.
  assert (c_e cs' = u32 (c_r cs + (Z.of_nat (length (committed ++ line)) + 1))) as He'.
  { unfold cs'. ksimp. rewrite He. unfold u32. rewrite Zplus_mod_idemp_l. f_equal. lia. }
  split.
  - split; try done.
    + unfold cs'. ksimp. by rewrite length_insert.
    + rewrite He', app_assoc, length_snoc_lt. unfold cs'. ksimp. f_equal. lia.
    + rewrite app_assoc, length_snoc_lt. lia.
    + intros i x Hi. rewrite app_assoc in Hi. unfold cons_at, cs'. ksimp. rewrite He.
      apply lookup_snoc_Some in Hi as [[Hi Hx]|[-> ->]].
      * rewrite list_lookup_total_insert_ne; [by apply Hd|]. rewrite u32_mod128.
        intros E. apply Z2Nat.inj in E; [|apply Z.mod_pos_bound; lia..]. Z.div_mod_to_equations. lia.
      * rewrite u32_mod128, list_lookup_total_insert_eq; [done|].
        rewrite Hl. pose proof (Z.mod_pos_bound (c_r cs + Z.of_nat (length (committed ++ line))) INPUT_BUF_SIZE). lia.
  - rewrite He'. unfold cs'. ksimp. apply u32_sub; lia.
Qed.

(** Committing the line. *)
Lemma cons_abs_commit cs committed line :
  cons_abs cs committed line -> cons_abs (set_c_w (c_e cs) cs) (committed ++ line) [].
Proof. intros [Hl Hr Hw He Hc Hd]. split; ksimp; rewrite ?app_nil_r; done. Qed.

Lemma procdump_out s : Lpr ∉ k_held s -> exists tx, procdump s = Done tt (set_tx tx s).
Proof.
  intros Hl. unfold procdump. destruct (printf_out newline [] s Hl) as [tx E].
  rewrite (bind_done _ _ _ _ _ E). clear E. generalize (seq 0 NPROC) as l. intros l. revert tx.
  induction l as [|i l IH]; intros tx; cbn [for_each]; [by eexists|].
  assert (exists tx', (p <- getproc i ;;
    if bool_decide (p_state p = UNUSED) then ret tt
    else
      printf "%d %s %s" [ANum (p_pid p); AStr (Some (state_name (p_state p)));
                         AStr (Some (cstr (p_name p)))] ;;;
      printf newline []) (set_tx tx s) = Done tt (set_tx tx' s)) as [tx' E].
  { unfold getproc. rewrite bind_gets. case_bool_decide; [by eexists|].
    match goal with |- context [printf ?f ?a] => destruct (printf_out f a (set_tx tx s) Hl) as [tx1 E1] end.
    rewrite (bind_done _ _ _ _ _ E1). destruct (printf_out newline [] (set_tx tx1 s) Hl) as [tx2 E2].
    exists tx2. etransitivity; [|etransitivity; [exact E2|by destruct s]]. by destruct s. }
  rewrite (bind_done _ _ _ _ _ E). apply IH.
Qed.

Lemma kill_line_eq s committed line :
  cons_abs (k_cons s) committed line ->
  runs kill_line s (fun _ s' => exists cs tx, s' = set_k_cons cs (set_tx tx s) /\
    cons_abs cs committed (rev (kill_back (rev line)))).
Proof.
  intros Ha. unfold kill_line. apply runs_bind. eapply runs_done; [done|].
  assert (Z.to_nat (u32 (c_e (k_cons s) - c_w (k_cons s))) = length line) as Hfuel.
  { destruct Ha as [_ Hr Hw He Hc _]. rewrite Hw, He. rewrite length_app in *.
    unfold u32. rewrite <- Zminus_mod. 
    replace (c_r (k_cons s) + Z.of_nat (length committed + length line) -
      (c_r (k_cons s) + Z.of_nat (length committed))) with (Z.of_nat (length line)) by lia.
    rewrite Z.mod_small by lia. lia. }
  rewrite Hfuel. clear Hfuel.
  assert (exists cs tx, s = set_k_cons cs (set_tx tx s) /\ cons_abs cs committed line) as (cs & tx & Es & Hcs).
  { exists (k_cons s), (h_uart_tx (k_hw s)). split; [|done]. unfold set_tx. destruct s as []. ksimp. by destruct k_hw. }
  rewrite Es at 1. clear Ha Es. revert cs tx Hcs.
  induction line as [|c line IH] using rev_ind; intros cs tx Hcs; cbn [loop].
  - apply runs_bind, runs_bind. eapply runs_done; [done|]. ksimp.
    rewrite (cons_abs_empty _ _ Hcs). cbn [negb andb]. apply runs_ret, runs_ret. by exists cs, tx.
  - destruct (cons_abs_erase _ _ _ _ Hcs) as (Hcs' & Hat & Hne).
    apply runs_bind, runs_bind. eapply runs_done; [done|]. ksimp. rewrite Hne, Hat.
    rewrite rev_app_distr. cbn [negb andb rev app kill_back]. destruct (c =? 10) eqn:Ec; cbn [negb].
    + apply runs_ret, runs_ret. exists cs, tx. split; [done|]. simpl. by rewrite rev_involutive.
    + apply runs_bind. eapply runs_done; [done|]. ksimp.
      match goal with |- runs _ ?x _ => destruct (consputc_out BACKSPACE x) as [tx' E] end.
      apply runs_bind. eapply runs_done; [exact E|]. apply runs_ret.
      rewrite length_snoc_lt. 
      specialize (IH _ tx' Hcs').
      match goal with |- runs _ ?x _ => replace x with
        (set_k_cons (set_c_e (u32 (c_e cs - 1)) cs) (set_tx tx' s)) by (by destruct s) end.
      exact IH.
Qed.

(** The last step of every case: the lock is released. *)
Lemma cons_finish (m : K unit) s (Q : console -> Prop) :
  Lcons ∉ k_held s ->
  runs m (set_k_held (Lcons :: k_held s) s) (fun _ s' => k_held s' = Lcons :: k_held s /\ Q (k_cons s')) ->
  runs (acquire Lcons ;;; m ;;; release Lcons) s (fun _ s' => k_held s' = k_held s /\ Q (k_cons s')).
Proof.
  intros Hl Hm. apply runs_bind. eapply runs_done; [by apply acquire_ok|].
  apply runs_bind. eapply runs_mono; [exact Hm|]. intros _ s' [Hh HQ].
  eapply runs_done; [by apply release_head|]. by ksimp.
Qed.

Lemma cons_store_eq c s committed line :
  0 <= c < 256 -> c <> CTRL_P -> c <> CTRL_U -> c <> CTRL_H -> c <> 127 ->
  cons_abs (k_cons s) committed line -> procs_wf s -> no_proc_lock s ->
  runs (cons_store c) s (fun _ s' => k_held s' = k_held s /\
    cons_abs (k_cons s') (edit c (committed, line)).1 (edit c (committed, line)).2).
Proof.
  intros Hc H1 H2 H3 H4 Ha Hwf Hl. unfold cons_store, edit.
  rewrite (proj2 (Z.eqb_neq c CTRL_P)), (proj2 (Z.eqb_neq c CTRL_U)), (proj2 (Z.eqb_neq c CTRL_H)),
    (proj2 (Z.eqb_neq c 127)) by done. cbn [orb].
  assert (u32 (c_e (k_cons s) - c_r (k_cons s)) = Z.of_nat (length (committed ++ line))) as Hlen.
  { destruct Ha as [_ Hr _ He Hcap _]. rewrite He. apply u32_sub; lia. }
  apply runs_bind. eapply runs_done; [done|]. rewrite Hlen.
  destruct (negb (c =? 0) && _) eqn:E; [|by apply runs_ret].
  apply andb_true_iff in E as [_ Hlt%Z.ltb_lt]. cbv zeta.
  assert (0 <= (if c =? 13 then 10 else c) < 256) as Hc' by (case_match; lia).
  set (c' := if c =? 13 then 10 else c) in *. clearbody c'. rewrite (u8_id c' Hc').
  destruct (consputc_out c' s) as [tx Etx]. apply runs_bind. eapply runs_done; [exact Etx|]. unfold set_tx. ksimp.
  destruct (cons_abs_store _ _ _ c' Ha Hlt) as [Hst Hn].
  apply runs_bind. eapply runs_done; [done|]. apply runs_bind. eapply runs_done; [done|]. ksimp.
  unfold set_tx. ksimp. ksimp in Hn. rewrite Hn. destruct (_ || _ || _) eqn:Ecommit; cbn [when fst snd].
  - apply runs_bind. eapply runs_done; [done|].
    eapply runs_done; [by apply wakeup_eq|]. ksimp. split; [done|].
    by apply cons_abs_commit in Hst.
  - apply runs_ret. by ksimp.
Qed.

(** C29: the console's interrupt handler is a line editor. Whatever the values
    of the 32-bit indices, one input character turns the committed bytes and
    the line being edited into what the line editor says: erase and kill only
    touch the unfinished line, a newline, an end-of-file character or a full
    buffer commits it, and no byte is overwritten before it was read. *)
Theorem consoleintr_edits c s committed line :
  0 <= c < 256 -> cons_abs (k_cons s) committed line ->
  procs_wf s -> no_proc_lock s -> Lcons ∉ k_held s -> Lpr ∉ k_held s ->
  runs (consoleintr c) s (fun _ s' => k_held s' = k_held s /\
    cons_abs (k_cons s') (edit c (committed, line)).1 (edit c (committed, line)).2).
Proof.
  intros Hc Ha Hwf Hl Hl1 Hl2. unfold consoleintr.
  apply (cons_finish _ s (fun cs => cons_abs cs (edit c (committed, line)).1 (edit c (committed, line)).2) Hl1).
  destruct (Z.eqb_spec c CTRL_P) as [->|H1].
  { destruct (procdump_out (set_k_held (Lcons :: k_held s) s)) as [tx E];
      [ksimp; by apply not_elem_of_cons|].
    eapply runs_done; [exact E|]. by ksimp. }
  destruct (Z.eqb_spec c CTRL_U) as [->|H2].
  { eapply runs_mono; [by apply (kill_line_eq _ committed line)|].
    intros _ s' (cs & tx & -> & Hcs). by ksimp. }
  destruct (Z.eqb_spec c CTRL_H) as [E1|H3], (Z.eqb_spec c 127) as [E2|H4]; cbn [orb].
  4: { apply cons_store_eq; try done. intros i. ksimp. apply not_elem_of_cons. split; [done|apply Hl]. }
  all: apply runs_bind; (eapply runs_done; [done|]); ksimp;
    assert (edit c (committed, line) = (committed, removelast line)) as -> by (by subst);
    (destruct (decide (line = [])) as [->|Hne];
     [rewrite (cons_abs_empty _ _ Ha); by apply runs_ret|]);
    destruct (exists_last Hne) as (l & x & ->);
    destruct (cons_abs_erase _ _ _ _ Ha) as (Hcs & _ & Hew); rewrite Hew; cbn [negb when];
    apply runs_bind; (eapply runs_done; [done|]);
    (match goal with |- runs _ ?x _ => destruct (consputc_out BACKSPACE x) as [tx E] end);
    (eapply runs_done; [exact E|]); ksimp; by rewrite removelast_last.
Qed.

Definition cons_demo : kst :=
  set_k_cons (mkcons (zeros 128) (2 ^ 32 - 1) (2 ^ 32 - 1) (2 ^ 32 - 1)) (kst0 (fun _ => 0) []).

Lemma consoleintr_edits_witness :
  runs (consoleintr 104) cons_demo (fun _ s' => cons_abs (k_cons s') [] [104]).
Proof.
  eapply runs_mono.
  - apply (consoleintr_edits 104 cons_demo [] []).
    + lia.
    + split; try reflexivity; cbn; [lia|lia|]. intros i x Hi. discriminate Hi.
    + reflexivity.
    + intros i. apply not_elem_of_nil.
    + apply not_elem_of_nil.
    + apply not_elem_of_nil.
  - intros _ s' [_ Hs]. exact Hs.
Defined.
