(* ===== verification/Pipe.v ===== *)
(** * Pipes ([kernel/pipe.c])

    A pipe lives in a page of its own; [k_pipes] maps the page's address to
    the structure. [pipealloc], which allocates files, is in [File]. *)

From S2P Require Import Prelude Machine KState Spinlock Kalloc Walk Vm Sched.
Local Open Scope Z_scope.
Local Open Scope kern_scope.

Definition getpipe (pi : Z) : K pipe := gets (fun s => k_pipes s !!! pi).
Definition updpipe (pi : Z) (f : pipe -> pipe) : K unit :=
  modify (fun s => set_k_pipes (alter f pi (k_pipes s)) s).

(** [kfree] of the pipe's page. *)
Definition pipefree `{KernelImage} (pi : Z) : K unit :=
  modify (fun s => set_k_pipes (delete pi (k_pipes s)) s) ;;;
  kfree pi.

Section Pipe.
Context `{KernelImage} `{SleepFuel}.

Definition pipeclose (pi : Z) (writable : bool) : K unit :=
  acquire (Lpipe pi) ;;;
  (if writable then
     updpipe pi (set_pi_writeopen 0) ;;;
     wakeup (ChNread pi)
   else
     updpipe pi (set_pi_readopen 0) ;;;
     wakeup (ChNwrite pi)) ;;;
  p <- getpipe pi ;;
  if (pi_readopen p =? 0) && (pi_writeopen p =? 0) then
    release (Lpipe pi) ;;;
    pipefree pi
  else release (Lpipe pi).

(** [pi->data[pi->nwrite++ % PIPESIZE] = ch] *)
Definition pipe_put (ch : Z) (p : pipe) : pipe :=
  set_pi_nwrite (u32 (pi_nwrite p + 1))
    (set_pi_data (<[Z.to_nat (pi_nwrite p mod PIPESIZE) := ch]> (pi_data p)) p).

Definition pipewrite_step (pr : nat) (pi addr n i : Z) : K (Z + option Z) :=
  if negb (i <? n) then ret (inr (Some i))
  else
    p <- getpipe pi ;;
    dead <- (if pi_readopen p =? 0 then ret true
             else k <- killed pr ;; ret (nz k)) ;;
    if dead : bool then release (Lpipe pi) ;;; ret (inr None)
    else if pi_nwrite p =? u32 (pi_nread p + PIPESIZE) then
      wakeup (ChNread pi) ;;;
      sleep (ChNwrite pi) (Lpipe pi) ;;;
      ret (inl i)
    else
      q <- getproc pr ;;
      r <- copyin (p_pagetable q) (u64 (addr + i)) 1 ;;
      if r.1 =? -1 then ret (inr (Some i))
      else
        updpipe pi (pipe_put (r.2 !!! 0%nat)) ;;;
        ret (inl (i + 1)).

Definition pipewrite (pi addr n : Z) : K Z :=
  pr <- curproc ;;
  acquire (Lpipe pi) ;;;
  o <- loop (sleep_fuel + S (Z.to_nat n)) (pipewrite_step pr pi addr n) 0 ;;
  match o with
  | None => ret (-1)
  | Some i =>
      wakeup (ChNread pi) ;;;
      release (Lpipe pi) ;;;
      ret i
  end.

(** The wait for data: whether the process was killed. *)
Definition pipe_wait (pr : nat) (pi : Z) : K bool :=
  loop sleep_fuel (fun _ : unit =>
    p <- getpipe pi ;;
    if (pi_nread p =? pi_nwrite p) && nz (pi_writeopen p) then
      k <- killed pr ;;
      if nz k then ret (inr true)
      else
        sleep (ChNread pi) (Lpipe pi) ;;;
        ret (inl tt)
    else ret (inr false)) tt.

Definition piperead_step (pr : nat) (pi addr n i : Z) : K (Z + Z) :=
  if negb (i <? n) then ret (inr i)
  else
    p <- getpipe pi ;;
    if pi_nread p =? pi_nwrite p then ret (inr i)
    else
      let ch := pi_data p !!! Z.to_nat (pi_nread p mod PIPESIZE) in
      q <- getproc pr ;;
      r <- copyout (p_pagetable q) (u64 (addr + i)) [ch] ;;
      if r =? -1 then ret (inr (if i =? 0 then -1 else i))
      else
        updpipe pi (fun p => set_pi_nread (u32 (pi_nread p + 1)) p) ;;;
        ret (inl (i + 1)).

Definition piperead (pi addr n : Z) : K Z :=
  pr <- curproc ;;
  acquire (Lpipe pi) ;;;
  dead <- pipe_wait pr pi ;;
  if dead : bool then release (Lpipe pi) ;;; ret (-1)
  else
    i <- loop (S (Z.to_nat n)) (piperead_step pr pi addr n) 0 ;;
    wakeup (ChNwrite pi) ;;;
    release (Lpipe pi) ;;;
    ret i.
End Pipe.
