(* ===== verification/File.v ===== *)
(** * Open files ([kernel/file.c]; [pipealloc] of [kernel/pipe.c]) *)

From S2P Require Import Prelude Machine KState Spinlock Kalloc Walk Vm Sched Bio Log Fs Console Pipe.
Local Open Scope Z_scope.
Local Open Scope kern_scope.

Definition getfile (f : nat) : K file := gets (fun s => k_ftable s !!! f).
Definition updfile (f : nat) (g : file -> file) : K unit :=
  modify (fun s => set_k_ftable (alter g f (k_ftable s)) s).

(** The inode of a file that has one. *)
Definition file_ip (x : file) : K nat :=
  match f_ip x with
  | Some ip => ret ip
  | None => panic "null inode pointer"
  end.

Definition fileinit : K unit := initlock Lftable.

Definition filealloc : K (option nat) :=
  acquire Lftable ;;;
  o <- for_find (seq 0 NFILE) (fun f =>
         x <- getfile f ;;
         if f_ref x =? 0 then
           updfile f (set_f_ref 1) ;;;
           release Lftable ;;;
           ret (Some f)
         else ret None) ;;
  match o with
  | Some f => ret (Some f)
  | None => release Lftable ;;; ret None
  end.

Definition filedup (f : nat) : K nat :=
  acquire Lftable ;;;
  x <- getfile f ;;
  if f_ref x <? 1 then panic "filedup"
  else
    updfile f (fun x => set_f_ref (f_ref x + 1) x) ;;;
    release Lftable ;;;
    ret f.

(** [sizeof(struct stat)] bytes in memory order: [dev], [ino], [type], [nlink],
    four bytes of padding, [size]. *)
Definition stat_bytes (st : stat) : list Z :=
  le_split 4 (st_dev st) ++ le_split 4 (st_ino st) ++ le_split 2 (st_type st) ++
  le_split 2 (st_nlink st) ++ zeros 4 ++ le_split 8 (st_size st).

Section File.
Context `{KernelImage} `{SleepFuel} `{BlockDev}.

Definition fileclose (f : nat) : K unit :=
  acquire Lftable ;;;
  x <- getfile f ;;
  if f_ref x <? 1 then panic "fileclose"
  else
    updfile f (fun x => set_f_ref (f_ref x - 1) x) ;;;
    ff <- getfile f ;;
    if 0 <? f_ref ff then release Lftable
    else
      updfile f (fun x => set_f_type FD_NONE (set_f_ref 0 x)) ;;;
      release Lftable ;;;
      match f_type ff with
      | FD_PIPE => pipeclose (f_pipe ff) (nz (f_writable ff))
      | FD_INODE | FD_DEVICE =>
          begin_op ;;;
          ip <- file_ip ff ;;
          iput ip ;;;
          end_op
      | FD_NONE => ret tt
      end.

Definition filestat (f : nat) (addr : Z) : K Z :=
  x <- getfile f ;;
  match f_type x with
  | FD_INODE | FD_DEVICE =>
      ip <- file_ip x ;;
      ilock ip ;;;
      st <- stati ip ;;
      iunlock ip ;;;
      p <- curproc ;;
      pr <- getproc p ;;
      r <- copyout (p_pagetable pr) addr (stat_bytes st) ;;
      if r <? 0 then ret (-1) else ret 0
  | _ => ret (-1)
  end.

(** [devsw[major]]: the console is the only driver. *)
Definition has_dev (major : Z) : K bool :=
  gets (fun s => (0 <=? major) && (major <? NDEV) && (k_devsw s !!! Z.to_nat major)).

Definition fileread (f : nat) (addr n : Z) : K Z :=
  x <- getfile f ;;
  if f_readable x =? 0 then ret (-1)
  else
    match f_type x with
    | FD_PIPE => piperead (f_pipe x) addr n
    | FD_DEVICE =>
        d <- has_dev (f_major x) ;;
        if negb d then ret (-1) else consoleread true addr n
    | FD_INODE =>
        ip <- file_ip x ;;
        ilock ip ;;;
        x <- getfile f ;;
        r <- readi ip (DUser addr) (f_off x) (u32 n) ;;
        when (0 <? i32 r.1) (updfile f (fun x => set_f_off (u32 (f_off x + r.1)) x)) ;;;
        iunlock ip ;;;
        ret (i32 r.1)
    | FD_NONE => panic "fileread"
    end.

(** Bytes written per transaction. *)
Definition write_max : Z := (MAXOPBLOCKS - 1 - 1 - 2) / 2 * BSIZE.

Definition filewrite_step (f ip : nat) (addr n i : Z) : K (Z + Z) :=
  if negb (i <? n) then ret (inr i)
  else
    let n1 := Z.min (n - i) write_max in
    begin_op ;;;
    ilock ip ;;;
    x <- getfile f ;;
    r <- writei ip (SUser (u64 (addr + i))) (f_off x) n1 ;;
    when (0 <? r) (updfile f (fun x => set_f_off (u32 (f_off x + r)) x)) ;;;
    iunlock ip ;;;
    end_op ;;;
    if negb (r =? n1) then ret (inr i) else ret (inl (i + r)).

Definition filewrite (f : nat) (addr n : Z) : K Z :=
  x <- getfile f ;;
  if f_writable x =? 0 then ret (-1)
  else
    match f_type x with
    | FD_PIPE => pipewrite (f_pipe x) addr n
    | FD_DEVICE =>
        d <- has_dev (f_major x) ;;
        if negb d then ret (-1) else consolewrite true addr n
    | FD_INODE =>
        ip <- file_ip x ;;
        i <- loop (S (Z.to_nat n)) (filewrite_step f ip addr n) 0 ;;
        ret (if i =? n then n else -1)
    | FD_NONE => panic "filewrite"
    end.

(** The exit [bad] of [pipealloc]. *)
Definition pipealloc_bad (f0 f1 : option nat) : K (option (nat * nat)) :=
  match f0 with Some f => fileclose f | None => ret tt end ;;;
  match f1 with Some f => fileclose f | None => ret tt end ;;;
  ret None.

Definition pipealloc : K (option (nat * nat)) :=
  f0 <- filealloc ;;
  match f0 with
  | None => pipealloc_bad None None
  | Some f0 =>
      f1 <- filealloc ;;
      match f1 with
      | None => pipealloc_bad (Some f0) None
      | Some f1 =>
          pi <- kalloc ;;
          if pi =? 0 then pipealloc_bad (Some f0) (Some f1)
          else
            modify (fun s => set_k_pipes (<[pi := mkpipe (zeros 512) 0 0 1 1]> (k_pipes s)) s) ;;;
            initlock (Lpipe pi) ;;;
            updfile f0 (fun x => set_f_pipe pi (set_f_writable 0 (set_f_readable 1 (set_f_type FD_PIPE x)))) ;;;
            updfile f1 (fun x => set_f_pipe pi (set_f_writable 1 (set_f_readable 0 (set_f_type FD_PIPE x)))) ;;;
            ret (Some (f0, f1))
      end
  end.
End File.
