(* ===== verification/Proc.v ===== *)
(** * Processes, second part: life cycle ([kernel/proc.c])

    Allocating and freeing processes and their address spaces, [fork],
    [exit] and [wait]. A trapframe is a page of memory; [TF_*] are the
    offsets of its fields (proc.h). *)

From S2P Require Import Prelude Machine KState Spinlock Kalloc Swap Walk FrameTable Vm Sched Strings.
From S2P Require Import Bio Log Fs Console Pipe File.
Local Open Scope Z_scope.
Local Open Scope kern_scope.

(** Offsets in [struct trapframe] and its size. *)
Abbreviation TF_kernel_satp := 0%Z.
Abbreviation TF_kernel_sp := 8%Z.
Abbreviation TF_kernel_trap := 16%Z.
Abbreviation TF_epc := 24%Z.
Abbreviation TF_kernel_hartid := 32%Z.
Abbreviation TF_sp := 48%Z.
Abbreviation TF_a0 := 112%Z.
Abbreviation TF_a1 := 120%Z.
Abbreviation TF_a7 := 168%Z.
Abbreviation TF_SIZE := 288%Z.

(** [p->trapframe->f] *)
Definition tf_get (p : nat) (f : Z) : K Z :=
  pr <- getproc p ;;
  kload64 (p_trapframe pr + f).
Definition tf_set (p : nat) (f v : Z) : K unit :=
  pr <- getproc p ;;
  kstore64 (p_trapframe pr + f) v.

(** Dereferencing a pointer that may be null. *)
Definition deref (o : option nat) (msg : string) : K nat :=
  match o with
  | Some i => ret i
  | None => panic msg
  end.

(** The channel a process pointer is. *)
Definition chan_of (o : option nat) : chan :=
  match o with
  | Some i => ChProc i
  | None => ChNone
  end.

Section Proc.
Context `{KernelImage} `{SleepFuel} `{BlockDev}.

Definition proc_freepagetable (pagetable sz : Z) : K unit :=
  uvmunmap pagetable TRAMPOLINE 1 false ;;;
  uvmunmap pagetable TRAPFRAME 1 false ;;;
  uvmfree pagetable sz.

Definition proc_pagetable (p : nat) : K Z :=
  pagetable <- uvmcreate ;;
  if pagetable =? 0 then ret 0
  else
    r <- mappages pagetable TRAMPOLINE PGSIZE trampoline (Z.lor PTE_R PTE_X) ;;
    if r <? 0 then uvmfree pagetable 0 ;;; ret 0
    else
      pr <- getproc p ;;
      r <- mappages pagetable TRAPFRAME PGSIZE (p_trapframe pr) (Z.lor PTE_R PTE_W) ;;
      if r <? 0 then
        uvmunmap pagetable TRAMPOLINE 1 false ;;;
        uvmfree pagetable 0 ;;;
        ret 0
      else ret pagetable.

Definition freeproc (p : nat) : K unit :=
  pr <- getproc p ;;
  when (nz (p_trapframe pr)) (kfree (p_trapframe pr)) ;;;
  updproc p (set_p_trapframe 0) ;;;
  pr <- getproc p ;;
  when (nz (p_pagetable pr)) (proc_freepagetable (p_pagetable pr) (p_sz pr)) ;;;
  updproc p (fun q =>
    set_p_state UNUSED (set_p_xstate 0 (set_p_killed 0 (set_p_chan ChNone
      (set_p_name (<[0%nat := 0]> (p_name q)) (set_p_parent None (set_p_pid 0
        (set_p_sz 0 (set_p_pagetable 0 q))))))))).

(** The assignments after the label [found]. *)
Definition proc_reset (pid : Z) (q : proc) : proc :=
  set_p_resident_pages 0 (set_p_pages_swapped_out 0 (set_p_pages_swapped_in 0
    (set_p_pages_evicted 0 (set_p_page_faults 0 (set_p_syscalls_at_level 0
      (set_p_times_scheduled 0 (set_p_ticks_per_level (zeros 4) (set_p_ticks_at_level 0
        (set_p_mlfq_level 0 (set_p_syscount 0 (set_p_state USED (set_p_pid pid q)))))))))))).

(** The search for an UNUSED process; its lock is held on success. *)
Definition find_unused : K (option nat) :=
  for_find (seq 0 NPROC) (fun i =>
    acquire (Lproc i) ;;;
    p <- getproc i ;;
    if bool_decide (p_state p = UNUSED) then ret (Some i)
    else release (Lproc i) ;;; ret None).

Definition allocproc : K (option nat) :=
  o <- find_unused ;;
  match o with
  | None => ret None
  | Some p =>
      pid <- allocpid ;;
      updproc p (proc_reset pid) ;;;
      tf <- kalloc ;;
      updproc p (set_p_trapframe tf) ;;;
      if tf =? 0 then
        freeproc p ;;;
        release (Lproc p) ;;;
        ret None
      else
        pt <- proc_pagetable p ;;
        updproc p (set_p_pagetable pt) ;;;
        if pt =? 0 then
          freeproc p ;;;
          release (Lproc p) ;;;
          ret None
        else
          updproc p (fun q =>
            set_p_context (mkcontext forkret_addr (p_kstack q + PGSIZE) (zeros 12)) q) ;;;
          ret (Some p)
  end.

Definition userinit : K unit :=
  o <- allocproc ;;
  modify (set_k_initproc o) ;;;
  p <- deref o "null process pointer" ;;
  cwd <- namei [47] ;;
  updproc p (set_p_cwd cwd) ;;;
  updproc p (set_p_state RUNNABLE) ;;;
  release (Lproc p).

Definition growproc (n : Z) : K Z :=
  p <- curproc ;;
  pr <- getproc p ;;
  let sz := p_sz pr in
  if 0 <? n then
    if TRAPFRAME <? u64 (sz + n) then ret (-1)
    else
      sz1 <- uvmalloc (p_pagetable pr) sz (u64 (sz + n)) PTE_W ;;
      if sz1 =? 0 then ret (-1)
      else updproc p (set_p_sz sz1) ;;; ret 0
  else if n <? 0 then
    sz1 <- uvmdealloc (p_pagetable pr) sz (u64 (sz + n)) ;;
    updproc p (set_p_sz sz1) ;;;
    ret 0
  else
    updproc p (set_p_sz sz) ;;;
    ret 0.

(** Copying the open files and the working directory. *)
Definition copy_files (p np : nat) : K unit :=
  for_each (seq 0 NOFILE) (fun i =>
    pr <- getproc p ;;
    match p_ofile pr !!! i with
    | Some f =>
        f' <- filedup f ;;
        updproc np (fun q => set_p_ofile (<[i := Some f']> (p_ofile q)) q)
    | None => ret tt
    end) ;;;
  pr <- getproc p ;;
  ip <- deref (p_cwd pr) "null inode pointer" ;;
  ip <- idup ip ;;
  updproc np (set_p_cwd (Some ip)).

Definition kfork : K Z :=
  p <- curproc ;;
  o <- allocproc ;;
  match o with
  | None => ret (-1)
  | Some np =>
      pr <- getproc p ;;
      npr <- getproc np ;;
      r <- uvmcopy (p_pagetable pr) (p_pagetable npr) (p_sz pr) ;;
      if r <? 0 then
        freeproc np ;;;
        release (Lproc np) ;;;
        ret (-1)
      else
        updproc np (set_p_sz (p_sz pr)) ;;;
        kmemmove (p_trapframe npr) (p_trapframe pr) TF_SIZE ;;;
        tf_set np TF_a0 0 ;;;
        copy_files p np ;;;
        updproc np (fun q => set_p_name (safestrcpy_l (p_name q) (p_name pr)) q) ;;;
        npr <- getproc np ;;
        let pid := p_pid npr in
        release (Lproc np) ;;;
        acquire Lwait_lock ;;;
        updproc np (set_p_parent (Some p)) ;;;
        release Lwait_lock ;;;
        acquire (Lproc np) ;;;
        updproc np (set_p_state RUNNABLE) ;;;
        release (Lproc np) ;;;
        ret pid
  end.

Definition reparent (p : nat) : K unit :=
  for_each (seq 0 NPROC) (fun i =>
    pp <- getproc i ;;
    when (bool_decide (p_parent pp = Some p))
      (init <- gets k_initproc ;;
       updproc i (set_p_parent init) ;;;
       wakeup (chan_of init))).

Definition close_files (p : nat) : K unit :=
  for_each (seq 0 NOFILE) (fun fd =>
    pr <- getproc p ;;
    match p_ofile pr !!! fd with
    | Some f =>
        fileclose f ;;;
        updproc p (fun q => set_p_ofile (<[fd := None]> (p_ofile q)) q)
    | None => ret tt
    end).

Definition kexit (status : Z) : K unit :=
  p <- curproc ;;
  init <- gets k_initproc ;;
  if bool_decide (init = Some p) then panic "init exiting"
  else
    close_files p ;;;
    begin_op ;;;
    pr <- getproc p ;;
    ip <- deref (p_cwd pr) "null inode pointer" ;;
    iput ip ;;;
    end_op ;;;
    updproc p (set_p_cwd None) ;;;
    acquire Lwait_lock ;;;
    reparent p ;;;
    pr <- getproc p ;;
    wakeup (chan_of (p_parent pr)) ;;;
    acquire (Lproc p) ;;;
    updproc p (fun q => set_p_state ZOMBIE (set_p_xstate status q)) ;;;
    release Lwait_lock ;;;
    sched ;;;
    panic "zombie exit".

(** One scan of the table, from the entries [l] on: the result of [wait] when
    an exited child was found, and [havekids]. *)
Fixpoint reap (p : nat) (addr : Z) (l : list nat) (havekids : bool) : K (option Z * bool) :=
  match l with
  | [] => ret (None, havekids)
  | i :: l =>
      pp <- getproc i ;;
      if bool_decide (p_parent pp = Some p) then
        acquire (Lproc i) ;;;
        pp <- getproc i ;;
        if bool_decide (p_state pp = ZOMBIE) then
          let pid := p_pid pp in
          r <- (if negb (addr =? 0) then
                  pr <- getproc p ;;
                  copyout (p_pagetable pr) addr (le_split 4 (p_xstate pp))
                else ret 0) ;;
          if r <? 0 then
            release (Lproc i) ;;;
            release Lwait_lock ;;;
            ret (Some (-1), true)
          else
            freeproc i ;;;
            release (Lproc i) ;;;
            release Lwait_lock ;;;
            ret (Some pid, true)
        else
          release (Lproc i) ;;;
          reap p addr l true
      else reap p addr l havekids
  end.

Definition kwait (addr : Z) : K Z :=
  p <- curproc ;;
  acquire Lwait_lock ;;;
  loop sleep_fuel (fun _ : unit =>
    o <- reap p addr (seq 0 NPROC) false ;;
    match o.1 with
    | Some r => ret (inr r)
    | None =>
        stop <- (if negb o.2 then ret true
                 else k <- killed p ;; ret (nz k)) ;;
        if stop : bool then
          release Lwait_lock ;;;
          ret (inr (-1))
        else
          sleep (ChProc p) Lwait_lock ;;;
          ret (inl tt)
    end) tt.
End Proc.
