(* ===== verification/Sysarg.v ===== *)
(** * System call arguments ([kernel/syscall.c], first part) *)

From S2P Require Import Prelude Machine KState Spinlock Kalloc Swap Walk FrameTable Vm Sched Strings.
From S2P Require Import Bio Log Fs Console Pipe File Proc.
Local Open Scope Z_scope.
Local Open Scope kern_scope.

Section Sysarg.
Context `{KernelImage}.

(** The C result and the [uint64] read. *)
Definition fetchaddr (addr : Z) : K (Z * Z) :=
  p <- curproc ;;
  pr <- getproc p ;;
  if (p_sz pr <=? addr) || (p_sz pr <? u64 (addr + 8)) then ret (-1, 0)
  else
    r <- copyin (p_pagetable pr) addr 8 ;;
    if negb (r.1 =? 0) then ret (-1, 0)
    else ret (0, le_combine r.2).

(** The C result (length or -1) and the string without its NUL. *)
Definition fetchstr (addr max : Z) : K (Z * list Z) :=
  p <- curproc ;;
  pr <- getproc p ;;
  r <- copyinstr (p_pagetable pr) addr max ;;
  if r.1 <? 0 then ret (-1, [])
  else ret (Z.of_nat (length (cstr r.2)), cstr r.2).

Definition argraw (n : Z) : K Z :=
  p <- curproc ;;
  if (0 <=? n) && (n <=? 5) then tf_get p (TF_a0 + 8 * n)
  else panic "argraw".

Definition argint (n : Z) : K Z := v <- argraw n ;; ret (i32 v).
Definition argaddr (n : Z) : K Z := argraw n.
Definition argstr (n max : Z) : K (Z * list Z) :=
  addr <- argaddr n ;;
  fetchstr addr max.
End Sysarg.
