(* ===== verification/Exec.v ===== *)
(** * Running programs ([kernel/exec.c], [kernel/elf.h]) *)

From S2P Require Import Prelude Machine KState Spinlock Kalloc Swap Walk FrameTable Vm Sched Strings.
From S2P Require Import Bio Log Fs Console Pipe File Proc.
Local Open Scope Z_scope.
Local Open Scope kern_scope.

(** ELF headers (elf.h), the fields [kexec] reads. *)
Abbreviation ELF_MAGIC := 0x464C457F%Z.
Abbreviation ELF_PROG_LOAD := 1%Z.
Abbreviation ELFHDR_SIZE := 64%Z.
Abbreviation PROGHDR_SIZE := 56%Z.
Definition ld64 (bs : list Z) (off : Z) : Z := le_combine (lget bs off 8).

Record elfhdr : Type := mkelf {
  elf_magic : Z;
  elf_entry : Z;
  elf_phoff : Z;
  elf_phnum : Z
}.
Definition elf_of_bytes (bs : list Z) : elfhdr :=
  mkelf (ld32 bs 0) (ld64 bs 24) (ld64 bs 32) (ld16 bs 56).

Record proghdr : Type := mkph {
  ph_type : Z;
  ph_flags : Z;
  ph_off : Z;
  ph_vaddr : Z;
  ph_filesz : Z;
  ph_memsz : Z
}.
Definition ph_of_bytes (bs : list Z) : proghdr :=
  mkph (ld32 bs 0) (ld32 bs 4) (ld64 bs 8) (ld64 bs 16) (ld64 bs 32) (ld64 bs 40).

Definition flags2perm (flags : Z) : Z :=
  let perm := if nz (Z.land flags 1) then PTE_X else 0 in
  if nz (Z.land flags 2) then Z.lor perm PTE_W else perm.

(** A kernel string passed to [kexec]: a literal, or a page's address. *)
Inductive kstring : Type :=
| Klit (bs : list Z)
| Kaddr (a : Z).
Definition kstring_get (k : kstring) : K (list Z) :=
  match k with
  | Klit bs => ret bs
  | Kaddr a => bs <- kread a PGSIZE ;; ret (cstr bs)
  end.

(** The part of a path after its last slash. *)
Fixpoint last_elem (path last : list Z) : list Z :=
  match path with
  | [] => last
  | c :: path => last_elem path (if c =? 47 then path else last)
  end.

Section Exec.
Context `{KernelImage} `{SleepFuel} `{BlockDev}.

Definition loadseg_step (pagetable va : Z) (ip : nat) (offset sz i : Z) : K (Z + Z) :=
  if negb (i <? sz) then ret (inr 0)
  else
    pa <- walkaddr pagetable (u64 (va + i)) ;;
    if pa =? 0 then panic "loadseg: address should exist"
    else
      let n := if sz - i <? PGSIZE then sz - i else PGSIZE in
      r <- readi ip (DKernel pa) (u32 (offset + i)) n ;;
      if negb (r.1 =? n) then ret (inr (-1)) else ret (inl (u32 (i + PGSIZE))).

Definition loadseg (pagetable va : Z) (ip : nat) (offset sz : Z) : K Z :=
  loop (S (Z.to_nat ((sz + PGSIZE - 1) / PGSIZE))) (loadseg_step pagetable va ip offset sz) 0.

(** The label [bad]. *)
Definition kexec_bad (pagetable sz : Z) (ip : option nat) : K Z :=
  when (nz pagetable) (proc_freepagetable pagetable sz) ;;;
  match ip with
  | Some ip => iunlockput ip ;;; end_op
  | None => ret tt
  end ;;;
  ret (-1).

(** The loop over the program headers: [inr (ok, sz)] when it ends. *)
Definition load_step (ip : nat) (pagetable phnum : Z) (x : Z * Z * Z) : K (Z * Z * Z + bool * Z) :=
  let '(i, off, sz) := x in
  if negb (i <? phnum) then ret (inr (true, sz))
  else
    let next sz := inl (i + 1, i32 (off + PROGHDR_SIZE), sz) in
    r <- readi ip DLocal (u32 off) PROGHDR_SIZE ;;
    if negb (r.1 =? PROGHDR_SIZE) then ret (inr (false, sz))
    else
      let ph := ph_of_bytes r.2 in
      if negb (ph_type ph =? ELF_PROG_LOAD) then ret (next sz)
      else if ph_memsz ph <? ph_filesz ph then ret (inr (false, sz))
      else if u64 (ph_vaddr ph + ph_memsz ph) <? ph_vaddr ph then ret (inr (false, sz))
      else if nz (ph_vaddr ph mod PGSIZE) then ret (inr (false, sz))
      else
        sz1 <- uvmalloc pagetable sz (u64 (ph_vaddr ph + ph_memsz ph)) (flags2perm (ph_flags ph)) ;;
        if sz1 =? 0 then ret (inr (false, sz))
        else
          r <- loadseg pagetable (ph_vaddr ph) ip (u32 (ph_off ph)) (u32 (ph_filesz ph)) ;;
          if r <? 0 then ret (inr (false, sz1)) else ret (next sz1).

(** The loop that pushes the argument strings; [None] is [goto bad]. The
    result is [sp] and [ustack]. *)
Fixpoint push_args (pagetable stackbase : Z) (argv : list kstring) (argc sp : Z) (ustack : list Z) :
    K (option (Z * list Z)) :=
  match argv with
  | [] => ret (Some (sp, ustack))
  | a :: argv =>
      if MAXARG <=? argc then ret None
      else
        str <- kstring_get a ;;
        let sp := u64 (sp - (Z.of_nat (length str) + 1)) in
        let sp := sp - sp mod 16 in
        if sp <? stackbase then ret None
        else
          r <- copyout pagetable sp (str ++ [0]) ;;
          if r <? 0 then ret None
          else push_args pagetable stackbase argv (argc + 1) sp (ustack ++ [sp])
  end.

(** [kexec] after the program is loaded: stack, arguments, commit. *)
Definition kexec_start (path : list Z) (argv : list kstring) (pagetable sz entry : Z) : K Z :=
  p <- curproc ;;
  pr <- getproc p ;;
  let oldsz := p_sz pr in
  let sz := PGROUNDUP sz in
  sz1 <- uvmalloc pagetable sz (u64 (sz + (USERSTACK + 1) * PGSIZE)) PTE_W ;;
  if sz1 =? 0 then kexec_bad pagetable sz None
  else
    let sz := sz1 in
    uvmclear pagetable (u64 (sz - (USERSTACK + 1) * PGSIZE)) ;;;
    let sp := sz in
    let stackbase := u64 (sp - USERSTACK * PGSIZE) in
    o <- push_args pagetable stackbase argv 0 sp [] ;;
    match o with
    | None => kexec_bad pagetable sz None
    | Some (sp, ustack) =>
        let argc := Z.of_nat (length ustack) in
        let sp := u64 (sp - (argc + 1) * 8) in
        let sp := sp - sp mod 16 in
        if sp <? stackbase then kexec_bad pagetable sz None
        else
          r <- copyout pagetable sp (concat (map (le_split 8) (ustack ++ [0]))) ;;
          if r <? 0 then kexec_bad pagetable sz None
          else
            tf_set p TF_a1 sp ;;;
            updproc p (fun q => set_p_name (safestrcpy_l (p_name q) (last_elem path path ++ [0])) q) ;;;
            pr <- getproc p ;;
            let oldpagetable := p_pagetable pr in
            updproc p (fun q => set_p_sz sz (set_p_pagetable pagetable q)) ;;;
            tf_set p TF_epc entry ;;;
            tf_set p TF_sp sp ;;;
            proc_freepagetable oldpagetable oldsz ;;;
            ret argc
    end.

Definition kexec (path : list Z) (argv : list kstring) : K Z :=
  p <- curproc ;;
  begin_op ;;;
  o <- namei path ;;
  match o with
  | None => end_op ;;; ret (-1)
  | Some ip =>
      ilock ip ;;;
      r <- readi ip DLocal 0 ELFHDR_SIZE ;;
      if negb (r.1 =? ELFHDR_SIZE) then kexec_bad 0 0 (Some ip)
      else
        let elf := elf_of_bytes r.2 in
        if negb (elf_magic elf =? ELF_MAGIC) then kexec_bad 0 0 (Some ip)
        else
          pagetable <- proc_pagetable p ;;
          if pagetable =? 0 then kexec_bad 0 0 (Some ip)
          else
            r <- loop (S (Z.to_nat (elf_phnum elf))) (load_step ip pagetable (elf_phnum elf))
                   (0, i32 (elf_phoff elf), 0) ;;
            if negb r.1 then kexec_bad pagetable r.2 (Some ip)
            else
              iunlockput ip ;;;
              end_op ;;;
              kexec_start path argv pagetable r.2 (elf_entry elf)
  end.
End Exec.
