(* ===== verification/Sysfile.v ===== *)
(** * File-system calls ([kernel/sysfile.c]) *)

From S2P Require Import Prelude Machine KState Spinlock Kalloc Swap Walk FrameTable Vm Sched Strings.
From S2P Require Import Bio Log Fs Console Pipe File Proc Sysarg Exec.
Local Open Scope Z_scope.
Local Open Scope kern_scope.

(** Open modes (fcntl.h). *)
Abbreviation O_RDONLY := 0%Z.
Abbreviation O_WRONLY := 1%Z.
Abbreviation O_RDWR := 2%Z.
Abbreviation O_CREATE := 0x200%Z.
Abbreviation O_TRUNC := 0x400%Z.

(** The strings "." and "..", with their NULs. *)
Definition dot : list Z := [46; 0].
Definition dotdot : list Z := [46; 46; 0].

Section Sysfile.
Context `{KernelImage} `{SleepFuel} `{BlockDev}.

(** The descriptor and its file; [None] is the result -1. *)
Definition argfd (n : Z) : K (option (nat * nat)) :=
  fd <- argint n ;;
  if (fd <? 0) || (Z.of_nat NOFILE <=? fd) then ret None
  else
    p <- curproc ;;
    pr <- getproc p ;;
    match p_ofile pr !!! Z.to_nat fd with
    | Some f => ret (Some (Z.to_nat fd, f))
    | None => ret None
    end.

Definition fdalloc (f : nat) : K (option nat) :=
  p <- curproc ;;
  for_find (seq 0 NOFILE) (fun fd =>
    pr <- getproc p ;;
    match p_ofile pr !!! fd with
    | None =>
        updproc p (fun q => set_p_ofile (<[fd := Some f]> (p_ofile q)) q) ;;;
        ret (Some fd)
    | Some _ => ret None
    end).

(** [p->ofile[fd] = 0] *)
Definition fdclear (fd : nat) : K unit :=
  p <- curproc ;;
  updproc p (fun q => set_p_ofile (<[fd := None]> (p_ofile q)) q).

Definition sys_dup : K Z :=
  a <- argfd 0 ;;
  match a with
  | None => ret (-1)
  | Some (_, f) =>
      o <- fdalloc f ;;
      match o with
      | None => ret (-1)
      | Some fd => filedup f ;;; ret (Z.of_nat fd)
      end
  end.

Definition sys_read : K Z :=
  p <- argaddr 1 ;;
  n <- argint 2 ;;
  a <- argfd 0 ;;
  match a with
  | None => ret (-1)
  | Some (_, f) => fileread f p n
  end.

Definition sys_write : K Z :=
  p <- argaddr 1 ;;
  n <- argint 2 ;;
  a <- argfd 0 ;;
  match a with
  | None => ret (-1)
  | Some (_, f) => filewrite f p n
  end.

Definition sys_close : K Z :=
  a <- argfd 0 ;;
  match a with
  | None => ret (-1)
  | Some (fd, f) =>
      fdclear fd ;;;
      fileclose f ;;;
      ret 0
  end.

Definition sys_fstat : K Z :=
  st <- argaddr 1 ;;
  a <- argfd 0 ;;
  match a with
  | None => ret (-1)
  | Some (_, f) => filestat f st
  end.

(** The label [bad] of [sys_link]. *)
Definition link_bad (ip : nat) : K Z :=
  ilock ip ;;;
  updinode ip (fun x => set_i_nlink (i16 (i_nlink x - 1)) x) ;;;
  iupdate ip ;;;
  iunlockput ip ;;;
  end_op ;;;
  ret (-1).

Definition sys_link : K Z :=
  old <- argstr 0 MAXPATH ;;
  if old.1 <? 0 then ret (-1)
  else
    new <- argstr 1 MAXPATH ;;
    if new.1 <? 0 then ret (-1)
    else
      begin_op ;;;
      o <- namei old.2 ;;
      match o with
      | None => end_op ;;; ret (-1)
      | Some ip =>
          ilock ip ;;;
          x <- getinode ip ;;
          if i_type x =? T_DIR then
            iunlockput ip ;;;
            end_op ;;;
            ret (-1)
          else
            updinode ip (fun x => set_i_nlink (i16 (i_nlink x + 1)) x) ;;;
            iupdate ip ;;;
            iunlock ip ;;;
            d <- nameiparent new.2 (zeros 14) ;;
            match d with
            | (None, _) => link_bad ip
            | (Some dp, name) =>
                ilock dp ;;;
                dx <- getinode dp ;;
                x <- getinode ip ;;
                r <- (if negb (i_dev dx =? i_dev x) then ret (-1)
                      else dirlink dp name (i_inum x)) ;;
                if r <? 0 then
                  iunlockput dp ;;;
                  link_bad ip
                else
                  iunlockput dp ;;;
                  iput ip ;;;
                  end_op ;;;
                  ret 0
            end
      end.

Definition isdirempty_step (dp : nat) (off : Z) : K (Z + bool) :=
  x <- getinode dp ;;
  if negb (off <? i_size x) then ret (inr true)
  else
    de <- readi dp DLocal off DIRENT_SIZE ;;
    if negb (de.1 =? DIRENT_SIZE) then panic "isdirempty: readi"
    else if negb (de_inum (dirent_of_bytes de.2) =? 0) then ret (inr false)
    else ret (inl (off + DIRENT_SIZE)).

Definition isdirempty (dp : nat) : K bool :=
  x <- getinode dp ;;
  loop (S (Z.to_nat (i_size x))) (isdirempty_step dp) (2 * DIRENT_SIZE).

(** The label [bad] of [sys_unlink]. *)
Definition unlink_bad (dp : nat) : K Z :=
  iunlockput dp ;;;
  end_op ;;;
  ret (-1).

Definition unlink_entry (dp ip : nat) (off : Z) : K Z :=
  r <- writei dp (SLocal (zeros 16)) off DIRENT_SIZE ;;
  if negb (r =? DIRENT_SIZE) then panic "unlink: writei"
  else
    x <- getinode ip ;;
    (if i_type x =? T_DIR then
       updinode dp (fun d => set_i_nlink (i16 (i_nlink d - 1)) d) ;;;
       iupdate dp
     else ret tt) ;;;
    iunlockput dp ;;;
    updinode ip (fun x => set_i_nlink (i16 (i_nlink x - 1)) x) ;;;
    iupdate ip ;;;
    iunlockput ip ;;;
    end_op ;;;
    ret 0.

Definition sys_unlink : K Z :=
  path <- argstr 0 MAXPATH ;;
  if path.1 <? 0 then ret (-1)
  else
    begin_op ;;;
    d <- nameiparent path.2 (zeros 14) ;;
    match d with
    | (None, _) => end_op ;;; ret (-1)
    | (Some dp, name) =>
        ilock dp ;;;
        if (namecmp name dot =? 0) || (namecmp name dotdot =? 0) then unlink_bad dp
        else
          o <- dirlookup dp name ;;
          match o with
          | None => unlink_bad dp
          | Some (ip, off) =>
              ilock ip ;;;
              x <- getinode ip ;;
              if i_nlink x <? 1 then panic "unlink: nlink < 1"
              else
                full <- (if i_type x =? T_DIR then e <- isdirempty ip ;; ret (negb e)
                         else ret false) ;;
                if full : bool then
                  iunlockput ip ;;;
                  unlink_bad dp
                else unlink_entry dp ip off
          end
    end.

(** [create] after a new inode was allocated; the label [fail]. *)
Definition create_fail (dp ip : nat) : K (option nat) :=
  updinode ip (set_i_nlink 0) ;;;
  iupdate ip ;;;
  iunlockput ip ;;;
  iunlockput dp ;;;
  ret None.

Definition create_new (dp ip : nat) (name : list Z) (type major minor : Z) : K (option nat) :=
  ilock ip ;;;
  updinode ip (fun x => set_i_nlink 1 (set_i_minor minor (set_i_major major x))) ;;;
  iupdate ip ;;;
  x <- getinode ip ;;
  r <- (if type =? T_DIR then
          r <- dirlink ip dot (i_inum x) ;;
          if r <? 0 then ret r
          else
            d <- getinode dp ;;
            dirlink ip dotdot (i_inum d)
        else ret 0) ;;
  if r <? 0 then create_fail dp ip
  else
    r <- dirlink dp name (i_inum x) ;;
    if r <? 0 then create_fail dp ip
    else
      (if type =? T_DIR then
         updinode dp (fun d => set_i_nlink (i16 (i_nlink d + 1)) d) ;;;
         iupdate dp
       else ret tt) ;;;
      iunlockput dp ;;;
      ret (Some ip).

Definition create (path : list Z) (type major minor : Z) : K (option nat) :=
  d <- nameiparent path (zeros 14) ;;
  match d with
  | (None, _) => ret None
  | (Some dp, name) =>
      ilock dp ;;;
      o <- dirlookup dp name ;;
      match o with
      | Some (ip, _) =>
          iunlockput dp ;;;
          ilock ip ;;;
          x <- getinode ip ;;
          if (type =? T_FILE) && ((i_type x =? T_FILE) || (i_type x =? T_DEVICE)) then ret (Some ip)
          else
            iunlockput ip ;;;
            ret None
      | None =>
          dx <- getinode dp ;;
          o <- ialloc (i_dev dx) type ;;
          match o with
          | None => iunlockput dp ;;; ret None
          | Some ip => create_new dp ip name type major minor
          end
      end
  end.

(** The exits of [sys_open] that release the inode. *)
Definition open_fail (ip : nat) : K Z :=
  iunlockput ip ;;;
  end_op ;;;
  ret (-1).

(** [sys_open] with the inode at hand: file structure and descriptor. *)
Definition open_inode (ip : nat) (omode : Z) : K Z :=
  x <- getinode ip ;;
  if (i_type x =? T_DEVICE) && ((i_major x <? 0) || (NDEV <=? i_major x)) then open_fail ip
  else
    o <- filealloc ;;
    match o with
    | None => open_fail ip
    | Some f =>
        o <- fdalloc f ;;
        match o with
        | None => fileclose f ;;; open_fail ip
        | Some fd =>
            (if i_type x =? T_DEVICE then
               updfile f (fun y => set_f_major (i_major x) (set_f_type FD_DEVICE y))
             else updfile f (fun y => set_f_off 0 (set_f_type FD_INODE y))) ;;;
            updfile f (fun y =>
              set_f_writable (zb (nz (Z.land omode O_WRONLY) || nz (Z.land omode O_RDWR)))
                (set_f_readable (zb (negb (nz (Z.land omode O_WRONLY)))) (set_f_ip (Some ip) y))) ;;;
            (if nz (Z.land omode O_TRUNC) && (i_type x =? T_FILE) then itrunc ip else ret tt) ;;;
            iunlock ip ;;;
            end_op ;;;
            ret (Z.of_nat fd)
        end
    end.

Definition sys_open : K Z :=
  omode <- argint 1 ;;
  path <- argstr 0 MAXPATH ;;
  if path.1 <? 0 then ret (-1)
  else
    begin_op ;;;
    if nz (Z.land omode O_CREATE) then
      o <- create path.2 T_FILE 0 0 ;;
      match o with
      | None => end_op ;;; ret (-1)
      | Some ip => open_inode ip omode
      end
    else
      o <- namei path.2 ;;
      match o with
      | None => end_op ;;; ret (-1)
      | Some ip =>
          ilock ip ;;;
          x <- getinode ip ;;
          if (i_type x =? T_DIR) && negb (omode =? O_RDONLY) then open_fail ip
          else open_inode ip omode
      end.

Definition sys_mkdir : K Z :=
  begin_op ;;;
  path <- argstr 0 MAXPATH ;;
  o <- (if path.1 <? 0 then ret None else create path.2 T_DIR 0 0) ;;
  match o with
  | None => end_op ;;; ret (-1)
  | Some ip =>
      iunlockput ip ;;;
      end_op ;;;
      ret 0
  end.

Definition sys_mknod : K Z :=
  begin_op ;;;
  major <- argint 1 ;;
  minor <- argint 2 ;;
  path <- argstr 0 MAXPATH ;;
  o <- (if path.1 <? 0 then ret None else create path.2 T_DEVICE (i16 major) (i16 minor)) ;;
  match o with
  | None => end_op ;;; ret (-1)
  | Some ip =>
      iunlockput ip ;;;
      end_op ;;;
      ret 0
  end.

Definition sys_chdir : K Z :=
  p <- curproc ;;
  begin_op ;;;
  path <- argstr 0 MAXPATH ;;
  o <- (if path.1 <? 0 then ret None else namei path.2) ;;
  match o with
  | None => end_op ;;; ret (-1)
  | Some ip =>
      ilock ip ;;;
      x <- getinode ip ;;
      if negb (i_type x =? T_DIR) then
        iunlockput ip ;;;
        end_op ;;;
        ret (-1)
      else
        iunlock ip ;;;
        pr <- getproc p ;;
        cwd <- deref (p_cwd pr) "null inode pointer" ;;
        iput cwd ;;;
        end_op ;;;
        updproc p (set_p_cwd (Some ip)) ;;;
        ret 0
  end.

(** The loop that fetches the arguments of [exec]: the pages allocated so far,
    and whether it reached the terminating null pointer. *)
Definition exec_args_step (uargv : Z) (x : Z * list Z) : K (Z * list Z + list Z * bool) :=
  let '(i, argv) := x in
  if MAXARG <=? i then ret (inr (argv, false))
  else
    r <- fetchaddr (u64 (uargv + 8 * i)) ;;
    if r.1 <? 0 then ret (inr (argv, false))
    else if r.2 =? 0 then ret (inr (argv, true))
    else
      page <- kalloc ;;
      if page =? 0 then ret (inr (argv, false))
      else
        str <- fetchstr r.2 PGSIZE ;;
        if str.1 <? 0 then ret (inr (argv ++ [page], false))
        else
          kwrite page (str.2 ++ [0]) ;;;
          ret (inl (i + 1, argv ++ [page])).

Definition sys_exec : K Z :=
  uargv <- argaddr 1 ;;
  path <- argstr 0 MAXPATH ;;
  if path.1 <? 0 then ret (-1)
  else
    r <- loop (S (Z.to_nat MAXARG)) (exec_args_step uargv) (0, []) ;;
    v <- (if r.2 : bool then kexec path.2 (map Kaddr r.1) else ret (-1)) ;;
    for_each r.1 kfree ;;;
    ret v.

(** The failures of [sys_pipe] after the descriptors. *)
Definition pipe_fail (rf wf : nat) : K Z :=
  fileclose rf ;;;
  fileclose wf ;;;
  ret (-1).

Definition sys_pipe : K Z :=
  p <- curproc ;;
  fdarray <- argaddr 0 ;;
  o <- pipealloc ;;
  match o with
  | None => ret (-1)
  | Some (rf, wf) =>
      o <- fdalloc rf ;;
      match o with
      | None => pipe_fail rf wf
      | Some fd0 =>
          o <- fdalloc wf ;;
          match o with
          | None => fdclear fd0 ;;; pipe_fail rf wf
          | Some fd1 =>
              pr <- getproc p ;;
              r <- copyout (p_pagetable pr) fdarray (le_split 4 (Z.of_nat fd0)) ;;
              r <- (if r <? 0 then ret r
                    else copyout (p_pagetable pr) (u64 (fdarray + 4)) (le_split 4 (Z.of_nat fd1))) ;;
              if r <? 0 then
                fdclear fd0 ;;;
                fdclear fd1 ;;;
                pipe_fail rf wf
              else ret 0
          end
      end
  end.
End Sysfile.
