(* ===== verification/Sysproc.v ===== *)
(** * Process-related calls ([kernel/sysproc.c], [kernel/Vmstats.h]) *)

From S2P Require Import Prelude Machine KState Spinlock Kalloc Swap Walk FrameTable Vm Sched Strings.
From S2P Require Import Printf Print Bio Log Fs Console Pipe File Proc Sysarg.
Local Open Scope Z_scope.
Local Open Scope kern_scope.

Abbreviation SBRK_EAGER := 1%Z.
Abbreviation SBRK_LAZY := 2%Z.

(** Results are [uint64]: -1 stands for its conversion. *)
Section Sysproc.
Context `{KernelImage} `{SleepFuel} `{BlockDev}.

Definition sys_exit : K Z :=
  n <- argint 0 ;;
  kexit n ;;;
  ret 0.

Definition sys_getpid : K Z :=
  p <- curproc ;;
  pr <- getproc p ;;
  ret (p_pid pr).

Definition sys_fork : K Z := kfork.

Definition sys_wait : K Z :=
  p <- argaddr 0 ;;
  kwait p.

Definition sys_sbrk : K Z :=
  n <- argint 0 ;;
  t <- argint 1 ;;
  p <- curproc ;;
  pr <- getproc p ;;
  let addr := p_sz pr in
  if (t =? SBRK_EAGER) || (n <? 0) then
    r <- growproc n ;;
    if r <? 0 then ret (-1) else ret addr
  else if u64 (addr + n) <? addr then ret (-1)
  else if TRAPFRAME <? u64 (addr + n) then ret (-1)
  else
    updproc p (fun q => set_p_sz (u64 (p_sz q + n)) q) ;;;
    ret addr.

Definition pause_step (ticks0 n : Z) (_ : unit) : K (unit + Z) :=
  ticks <- gets k_ticks ;;
  if u32 (ticks - ticks0) <? u32 n then
    p <- curproc ;;
    k <- killed p ;;
    if nz k then
      release Ltickslock ;;;
      ret (inr (-1))
    else
      sleep ChTicks Ltickslock ;;;
      ret (inl tt)
  else
    release Ltickslock ;;;
    ret (inr 0).

Definition sys_pause : K Z :=
  n <- argint 0 ;;
  let n := if n <? 0 then 0 else n in
  acquire Ltickslock ;;;
  ticks0 <- gets k_ticks ;;
  loop (S sleep_fuel) (pause_step ticks0 n) tt.

Definition sys_kill : K Z :=
  pid <- argint 0 ;;
  kkill pid.

Definition sys_uptime : K Z :=
  acquire Ltickslock ;;;
  xticks <- gets k_ticks ;;
  release Ltickslock ;;;
  ret xticks.

Definition sys_hello : K Z :=
  printf ("Hello from the kernel!" ++ newline) [] ;;;
  ret 0.

Definition sys_getpid2 : K Z :=
  p <- curproc ;;
  pr <- getproc p ;;
  ret (p_pid pr).

Definition sys_getppid : K Z :=
  p <- curproc ;;
  pr <- getproc p ;;
  match p_parent pr with
  | Some parent => q <- getproc parent ;; ret (p_pid q)
  | None => ret (-1)
  end.

(** The count over the entries [l] of the table. *)
Fixpoint count_children (cur : nat) (l : list nat) (cnt : Z) : K Z :=
  match l with
  | [] => ret cnt
  | i :: l =>
      acquire (Lproc i) ;;;
      p <- getproc i ;;
      let mine := bool_decide (p_parent p = Some cur) && negb (bool_decide (p_state p = ZOMBIE)) &&
                  negb (bool_decide (p_state p = UNUSED)) in
      release (Lproc i) ;;;
      count_children cur l (if mine then cnt + 1 else cnt)
  end.

Definition sys_getnumchild : K Z :=
  cur <- curproc ;;
  count_children cur (seq 0 NPROC) 0.

Definition sys_getsyscount : K Z :=
  cur <- curproc ;;
  p <- getproc cur ;;
  ret (p_syscount p).

Definition sys_getchildsyscount : K Z :=
  pid <- argint 0 ;;
  cur <- curproc ;;
  o <- for_find (seq 0 NPROC) (fun i =>
         acquire (Lproc i) ;;;
         p <- getproc i ;;
         if bool_decide (p_parent p = Some cur) && (p_pid p =? pid) then
           release (Lproc i) ;;;
           ret (Some (p_syscount p))
         else
           release (Lproc i) ;;;
           ret None) ;;
  ret (default (-1) o).

Definition sys_getlevel : K Z :=
  cur <- curproc ;;
  p <- getproc cur ;;
  ret (p_mlfq_level p).

(** The search by pid, without locks. *)
Definition find_pid (pid : Z) : K (option nat) :=
  for_find (seq 0 NPROC) (fun i =>
    p <- getproc i ;;
    ret (if p_pid p =? pid then Some i else None)).

(** [struct mlfqinfo] in memory order. *)
Definition mlfqinfo_bytes (p : proc) : list Z :=
  concat (map (le_split 4)
    ([p_mlfq_level p] ++ take 4 (p_ticks_per_level p) ++ [p_times_scheduled p; p_syscount p])).

Definition sys_getmlfqinfo : K Z :=
  pid <- argint 0 ;;
  info_addr <- argaddr 1 ;;
  o <- find_pid pid ;;
  match o with
  | None => ret (-1)
  | Some target =>
      acquire (Lproc target) ;;;
      p <- getproc target ;;
      release (Lproc target) ;;;
      cur <- curproc ;;
      pr <- getproc cur ;;
      r <- copyout (p_pagetable pr) info_addr (mlfqinfo_bytes p) ;;
      if r <? 0 then ret (-1) else ret 0
  end.

(** [struct vmstats] in memory order. *)
Definition vmstats_bytes (p : proc) : list Z :=
  concat (map (le_split 4)
    [p_page_faults p; p_pages_evicted p; p_pages_swapped_in p; p_pages_swapped_out p;
     p_resident_pages p]).

Definition sys_getvmstats : K Z :=
  pid <- argint 0 ;;
  info_addr <- argaddr 1 ;;
  o <- find_pid pid ;;
  match o with
  | None => ret (-1)
  | Some target =>
      p <- getproc target ;;
      cur <- curproc ;;
      pr <- getproc cur ;;
      r <- copyout (p_pagetable pr) info_addr (vmstats_bytes p) ;;
      if r <? 0 then ret (-1) else ret 0
  end.
End Sysproc.
