(* ===== verification/Virtio.v ===== *)
(** * The disk driver ([kernel/virtio_disk.c], [kernel/virtio.h])

    The driver proper, with its descriptor table, the two rings it shares
    with the device and its own bookkeeping ([k_vdisk]). Stores to device
    registers are recorded in [h_mmio]; what a load from a register returns
    is the device's choice, an argument of [virtio_disk_init]. *)

From S2P Require Import Prelude Machine KState Spinlock Kalloc Sched Print Bio.
Local Open Scope Z_scope.
Local Open Scope kern_scope.

Abbreviation NUM := 8%nat.
Abbreviation VRING_DESC_F_NEXT := 1%Z.
Abbreviation VRING_DESC_F_WRITE := 2%Z.
Abbreviation VIRTIO_BLK_T_IN := 0%Z.
Abbreviation VIRTIO_BLK_T_OUT := 1%Z.

(** Offsets of the device's registers. *)
Abbreviation MMIO_MAGIC_VALUE := 0x000%Z.
Abbreviation MMIO_VERSION := 0x004%Z.
Abbreviation MMIO_DEVICE_ID := 0x008%Z.
Abbreviation MMIO_VENDOR_ID := 0x00c%Z.
Abbreviation MMIO_DEVICE_FEATURES := 0x010%Z.
Abbreviation MMIO_DRIVER_FEATURES := 0x020%Z.
Abbreviation MMIO_QUEUE_SEL := 0x030%Z.
Abbreviation MMIO_QUEUE_NUM_MAX := 0x034%Z.
Abbreviation MMIO_QUEUE_NUM := 0x038%Z.
Abbreviation MMIO_QUEUE_READY := 0x044%Z.
Abbreviation MMIO_QUEUE_NOTIFY := 0x050%Z.
Abbreviation MMIO_INTERRUPT_STATUS := 0x060%Z.
Abbreviation MMIO_INTERRUPT_ACK := 0x064%Z.
Abbreviation MMIO_STATUS := 0x070%Z.
Abbreviation MMIO_QUEUE_DESC_LOW := 0x080%Z.
Abbreviation MMIO_QUEUE_DESC_HIGH := 0x084%Z.
Abbreviation MMIO_DRIVER_DESC_LOW := 0x090%Z.
Abbreviation MMIO_DRIVER_DESC_HIGH := 0x094%Z.
Abbreviation MMIO_DEVICE_DESC_LOW := 0x0a0%Z.
Abbreviation MMIO_DEVICE_DESC_HIGH := 0x0a4%Z.

(** A store to a device register. *)
Definition vreg_write (r v : Z) : K unit := mmio_write (VIRTIO0 + r) v.

(** What the device answers to a load of a register, given the stores to
    device registers so far. *)
Class VirtioRegs : Type := vreg : list (Z * Z) -> Z -> Z.
Definition vreg_read `{VirtioRegs} (r : Z) : K Z := gets (fun s => vreg (h_mmio (k_hw s)) r).

Definition getvd {A} (f : vdisk -> A) : K A := gets (fun s => f (k_vdisk s)).
Definition updvd (f : vdisk -> vdisk) : K unit := modify (fun s => set_k_vdisk (f (k_vdisk s)) s).

(** [disk.desc[i] = d] *)
Definition set_desc (i : Z) (d : vdesc) : K unit :=
  updvd (fun v => set_v_desc (<[Z.to_nat i := d]> (v_desc v)) v).

Definition alloc_desc : K Z :=
  o <- for_find (seq 0 NUM) (fun i =>
         f <- getvd (fun v => v_free v !!! i) ;;
         if nz f then
           updvd (fun v => set_v_free (<[i := 0]> (v_free v)) v) ;;;
           ret (Some (Z.of_nat i))
         else ret None) ;;
  ret (default (-1) o).

Definition free_desc (i : Z) : K unit :=
  if Z.of_nat NUM <=? i then panic "free_desc 1"
  else
    f <- getvd (fun v => v_free v !!! Z.to_nat i) ;;
    if nz f then panic "free_desc 2"
    else
      set_desc i vdesc0 ;;;
      updvd (fun v => set_v_free (<[Z.to_nat i := 1]> (v_free v)) v) ;;;
      wakeup ChDiskFree.

(** The loop follows [next] at most once per descriptor: a second visit
    panics in [free_desc]. *)
Definition free_chain (i : Z) : K unit :=
  loop (S NUM) (fun i =>
    d <- getvd (fun v => v_desc v !!! Z.to_nat i) ;;
    free_desc i ;;;
    if nz (Z.land (vd_flags d) VRING_DESC_F_NEXT) then ret (inl (vd_next d))
    else ret (inr tt)) i.

(** The three descriptors, or [None] for -1. *)
Definition alloc3_desc : K (option (Z * Z * Z)) :=
  i0 <- alloc_desc ;;
  if i0 <? 0 then ret None
  else
    i1 <- alloc_desc ;;
    if i1 <? 0 then free_desc i0 ;;; ret None
    else
      i2 <- alloc_desc ;;
      if i2 <? 0 then free_desc i0 ;;; free_desc i1 ;;; ret None
      else ret (Some (i0, i1, i2)).

(** The request: header, data and status descriptor, the command header, and
    the bookkeeping for the interrupt handler. *)
Definition format_request (b : nat) (write : bool) (sector i0 i1 i2 : Z) : K unit :=
  updvd (fun v =>
    set_v_ops (<[Z.to_nat i0 := (if write then VIRTIO_BLK_T_OUT else VIRTIO_BLK_T_IN, sector)]> (v_ops v)) v) ;;;
  set_desc i0 (mkvdesc (DmaOp i0) 16 VRING_DESC_F_NEXT i1) ;;;
  set_desc i1 (mkvdesc (DmaData b) BSIZE
    (Z.lor (if write then 0 else VRING_DESC_F_WRITE) VRING_DESC_F_NEXT) i2) ;;;
  updvd (fun v => set_v_info_status (<[Z.to_nat i0 := 0xff]> (v_info_status v)) v) ;;;
  set_desc i2 (mkvdesc (DmaStatus i0) 1 VRING_DESC_F_WRITE 0) ;;;
  updbuf b (set_b_disk 1) ;;;
  updvd (fun v => set_v_info_b (<[Z.to_nat i0 := Some b]> (v_info_b v)) v) ;;;
  updvd (fun v => set_v_avail_ring (<[Z.to_nat (v_avail v mod Z.of_nat NUM) := i0]> (v_avail_ring v)) v) ;;;
  updvd (fun v => set_v_avail (u16 (v_avail v + 1)) v) ;;;
  vreg_write MMIO_QUEUE_NOTIFY 0.

(** The loop that waits for [virtio_disk_intr]. *)
Definition wait_done `{SleepFuel} (b : nat) : K unit :=
  loop (S sleep_fuel) (fun _ : unit =>
    x <- getbuf b ;;
    if b_disk x =? 1 then
      sleep (ChBuf b) Lvdisk_lock ;;;
      ret (inl tt)
    else ret (inr tt)) tt.

(** [virtio_disk_rw] *)
Definition disk_rw `{SleepFuel} (b : nat) (write : bool) : K unit :=
  x <- getbuf b ;;
  let sector := u32 (b_blockno x * (BSIZE / 512)) in
  acquire Lvdisk_lock ;;;
  idx <- loop (S sleep_fuel) (fun _ : unit =>
           o <- alloc3_desc ;;
           match o with
           | Some idx => ret (inr idx)
           | None =>
               sleep ChDiskFree Lvdisk_lock ;;;
               ret (inl tt)
           end) tt ;;
  let '(i0, i1, i2) := idx in
  format_request b write sector i0 i1 i2 ;;;
  wait_done b ;;;
  updvd (fun v => set_v_info_b (<[Z.to_nat i0 := None]> (v_info_b v)) v) ;;;
  free_chain i0 ;;;
  release Lvdisk_lock.

(** One completed request of the used ring. *)
Definition intr_step (_ : unit) : K (unit + unit) :=
  v <- getvd id ;;
  if v_used_idx v =? v_used v then ret (inr tt)
  else
    let id := v_used_ring v !!! Z.to_nat (v_used_idx v mod Z.of_nat NUM) in
    if nz (v_info_status v !!! Z.to_nat id) then panic "virtio_disk_intr status"
    else
      match v_info_b v !!! Z.to_nat id with
      | None => panic "null buffer pointer"
      | Some b =>
          updbuf b (set_b_disk 0) ;;;
          wakeup (ChBuf b) ;;;
          updvd (fun v => set_v_used_idx (u16 (v_used_idx v + 1)) v) ;;;
          ret (inl tt)
      end.

Definition virtio_disk_intr `{VirtioRegs} : K unit :=
  acquire Lvdisk_lock ;;;
  st <- vreg_read MMIO_INTERRUPT_STATUS ;;
  vreg_write MMIO_INTERRUPT_ACK (Z.land st 3) ;;;
  n <- getvd (fun v => u16 (v_used v - v_used_idx v)) ;;
  loop (S (Z.to_nat n)) intr_step tt ;;;
  release Lvdisk_lock.

(* ------------------------------------------------------------------ *)
(** ** Initialisation *)

(** The features the driver accepts. *)
Definition mask_features (features : Z) : Z :=
  foldl (fun f bit => Z.land f (Z.lnot (Z.shiftl 1 bit))) features [5; 7; 11; 12; 27; 29; 28].

Definition queue_addr (low high pa : Z) : K unit :=
  vreg_write low pa ;;;
  vreg_write high (Z.shiftr pa 32).

Section Init.
Context `{KernelImage} `{VirtioRegs}.

Definition queue_setup (status : Z) : K unit :=
  desc <- kalloc ;;
  avail <- kalloc ;;
  used <- kalloc ;;
  updvd (fun v => set_v_used_pa used (set_v_avail_pa avail (set_v_desc_pa desc v))) ;;;
  if (desc =? 0) || (avail =? 0) || (used =? 0) then panic "virtio disk kalloc"
  else
    updvd (fun v => set_v_used_ring (zeros NUM) (set_v_used 0 (set_v_avail_ring (zeros NUM)
      (set_v_avail 0 (set_v_desc (replicate NUM vdesc0) v))))) ;;;
    kmemset desc 0 PGSIZE ;;;
    kmemset avail 0 PGSIZE ;;;
    kmemset used 0 PGSIZE ;;;
    vreg_write MMIO_QUEUE_NUM (Z.of_nat NUM) ;;;
    queue_addr MMIO_QUEUE_DESC_LOW MMIO_QUEUE_DESC_HIGH desc ;;;
    queue_addr MMIO_DRIVER_DESC_LOW MMIO_DRIVER_DESC_HIGH avail ;;;
    queue_addr MMIO_DEVICE_DESC_LOW MMIO_DEVICE_DESC_HIGH used ;;;
    vreg_write MMIO_QUEUE_READY 1 ;;;
    updvd (set_v_free (replicate NUM 1)) ;;;
    vreg_write MMIO_STATUS (Z.lor status 4).

Definition virtio_disk_init : K unit :=
  initlock Lvdisk_lock ;;;
  magic <- vreg_read MMIO_MAGIC_VALUE ;;
  version <- vreg_read MMIO_VERSION ;;
  device <- vreg_read MMIO_DEVICE_ID ;;
  vendor <- vreg_read MMIO_VENDOR_ID ;;
  if negb (magic =? 0x74726976) || negb (version =? 2) || negb (device =? 2) ||
     negb (vendor =? 0x554d4551) then panic "could not find virtio disk"
  else
    vreg_write MMIO_STATUS 0 ;;;
    vreg_write MMIO_STATUS 1 ;;;
    vreg_write MMIO_STATUS 3 ;;;
    features <- vreg_read MMIO_DEVICE_FEATURES ;;
    vreg_write MMIO_DRIVER_FEATURES (mask_features features) ;;;
    vreg_write MMIO_STATUS 11 ;;;
    status <- vreg_read MMIO_STATUS ;;
    if negb (nz (Z.land status 8)) then panic "virtio disk FEATURES_OK unset"
    else
      vreg_write MMIO_QUEUE_SEL 0 ;;;
      ready <- vreg_read MMIO_QUEUE_READY ;;
      if nz ready then panic "virtio disk should not be ready"
      else
        max <- vreg_read MMIO_QUEUE_NUM_MAX ;;
        if max =? 0 then panic "virtio disk has no queue 0"
        else if max <? Z.of_nat NUM then panic "virtio disk max queue too short"
        else queue_setup status.
End Init.
