(* ===== verification/Trap.v ===== *)
(** * Traps, system-call dispatch and start-up ([kernel/trap.c],
    [kernel/syscall.c], [kernel/plic.c], [kernel/main.c]; [forkret] of
    [kernel/proc.c])

    A trap handler runs on the registers of [k_hw]. The multi-level feedback
    queue's accounting is done here, on timer interrupts. *)

From S2P Require Import Prelude Machine KState Spinlock Kalloc Swap Walk FrameTable Vm Sched Strings.
From S2P Require Import Printf Print Bio Log Fs Console Pipe File Proc Sysarg Exec Sysfile Sysproc Virtio.
Local Open Scope Z_scope.
Local Open Scope kern_scope.

(* ------------------------------------------------------------------ *)
(** ** Registers and the interrupt controller *)

Definition gethw {A} (f : hw -> A) : K A := gets (fun s => f (k_hw s)).
Definition updhw (f : hw -> hw) : K unit := modify (fun s => set_k_hw (f (k_hw s)) s).

Definition cpuid : K Z := gethw (fun h => i32 (h_tp h)).

Abbreviation UART0_IRQ := 10%Z.
Abbreviation VIRTIO0_IRQ := 1%Z.
Definition PLIC_SENABLE (hart : Z) : Z := PLIC + 0x2080 + hart * 0x100.
Definition PLIC_SPRIORITY (hart : Z) : Z := PLIC + 0x201000 + hart * 0x2000.
Definition PLIC_SCLAIM (hart : Z) : Z := PLIC + 0x201004 + hart * 0x2000.

Definition plicinit : K unit :=
  mmio_write (PLIC + UART0_IRQ * 4) 1 ;;;
  mmio_write (PLIC + VIRTIO0_IRQ * 4) 1.

Definition plicinithart : K unit :=
  hart <- cpuid ;;
  mmio_write (PLIC_SENABLE hart) (Z.lor (Z.shiftl 1 UART0_IRQ) (Z.shiftl 1 VIRTIO0_IRQ)) ;;;
  mmio_write (PLIC_SPRIORITY hart) 0.

(** The load of [PLIC_SCLAIM] claims the pending interrupt [h_irq]. *)
Definition plic_claim : K Z :=
  irq <- gethw h_irq ;;
  updhw (set_h_irq 0) ;;;
  ret (i32 irq).

Definition plic_complete (irq : Z) : K unit :=
  hart <- cpuid ;;
  mmio_write (PLIC_SCLAIM hart) irq.

(* ------------------------------------------------------------------ *)
(** ** The clock and the feedback queue *)

Definition get_quantum (level : Z) : Z :=
  if (0 <=? level) && (level <? 4) then [2; 4; 8; 16] !!! Z.to_nat level else 16.

(** [p->ticks_at_level++; p->ticks_per_level[p->mlfq_level]++] *)
Definition mlfq_charge (p : proc) : proc :=
  set_p_ticks_per_level (alter (Z.add 1) (Z.to_nat (p_mlfq_level p)) (p_ticks_per_level p))
    (set_p_ticks_at_level (p_ticks_at_level p + 1) p).

Definition mlfq_expired (p : proc) : bool := get_quantum (p_mlfq_level p) <=? p_ticks_at_level p.

(** The end of a time slice. *)
Definition mlfq_slice_end (p : proc) : proc :=
  let delta_s := p_syscount p - p_syscalls_at_level p in
  let delta_t := p_ticks_at_level p in
  set_p_ticks_at_level 0
    (if (delta_s <? delta_t) && (p_mlfq_level p <? 3) then set_p_mlfq_level (p_mlfq_level p + 1) p
     else p).

(** The part of [usertrap] that runs on a timer interrupt. *)
Definition mlfq_tick (p : nat) : K unit :=
  updproc p mlfq_charge ;;;
  q <- getproc p ;;
  if mlfq_expired q then
    updproc p mlfq_slice_end ;;;
    yield
  else ret tt.

(** The global boost. *)
Definition mlfq_boost : K unit :=
  for_each (seq 0 NPROC) (fun i =>
    acquire (Lproc i) ;;;
    p <- getproc i ;;
    when (bool_decide (p_state p = RUNNABLE) || bool_decide (p_state p = RUNNING))
      (updproc i (fun p => set_p_ticks_at_level 0 (set_p_mlfq_level 0 p))) ;;;
    release (Lproc i)).

Definition clockintr : K unit :=
  id <- cpuid ;;
  (if id =? 0 then
     acquire Ltickslock ;;;
     modify (fun s => set_k_ticks (u32 (k_ticks s + 1)) s) ;;;
     ticks <- gets k_ticks ;;
     let gboost := (0 <? ticks) && (ticks mod 128 =? 0) in
     wakeup ChTicks ;;;
     release Ltickslock ;;;
     when gboost mlfq_boost
   else ret tt) ;;;
  updhw (fun h => set_h_stimecmp (u64 (h_time h + 1000000)) h).

Definition trapinit : K unit := initlock Ltickslock.
Definition trapinithart `{KernelImage} : K unit := updhw (set_h_stvec kernelvec).

Section Trap.
Context `{KernelImage} `{SleepFuel} `{BlockDev} `{VirtioRegs}.

Definition devintr : K Z :=
  scause <- gethw h_scause ;;
  if scause =? 0x8000000000000009 then
    irq <- plic_claim ;;
    (if irq =? UART0_IRQ then uartintr
     else if irq =? VIRTIO0_IRQ then virtio_disk_intr
     else when (nz irq) (printf (nl "unexpected interrupt irq=%d") [ANum irq])) ;;;
    when (nz irq) (plic_complete irq) ;;;
    ret 1
  else if scause =? 0x8000000000000005 then
    clockintr ;;;
    ret 2
  else ret 0.

Definition prepare_return : K unit :=
  p <- curproc ;;
  intr_off ;;;
  updhw (set_h_stvec (TRAMPOLINE + (uservec - trampoline))) ;;;
  satp <- gethw h_satp ;;
  tf_set p TF_kernel_satp satp ;;;
  pr <- getproc p ;;
  tf_set p TF_kernel_sp (p_kstack pr + PGSIZE) ;;;
  tf_set p TF_kernel_trap usertrap_addr ;;;
  tp <- gethw h_tp ;;
  tf_set p TF_kernel_hartid tp ;;;
  updhw (fun h =>
    set_h_sstatus (Z.lor (Z.land (h_sstatus h) (Z.lnot SSTATUS_SPP)) SSTATUS_SPIE) h) ;;;
  epc <- tf_get p TF_epc ;;
  updhw (set_h_sepc epc).

(** The table [syscalls]. *)
Definition syscalls : list (option (K Z)) :=
  [None; Some sys_fork; Some sys_exit; Some sys_wait; Some sys_pipe; Some sys_read; Some sys_kill;
   Some sys_exec; Some sys_fstat; Some sys_chdir; Some sys_dup; Some sys_getpid; Some sys_sbrk;
   Some sys_pause; Some sys_uptime; Some sys_open; Some sys_write; Some sys_mknod;
   Some sys_unlink; Some sys_link; Some sys_mkdir; Some sys_close; Some sys_hello;
   Some sys_getpid2; Some sys_getppid; Some sys_getnumchild; Some sys_getsyscount;
   Some sys_getchildsyscount; Some sys_getlevel; Some sys_getmlfqinfo; Some sys_getvmstats].

Definition syscall : K unit :=
  p <- curproc ;;
  a7 <- tf_get p TF_a7 ;;
  let num := i32 a7 in
  match (if 0 <? num then syscalls !! Z.to_nat num else None) with
  | Some (Some f) =>
      updproc p (fun q => set_p_syscount (p_syscount q + 1) q) ;;;
      v <- f ;;
      tf_set p TF_a0 (u64 v)
  | _ =>
      pr <- getproc p ;;
      printf (nl "%d %s: unknown sys call %d")
        [ANum (p_pid pr); AStr (Some (cstr (p_name pr))); ANum num] ;;;
      tf_set p TF_a0 (u64 (-1))
  end.

(** The branches of [usertrap] on the cause: [which_dev]. *)
Definition usertrap_cause (p : nat) : K Z :=
  scause <- gethw h_scause ;;
  if scause =? 8 then
    k <- killed p ;;
    when (nz k) (kexit (-1)) ;;;
    epc <- tf_get p TF_epc ;;
    tf_set p TF_epc (u64 (epc + 4)) ;;;
    intr_on ;;;
    syscall ;;;
    ret 0
  else
    which_dev <- devintr ;;
    if negb (which_dev =? 0) then ret which_dev
    else
      stval <- gethw h_stval ;;
      (if (scause =? 13) || (scause =? 15) then
         pr <- getproc p ;;
         r <- vmfault (p_pagetable pr) stval (scause =? 13) ;;
         when (r =? 0) (setkilled p)
       else
         pr <- getproc p ;;
         sepc <- gethw h_sepc ;;
         printf (nl "usertrap(): unexpected scause 0x%lx pid=%d") [ANum scause; ANum (p_pid pr)] ;;;
         printf (nl "            sepc=0x%lx stval=0x%lx") [ANum sepc; ANum stval] ;;;
         setkilled p) ;;;
      ret 0.

Definition usertrap : K Z :=
  sstatus <- gethw h_sstatus ;;
  if nz (Z.land sstatus SSTATUS_SPP) then panic "usertrap: not from user mode"
  else
    updhw (set_h_stvec kernelvec) ;;;
    p <- curproc ;;
    sepc <- gethw h_sepc ;;
    tf_set p TF_epc sepc ;;;
    which_dev <- usertrap_cause p ;;
    k <- killed p ;;
    when (nz k) (kexit (-1)) ;;;
    when (which_dev =? 2) (mlfq_tick p) ;;;
    prepare_return ;;;
    pr <- getproc p ;;
    ret (MAKE_SATP (p_pagetable pr)).

Definition kerneltrap : K unit :=
  sepc <- gethw h_sepc ;;
  sstatus <- gethw h_sstatus ;;
  scause <- gethw h_scause ;;
  if Z.land sstatus SSTATUS_SPP =? 0 then panic "kerneltrap: not from supervisor mode"
  else
    i <- intr_get ;;
    if i then panic "kerneltrap: interrupts enabled"
    else
      which_dev <- devintr ;;
      if which_dev =? 0 then
        stval <- gethw h_stval ;;
        printf (nl "scause=0x%lx sepc=0x%lx stval=0x%lx") [ANum scause; ANum sepc; ANum stval] ;;;
        panic "kerneltrap"
      else
        cur <- myproc ;;
        when ((which_dev =? 2) && negb (bool_decide (cur = None))) yield ;;;
        updhw (set_h_sepc sepc) ;;;
        updhw (set_h_sstatus sstatus).

(** The path of the first program. *)
Definition init_path : list Z := chr "/init".

(** The value handed to [userret] in trampoline.S. *)
Definition forkret : K Z :=
  p <- curproc ;;
  release (Lproc p) ;;;
  first <- gets k_first ;;
  (if nz first then
     fsinit ROOTDEV ;;;
     modify (set_k_first 0) ;;;
     argc <- kexec init_path [Klit init_path] ;;
     tf_set p TF_a0 (u64 argc) ;;;
     a0 <- tf_get p TF_a0 ;;
     if a0 =? u64 (-1) then panic "exec" else ret tt
   else ret tt) ;;;
  prepare_return ;;;
  pr <- getproc p ;;
  ret (MAKE_SATP (p_pagetable pr)).

(** [main] on hart 0, and on a hart that found [started] set. [rounds] bounds
    the scheduler's loop. *)
Definition main (rounds : nat) : K unit :=
  id <- cpuid ;;
  (if id =? 0 then
     consoleinit ;;;
     initlock Lpr ;;;
     printf (nl "") [] ;;;
     printf (nl "xv6 kernel is booting") [] ;;;
     printf (nl "") [] ;;;
     kinit ;;;
     frametable_init ;;;
     swap_init ;;;
     kvminit ;;;
     kvminithart ;;;
     procinit ;;;
     trapinit ;;;
     trapinithart ;;;
     plicinit ;;;
     plicinithart ;;;
     binit ;;;
     iinit ;;;
     fileinit ;;;
     virtio_disk_init ;;;
     userinit ;;;
     modify (set_k_started 1)
   else
     started <- gets k_started ;;
     if started =? 0 then fun _ => Spin
     else
       printf (nl "hart %d starting") [ANum id] ;;;
       kvminithart ;;;
       trapinithart ;;;
       plicinithart) ;;;
  scheduler rounds.
End Trap.
