(* ===== verification/Mlfq.v ===== *)
(** * The multi-level feedback queue ([kernel/trap.c], [kernel/proc.c])

    What the accounting on timer ticks, the periodic boost and the scheduler's
    loop over the levels add up to. *)

From S2P Require Import Prelude Machine KState Spinlock Kalloc Swap Walk FrameTable Vm Sched Strings.
From S2P Require Import Printf Print Bio Log Fs Console Pipe File Proc Sysarg Exec Sysfile Sysproc Virtio Trap.
Local Open Scope Z_scope.
Local Open Scope kern_scope.

(* ------------------------------------------------------------------ *)
(** ** Ticks *)

(** What a timer tick does to the entry of the running process. *)
Definition mlfq_next (x : proc) : proc :=
  if mlfq_expired (mlfq_charge x) then mlfq_slice_end (mlfq_charge x) else mlfq_charge x.

Lemma mlfq_tick_eq s p x :
  k_proc s !! p = Some x -> k_cur s = Some p -> k_held s = [] ->
  if mlfq_expired (mlfq_charge x)
  then exists k, mlfq_tick p s =
    Swtch (set_k_held [Lproc p] (set_k_proc (<[p := set_p_state RUNNABLE (mlfq_next x)]> (k_proc s)) s)) k
  else mlfq_tick p s = Done tt (set_k_proc (<[p := mlfq_next x]> (k_proc s)) s).
Proof.
  intros Hx Hc Hh. unfold mlfq_next, mlfq_tick, updproc, getproc.
  assert (p < length (k_proc s))%nat as Hp by (by eapply lookup_lt_Some).
  assert (alter mlfq_charge p (k_proc s) = <[p := mlfq_charge x]> (k_proc s)) as Ea.
  { apply list_eq. intros i. rewrite list_lookup_alter, list_lookup_insert.
    destruct (decide (p = i)) as [->|Hne]; [|by rewrite decide_False by naive_solver].
    rewrite Hx, decide_True by done. done. }
  rewrite bind_modify, bind_gets. ksimp. rewrite Ea, list_lookup_total_insert_eq by done.
  destruct (mlfq_expired (mlfq_charge x)); [|done]. eexists. rewrite bind_modify. ksimp.
  unfold yield. rewrite (bind_curproc p) by done. rewrite bind_acquire by (ksimp; rewrite Hh; set_solver).
  unfold updproc. rewrite bind_modify. ksimp. rewrite Hh, !list_insert_alter, !list_alter_alter_eq.
  erewrite (bind_sched p); [|done|done|].
  - unfold compose. done.
  - ksimp. rewrite list_lookup_total_alter_eq by done. done.
Qed.

(** Iterated ticks without system calls: level, ticks and totals per level. *)
Definition bound_level (n : Z) : Z := if n <? 2 then 0 else if n <? 6 then 1 else if n <? 14 then 2 else 3.
Definition bound_ticks (n : Z) : Z :=
  if n <? 2 then n else if n <? 6 then n - 2 else if n <? 14 then n - 6 else (n - 14) mod 16.
Definition bound_totals (n : Z) : list Z :=
  [Z.min n 2; Z.max 0 (Z.min 4 (n - 2)); Z.max 0 (Z.min 8 (n - 6)); Z.max 0 (n - 14)].

Record cpu_bound (n : Z) (x : proc) : Prop := {
  cb_level : p_mlfq_level x = bound_level n;
  cb_ticks : p_ticks_at_level x = bound_ticks n;
  cb_totals : p_ticks_per_level x = bound_totals n;
  cb_idle : p_syscount x <= p_syscalls_at_level x
}.

Lemma bound_cases n : 0 <= n ->
  let l := bound_level n in let t := bound_ticks n in
  0 <= l <= 3 /\
  (if get_quantum l <=? t + 1
   then bound_level (n + 1) = (if l <? 3 then l + 1 else l) /\ bound_ticks (n + 1) = 0
   else bound_level (n + 1) = l /\ bound_ticks (n + 1) = t + 1).
Proof.
  intros Hn. unfold bound_level, bound_ticks.
  destruct (Z.ltb_spec n 2), (Z.ltb_spec n 6), (Z.ltb_spec n 14), (Z.ltb_spec (n + 1) 2), (Z.ltb_spec (n + 1) 6),
    (Z.ltb_spec (n + 1) 14); try lia;
    change (get_quantum 0) with 2; change (get_quantum 1) with 4; change (get_quantum 2) with 8;
    change (get_quantum 3) with 16; cbn [Z.ltb Z.compare Pos.compare Pos.compare_cont];
    match goal with |- context [Z.leb ?a ?b] => destruct (Z.leb_spec a b) end; Z.div_mod_to_equations; lia.
Qed.

Lemma bound_totals_next n : 0 <= n ->
  alter (Z.add 1) (Z.to_nat (bound_level n)) (bound_totals n) = bound_totals (n + 1).
Proof.
  intros Hn. unfold bound_level, bound_totals.
  destruct (Z.ltb_spec n 2), (Z.ltb_spec n 6), (Z.ltb_spec n 14); try lia;
    [change (Z.to_nat 0) with 0%nat|change (Z.to_nat 1) with 1%nat|change (Z.to_nat 2) with 2%nat|change (Z.to_nat 3) with 3%nat];
    cbn [alter list_alter];
    repeat (apply f_equal2; [lia|]); done.
Qed.

Lemma cpu_bound_next n x : 0 <= n -> cpu_bound n x -> cpu_bound (n + 1) (mlfq_next x).
Proof.
  intros Hn [Hl Ht Hp Hi]. unfold mlfq_next. pose proof (bound_cases n Hn) as [Hr Hc].
  pose proof (bound_totals_next n Hn) as Htot.
  assert (mlfq_expired (mlfq_charge x) = (get_quantum (bound_level n) <=? bound_ticks n + 1)) as ->.
  { unfold mlfq_expired, mlfq_charge. ksimp. by rewrite Hl, Ht. }
  assert (0 <= bound_ticks n) as Hb.
  { unfold bound_ticks. repeat case_match; Z.div_mod_to_equations; lia. }
  destruct (get_quantum (bound_level n) <=? bound_ticks n + 1); destruct Hc as [Hc1 Hc2].
  - unfold mlfq_slice_end, mlfq_charge. ksimp. rewrite Hl, Ht, Hp.
    rewrite (proj2 (Z.ltb_lt (p_syscount x - p_syscalls_at_level x) _)) by lia. cbn [andb].
    destruct (bound_level n <? 3); split; ksimp; congruence || done.
  - unfold mlfq_charge. split; ksimp; congruence.
Qed.

(** C16: The feedback queue's accounting. A tick charges the running process;
    it runs on until its quantum (2, 4, 8 or 16 ticks) is used up and then gives
    up the CPU. A process that makes no system call during its slices is one
    level down after 2, 6 and 14 ticks and stays at level 3, where it yields
    every 16 ticks; every tick is counted at exactly one level. A process that
    made at least as many system calls in its slice as it used ticks is not
    demoted. *)
Theorem mlfq_accounting s p x :
  k_proc s !! p = Some x -> k_cur s = Some p -> k_held s = [] ->
  (if mlfq_expired (mlfq_charge x)
   then exists k, mlfq_tick p s =
     Swtch (set_k_held [Lproc p] (set_k_proc (<[p := set_p_state RUNNABLE (mlfq_next x)]> (k_proc s)) s)) k
   else mlfq_tick p s = Done tt (set_k_proc (<[p := mlfq_next x]> (k_proc s)) s)) /\
  (forall n, cpu_bound 0 x -> cpu_bound (Z.of_nat n) (Nat.iter n mlfq_next x)) /\
  (p_ticks_at_level x < p_syscount x - p_syscalls_at_level x -> p_mlfq_level (mlfq_next x) = p_mlfq_level x).
Proof.
  intros Hx Hc Hh. split_and!; [by apply mlfq_tick_eq| |].
  - intros n Hb. induction n as [|n IH]; [done|]. cbn [Nat.iter nat_rect].
    replace (Z.of_nat (S n)) with (Z.of_nat n + 1) by lia. apply cpu_bound_next; [lia|done].
  - intros Hs. unfold mlfq_next, mlfq_slice_end, mlfq_charge. case_match; ksimp; [|done].
    rewrite (proj2 (Z.ltb_ge _ _)) by lia. done.
Qed.

Lemma mlfq_accounting_witness :
  p_mlfq_level (Nat.iter 7 mlfq_next proc0) = 2 /\ p_ticks_per_level (Nat.iter 7 mlfq_next proc0) = [2; 4; 1; 0].
Proof.
  destruct (mlfq_accounting (set_k_cur (Some 0%nat) (kst0 (fun _ => 0) [])) 0 proc0) as (_ & Hn & _); [reflexivity..|].
  destruct (Hn 7%nat) as [Hl _ Ht _]; [by split|]. split; [exact Hl|exact Ht].
Defined.

(* ------------------------------------------------------------------ *)
(** ** The boost *)

(** What the boost does to one process. *)
Definition boosted (p : proc) : proc :=
  if bool_decide (p_state p = RUNNABLE) || bool_decide (p_state p = RUNNING)
  then set_p_ticks_at_level 0 (set_p_mlfq_level 0 p) else p.

Lemma mlfq_boost_eq s :
  procs_wf s -> no_proc_lock s -> mlfq_boost s = Done tt (set_k_proc (imap (fun _ => boosted) (k_proc s)) s).
Proof.
  intros Hwf Hl. unfold mlfq_boost.
  destruct (for_each_inv (fun t => k_held t = k_held s) (seq 0 NPROC)
    (fun i t => set_k_proc (alter boosted i (k_proc t)) t)
    (fun i => acquire (Lproc i) ;;;
      p <- getproc i ;;
      when (bool_decide (p_state p = RUNNABLE) || bool_decide (p_state p = RUNNING))
        (updproc i (fun p => set_p_ticks_at_level 0 (set_p_mlfq_level 0 p))) ;;;
      release (Lproc i)) s) as [-> _]; [|done|].
  - intros i t _ Hh. split; [|done]. rewrite bind_acquire by (by rewrite Hh).
    unfold getproc. rewrite bind_gets. ksimp.
    destruct (bool_decide (p_state (k_proc t !!! i) = RUNNABLE) || bool_decide (p_state (k_proc t !!! i) = RUNNING)) eqn:E;
      cbn [when].
    + unfold updproc. rewrite bind_modify. erewrite release_head by done. ksimp.
      rewrite (alter_ext_at boosted (fun p => set_p_ticks_at_level 0 (set_p_mlfq_level 0 p))) by (unfold boosted; by rewrite E).
      by destruct t.
    + rewrite bind_ret. erewrite release_head by done.
      rewrite (alter_ext_at boosted id) by (unfold boosted; by rewrite E). rewrite alter_id. by destruct t.
  - rewrite (foldl_set_k_proc (fun _ => boosted)). by rewrite (foldl_alter_imap (fun _ => boosted)).
Qed.

(** The tick counts that boost. *)
Definition boost_tick (ticks : Z) : bool := (0 <? ticks) && (ticks mod 128 =? 0).

Lemma clockintr_eq s :
  procs_wf s -> k_held s = [] -> h_tp (k_hw s) = 0 ->
  exists s', clockintr s = Done tt s' /\ k_ticks s' = u32 (k_ticks s + 1) /\ k_held s' = [] /\
    k_proc s' = imap (fun i p => let p := woken (k_cur s) ChTicks i p in
                        if boost_tick (u32 (k_ticks s + 1)) then boosted p else p) (k_proc s) /\
    h_stimecmp (k_hw s') = u64 (h_time (k_hw s) + 1000000).
Proof.
  intros Hwf Hh Htp. unfold clockintr, cpuid, gethw. rewrite bind_gets, Htp.
  change (i32 0 =? 0) with true. cbv iota. set (t1 := set_k_ticks (u32 (k_ticks s + 1)) s).
  set (t2 := set_k_proc (imap (woken (k_cur s) ChTicks) (k_proc s)) t1).
  set (t3 := if boost_tick (k_ticks t1) then set_k_proc (imap (fun _ => boosted) (k_proc t2)) t2 else t2).
  erewrite bind_done with (a := tt) (s' := t3); cycle 1.
  { rewrite bind_acquire by (rewrite Hh; set_solver). rewrite bind_modify, bind_gets. ksimp.
    erewrite bind_done by (apply wakeup_eq; [done|intros i; ksimp; rewrite Hh; set_solver]).
    erewrite bind_release by done. ksimp. fold (boost_tick (u32 (k_ticks s + 1))).
    replace (set_k_held _ _) with t2 by (unfold t2, t1; by destruct s).
    unfold t3. cbn [k_ticks]. destruct (boost_tick _); [|done]. cbn [when].
    apply mlfq_boost_eq; [unfold procs_wf, t2; ksimp; by rewrite length_imap|]. intros i. unfold t2, t1. ksimp. rewrite Hh. set_solver. }
  eexists. split; [done|]. unfold t3, t2, t1. ksimp.
  destruct (boost_tick (u32 (k_ticks s + 1))); ksimp.
  - split_and!; try done. apply list_eq. intros i. rewrite !list_lookup_imap. by destruct (k_proc s !! i).
  - done.
Qed.

(** C30: Nobody starves at a low level. Every timer interrupt on hart 0 advances
    the clock, wakes those who wait for it and sets the next interrupt; it
    changes no level, except that on every tick count that is a multiple of 128
    all processes that can run are at level 0 with a fresh quantum afterwards.
    Such a tick comes within 128 ticks of any other. *)
Theorem clock_boosts s :
  procs_wf s -> k_held s = [] -> h_tp (k_hw s) = 0 -> 0 <= k_ticks s < 2 ^ 32 - 128 ->
  (exists s', clockintr s = Done tt s' /\ k_ticks s' = k_ticks s + 1 /\ k_held s' = [] /\
    h_stimecmp (k_hw s') = u64 (h_time (k_hw s) + 1000000) /\
    forall i p, k_proc s !! i = Some p -> exists p', k_proc s' !! i = Some p' /\
      p_state p' = p_state (woken (k_cur s) ChTicks i p) /\
      if boost_tick (k_ticks s + 1) && (bool_decide (p_state p' = RUNNABLE) || bool_decide (p_state p' = RUNNING))
      then p_mlfq_level p' = 0 /\ p_ticks_at_level p' = 0
      else p_mlfq_level p' = p_mlfq_level p /\ p_ticks_at_level p' = p_ticks_at_level p) /\
  exists k, 1 <= k <= 128 /\ boost_tick (k_ticks s + k) = true.
Proof.
  intros Hwf Hh Htp Ht. split.
  - destruct (clockintr_eq s Hwf Hh Htp) as (s' & Hs & Htk & Hh' & Hp & Hst).
    rewrite u32_small in Htk, Hp by lia. exists s'. split_and!; try done. intros i p Hi.
    rewrite Hp, list_lookup_imap, Hi. cbn. eexists. split; [done|].
    assert (forall me ch j x, p_mlfq_level (woken me ch j x) = p_mlfq_level x /\
      p_ticks_at_level (woken me ch j x) = p_ticks_at_level x) as Hw
      by (intros; unfold woken; destruct (_ && _); by destruct x).
    destruct (Hw (k_cur s) ChTicks i p) as [Hw1 Hw2]. destruct (boost_tick _); cbn [andb]; [|done].
    unfold boosted. destruct (_ || _) eqn:E; ksimp; rewrite E; done.
  - exists (128 - k_ticks s mod 128). pose proof (Z.mod_pos_bound (k_ticks s) 128).
    split; [lia|]. unfold boost_tick. rewrite (proj2 (Z.ltb_lt 0 _)) by lia. apply Z.eqb_eq.
    Z.div_mod_to_equations. lia.
Qed.

Lemma clock_boosts_witness :
  exists s', clockintr (set_k_ticks 127 (kst0 (fun _ => 0) [])) = Done tt s' /\ k_ticks s' = 128.
Proof.
  destruct (clock_boosts (set_k_ticks 127 (kst0 (fun _ => 0) []))) as [(s' & Hs & Ht & _) _]; [reflexivity..|cbn; lia|].
  exists s'. split; [exact Hs|exact Ht].
Defined.

(* ------------------------------------------------------------------ *)
(** ** The scheduler's loop over the levels *)

Lemma find_runnable level last s j :
  (j < NPROC)%nat -> runnable_at level (k_proc s !!! j) = true ->
  exists i, List.find (fun i => runnable_at level (k_proc s !!! i)) (run_order ((last + 1) mod NPROC)%nat) = Some i /\
    runnable_at level (k_proc s !!! i) = true.
Proof.
  intros Hj Hr. destruct (List.find _ _) as [i|] eqn:E.
  - exists i. split; [done|]. by apply List.find_some in E as [_ E].
  - eapply List.find_none in E; [by rewrite E in Hr|]. apply list_elem_of_In.
    eapply list_elem_of_lookup_2. by apply (rr_dist_order last j).
Qed.

(** A level with a process to run gets the CPU, and the loop goes on with the
    next level when the process gives it back. *)
Lemma scheduler_levels_run level levels last found s j :
  procs_wf s -> k_held s = [] -> (j < NPROC)%nat -> runnable_at (Z.of_nat level) (k_proc s !!! j) = true ->
  exists i s1 k, scheduler_levels (level :: levels) last found s = Swtch s1 k /\
    k_cur s1 = Some i /\ k_held s1 = [Lproc i] /\ k_proc s1 = alter dispatched i (k_proc s) /\
    runnable_at (Z.of_nat level) (k_proc s !!! i) = true /\
    forall s', k_held s' = [Lproc i] ->
      k s' = scheduler_levels levels (<[level := i]> last) true (set_k_held [] (set_k_cur None s')).
Proof.
  intros Hwf Hh Hj Hr. destruct (find_runnable (Z.of_nat level) (last !!! level) s j Hj Hr) as (i & Hi & Hri).
  pose proof (scheduler_level_eq (Z.of_nat level) (last !!! level) s Hwf Hh) as Hs. rewrite Hi in Hs.
  destruct Hs as (k & Hs & Hk). cbn [scheduler_levels]. unfold bind at 1. rewrite Hs. cbn [rbind].
  eexists i, _, _. split; [done|]. split_and!; try done. intros s' Hs'. by rewrite Hk.
Qed.
Lemma scheduler_levels_skip level levels last found s :
  procs_wf s -> k_held s = [] ->
  (forall j, (j < NPROC)%nat -> runnable_at (Z.of_nat level) (k_proc s !!! j) = false) ->
  scheduler_levels (level :: levels) last found s = scheduler_levels levels last found s.
Proof.
  intros Hwf Hh Hno. pose proof (scheduler_level_eq (Z.of_nat level) (last !!! level) s Hwf Hh) as Hs.
  destruct (List.find _ _) as [i|] eqn:E.
  - apply List.find_some in E as [Hin Hr]. apply list_elem_of_In in Hin. unfold run_order in Hin.
    apply list_elem_of_fmap in Hin as (x & -> & _). rewrite Hno in Hr; [done|]. by apply Nat.mod_upper_bound.
  - cbn [scheduler_levels]. by rewrite (bind_done _ _ _ _ _ Hs).
Qed.


(** Processes 1 and 2 at level 0, process 5 at level 3. *)
Definition levels_demo : kst :=
  set_k_proc (<[1%nat := set_p_state RUNNABLE proc0]> (<[2%nat := set_p_state RUNNABLE proc0]>
    (<[5%nat := set_p_mlfq_level 3 (set_p_state RUNNABLE proc0)]> (replicate NPROC proc0)))) (kst0 (fun _ => 0) []).

Definition switched {A} (r : res kst A) : option nat * list lockid :=
  match r with Swtch s _ => (k_cur s, k_held s) | _ => (None, []) end.

