(* ===== verification/Wf.v ===== *)
(** * Well-formed kernel states and lock balance: the logic

    [ok h m Q]: from a well-formed state ([kst_wf]) in which this CPU holds
    exactly the spinlocks [h], the code [m] keeps the state well-formed
    whenever it gives up the CPU or returns; when it returns [a], holding
    [h'], then [Q a h']. While the CPU is given away other threads and the
    devices may change the state arbitrarily, as long as it stays well-formed;
    a thread is resumed with the locks it held at the switch. [WfOps] proves a
    specification of this form for every operation of the kernel. *)

From S2P Require Import Prelude Machine KState Spinlock Kalloc Swap Walk FrameTable Vm Sched Strings.
From S2P Require Import Printf Print Bio Log Fs Console Pipe File Proc Sysarg Exec Sysfile Sysproc Virtio Trap.
Local Open Scope Z_scope.
Local Open Scope kern_scope.

(* ------------------------------------------------------------------ *)
(** ** Well-formed states *)

(** A table of [n] entries that satisfy [P]. *)
Definition tbl {A} (n : nat) (P : A -> Prop) (l : list A) : Prop := length l = n /\ Forall P l.

(** A pointer into a table of [n] entries, or null. *)
Definition ptr (n : nat) (o : option nat) : Prop :=
  match o with Some i => (i < n)%nat | None => True end.

Record proc_wf (p : proc) : Prop := {
  pw_level : 0 <= p_mlfq_level p <= 3;
  pw_ticks : 0 <= p_ticks_at_level p < get_quantum (p_mlfq_level p);
  pw_per_level : length (p_ticks_per_level p) = 4%nat;
  pw_ofile : tbl NOFILE (ptr NFILE) (p_ofile p);
  pw_cwd : ptr NINODE (p_cwd p);
  pw_parent : ptr NPROC (p_parent p)
}.
Record buf_wf (b : buf) : Prop := {
  bw_prev : (b_prev b <= NBUF)%nat;
  bw_next : (b_next b <= NBUF)%nat
}.
Definition inode_wf (i : inode) : Prop := length (i_addrs i) = 13%nat.
Definition file_wf (f : file) : Prop := ptr NINODE (f_ip f).
Definition pipe_wf (p : pipe) : Prop := length (pi_data p) = 512%nat.
Record vdisk_wf (v : vdisk) : Prop := {
  vw_desc : length (v_desc v) = NUM;
  vw_avail : length (v_avail_ring v) = NUM;
  vw_free : length (v_free v) = NUM;
  vw_info : tbl NUM (ptr NBUF) (v_info_b v);
  vw_status : length (v_info_status v) = NUM;
  vw_ops : length (v_ops v) = NUM
}.

Record kst_wf (s : kst) : Prop := {
  wf_proc : tbl NPROC proc_wf (k_proc s);
  wf_bcache : tbl (S NBUF) buf_wf (k_bcache s);
  wf_itable : tbl NINODE inode_wf (k_itable s);
  wf_ftable : tbl NFILE file_wf (k_ftable s);
  wf_pipes : map_Forall (fun _ => pipe_wf) (k_pipes s);
  wf_ft : length (k_ft s) = MAXFRAMES;
  wf_swap : length (k_swap s) = MAX_SWAP_SLOTS;
  wf_log : length (lg_block (k_log s)) = 30%nat;
  wf_cons : length (c_buf (k_cons s)) = 128%nat;
  wf_devsw : length (k_devsw s) = 10%nat;
  wf_vdisk : vdisk_wf (k_vdisk s);
  wf_cur : ptr NPROC (k_cur s);
  wf_initproc : ptr NPROC (k_initproc s)
}.

Lemma tbl_alter {A} n (P : A -> Prop) f i l :
  tbl n P l -> (forall x, P x -> P (f x)) -> tbl n P (alter f i l).
Proof.
  intros [Hn Hl] Hf. split; [by rewrite length_alter|]. apply Forall_alter; [done|]. auto.
Qed.

Lemma tbl_insert {A} n (P : A -> Prop) i x l : tbl n P l -> P x -> tbl n P (<[i := x]> l).
Proof. intros [Hn Hl] Hx. split; [by rewrite length_insert|]. by apply Forall_insert. Qed.

Lemma tbl_lookup {A} `{!Inhabited A} n (P : A -> Prop) l i : tbl n P l -> P inhabitant -> P (l !!! i).
Proof.
  intros [_ Hl] Hd. rewrite list_lookup_total_alt. destruct (l !! i) eqn:E; [|done].
  by eapply Forall_lookup_1.
Qed.

Lemma tbl_index {A} n (P : A -> Prop) f l i : tbl n P l -> index_of f l = Some i -> (i < n)%nat.
Proof. intros [<- _] Hi. by eapply index_of_lt. Qed.

Lemma tbl_replicate {A} n (P : A -> Prop) x : P x -> tbl n P (replicate n x).
Proof. intros Hx. split; [apply length_replicate|by apply Forall_replicate]. Qed.

(** The zeroed entries of the tables. *)
Lemma proc0_wf : proc_wf proc0.
Proof. split; try (by apply (tbl_replicate NOFILE)); cbn; try done; lia. Qed.
Lemma buf0_wf : buf_wf buf0.
Proof. split; cbn; lia. Qed.

(** The state in which [main] starts. *)
Lemma kst0_wf m d : kst_wf (kst0 m d).
Proof.
  split; unfold kst0; ksimp; try done; try apply length_replicate; try apply tbl_replicate; try done.
  - apply proc0_wf.
  - apply buf0_wf.
  - split; try apply (tbl_replicate NUM); done.
Qed.

(* ------------------------------------------------------------------ *)
(** ** The judgement *)

Section Logic.
Context {A : Type}.

Fixpoint rok (Q : A -> list lockid -> Prop) (r : res kst A) : Prop :=
  match r with
  | Done a s => kst_wf s /\ Q a (k_held s)
  | Panic _ _ => True
  | Swtch s k => kst_wf s /\ forall s', kst_wf s' -> k_held s' = k_held s -> rok Q (k s')
  | Spin => True
  end.

Definition ok (h : list lockid) (m : K A) (Q : A -> list lockid -> Prop) : Prop :=
  forall s, kst_wf s -> k_held s = h -> rok Q (m s).
End Logic.

Lemma rok_mono {A} (Q Q' : A -> list lockid -> Prop) r :
  rok Q r -> (forall a h, Q a h -> Q' a h) -> rok Q' r.
Proof.
  intros Hr HQ. induction r as [a s|e s|s k IH|]; cbn in *; [naive_solver|done| |done].
  destruct Hr as [Hs Hk]. split; [done|]. intros s' Hw Hh. by apply IH, Hk.
Qed.

Lemma rok_bind {A B} (Q : A -> list lockid -> Prop) (R : B -> list lockid -> Prop) r f :
  rok Q r -> (forall a h, Q a h -> ok h (f a) R) -> rok R (rbind r f).
Proof.
  intros Hr Hf. induction r as [a s|e s|s k IH|]; cbn in *; [|done| |done].
  - destruct Hr as [Hs HQ]. by eapply Hf.
  - destruct Hr as [Hs Hk]. split; [done|]. intros s' Hw Hh. by apply IH, Hk.
Qed.

Section Rules.
Context {A B : Type}.

Lemma ok_mono h (m : K A) (Q Q' : A -> list lockid -> Prop) :
  ok h m Q -> (forall a h', Q a h' -> Q' a h') -> ok h m Q'.
Proof. intros Hm HQ s Hs Hh. eapply rok_mono; [by apply Hm|done]. Qed.

Lemma ok_bind h (m : K A) (f : A -> K B) Q R :
  ok h m Q -> (forall a h', Q a h' -> ok h' (f a) R) -> ok h (bind m f) R.
Proof. intros Hm Hf s Hs Hh. eapply rok_bind; [by apply Hm|done]. Qed.

Lemma ok_ret h (a : A) (Q : A -> list lockid -> Prop) : Q a h -> ok h (ret a) Q.
Proof. intros HQ s Hs <-. by split. Qed.

Lemma ok_panic h msg (Q : A -> list lockid -> Prop) : ok h (panic msg) Q.
Proof. done. Qed.

Lemma ok_spin h (Q : A -> list lockid -> Prop) : ok h (fun _ => Spin) Q.
Proof. done. Qed.

Lemma ok_gets h (f : kst -> A) :
  ok h (gets f) (fun a h' => h' = h /\ exists s, kst_wf s /\ a = f s).
Proof. intros s Hs <-. split; [done|]. eauto. Qed.

End Rules.

Lemma ok_when h b (m : K unit) (Q : unit -> list lockid -> Prop) :
  (b = true -> ok h m Q) -> Q tt h -> ok h (when b m) Q.
Proof. intros Hm HQ. destruct b; [by apply Hm|by apply ok_ret]. Qed.

(** An update of the state that touches no lock. *)
Lemma ok_modify h f :
  (forall s, kst_wf s -> kst_wf (f s) /\ k_held (f s) = k_held s) ->
  ok h (modify f) (fun _ h' => h' = h).
Proof. intros Hf s Hs <-. by apply Hf. Qed.

Lemma ok_swtch h : ok h swtch (fun _ h' => h' = h).
Proof. intros s Hs <-. split; [done|]. intros s' Hw Hh. by split. Qed.

(** Loops. *)
Lemma ok_for_each {X} h (xs : list X) (body : X -> K unit) :
  (forall x, x ∈ xs -> ok h (body x) (fun _ h' => h' = h)) ->
  ok h (for_each xs body) (fun _ h' => h' = h).
Proof.
  induction xs as [|x xs IH]; intros Hb; cbn [for_each]; [by apply ok_ret|].
  eapply ok_bind; [apply Hb; set_solver|]. intros ? ? ->. apply IH. intros y Hy. apply Hb. set_solver.
Qed.

Lemma ok_for_find {X R} h (xs : list X) (body : X -> K (option R)) (Q : option R -> list lockid -> Prop) :
  Q None h ->
  (forall x, x ∈ xs -> ok h (body x) (fun o h' => match o with None => h' = h | Some r => Q (Some r) h' end)) ->
  ok h (for_find xs body) Q.
Proof.
  intros HN. induction xs as [|x xs IH]; intros Hb; cbn [for_find]; [by apply ok_ret|].
  eapply ok_bind; [apply Hb; set_solver|]. intros [r|] h' Hr; [by apply ok_ret|]. subst.
  apply IH. intros y Hy. apply Hb. set_solver.
Qed.

Lemma ok_loop {X R} (J : X -> list lockid -> Prop) fuel (body : X -> K (X + R)) x h
    (Q : R -> list lockid -> Prop) :
  J x h ->
  (forall y h', J y h' -> ok h' (body y) (fun r h'' => match r with inl z => J z h'' | inr v => Q v h'' end)) ->
  ok h (loop fuel body x) Q.
Proof.
  intros HJ Hb. revert x h HJ. induction fuel as [|n IH]; intros x h HJ; cbn [loop]; [apply ok_spin|].
  eapply ok_bind; [by apply Hb|]. intros [z|v] h' Hz; [by apply IH|by apply ok_ret].
Qed.

Lemma ok_for_upto {R} fuel a hi step h (body : Z -> K (option R)) (Q : option R -> list lockid -> Prop) :
  Q None h ->
  (forall x, ok h (body x) (fun o h' => match o with None => h' = h | Some r => Q (Some r) h' end)) ->
  ok h (for_upto fuel a hi step body) Q.
Proof.
  intros HN Hb. revert a. induction fuel as [|n IH]; intros a; cbn [for_upto]; [apply ok_spin|].
  destruct (a <? hi); [|by apply ok_ret].
  eapply ok_bind; [apply Hb|]. intros [r|] h' Hr; [by apply ok_ret|]. by subst.
Qed.

(** Rearranging sequences. *)
Lemma ok_assoc {A B C} h (m : K A) (f : A -> K B) (g : B -> K C) Q :
  ok h (bind m (fun a => bind (f a) g)) Q -> ok h (bind (bind m f) g) Q.
Proof.
  intros Hm s Hs Hh. specialize (Hm s Hs Hh). unfold bind in *.
  induction (m s) as [a s1|e s1|s1 k IH|]; cbn in *; auto.
  destruct Hm as [Hw Hk]. split; [done|]. auto.
Qed.

Lemma ok_ret_bind {A B} h (a : A) (f : A -> K B) Q : ok h (f a) Q -> ok h (bind (ret a) f) Q.
Proof. done. Qed.

Lemma ok_panic_bind {A B} h msg (f : A -> K B) Q : ok h (bind (panic msg) f) Q.
Proof. done. Qed.

(* ------------------------------------------------------------------ *)
(** ** Locks and tables *)

Lemma ok_acquire h l : ok h (acquire l) (fun _ h' => h' = l :: h /\ l ∉ h).
Proof.
  intros s Hs Hh. unfold acquire, holding. rewrite bind_gets. case_bool_decide; [done|].
  split; [by destruct Hs|]. ksimp. by rewrite Hh in *.
Qed.

Lemma ok_release h l : ok h (release l) (fun _ h' => h' = rem1 l h /\ l ∈ h).
Proof.
  intros s Hs Hh. unfold release, holding. rewrite bind_gets. case_bool_decide; [|done].
  split; [by destruct Hs|]. ksimp. by rewrite Hh in *.
Qed.

Lemma ok_release_head h l : ok (l :: h) (release l) (fun _ h' => h' = h).
Proof. eapply ok_mono; [apply ok_release|]. intros _ h' [-> _]. apply rem1_cons. Qed.

Lemma ok_initlock h l : ok h (initlock l) (fun _ h' => h' = rem1 l h).
Proof. intros s Hs <-. split; [by destruct Hs|]. done. Qed.
Lemma ok_initlock_nil l : ok [] (initlock l) (fun _ h' => h' = []).
Proof. apply ok_initlock. Qed.

(** The other fields of the state stay as they are. *)
Ltac wf_rest := let Hs := fresh in intros ? Hs; split; [destruct Hs; split; ksimp; try done; auto|done].

Lemma ok_updproc h i f :
  (forall p, proc_wf p -> proc_wf (f p)) -> ok h (updproc i f) (fun _ h' => h' = h).
Proof. intros Hf. apply ok_modify. wf_rest. by apply tbl_alter. Qed.
Lemma ok_getproc h i : ok h (getproc i) (fun p h' => h' = h /\ proc_wf p).
Proof.
  intros s Hs <-. split; [done|]. split; [done|]. eapply tbl_lookup; [apply Hs|apply proc0_wf].
Qed.

Lemma ok_updbuf h i f :
  (forall b, buf_wf b -> buf_wf (f b)) -> ok h (updbuf i f) (fun _ h' => h' = h).
Proof. intros Hf. apply ok_modify. wf_rest. by apply tbl_alter. Qed.
Lemma ok_getbuf h i : ok h (getbuf i) (fun b h' => h' = h /\ buf_wf b).
Proof.
  intros s Hs <-. split; [done|]. split; [done|]. eapply tbl_lookup; [apply Hs|apply buf0_wf].
Qed.

Lemma ok_updinode h i f :
  (forall x, inode_wf x -> inode_wf (f x)) -> ok h (updinode i f) (fun _ h' => h' = h).
Proof. intros Hf. apply ok_modify. wf_rest. by apply tbl_alter. Qed.
Lemma ok_getinode h i : ok h (getinode i) (fun x h' => h' = h /\ inode_wf x).
Proof. intros s Hs <-. split; [done|]. split; [done|]. eapply tbl_lookup; [apply Hs|done]. Qed.

Lemma ok_updfile h i f :
  (forall x, file_wf x -> file_wf (f x)) -> ok h (updfile i f) (fun _ h' => h' = h).
Proof. intros Hf. apply ok_modify. wf_rest. by apply tbl_alter. Qed.
Lemma ok_getfile h i : ok h (getfile i) (fun x h' => h' = h /\ file_wf x).
Proof. intros s Hs <-. split; [done|]. split; [done|]. eapply tbl_lookup; [apply Hs|done]. Qed.

Lemma ok_updpipe h i f :
  (forall x, pipe_wf x -> pipe_wf (f x)) -> ok h (updpipe i f) (fun _ h' => h' = h).
Proof.
  intros Hf. apply ok_modify. wf_rest. intros k x [[-> (y & Hy & ->)]|[Hne Hk]]%lookup_alter_Some; [|by eapply wf_pipes0].
  by eapply Hf, wf_pipes0.
Qed.
Lemma ok_getpipe h i : ok h (getpipe i) (fun x h' => h' = h /\ pipe_wf x).
Proof.
  intros s Hs <-. split; [done|]. split; [done|]. rewrite lookup_total_alt.
  destruct (k_pipes s !! i) eqn:E; [|done]. by eapply (wf_pipes s Hs).
Qed.

Lemma ok_updframe h i f : ok h (updframe i f) (fun _ h' => h' = h).
Proof. apply ok_modify. wf_rest. by rewrite length_alter. Qed.
Lemma ok_updslot h i f : ok h (updslot i f) (fun _ h' => h' = h).
Proof. apply ok_modify. wf_rest. by rewrite length_alter. Qed.
Lemma ok_updlog h f :
  (forall l, length (lg_block l) = 30%nat -> length (lg_block (f l)) = 30%nat) ->
  ok h (updlog f) (fun _ h' => h' = h).
Proof. intros Hf. apply ok_modify. wf_rest. Qed.
Lemma ok_updcons h f :
  (forall c, length (c_buf c) = 128%nat -> length (c_buf (f c)) = 128%nat) ->
  ok h (updcons f) (fun _ h' => h' = h).
Proof. intros Hf. apply ok_modify. wf_rest. Qed.
Lemma ok_updvd h f :
  (forall v, vdisk_wf v -> vdisk_wf (f v)) -> ok h (updvd f) (fun _ h' => h' = h).
Proof. intros Hf. apply ok_modify. wf_rest. Qed.
Lemma ok_updhw h f : ok h (updhw f) (fun _ h' => h' = h).
Proof. apply ok_modify. wf_rest. Qed.
Lemma ok_setsl h l v : ok h (setsl l v) (fun _ h' => h' = h).
Proof.
  destruct l as [b|i]; apply ok_modify; wf_rest; (apply tbl_alter; [done|]); [|done].
  intros x [Hp Hn]. by split.
Qed.

(** [myproc()] and [curproc]. *)
Lemma ok_myproc h : ok h myproc (fun o h' => h' = h /\ ptr NPROC o).
Proof. intros s Hs <-. split; [done|]. split; [done|]. apply Hs. Qed.
Lemma ok_curproc h : ok h curproc (fun p h' => h' = h /\ (p < NPROC)%nat).
Proof.
  intros s Hs <-. unfold curproc. pose proof (wf_cur s Hs) as Hp.
  destruct (k_cur s); [|done]. split; [done|]. by split.
Qed.

(* ------------------------------------------------------------------ *)
(** ** Automation *)

(** The pointers of a well-formed process. *)
Lemma ofile_lt p i f : proc_wf p -> p_ofile p !!! i = Some f -> (f < NFILE)%nat.
Proof.
  intros Hp Hi. change (ptr NFILE (Some f)). rewrite <- Hi. by apply (tbl_lookup NOFILE); [apply Hp|].
Qed.
Lemma cwd_lt p ip : proc_wf p -> p_cwd p = Some ip -> (ip < NINODE)%nat.
Proof. intros [_ _ _ _ Hc _] E. by rewrite E in Hc. Qed.

(** An update of one record keeps it well-formed. *)
Ltac wf_side :=
  let x := fresh in let Hx := fresh in
  intros x Hx; unfold inode_wf, file_wf, pipe_wf in *; first [destruct Hx; split|idtac]; ksimp;
  rewrite ?length_insert, ?length_alter; first [done | by apply tbl_insert | cbn in *; lia | try apply tbl_insert; cbn; eauto 3 using ofile_lt, cwd_lt, wf_initproc; fail].

Create HintDb wf.
#[export] Hint Constants Opaque : wf.
#[export] Hint Resolve ok_initlock_nil ok_acquire ok_release_head ok_gets ok_swtch ok_getproc ok_getbuf ok_getinode ok_getfile
  ok_getpipe ok_updframe ok_updslot ok_updhw ok_setsl ok_myproc ok_curproc : wf.
#[export] Hint Resolve ok_release | 10 : wf.
#[export] Hint Extern 2 (ok _ (modify _) _) => apply ok_modify; wf_rest : wf.
#[export] Hint Extern 2 (ok _ (updproc _ _) _) => apply ok_updproc; wf_side : wf.
#[export] Hint Extern 2 (ok _ (updbuf _ _) _) => apply ok_updbuf; repeat match goal with Hb : buf_wf _ |- _ => destruct Hb end; wf_side : wf.
#[export] Hint Extern 2 (ok _ (updinode _ _) _) => apply ok_updinode; wf_side : wf.
#[export] Hint Extern 2 (ok _ (updfile _ _) _) => apply ok_updfile; wf_side : wf.
#[export] Hint Extern 2 (ok _ (updpipe _ _) _) => apply ok_updpipe; wf_side : wf.
#[export] Hint Extern 2 (ok _ (updlog _) _) => apply ok_updlog; wf_side : wf.
#[export] Hint Extern 2 (ok _ (updcons _) _) => apply ok_updcons; wf_side : wf.
#[export] Hint Extern 2 (ok _ (updvd _) _) => apply ok_updvd; wf_side : wf.

Ltac ok_hint :=
  first [solve [typeclasses eauto 4 with wf nocore]
        | solve [progress cbn [ptr fst] in *; typeclasses eauto 4 with wf nocore]
        | match goal with IH : context [ok] |- _ => solve [eapply IH; eauto] end].
Ltac ok_intros :=
  let a := fresh "a" in let h := fresh "h" in let H := fresh "Hpost" in
  intros a h H; cbn beta iota in H; destruct_and? H;
  repeat match goal with Hx : exists _, _ |- _ => destruct Hx; destruct_and? end; subst.

(** One step through a piece of code. *)
Ltac ok_step :=
  cbv beta zeta;
  match goal with
  | |- ok _ (bind (bind _ _) _) _ => apply ok_assoc
  | |- ok _ (bind (ret _) _) _ => apply ok_ret_bind
  | |- ok _ (bind (panic _) _) _ => apply ok_panic_bind
  | |- ok _ (bind (when ?b _) _) _ => destruct b eqn:?; cbn [when]
  | |- ok _ (bind (for_each _ _) _) _ => eapply ok_bind; [apply ok_for_each; intros|ok_intros]
  | |- ok _ (bind (if ?c then _ else _) _) _ => destruct c eqn:?
  | |- ok _ (bind (match ?c with _ => _ end) _) _ => destruct c eqn:?
  | |- ok _ (bind _ _) _ => eapply ok_bind; [ok_hint|ok_intros]
  | |- ok _ (ret _) _ => apply ok_ret
  | |- ok _ (panic _) _ => apply ok_panic
  | |- ok _ (when ?b _) _ => destruct b eqn:?; cbn [when]
  | |- ok _ (for_each _ _) _ => apply ok_for_each; intros
  | |- ok _ (if ?c then _ else _) _ => destruct c eqn:?
  | |- ok _ (match ?c with _ => _ end) _ => destruct c eqn:?
  | |- ok _ _ _ => eapply ok_mono; [ok_hint|ok_intros]
  end.
Ltac ok_auto := repeat ok_step; auto; try done.

(** Operations that return with the locks they were called with. *)
Abbreviation keep h := (fun _ h' => h' = h).
