(* ===== verification/WfOps.v ===== *)
(** * Well-formed kernel states and lock balance: the operations

    One specification [ok] per operation of the kernel, from the allocators
    up to the trap handlers. [keep h]: the operation returns with the locks it
    was called with. *)

From S2P Require Import Prelude Machine KState Spinlock Kalloc Swap Walk FrameTable Vm Sched Strings.
From S2P Require Import Printf Print Bio Log Fs Console Pipe File Proc Sysarg Exec Sysfile Sysproc Virtio Trap.
From S2P Require Import Wf.
Local Open Scope Z_scope.
Local Open Scope kern_scope.

(* ------------------------------------------------------------------ *)
(** ** Memory: [kalloc.c], [swap.c], [vm.c], [frametable.c] *)

Lemma ok_kmemset h a c n : ok h (kmemset a c n) (keep h).
Proof. unfold kmemset. ok_auto. Qed.
Lemma ok_kmemmove h d s n : ok h (kmemmove d s n) (keep h).
Proof. unfold kmemmove. ok_auto. Qed.
Lemma ok_kstore64 h a v : ok h (kstore64 a v) (keep h).
Proof. unfold kstore64. ok_auto. Qed.
Lemma ok_kwrite h a bs : ok h (kwrite a bs) (keep h).
Proof. unfold kwrite. ok_auto. Qed.
Lemma ok_kload64 h a : ok h (kload64 a) (keep h).
Proof. unfold kload64. ok_auto. Qed.
Lemma ok_kread h a n : ok h (kread a n) (keep h).
Proof. unfold kread. ok_auto. Qed.
Lemma ok_getslot h i : ok h (getslot i) (keep h).
Proof. unfold getslot. ok_auto. Qed.
Lemma ok_getframe h i : ok h (getframe i) (keep h).
Proof. unfold getframe. ok_auto. Qed.
#[export] Hint Resolve ok_kmemset ok_kmemmove ok_kstore64 ok_kwrite ok_kload64 ok_kread ok_getslot ok_getframe : wf.

(** Searches and loops that leave the locks as they were. *)
Ltac ok_find := apply (ok_for_find _ _ _ (keep _)); [done|intros ? _; ok_auto].
Ltac ok_upto := apply (ok_for_upto _ _ _ _ _ _ (keep _)); [done|intros ?; ok_auto].
Ltac ok_iter h := apply (ok_loop (fun _ h' => h' = h)); [done|intros ? ? ->; ok_auto].

Section Kernel.
Context `{KernelImage} `{SleepFuel}.

Lemma ok_kfree h pa : ok h (kfree pa) (keep h).
Proof. unfold kfree. ok_auto. Qed.
Lemma ok_kalloc h : ok h kalloc (keep h).
Proof. unfold kalloc. ok_auto. Qed.
Hint Resolve ok_kfree ok_kalloc : wf.

Lemma ok_freerange h a b : ok h (freerange a b) (keep h).
Proof. unfold freerange. ok_iter h. Qed.
Lemma ok_swap_out h page pid va : ok h (swap_out page pid va) (keep h).
Proof.
  unfold swap_out. ok_step. eapply (ok_bind _ _ _ (fun o h' => match o with None => h' = Lswap_lock :: h | Some _ => h' = h end)).
  - apply ok_for_find; [done|]. intros i _. ok_auto.
  - ok_intros. ok_auto.
Qed.
Lemma ok_swap_in h slot b : ok h (swap_in slot b) (keep h).
Proof. unfold swap_in. ok_auto. Qed.
Lemma ok_swap_free h slot : ok h (swap_free slot) (keep h).
Proof. unfold swap_free. ok_auto. Qed.
Hint Resolve ok_freerange ok_swap_out ok_swap_in ok_swap_free : wf.

Lemma ok_walk h pt va alloc : ok h (walk pt va alloc) (keep h).
Proof.
  unfold walk. ok_step; [ok_auto|]. eapply (ok_bind _ _ _ (keep h)); [|ok_intros; ok_auto].
  generalize [2; 1] as l. intros l. revert pt. induction l as [|x l IH]; intros pt; cbn [walk_levels].
  - ok_auto.
  - repeat ok_step; auto.
Qed.
Hint Resolve ok_walk : wf.
Lemma ok_walkaddr h pt va : ok h (walkaddr pt va) (keep h).
Proof. unfold walkaddr. ok_auto. Qed.
Lemma ok_mappages h pt va sz pa perm : ok h (mappages pt va sz pa perm) (keep h).
Proof. unfold mappages. ok_auto. ok_iter h. unfold mappages_step. ok_auto. Qed.
Lemma ok_ismapped h pt va : ok h (ismapped pt va) (keep h).
Proof. unfold ismapped. ok_auto. Qed.
Lemma ok_uvmcreate h : ok h uvmcreate (keep h).
Proof. unfold uvmcreate. ok_auto. Qed.
Lemma ok_uvmclear h pt va : ok h (uvmclear pt va) (keep h).
Proof. unfold uvmclear. ok_auto. Qed.
Hint Resolve ok_walkaddr ok_mappages ok_ismapped ok_uvmcreate ok_uvmclear : wf.
Lemma ok_kvmmap h pt va pa sz perm : ok h (kvmmap pt va pa sz perm) (keep h).
Proof. unfold kvmmap. ok_auto. Qed.
Hint Resolve ok_kvmmap : wf.

(** Scans of the frame table end with the lock released. *)
Lemma ok_ft_scan h (body : nat -> K (option unit)) :
  (forall i, ok (Lftlock :: h) (body i) (fun o h' => match o with None => h' = Lftlock :: h | Some _ => h' = h end)) ->
  ok (Lftlock :: h) (o <- for_find (seq 0 MAXFRAMES) body ;; match o with Some _ => ret tt | None => release Lftlock end)
    (keep h).
Proof.
  intros Hb. eapply (ok_bind _ _ _ (fun o h' => match o with None => h' = Lftlock :: h | Some _ => h' = h end)).
  - apply ok_for_find; [done|]. auto.
  - ok_intros. ok_auto.
Qed.
Lemma ok_frametable_add h pa pid va : ok h (frametable_add pa pid va) (keep h).
Proof. unfold frametable_add. ok_step. apply ok_ft_scan. intros i. ok_auto. Qed.
Lemma ok_frametable_remove h pa : ok h (frametable_remove pa) (keep h).
Proof. unfold frametable_remove. ok_step. apply ok_ft_scan. intros i. ok_auto. Qed.
Lemma ok_frametable_used h : ok h frametable_used (keep h).
Proof. unfold frametable_used. ok_auto. Qed.
Lemma ok_find_proc h pid : ok h (find_proc pid) (fun o h' => h' = h /\ ptr NPROC o).
Proof.
  unfold find_proc. ok_step. split; [done|]. destruct (index_of _ _) eqn:E; [|done].
  by eapply tbl_index; [apply wf_proc|].
Qed.
Hint Resolve ok_frametable_add ok_frametable_remove ok_frametable_used ok_find_proc : wf.

Lemma ok_clock_sweep h passes i l : ok h (clock_sweep passes i l) (keep h).
Proof.
  revert i l. induction passes as [|p passes IH]; intros i l; cbn [clock_sweep]; [ok_auto|].
  unfold mlfq_level_of. repeat ok_step; auto.
Qed.
Hint Resolve ok_clock_sweep : wf.
Lemma ok_evict_frame h e : ok h (evict_frame e) (keep h).
Proof. unfold evict_frame. ok_auto. Qed.
Hint Resolve ok_evict_frame : wf.
Lemma ok_clock_evict h : ok h clock_evict (keep h).
Proof. unfold clock_evict, first_used. ok_auto. Qed.
Hint Resolve ok_clock_evict : wf.

Lemma ok_uvmunmap h pt va n b : ok h (uvmunmap pt va n b) (keep h).
Proof. unfold uvmunmap. ok_step; [ok_auto|]. eapply (ok_bind _ _ _ (keep h)); [ok_upto|]. ok_intros. ok_auto. Qed.
Hint Resolve ok_uvmunmap : wf.
Lemma ok_uvmdealloc h pt a b : ok h (uvmdealloc pt a b) (keep h).
Proof. unfold uvmdealloc. ok_auto. Qed.
Hint Resolve ok_uvmdealloc : wf.
Lemma ok_uvmalloc h pt a b x : ok h (uvmalloc pt a b x) (keep h).
Proof. unfold uvmalloc. ok_step; [ok_auto|]. eapply (ok_bind _ _ _ (keep h)); [ok_upto|]. ok_intros. ok_auto. Qed.

Hint Resolve ok_uvmalloc : wf.
Lemma ok_freewalk h pt : ok h (freewalk pt) (keep h).
Proof.
  unfold freewalk. generalize 3%nat as d. intros d. revert pt. induction d as [|d IH]; intros pt; cbn [freewalk_depth]; [done|].
  ok_auto.
Qed.
Hint Resolve ok_freewalk : wf.
Lemma ok_uvmfree h pt sz : ok h (uvmfree pt sz) (keep h).
Proof. unfold uvmfree. ok_auto. Qed.
Lemma ok_uvmcopy h old new sz : ok h (uvmcopy old new sz) (keep h).
Proof. unfold uvmcopy. eapply (ok_bind _ _ _ (keep h)); [ok_upto|]. ok_intros. ok_auto. Qed.
Lemma ok_kalloc_or_evict h : ok h kalloc_or_evict (keep h).
Proof. unfold kalloc_or_evict. ok_auto. Qed.
Hint Resolve ok_uvmfree ok_uvmcopy ok_kalloc_or_evict : wf.
Lemma ok_vmfault_alloc h pt va r : ok h (vmfault_alloc pt va r) (keep h).
Proof. unfold vmfault_alloc. ok_auto. Qed.
Lemma ok_vmfault h pt va r : ok h (vmfault pt va r) (keep h).
Proof. unfold vmfault. ok_auto. Qed.
Hint Resolve ok_vmfault_alloc ok_vmfault : wf.
Lemma ok_copyout h pt va src : ok h (copyout pt va src) (keep h).
Proof. unfold copyout. ok_iter h. unfold copyout_step. ok_auto. Qed.
Lemma ok_copyin h pt va n : ok h (copyin pt va n) (keep h).
Proof. unfold copyin. ok_iter h. unfold copyin_step. ok_auto. Qed.
Lemma ok_copyinstr h pt va n : ok h (copyinstr pt va n) (keep h).
Proof. unfold copyinstr. ok_iter h. unfold copyinstr_step. ok_auto. Qed.
Hint Resolve ok_copyout ok_copyin ok_copyinstr : wf.
Lemma ok_either_copyout h u d src : ok h (either_copyout u d src) (keep h).
Proof. unfold either_copyout. ok_auto. Qed.
Lemma ok_either_copyin h u a n : ok h (either_copyin u a n) (keep h).
Proof. unfold either_copyin. ok_auto. Qed.
Hint Resolve ok_either_copyout ok_either_copyin : wf.
Lemma ok_proc_mapstacks h pt : ok h (proc_mapstacks pt) (keep h).
Proof. unfold proc_mapstacks. ok_auto. Qed.
Hint Resolve ok_proc_mapstacks : wf.
Lemma ok_kvminit h : ok h kvminit (keep h).
Proof. unfold kvminit, kvmmake. ok_auto. Qed.
Lemma ok_kvminithart h : ok h kvminithart (keep h).
Proof. unfold kvminithart. ok_auto. Qed.
Hint Resolve ok_kvminit ok_kvminithart : wf.

(* ------------------------------------------------------------------ *)
(** ** Scheduling: [proc.c], [sleeplock.c] *)

Lemma ok_allocpid h : ok h allocpid (keep h).
Proof. unfold allocpid. ok_auto. Qed.
Lemma ok_sched h : ok h sched (keep h).
Proof. unfold sched, holding, intr_get. ok_auto. Qed.
Hint Resolve ok_allocpid ok_sched : wf.
Lemma ok_yield h : ok h yield (keep h).
Proof. unfold yield. ok_auto. Qed.
(** [sleep] gives up the lock and takes it again. *)
Lemma ok_sleep h ch lk : ok (lk :: h) (sleep ch lk) (keep (lk :: h)).
Proof.
  unfold sleep. do 2 ok_step. eapply ok_bind; [apply ok_release|]. ok_intros.
  cbn [rem1]. rewrite decide_False by set_solver. rewrite decide_True by done. ok_auto.
Qed.
Lemma ok_wakeup h ch : ok h (wakeup ch) (keep h).
Proof. unfold wakeup. ok_auto. Qed.
Hint Resolve ok_yield ok_sleep ok_wakeup : wf.
Lemma ok_kkill h pid : ok h (kkill pid) (keep h).
Proof. unfold kkill. eapply (ok_bind _ _ _ (keep h)); [ok_find|]. ok_intros. ok_auto. Qed.
Lemma ok_setkilled h p : ok h (setkilled p) (keep h).
Proof. unfold setkilled. ok_auto. Qed.
Lemma ok_killed h p : ok h (killed p) (keep h).
Proof. unfold killed. ok_auto. Qed.
Hint Resolve ok_kkill ok_setkilled ok_killed : wf.

(** The scheduler of a CPU. *)
Lemma ok_scheduler h rounds : ok h (scheduler rounds) (keep h).
Proof.
  unfold scheduler. ok_step.
  enough (forall last, ok h (scheduler_loop rounds last) (keep h)) as Hl by (eapply ok_mono; [apply Hl|done]).
  induction rounds as [|n IH]; intros last; cbn [scheduler_loop]; [done|]. unfold intr_on, intr_off.
  do 2 ok_step. eapply (ok_bind _ _ _ (keep h)); [|ok_intros; ok_auto].
  generalize false as found. generalize [0; 1; 2; 3]%nat as levels. intros levels. revert last.
  induction levels as [|l levels IHl]; intros last found; cbn [scheduler_levels]; [ok_auto|].
  eapply (ok_bind _ _ _ (keep h)); [|ok_intros; ok_auto]. unfold scheduler_level.
  apply (ok_for_find _ _ _ (keep _)); [done|]. intros idx Hin.
  assert (idx < NPROC)%nat by (apply list_elem_of_In, in_map_iff in Hin as (k & <- & _); apply Nat.mod_upper_bound; lia).
  ok_auto.
Qed.

Lemma ok_getsl h l : ok h (getsl l) (keep h).
Proof. unfold getsl. ok_auto. Qed.
Hint Resolve ok_getsl : wf.
Lemma ok_acquiresleep h l : ok h (acquiresleep l) (keep h).
Proof.
  unfold acquiresleep. ok_step. eapply (ok_bind _ _ _ (keep (Lsleep l :: h))); [|ok_intros; ok_auto].
  ok_iter (Lsleep l :: h).
Qed.
Lemma ok_releasesleep h l : ok h (releasesleep l) (keep h).
Proof. unfold releasesleep. ok_auto. Qed.
Lemma ok_holdingsleep h l : ok h (holdingsleep l) (keep h).
Proof. unfold holdingsleep. ok_auto. Qed.
Hint Resolve ok_scheduler ok_acquiresleep ok_releasesleep ok_holdingsleep : wf.

(* ------------------------------------------------------------------ *)
(** ** The disk, the buffer cache, the log *)

(** What the code above the driver relies on. *)
Class BlockDevSafe (dev : BlockDev) : Prop :=
  ok_disk : forall h b w, (b < NBUF)%nat -> ok h (@virtio_disk_rw dev b w) (keep h).

Context `{Dev : BlockDev} `{!BlockDevSafe Dev}.
Hint Resolve ok_disk : wf.

Lemma ok_bget_walk h (f : buf -> bool) (next : buf -> nat) (first : buf -> nat) :
  (forall x, buf_wf x -> (next x <= NBUF)%nat) -> (forall x, buf_wf x -> (first x <= NBUF)%nat) ->
  ok h (x <- getbuf HEAD ;;
        loop (S NBUF) (fun b =>
          if (b =? HEAD)%nat then ret (inr None)
          else x <- getbuf b ;; if f x then ret (inr (Some b)) else ret (inl (next x))) (first x))
    (fun o h' => h' = h /\ ptr NBUF o).
Proof.
  intros Hn Hf. ok_step.
  apply (ok_loop (fun b h' => h' = h /\ (b <= NBUF)%nat)); [auto|]. intros b h' [-> Hb].
  destruct (b =? HEAD)%nat eqn:E; [by ok_step|]. apply Nat.eqb_neq in E. repeat ok_step; cbn; split; auto; lia.
Qed.
Lemma ok_bget_cached h dev bn : ok h (bget_cached dev bn) (fun o h' => h' = h /\ ptr NBUF o).
Proof.
  unfold bget_cached.
  apply (ok_bget_walk _ (fun x => (b_dev x =? dev) && (b_blockno x =? bn)) b_next b_next); by intros ? [].
Qed.
Lemma ok_bget_free h : ok h bget_free (fun o h' => h' = h /\ ptr NBUF o).
Proof. unfold bget_free. apply (ok_bget_walk _ (fun x => b_refcnt x =? 0) b_prev b_prev); by intros ? []. Qed.
Hint Resolve ok_bget_cached ok_bget_free : wf.
Lemma ok_bget h dev bn : ok h (bget dev bn) (fun b h' => h' = h /\ (b < NBUF)%nat).
Proof. unfold bget. ok_auto. Qed.
Hint Resolve ok_bget : wf.
Lemma ok_bread h dev bn : ok h (bread dev bn) (fun b h' => h' = h /\ (b < NBUF)%nat).
Proof. unfold bread. ok_auto. Qed.
Lemma ok_bwrite h b : (b < NBUF)%nat -> ok h (bwrite b) (keep h).
Proof. intros Hb. unfold bwrite. ok_auto. Qed.

Hint Resolve ok_bread ok_bwrite : wf.
Lemma ok_brelse h b : (b < NBUF)%nat -> ok h (brelse b) (keep h).
Proof. intros Hb. unfold brelse. ok_auto. Qed.
Lemma ok_bpin h b : ok h (bpin b) (keep h).
Proof. unfold bpin. ok_auto. Qed.
Lemma ok_bunpin h b : ok h (bunpin b) (keep h).
Proof. unfold bunpin. ok_auto. Qed.
Lemma ok_consputc h c : ok h (consputc c) (keep h).
Proof. unfold consputc, uartputc_sync, uart_send. ok_auto. Qed.
Hint Resolve ok_brelse ok_bpin ok_bunpin ok_consputc : wf.
Lemma ok_printf h fmt ap : ok h (printf fmt ap) (keep h).
Proof. unfold printf. ok_auto. Qed.
Lemma ok_getlog h : ok h getlog (keep h).
Proof. unfold getlog. ok_auto. Qed.
Hint Resolve ok_printf ok_getlog : wf.

Lemma ok_for_tail h body : (forall i, ok h (body i) (keep h)) -> ok h (for_tail body) (keep h).
Proof. intros Hb. unfold for_tail. ok_iter h. Qed.
Lemma ok_install_trans h r : ok h (install_trans r) (keep h).
Proof. apply ok_for_tail. intros i. unfold install_one. ok_auto. Qed.
Lemma ok_write_log h : ok h write_log (keep h).
Proof. apply ok_for_tail. intros i. unfold write_log_one. ok_auto. Qed.
Lemma ok_read_head h : ok h read_head (keep h).
Proof. unfold read_head. ok_auto. Qed.
Lemma ok_write_head h : ok h write_head (keep h).
Proof. unfold write_head. ok_auto. Qed.
Hint Resolve ok_install_trans ok_write_log ok_read_head ok_write_head : wf.
Lemma ok_recover_from_log h : ok h recover_from_log (keep h).
Proof. unfold recover_from_log. ok_auto. Qed.
Lemma ok_commit h : ok h commit (keep h).
Proof. unfold commit. ok_auto. Qed.
Hint Resolve ok_recover_from_log ok_commit : wf.
Lemma ok_begin_op h : ok h begin_op (keep h).
Proof. unfold begin_op. ok_step. ok_iter (Llog :: h). Qed.
Lemma ok_end_op h : ok h end_op (keep h).
Proof. unfold end_op. ok_auto. Qed.
Lemma ok_log_write h b : ok h (log_write b) (keep h).
Proof. unfold log_write. ok_auto. Qed.
Hint Resolve ok_begin_op ok_end_op ok_log_write : wf.
Lemma ok_initlog dev sb : ok [] (initlog dev sb) (keep []).
Proof. unfold initlog. ok_auto. Qed.
Hint Resolve ok_initlog : wf.

(* ------------------------------------------------------------------ *)
(** ** The file system *)

Lemma ok_readsb h dev : ok h (readsb dev) (keep h).
Proof. unfold readsb. ok_auto. Qed.
Lemma ok_bzero h dev b : ok h (bzero dev b) (keep h).
Proof. unfold bzero. ok_auto. Qed.
Hint Resolve ok_readsb ok_bzero : wf.
Lemma ok_balloc h dev : ok h (balloc dev) (keep h).
Proof. unfold balloc. ok_step. eapply (ok_bind _ _ _ (keep h)); [ok_upto|ok_intros]. ok_auto. Qed.
Lemma ok_bfree h dev b : ok h (bfree dev b) (keep h).
Proof. unfold bfree. ok_auto. Qed.
Hint Resolve ok_balloc ok_bfree : wf.
Lemma ok_iget h dev inum : ok h (iget dev inum) (fun ip h' => h' = h /\ (ip < NINODE)%nat).
Proof. unfold iget. ok_auto; (split; [done|]); eapply tbl_index; eauto using wf_itable. Qed.
Hint Resolve ok_iget : wf.
Lemma ok_ialloc h dev ty : ok h (ialloc dev ty) (fun o h' => h' = h /\ ptr NINODE o).
Proof.
  unfold ialloc. ok_step.
  eapply (ok_bind _ _ _ (fun o h' => h' = h /\ ptr NINODE o)); [|ok_intros; ok_auto].
  apply ok_for_find; [done|]. intros i _. ok_auto.
Qed.
Lemma ok_iupdate h ip : ok h (iupdate ip) (keep h).
Proof. unfold iupdate. ok_auto. Qed.
Lemma ok_idup h ip : ok h (idup ip) (fun r h' => h' = h /\ r = ip).
Proof. unfold idup. ok_auto. Qed.
Lemma ok_ilock h ip : ok h (ilock ip) (keep h).
Proof. unfold ilock. ok_auto. Qed.
Lemma ok_iunlock h ip : ok h (iunlock ip) (keep h).
Proof. unfold iunlock. ok_auto. Qed.
Lemma ok_bmap h ip bn : ok h (bmap ip bn) (keep h).
Proof. unfold bmap. ok_auto. Qed.
Hint Resolve ok_ialloc ok_iupdate ok_idup ok_ilock ok_iunlock ok_bmap : wf.
Lemma ok_itrunc h ip : ok h (itrunc ip) (keep h).
Proof. unfold itrunc. ok_auto. Qed.
Hint Resolve ok_itrunc : wf.
Lemma ok_iput h ip : ok h (iput ip) (keep h).
Proof. unfold iput. ok_auto. Qed.
Hint Resolve ok_iput : wf.
Lemma ok_iunlockput h ip : ok h (iunlockput ip) (keep h).
Proof. unfold iunlockput. ok_auto. Qed.
Hint Resolve ok_iunlockput : wf.
Lemma ok_ireclaim h dev : ok h (ireclaim dev) (keep h).
Proof. unfold ireclaim. ok_auto. Qed.
Hint Resolve ok_ireclaim : wf.
Lemma ok_fsinit dev : ok [] (fsinit dev) (keep []).
Proof. unfold fsinit. ok_auto. Qed.
Lemma ok_stati h ip : ok h (stati ip) (keep h).
Proof. unfold stati. ok_auto. Qed.
Lemma ok_deliver h dst bs : ok h (deliver dst bs) (keep h).
Proof. unfold deliver. ok_auto. Qed.
Lemma ok_fetch h src m : ok h (fetch src m) (keep h).
Proof. unfold fetch. ok_auto. Qed.
Hint Resolve ok_fsinit ok_stati ok_deliver ok_fetch : wf.
Lemma ok_readi h ip dst off n : ok h (readi ip dst off n) (keep h).
Proof. unfold readi. ok_step. ok_step; [ok_auto|]. unfold readi_step. ok_iter h. Qed.
Lemma ok_writei h ip src off n : ok h (writei ip src off n) (keep h).
Proof.
  unfold writei. ok_step. do 2 (ok_step; [ok_auto|]). unfold writei_step.
  eapply (ok_bind _ _ _ (keep h)); [ok_iter h|ok_intros]. ok_auto.
Qed.
Hint Resolve ok_readi ok_writei : wf.
Lemma ok_read_dirent h dp off : ok h (read_dirent dp off) (keep h).
Proof. unfold read_dirent. ok_auto. Qed.
Hint Resolve ok_read_dirent : wf.
Lemma ok_dirlookup h dp name :
  ok h (dirlookup dp name) (fun o h' => h' = h /\ match o with Some (ip, _) => (ip < NINODE)%nat | None => True end).
Proof. unfold dirlookup. ok_step. ok_step; [ok_auto|]. apply ok_for_upto; [done|]. intros off. ok_auto. Qed.
Lemma ok_dir_slot h dp : ok h (dir_slot dp) (keep h).
Proof. unfold dir_slot. ok_step. eapply (ok_bind _ _ _ (keep h)); [ok_upto; by case_match|ok_intros]. ok_auto. Qed.
Hint Resolve ok_dirlookup ok_dir_slot : wf.
Lemma ok_dirlink h dp name inum : ok h (dirlink dp name inum) (keep h).
Proof. unfold dirlink. ok_auto. Qed.
Hint Resolve ok_dirlink : wf.
Lemma ok_namex h path par name :
  ok h (namex path par name) (fun r h' => h' = h /\ ptr NINODE r.1).
Proof.
  unfold namex.
  eapply (ok_bind _ _ _ (fun ip h' => h' = h /\ (ip < NINODE)%nat)).
  - ok_auto. split; [done|]. pose proof (pw_cwd a0) as Hc. rewrite Heqo in Hc. by apply Hc.
  - ok_intros. apply (ok_loop (fun x h' => h' = h /\ (x.1.1 < NINODE)%nat)); [done|].
    intros [[ip p] nm] h' [-> Hip]. unfold namex_step. cbn in Hip. ok_auto.
Qed.
Hint Resolve ok_namex : wf.
Lemma ok_namei h path : ok h (namei path) (fun o h' => h' = h /\ ptr NINODE o).
Proof. unfold namei. ok_auto. Qed.
Lemma ok_nameiparent h path name :
  ok h (nameiparent path name) (fun r h' => h' = h /\ ptr NINODE r.1).
Proof. unfold nameiparent. ok_auto. Qed.
Hint Resolve ok_namei ok_nameiparent : wf.

(* ------------------------------------------------------------------ *)
(** ** Console, pipes, files *)

Lemma ok_procdump h : ok h procdump (keep h).
Proof. unfold procdump. ok_auto. Qed.
Lemma ok_uartwrite h buf : ok h (uartwrite buf) (keep h).
Proof.
  unfold uartwrite, uart_send. ok_step. ok_step; [|ok_auto]. 
  eapply (ok_bind _ _ _ (keep (Ltx_lock :: h))); [ok_iter (Ltx_lock :: h)|ok_intros]. ok_auto.
Qed.
Lemma ok_uartgetc h : ok h uartgetc (keep h).
Proof. unfold uartgetc. ok_auto. Qed.
Hint Resolve ok_procdump ok_uartwrite ok_uartgetc : wf.
Lemma ok_consolewrite h u src n : ok h (consolewrite u src n) (keep h).
Proof. unfold consolewrite. ok_iter h. Qed.
Lemma ok_cons_wait h : ok (Lcons :: h) cons_wait (keep (Lcons :: h)).
Proof. unfold cons_wait, getcons. ok_iter (Lcons :: h). Qed.
Hint Resolve ok_consolewrite ok_cons_wait : wf.
Lemma ok_consoleread h u dst n : ok h (consoleread u dst n) (keep h).
Proof.
  unfold consoleread, getcons. ok_step.
  eapply (ok_bind _ _ _ (fun o h' => h' = match o with Some _ => Lcons :: h | None => h end)).
  - ok_iter (Lcons :: h).
  - ok_intros. ok_auto.
Qed.
Lemma ok_kill_line h : ok h kill_line (keep h).
Proof. unfold kill_line. ok_step. ok_iter h. Qed.
Lemma ok_cons_store h c : ok h (cons_store c) (keep h).
Proof. unfold cons_store. ok_auto. Qed.
Hint Resolve ok_consoleread ok_kill_line ok_cons_store : wf.
Lemma ok_consoleintr h c : ok h (consoleintr c) (keep h).
Proof. unfold consoleintr. ok_auto. Qed.
Hint Resolve ok_consoleintr : wf.
Lemma ok_uartintr h : ok h uartintr (keep h).
Proof. unfold uartintr. repeat ok_step; ok_iter h. Qed.
Hint Resolve ok_uartintr : wf.

Lemma ok_pipefree h pi : ok h (pipefree pi) (keep h).
Proof.
  unfold pipefree. eapply (ok_bind _ _ _ (keep h)); [|ok_intros; ok_auto].
  apply ok_modify. wf_rest. intros k x [_ Hk]%lookup_delete_Some. eauto.
Qed.
Hint Resolve ok_pipefree : wf.
Lemma ok_pipeclose h pi w : ok h (pipeclose pi w) (keep h).
Proof. unfold pipeclose. ok_auto. Qed.
Lemma ok_pipewrite h pi addr n : ok h (pipewrite pi addr n) (keep h).
Proof.
  unfold pipewrite. do 2 ok_step.
  eapply (ok_bind _ _ _ (fun o h' => h' = match o with Some _ => Lpipe pi :: h | None => h end)).
  - unfold pipewrite_step, pipe_put. ok_iter (Lpipe pi :: h).
  - ok_intros. ok_auto.
Qed.
Lemma ok_pipe_wait h pr pi : ok (Lpipe pi :: h) (pipe_wait pr pi) (keep (Lpipe pi :: h)).
Proof. unfold pipe_wait. ok_iter (Lpipe pi :: h). Qed.
Hint Resolve ok_pipeclose ok_pipewrite ok_pipe_wait : wf.
Lemma ok_piperead h pi addr n : ok h (piperead pi addr n) (keep h).
Proof.
  unfold piperead. do 3 ok_step. ok_step; [ok_auto|].
  eapply (ok_bind _ _ _ (keep (Lpipe pi :: h))); [unfold piperead_step; ok_iter (Lpipe pi :: h)|ok_intros]. ok_auto.
Qed.
Hint Resolve ok_piperead : wf.

Lemma ok_file_ip h x : file_wf x -> ok h (file_ip x) (fun ip h' => h' = h /\ (ip < NINODE)%nat).
Proof. unfold file_wf, file_ip. intros Hx. ok_auto. Qed.
Lemma ok_filealloc h : ok h filealloc (fun o h' => h' = h /\ ptr NFILE o).
Proof.
  unfold filealloc. ok_step.
  eapply (ok_bind _ _ _ (fun o h' => match o with Some f => h' = h /\ (f < NFILE)%nat | None => h' = Lftable :: h end)).
  - apply ok_for_find; [done|]. intros f Hf%elem_of_seq. ok_auto. split; [done|lia].
  - ok_intros. destruct a0; ok_auto.
Qed.
Lemma ok_filedup h f : ok h (filedup f) (fun r h' => h' = h /\ r = f).
Proof. unfold filedup. ok_auto. Qed.
Hint Resolve ok_file_ip ok_filealloc ok_filedup : wf.
Lemma ok_fileclose h f : ok h (fileclose f) (keep h).
Proof. unfold fileclose. ok_auto. Qed.
Lemma ok_filestat h f addr : ok h (filestat f addr) (keep h).
Proof. unfold filestat. ok_auto. Qed.
Lemma ok_fileread h f addr n : ok h (fileread f addr n) (keep h).
Proof. unfold fileread, has_dev. ok_auto. Qed.
Lemma ok_filewrite h f addr n : ok h (filewrite f addr n) (keep h).
Proof.
  unfold filewrite, has_dev. ok_auto.
  eapply (ok_bind _ _ _ (keep h)); [unfold filewrite_step; ok_iter h|ok_intros]. ok_auto.
Qed.
Hint Resolve ok_fileclose ok_filestat ok_fileread ok_filewrite : wf.
Lemma ok_newpipe h pi :
  ok h (modify (fun s => set_k_pipes (<[pi := mkpipe (zeros 512) 0 0 1 1]> (k_pipes s)) s)) (keep h).
Proof.
  apply ok_modify. wf_rest. intros k x [[_ <-]|[_ Hk]]%lookup_insert_Some; [done|]. eauto.
Qed.
Hint Resolve ok_newpipe | 1 : wf.
Lemma ok_pipealloc :
  ok [] pipealloc (fun o h' => h' = [] /\
    match o with Some (f0, f1) => (f0 < NFILE)%nat /\ (f1 < NFILE)%nat | None => True end).
Proof. unfold pipealloc, pipealloc_bad. ok_auto. Qed.
Hint Resolve ok_pipealloc : wf.

(* ------------------------------------------------------------------ *)
(** ** Processes *)

Lemma ok_tf_get h p f : ok h (tf_get p f) (keep h).
Proof. unfold tf_get. ok_auto. Qed.
Lemma ok_tf_set h p f v : ok h (tf_set p f v) (keep h).
Proof. unfold tf_set. ok_auto. Qed.
Lemma ok_deref h o msg : ok h (deref o msg) (fun i h' => h' = h /\ o = Some i).
Proof. unfold deref. ok_auto. Qed.
Lemma ok_proc_freepagetable h pt sz : ok h (proc_freepagetable pt sz) (keep h).
Proof. unfold proc_freepagetable. ok_auto. Qed.
Lemma ok_proc_pagetable h p : ok h (proc_pagetable p) (keep h).
Proof. unfold proc_pagetable. ok_auto. Qed.
Hint Resolve ok_tf_get ok_tf_set ok_deref ok_proc_freepagetable ok_proc_pagetable : wf.
Lemma ok_freeproc h p : ok h (freeproc p) (keep h).
Proof. unfold freeproc. ok_auto. Qed.
Hint Resolve ok_freeproc : wf.

(** A process found or allocated is returned with its lock held. *)
Definition locked h (o : option nat) (h' : list lockid) : Prop :=
  match o with Some p => (p < NPROC)%nat /\ h' = Lproc p :: h | None => h' = h end.
Lemma ok_find_unused h : ok h find_unused (locked h).
Proof. apply ok_for_find; [done|]. intros i Hi%elem_of_seq. ok_auto. cbn. split; [lia|done]. Qed.
Lemma ok_allocproc h : ok h allocproc (locked h).
Proof.
  unfold allocproc. eapply ok_bind; [apply ok_find_unused|]. intros [p|] h' Hp; [|ok_auto].
  destruct Hp as [Hp ->]. unfold proc_reset. ok_auto.
Qed.
Hint Resolve ok_allocproc : wf.
Lemma ok_growproc h n : ok h (growproc n) (keep h).
Proof. unfold growproc. ok_auto. Qed.
Lemma ok_copy_files h p np : ok h (copy_files p np) (keep h).
Proof. unfold copy_files. ok_auto. Qed.
Hint Resolve ok_growproc ok_copy_files : wf.
Lemma ok_kfork h : ok h kfork (keep h).
Proof.
  unfold kfork. ok_step. eapply ok_bind; [apply ok_allocproc|]. intros [np|] h' Hp; [|ok_auto].
  destruct Hp as [Hp ->]. ok_auto.
Qed.
Lemma ok_reparent h p : ok h (reparent p) (keep h).
Proof. unfold reparent. ok_auto. Qed.
Lemma ok_close_files h p : ok h (close_files p) (keep h).
Proof. unfold close_files. ok_auto. Qed.
Hint Resolve ok_kfork ok_reparent ok_close_files : wf.
(** [exit] does not return. *)
Lemma ok_kexit h st : ok h (kexit st) (fun _ _ => False).
Proof. unfold kexit. ok_auto. Qed.
Hint Resolve ok_kexit : wf.
Lemma ok_reap h p addr l kids :
  ok (Lwait_lock :: h) (reap p addr l kids)
    (fun r h' => h' = match r.1 with Some _ => h | None => Lwait_lock :: h end).
Proof. revert kids. induction l as [|i l IH]; intros kids; cbn [reap]; ok_auto. Qed.
Lemma ok_kwait h addr : ok h (kwait addr) (keep h).
Proof.
  unfold kwait. do 2 ok_step. apply (ok_loop (fun _ h' => h' = Lwait_lock :: h)); [done|]. intros _ h' ->.
  eapply ok_bind; [apply ok_reap|]. intros [[r|] kids] h' Hr; cbn in *; subst; ok_auto.
Qed.
Lemma ok_set_initproc h o : ptr NPROC o -> ok h (modify (set_k_initproc o)) (keep h).
Proof. intros Ho. apply ok_modify. wf_rest. Qed.
Lemma ok_userinit h : ok h userinit (keep h).
Proof.
  unfold userinit. eapply ok_bind; [apply ok_allocproc|]. intros [p|] h' Hp.
  - destruct Hp as [Hp ->]. eapply ok_bind; [by apply ok_set_initproc|ok_intros]. cbn [deref]. ok_auto.
  - cbn in Hp. subst. eapply ok_bind; [by apply ok_set_initproc|ok_intros]. ok_auto.
Qed.
Hint Resolve ok_kwait ok_userinit : wf.

(* ------------------------------------------------------------------ *)
(** ** System call arguments *)

Lemma ok_fetchaddr h a : ok h (fetchaddr a) (keep h).
Proof. unfold fetchaddr. ok_auto. Qed.
Lemma ok_fetchstr h a m : ok h (fetchstr a m) (keep h).
Proof. unfold fetchstr. ok_auto. Qed.
Lemma ok_argraw h n : ok h (argraw n) (keep h).
Proof. unfold argraw. ok_auto. Qed.
Hint Resolve ok_fetchaddr ok_fetchstr ok_argraw : wf.
Lemma ok_argint h n : ok h (argint n) (keep h).
Proof. unfold argint. ok_auto. Qed.
Lemma ok_argaddr h n : ok h (argaddr n) (keep h).
Proof. unfold argaddr. ok_auto. Qed.
Hint Resolve ok_argint ok_argaddr : wf.
Lemma ok_argstr h n m : ok h (argstr n m) (keep h).
Proof. unfold argstr. ok_auto. Qed.
Hint Resolve ok_argstr : wf.

(* ------------------------------------------------------------------ *)
(** ** [exec] *)

Lemma ok_kstring_get h k : ok h (kstring_get k) (keep h).
Proof. unfold kstring_get. ok_auto. Qed.
Lemma ok_loadseg h pt va ip off sz : ok h (loadseg pt va ip off sz) (keep h).
Proof. unfold loadseg, loadseg_step. ok_iter h. Qed.
Lemma ok_kexec_bad h pt sz ip : ok h (kexec_bad pt sz ip) (keep h).
Proof. unfold kexec_bad. ok_auto. Qed.
Hint Resolve ok_kstring_get ok_loadseg ok_kexec_bad : wf.
Lemma ok_push_args h pt base argv argc sp us : ok h (push_args pt base argv argc sp us) (keep h).
Proof. revert argc sp us. induction argv as [|a argv IH]; intros; cbn [push_args]; ok_auto. Qed.
Hint Resolve ok_push_args : wf.
Lemma ok_kexec_start h path argv pt sz entry : ok h (kexec_start path argv pt sz entry) (keep h).
Proof. unfold kexec_start. ok_auto. Qed.
Hint Resolve ok_kexec_start : wf.
Lemma ok_load h ip pt n fuel x : ok h (loop fuel (load_step ip pt n) x) (keep h).
Proof. unfold load_step. ok_iter h. Qed.
Hint Resolve ok_load : wf.
Lemma ok_kexec h path argv : ok h (kexec path argv) (keep h).
Proof. unfold kexec. ok_auto. Qed.
Hint Resolve ok_kexec : wf.

(* ------------------------------------------------------------------ *)
(** ** File-system calls *)

Lemma ok_argfd h n :
  ok h (argfd n) (fun o h' => h' = h /\ match o with Some (_, f) => (f < NFILE)%nat | None => True end).
Proof. unfold argfd. ok_auto. eauto using ofile_lt. Qed.
Lemma ok_fdalloc h f : (f < NFILE)%nat -> ok h (fdalloc f) (keep h).
Proof. intros Hf. unfold fdalloc. ok_step. ok_find. Qed.
Lemma ok_fdclear h fd : ok h (fdclear fd) (keep h).
Proof. unfold fdclear. ok_auto. Qed.
Hint Resolve ok_argfd ok_fdalloc ok_fdclear : wf.
Lemma ok_sys_dup h : ok h sys_dup (keep h).
Proof. unfold sys_dup. ok_auto. Qed.
Lemma ok_sys_read h : ok h sys_read (keep h).
Proof. unfold sys_read. ok_auto. Qed.
Lemma ok_sys_write h : ok h sys_write (keep h).
Proof. unfold sys_write. ok_auto. Qed.
Lemma ok_sys_close h : ok h sys_close (keep h).
Proof. unfold sys_close. ok_auto. Qed.
Lemma ok_sys_fstat h : ok h sys_fstat (keep h).
Proof. unfold sys_fstat. ok_auto. Qed.
Lemma ok_sys_link h : ok h sys_link (keep h).
Proof. unfold sys_link, link_bad. ok_auto. Qed.
Lemma ok_isdirempty h dp : ok h (isdirempty dp) (keep h).
Proof. unfold isdirempty, isdirempty_step. ok_step. ok_iter h. Qed.
Lemma ok_unlink_entry h dp ip off : ok h (unlink_entry dp ip off) (keep h).
Proof. unfold unlink_entry. ok_auto. Qed.
Hint Resolve ok_isdirempty ok_unlink_entry : wf.
Lemma ok_sys_unlink h : ok h sys_unlink (keep h).
Proof. unfold sys_unlink, unlink_bad. ok_auto. Qed.
Lemma ok_create_fail h dp ip : ok h (create_fail dp ip) (fun o h' => h' = h /\ o = None).
Proof. unfold create_fail. ok_auto. Qed.
Hint Resolve ok_create_fail : wf.
Lemma ok_create_new h dp ip name ty ma mi :
  (ip < NINODE)%nat -> ok h (create_new dp ip name ty ma mi) (fun o h' => h' = h /\ ptr NINODE o).
Proof. intros Hip. unfold create_new. ok_auto. Qed.
Hint Resolve ok_create_new : wf.
Lemma ok_create h path ty ma mi :
  ok h (create path ty ma mi) (fun o h' => h' = h /\ ptr NINODE o).
Proof. unfold create. ok_auto. Qed.
Hint Resolve ok_create : wf.
Lemma ok_open_inode h ip mode : (ip < NINODE)%nat -> ok h (open_inode ip mode) (keep h).
Proof. intros Hip. unfold open_inode, open_fail. ok_auto. Qed.
Hint Resolve ok_open_inode : wf.
Lemma ok_sys_open h : ok h sys_open (keep h).
Proof. unfold sys_open, open_fail. ok_auto. Qed.
Lemma ok_sys_mkdir h : ok h sys_mkdir (keep h).
Proof. unfold sys_mkdir. ok_auto. Qed.
Lemma ok_sys_mknod h : ok h sys_mknod (keep h).
Proof. unfold sys_mknod. ok_auto. Qed.
Lemma ok_sys_chdir h : ok h sys_chdir (keep h).
Proof. unfold sys_chdir. ok_auto. Qed.
Lemma ok_exec_args h uargv fuel x : ok h (loop fuel (exec_args_step uargv) x) (keep h).
Proof. unfold exec_args_step. ok_iter h. Qed.
Hint Resolve ok_exec_args : wf.
Lemma ok_sys_exec h : ok h sys_exec (keep h).
Proof. unfold sys_exec. ok_auto. Qed.
Lemma ok_sys_pipe : ok [] sys_pipe (keep []).
Proof. unfold sys_pipe, pipe_fail. ok_auto. destruct_and!. ok_auto. Qed.
Hint Resolve ok_sys_dup ok_sys_read ok_sys_write ok_sys_close ok_sys_fstat ok_sys_link ok_sys_unlink ok_sys_open
  ok_sys_mkdir ok_sys_mknod ok_sys_chdir ok_sys_exec ok_sys_pipe : wf.

(* ------------------------------------------------------------------ *)
(** ** Process-related calls *)

Lemma ok_sys_exit h : ok h sys_exit (keep h).
Proof. unfold sys_exit. ok_auto. Qed.
Lemma ok_sys_getpid h : ok h sys_getpid (keep h).
Proof. unfold sys_getpid. ok_auto. Qed.
Lemma ok_sys_fork h : ok h sys_fork (keep h).
Proof. unfold sys_fork. ok_auto. Qed.
Lemma ok_sys_wait h : ok h sys_wait (keep h).
Proof. unfold sys_wait. ok_auto. Qed.
Lemma ok_sys_sbrk h : ok h sys_sbrk (keep h).
Proof. unfold sys_sbrk. ok_auto. Qed.
Lemma ok_sys_pause h : ok h sys_pause (keep h).
Proof. unfold sys_pause, pause_step. do 3 ok_step. ok_iter (Ltickslock :: h). Qed.
Lemma ok_sys_kill h : ok h sys_kill (keep h).
Proof. unfold sys_kill. ok_auto. Qed.
Lemma ok_sys_uptime h : ok h sys_uptime (keep h).
Proof. unfold sys_uptime. ok_auto. Qed.
Lemma ok_sys_hello h : ok h sys_hello (keep h).
Proof. unfold sys_hello. ok_auto. Qed.
Lemma ok_sys_getpid2 h : ok h sys_getpid2 (keep h).
Proof. unfold sys_getpid2. ok_auto. Qed.
Lemma ok_sys_getppid h : ok h sys_getppid (keep h).
Proof. unfold sys_getppid. ok_auto. Qed.
Lemma ok_count_children h cur l n : ok h (count_children cur l n) (keep h).
Proof. revert n. induction l as [|i l IH]; intros; cbn [count_children]; ok_auto. Qed.
Hint Resolve ok_count_children : wf.
Lemma ok_sys_getnumchild h : ok h sys_getnumchild (keep h).
Proof. unfold sys_getnumchild. ok_auto. Qed.
Lemma ok_sys_getsyscount h : ok h sys_getsyscount (keep h).
Proof. unfold sys_getsyscount. ok_auto. Qed.
Lemma ok_sys_getchildsyscount h : ok h sys_getchildsyscount (keep h).
Proof.
  unfold sys_getchildsyscount. do 2 ok_step. eapply (ok_bind _ _ _ (keep h)); [ok_find|ok_intros]. ok_auto.
Qed.
Lemma ok_sys_getlevel h : ok h sys_getlevel (keep h).
Proof. unfold sys_getlevel. ok_auto. Qed.
Lemma ok_find_pid h pid : ok h (find_pid pid) (keep h).
Proof. unfold find_pid. ok_find. by case_match. Qed.
Hint Resolve ok_find_pid : wf.
Lemma ok_sys_getmlfqinfo h : ok h sys_getmlfqinfo (keep h).
Proof. unfold sys_getmlfqinfo. ok_auto. Qed.
Lemma ok_sys_getvmstats h : ok h sys_getvmstats (keep h).
Proof. unfold sys_getvmstats. ok_auto. Qed.
Hint Resolve ok_sys_exit ok_sys_getpid ok_sys_fork ok_sys_wait ok_sys_sbrk ok_sys_pause ok_sys_kill ok_sys_uptime
  ok_sys_hello ok_sys_getpid2 ok_sys_getppid ok_sys_getnumchild ok_sys_getsyscount ok_sys_getchildsyscount
  ok_sys_getlevel ok_sys_getmlfqinfo ok_sys_getvmstats : wf.

(* ------------------------------------------------------------------ *)
(** ** The disk driver *)

Lemma ok_getvd {A} h (f : vdisk -> A) : ok h (getvd f) (fun a h' => h' = h /\ exists v, vdisk_wf v /\ a = f v).
Proof. intros s Hs <-. split; [done|]. split; [done|]. exists (k_vdisk s). split; [apply Hs|done]. Qed.
Hint Resolve ok_getvd : wf.
Lemma ok_set_desc h i d : ok h (set_desc i d) (keep h).
Proof. unfold set_desc. ok_auto. Qed.
Lemma ok_alloc_desc h : ok h alloc_desc (keep h).
Proof. unfold alloc_desc. eapply (ok_bind _ _ _ (keep h)); [ok_find|ok_intros]. ok_auto. Qed.
Hint Resolve ok_set_desc ok_alloc_desc : wf.
Lemma ok_free_desc h i : ok h (free_desc i) (keep h).
Proof. unfold free_desc. ok_auto. Qed.
Hint Resolve ok_free_desc : wf.
Lemma ok_free_chain h i : ok h (free_chain i) (keep h).
Proof. unfold free_chain. ok_iter h. Qed.
Lemma ok_alloc3_desc h : ok h alloc3_desc (keep h).
Proof. unfold alloc3_desc. ok_auto. Qed.
Lemma ok_format_request h b w sec i0 i1 i2 : (b < NBUF)%nat -> ok h (format_request b w sec i0 i1 i2) (keep h).
Proof. intros Hb. unfold format_request, vreg_write, mmio_write. ok_auto. Qed.
Lemma ok_wait_done h b : ok (Lvdisk_lock :: h) (wait_done b) (keep (Lvdisk_lock :: h)).
Proof. unfold wait_done. ok_iter (Lvdisk_lock :: h). Qed.
Hint Resolve ok_free_chain ok_alloc3_desc ok_format_request ok_wait_done : wf.
Lemma ok_disk_rw h b w : (b < NBUF)%nat -> ok h (disk_rw b w) (keep h).
Proof.
  intros Hb. unfold disk_rw. do 2 ok_step.
  eapply (ok_bind _ _ _ (keep (Lvdisk_lock :: h))); [ok_iter (Lvdisk_lock :: h)|ok_intros]. ok_auto.
Qed.
Lemma ok_virtio_disk_intr `{VirtioRegs} h : ok h virtio_disk_intr (keep h).
Proof.
  unfold virtio_disk_intr, vreg_read, vreg_write, mmio_write. repeat ok_step.
  eapply (ok_bind _ _ _ (keep (Lvdisk_lock :: h))); [unfold intr_step; ok_iter (Lvdisk_lock :: h)|ok_intros]. ok_auto.
Qed.
Lemma ok_queue_setup `{VirtioRegs} h st : ok h (queue_setup st) (keep h).
Proof. unfold queue_setup, queue_addr, vreg_write, mmio_write. ok_auto. Qed.
Hint Resolve ok_virtio_disk_intr ok_queue_setup : wf.
Lemma ok_virtio_disk_init `{VirtioRegs} : ok [] virtio_disk_init (keep []).
Proof. unfold virtio_disk_init, vreg_read, vreg_write, mmio_write. ok_auto. Qed.
Hint Resolve ok_virtio_disk_init : wf.

(* ------------------------------------------------------------------ *)
(** ** Traps *)

Context `{Regs : VirtioRegs}.

Lemma ok_plic_claim h : ok h plic_claim (keep h).
Proof. unfold plic_claim, gethw. ok_auto. Qed.
Lemma ok_plic_complete h irq : ok h (plic_complete irq) (keep h).
Proof. unfold plic_complete, cpuid, gethw, mmio_write. ok_auto. Qed.

(** Charging a tick may use up the slice; together with what follows it keeps
    the process well-formed. *)
Lemma level_quantum l : 0 <= l <= 3 -> 0 < get_quantum l.
Proof.
  intros Hl. assert (l = 0 \/ l = 1 \/ l = 2 \/ l = 3) as [->|[->|[->| ->]]] by lia; done.
Qed.
Lemma mlfq_expired_wf p : proc_wf p -> proc_wf (mlfq_slice_end (mlfq_charge p)).
Proof.
  intros [Hl Ht Hp Ho Hc Hpa]. unfold mlfq_slice_end, mlfq_charge. ksimp.
  case_match; split; ksimp; rewrite ?length_alter; try done; try lia.
  split; [lia|]. apply level_quantum. lia.
Qed.
Lemma mlfq_charge_wf p : proc_wf p -> mlfq_expired (mlfq_charge p) = false -> proc_wf (mlfq_charge p).
Proof.
  intros [Hl Ht Hp Ho Hc Hpa] He%Z.leb_gt. split; unfold mlfq_charge in *; ksimp in *; rewrite ?length_alter; try done. lia.
Qed.
Lemma ok_mlfq_tick h p : (p < NPROC)%nat -> ok h (mlfq_tick p) (keep h).
Proof.
  intros Hp s Hs Hh. unfold mlfq_tick, updproc, getproc. rewrite bind_modify, bind_gets. ksimp.
  pose proof (wf_proc s Hs) as Ht. destruct (lookup_lt_is_Some_2 (k_proc s) p) as [x Hx]; [rewrite (proj1 Ht); done|].
  assert (proc_wf x) as Hw by (by eapply Forall_lookup_1; [apply Ht|]).
  rewrite list_lookup_total_alter_eq, (list_lookup_total_correct _ _ _ Hx) by (by rewrite (proj1 Ht)).
  destruct (mlfq_expired (mlfq_charge x)) eqn:E.
  - rewrite bind_modify. ksimp. apply ok_yield; [|done]. destruct Hs; split; ksimp; try done.
    rewrite list_alter_alter_eq. apply tbl_alter; [done|]. apply mlfq_expired_wf.
  - split; [|done]. destruct Hs; split; ksimp; try done. destruct Ht as [Hn Hl].
    split; [by rewrite length_alter|]. apply Forall_alter; [done|]. intros y Hy _. simplify_eq.
    by apply mlfq_charge_wf.
Qed.
Lemma ok_mlfq_boost h : ok h mlfq_boost (keep h).
Proof. unfold mlfq_boost. ok_auto. Qed.
Hint Resolve ok_plic_claim ok_plic_complete ok_mlfq_tick ok_mlfq_boost : wf.
Lemma ok_clockintr h : ok h clockintr (keep h).
Proof. unfold clockintr, cpuid, gethw. ok_auto. Qed.
Hint Resolve ok_clockintr : wf.
Lemma ok_devintr h : ok h devintr (keep h).
Proof. unfold devintr, gethw. ok_auto. Qed.
Lemma ok_prepare_return h : ok h prepare_return (keep h).
Proof. unfold prepare_return, gethw, intr_off. ok_auto. Qed.
Hint Resolve ok_devintr ok_prepare_return : wf.
Lemma ok_syscalls : Forall (fun o => match o with Some f => ok [] f (keep []) | None => True end) syscalls.
Proof. unfold syscalls. repeat constructor; ok_hint. Qed.
Lemma ok_syscall : ok [] syscall (keep []).
Proof.
  unfold syscall. do 2 ok_step.
  destruct (if 0 <? i32 a0 then syscalls !! Z.to_nat (i32 a0) else None) as [[f|]|] eqn:E; [|ok_auto..].
  ok_step. eapply (ok_bind _ _ _ (keep [])); [|ok_intros; ok_auto].
  destruct (0 <? i32 a0); [|done]. by apply (Forall_lookup_1 _ _ _ _ ok_syscalls) in E.
Qed.
Hint Resolve ok_syscall : wf.
Lemma ok_usertrap_cause p : ok [] (usertrap_cause p) (keep []).
Proof. unfold usertrap_cause, gethw, intr_on. ok_auto. Qed.
Hint Resolve ok_usertrap_cause : wf.
Lemma ok_usertrap : ok [] usertrap (keep []).
Proof. unfold usertrap, gethw. ok_auto. Qed.
Lemma ok_kerneltrap h : ok h kerneltrap (keep h).
Proof. unfold kerneltrap, gethw, intr_get. ok_auto. Qed.
Lemma ok_forkret p : ok [Lproc p] forkret (keep []).
Proof.
  unfold forkret. do 2 ok_step. assert (a = p) as -> by set_solver. rewrite rem1_cons. ok_auto.
Qed.

Lemma ok_kinit : ok [] kinit (keep []).
Proof. unfold kinit. ok_auto. Qed.
Lemma ok_frametable_init : ok [] frametable_init (keep []).
Proof. unfold frametable_init. ok_auto. Qed.
Lemma ok_swap_init : ok [] swap_init (keep []).
Proof. unfold swap_init. ok_auto. Qed.
Lemma ok_procinit : ok [] procinit (keep []).
Proof. unfold procinit. ok_auto. Qed.
Lemma ok_initsleeplock l : ok [] (initsleeplock l) (keep []).
Proof. unfold initsleeplock. ok_auto. Qed.
Hint Resolve ok_kinit ok_frametable_init ok_swap_init ok_procinit ok_initsleeplock : wf.
Lemma ok_binit : ok [] binit (keep []).
Proof. unfold binit. ok_auto. apply elem_of_seq in H1. ok_auto. Qed.
Lemma ok_iinit : ok [] iinit (keep []).
Proof. unfold iinit. ok_auto. Qed.
Lemma ok_consoleinit : ok [] consoleinit (keep []).
Proof.
  unfold consoleinit, uartinit, WriteReg, mmio_write. ok_auto. apply ok_modify. wf_rest. by rewrite length_insert.
Qed.
Hint Resolve ok_binit ok_iinit ok_consoleinit : wf.
Lemma ok_main rounds : ok [] (main rounds) (keep []).
Proof. unfold main, cpuid, gethw, trapinit, trapinithart, plicinit, plicinithart, fileinit, cpuid, gethw, mmio_write. ok_auto. Qed.
End Kernel.
