(* ===== verification/PipeFifo.v ===== *)
(** * Pipes are bounded queues ([kernel/pipe.c])

    The counters [nread] and [nwrite] of a pipe run on modulo [2^32]; the
    content is the queue of the bytes between them. *)

From S2P Require Import Prelude Machine KState Spinlock Kalloc Walk FrameTable Vm Sched Printf Print Console Pipe.
Local Open Scope Z_scope.
Local Open Scope kern_scope.

(* ------------------------------------------------------------------ *)
(** ** The queue in a pipe *)

Definition pipe_at (p : pipe) (i : Z) : Z := pi_data p !!! Z.to_nat (i mod PIPESIZE).

Record pipe_queue (p : pipe) (q : list Z) : Prop := {
  pq_len : length (pi_data p) = Z.to_nat PIPESIZE;
  pq_nread : 0 <= pi_nread p < 2 ^ 32;
  pq_nwrite : pi_nwrite p = u32 (pi_nread p + Z.of_nat (length q));
  pq_cap : Z.of_nat (length q) <= PIPESIZE;
  pq_data : forall i x, q !! i = Some x -> pipe_at p (pi_nread p + Z.of_nat i) = x
}.

Lemma u32_mod512 x : u32 x mod PIPESIZE = x mod PIPESIZE.
Proof. unfold u32. Z.div_mod_to_equations. lia. Qed.

Lemma pipe_full p q : pipe_queue p q ->
  (pi_nwrite p =? u32 (pi_nread p + PIPESIZE)) = (Z.of_nat (length q) =? PIPESIZE).
Proof. intros [_ _ -> Hc _]. apply u32_eqb; lia. Qed.

Lemma pipe_empty p q : pipe_queue p q -> (pi_nread p =? pi_nwrite p) = (Z.of_nat (length q) =? 0).
Proof.
  intros [_ Hr -> Hc _]. rewrite Z.eqb_sym. replace (pi_nread p) with (u32 (pi_nread p + 0)) at 2.
  - apply u32_eqb; lia.
  - rewrite Z.add_0_r. by apply u32_small.
Qed.

Lemma pipe_queue_put p q c :
  pipe_queue p q -> Z.of_nat (length q) < PIPESIZE -> pipe_queue (pipe_put c p) (q ++ [c]).
Proof.
  intros [Hl Hr Hw Hc Hd] Hlt. unfold pipe_put. split; ksimp.
  - by rewrite length_insert.
  - done.
  - rewrite Hw, length_app. unfold u32. rewrite Zplus_mod_idemp_l. f_equal. cbn. lia.
  - rewrite length_app. cbn. lia.
  - intros i x Hi. unfold pipe_at. ksimp. rewrite Hw, u32_mod512.
    apply lookup_snoc_Some in Hi as [[Hi Hx]|[-> <-]].
    + rewrite list_lookup_total_insert_ne; [by apply Hd|]. intros E.
      apply (f_equal Z.of_nat) in E. Z.div_mod_to_equations. lia.
    + apply list_lookup_total_insert_eq. rewrite Hl.
      pose proof (Z.mod_pos_bound (pi_nread p + Z.of_nat (length q)) PIPESIZE). lia.
Qed.

Lemma pipe_queue_get p c q :
  pipe_queue p (c :: q) ->
  pipe_at p (pi_nread p) = c /\ pipe_queue (set_pi_nread (u32 (pi_nread p + 1)) p) q.
Proof.
  intros [Hl Hr Hw Hc Hd]. split; [rewrite <- (Hd 0%nat c) by done; f_equal; cbn; lia|].
  split; ksimp; [done|apply u32_range| | |].
  - rewrite Hw. unfold u32. rewrite Zplus_mod_idemp_l. f_equal. cbn [length]. lia.
  - cbn [length] in Hc. lia.
  - intros i x Hi. rewrite <- (Hd (S i) x) by done. unfold pipe_at. ksimp. f_equal. f_equal.
    rewrite <- (Zplus_mod_idemp_l (u32 _)), u32_mod512, Zplus_mod_idemp_l. f_equal. lia.
Qed.

(* ------------------------------------------------------------------ *)
(** ** Writing *)

Section Fifo.
Context `{ImageOk} `{SleepFuel}.

Lemma killed_eq p s :
  Lproc p ∉ k_held s -> killed p s = Done (p_killed (k_proc s !!! p)) s.
Proof.
  intros Hl. unfold killed. rewrite bind_acquire by done. unfold getproc. rewrite bind_gets. ksimp.
  erewrite bind_done by (by apply release_head). by destruct s.
Qed.

(** The pipe [pi] of a state. *)
Abbreviation thepipe s pi := (k_pipes s !!! pi).
Definition set_pipe (pi : Z) (f : pipe -> pipe) (s : kst) : kst := set_k_pipes (alter f pi (k_pipes s)) s.

Lemma thepipe_set pi f s : is_Some (k_pipes s !! pi) -> thepipe (set_pipe pi f s) pi = f (thepipe s pi).
Proof.
  intros [x Hx]. unfold set_pipe. ksimp. rewrite !lookup_total_alt, lookup_alter_eq, Hx. done.
Qed.

Lemma pipewrite_step_put s root ps pr pi addr n i q :
  vm_inv s root ps -> k_held s = [Lpipe pi] -> p_pagetable (k_proc s !!! pr) = root ->
  p_killed (k_proc s !!! pr) = 0 -> pipe_queue (thepipe s pi) q -> pi_readopen (thepipe s pi) <> 0 ->
  Z.of_nat (length q) < PIPESIZE -> 0 <= i < n -> user_range (k_mem s) root (addr + i) 1 ->
  pipewrite_step pr pi addr n i s =
    Done (inl (i + 1)) (set_pipe pi (pipe_put (k_mem s (uaddr (k_mem s) root (addr + i)))) s).
Proof.
  intros Hi Hh Hpt Hk Hq Hro Hcap Hin Hur. unfold pipewrite_step. rewrite (proj2 (Z.ltb_lt _ _)) by lia. cbn [negb].
  unfold getpipe. rewrite bind_gets, (proj2 (Z.eqb_neq _ 0) Hro).
  erewrite bind_done by (erewrite bind_done by (apply killed_eq; rewrite Hh; set_solver); done).
  rewrite Hk. cbn [nz Z.eqb negb]. rewrite (pipe_full _ q) by done. rewrite (proj2 (Z.eqb_neq _ _)) by lia.
  unfold getproc. rewrite bind_gets, Hpt. destruct Hur as (Hlo & Hhi & Hpa).
  rewrite u64_small by lia. erewrite bind_done by (apply (copyin_loop root s ps); [done|cbn; lia|lia|done]).
  cbn [fst snd Z.eqb]. unfold uread. change (seqZ 0 1) with [0]. cbn. by rewrite Z.add_0_r.
Qed.

(** [M] is [k_pipes s] with pipe [pi] holding [q]. *)
Definition pipes_upd (s : kst) (pi : Z) (q : list Z) (M : gmap Z pipe) : Prop :=
  pipe_queue (M !!! pi) q /\ is_Some (M !! pi) /\
  pi_readopen (M !!! pi) = pi_readopen (thepipe s pi) /\ pi_writeopen (M !!! pi) = pi_writeopen (thepipe s pi) /\
  forall pj, pj <> pi -> M !! pj = k_pipes s !! pj.

Lemma pipes_upd_step s pi q M f :
  pipes_upd (set_pipe pi f s) pi q M -> is_Some (k_pipes s !! pi) ->
  pi_readopen (f (thepipe s pi)) = pi_readopen (thepipe s pi) ->
  pi_writeopen (f (thepipe s pi)) = pi_writeopen (thepipe s pi) -> pipes_upd s pi q M.
Proof.
  intros (Hq & HM & Hr & Hw & Hne) Hs Hfr Hfw. rewrite thepipe_set in Hr, Hw by done. split_and!; [done|done|congruence..|].
  intros pj Hj. rewrite Hne by done. unfold set_pipe. ksimp. by rewrite lookup_alter_ne.
Qed.

Lemma pipewrite_loop root ps pr pi addr n fuel s i q :
  vm_inv s root ps -> k_held s = [Lpipe pi] -> p_pagetable (k_proc s !!! pr) = root ->
  p_killed (k_proc s !!! pr) = 0 -> is_Some (k_pipes s !! pi) -> pipe_queue (thepipe s pi) q ->
  pi_readopen (thepipe s pi) <> 0 -> 0 <= i <= n -> Z.of_nat (length q) + (n - i) <= PIPESIZE ->
  user_range (k_mem s) root (addr + i) (n - i) -> (Z.to_nat (n - i) < fuel)%nat ->
  exists M, loop fuel (pipewrite_step pr pi addr n) i s = Done (Some n) (set_k_pipes M s) /\
    pipes_upd s pi (q ++ uread (k_mem s) root (addr + i) (n - i)) M.
Proof.
  intros Hi Hh Hpt Hk. revert s i q Hi Hh Hpt Hk.
  induction fuel as [|fuel IH]; intros s i q Hi Hh Hpt Hk Hs Hq Hro Hin Hcap Hur Hf; [lia|].
  cbn [loop]. destruct (decide (i = n)) as [->|Hne].
  - exists (k_pipes s). unfold pipewrite_step at 1. rewrite Z.ltb_irrefl. cbn [negb]. rewrite bind_ret.
    rewrite Z.sub_diag. unfold uread. cbn [seqZ map]. split; [by destruct s|]. by rewrite app_nil_r.
  - destruct Hur as (Hlo & Hhi & Hpa). erewrite bind_done.
    2:{ eapply pipewrite_step_put; [done..|lia|lia|]. split_and!; [lia..|]. intros a Ha. apply Hpa. lia. }
    set (b := k_mem s _). destruct (IH (set_pipe pi (pipe_put b) s) (i + 1) (q ++ [b])) as (M & HM & HU).
    + by apply (vm_inv_proj s).
    + done.
    + done.
    + done.
    + unfold set_pipe. ksimp. rewrite lookup_alter_eq. destruct Hs as [x ->]. by eexists.
    + rewrite thepipe_set by done. apply pipe_queue_put; [done|lia].
    + by rewrite thepipe_set.
    + lia.
    + rewrite length_app. cbn. lia.
    + split_and!; [lia..|]. intros a Ha. apply Hpa. lia.
    + lia.
    + exists M. rewrite HM. split; [by destruct s|].
      replace (n - i) with (1 + (n - (i + 1))) by lia. rewrite uread_app by lia.
      unfold uread at 1. change (seqZ 0 1) with [0]. cbn [map]. rewrite Z.add_0_r, <- Z.add_assoc, app_assoc.
      fold b. by apply (pipes_upd_step s pi _ M (pipe_put b)).
Qed.

(* ------------------------------------------------------------------ *)
(** ** Reading *)

Lemma uaddr_inj m root ps va n a b :
  user_wr m root ps va n -> va <= a < va + n -> va <= b < va + n -> a <> b -> uaddr m root a <> uaddr m root b.
Proof.
  intros Hu Ha Hb Hne. destruct (decide (PGROUNDDOWN a = PGROUNDDOWN b)) as [E|E].
  - unfold uaddr. rewrite E. lia.
  - by apply (uaddr_ne m root ps va n).
Qed.

Lemma copyout_byte s root ps a c :
  vm_inv s root ps -> user_wr (k_mem s) root ps a 1 ->
  copyout root a [c] s = Done 0 (set_k_mem (mwrite (k_mem s) (uaddr (k_mem s) root a) [c]) s).
Proof.
  intros Hi Hu. unfold copyout. cbn [length loop]. pose proof (PGROUNDDOWN_le a).
  erewrite bind_done by (by apply (copyout_page s root ps)).
  replace (Z.min (PGSIZE - (a - PGROUNDDOWN a)) (Z.of_nat (length [c]))) with 1 by (cbn; lia). done.
Qed.

Lemma piperead_step_get s root ps pr pi addr n i c q :
  vm_inv s root ps -> p_pagetable (k_proc s !!! pr) = root -> pipe_queue (thepipe s pi) (c :: q) ->
  0 <= i < n -> user_wr (k_mem s) root ps addr n ->
  piperead_step pr pi addr n i s =
    Done (inl (i + 1)) (set_pipe pi (fun p => set_pi_nread (u32 (pi_nread p + 1)) p)
      (set_k_mem (mwrite (k_mem s) (uaddr (k_mem s) root (addr + i)) [c]) s)).
Proof.
  intros Hi Hpt Hq Hin Hu. unfold piperead_step. rewrite (proj2 (Z.ltb_lt _ _)) by lia. cbn [negb].
  unfold getpipe. rewrite bind_gets, (pipe_empty _ _ Hq). rewrite (proj2 (Z.eqb_neq _ 0)) by (cbn [length]; lia).
  unfold getproc. rewrite bind_gets, Hpt. destruct (pipe_queue_get _ _ _ Hq) as [Hc _]. unfold pipe_at in Hc. rewrite Hc.
  destruct (uw_range _ _ _ _ _ Hu) as (Hlo & Hhi & _). rewrite u64_small by lia.
  erewrite bind_done; [|apply (copyout_byte s root ps); [done|]]; [done|].
  pose proof (user_wr_drop _ _ _ _ _ i Hu ltac:(lia)) as [Hr Hw Hp Hj].
  destruct Hr as (? & ? & Hr). split.
  - split_and!; [lia..|]. intros b Hb. apply Hr. lia.
  - intros b Hb. apply Hw. lia.
  - intros b Hb. apply Hp. lia.
  - intros b b' Hb Hb'. apply Hj; lia.
Qed.

(** The bytes [bs] were stored at [va]: nothing else changed. *)
Record stored (root va : Z) (bs : list Z) (m m' : mem) : Prop := {
  sd_lookup : forall a, lookup_pte m' root a = lookup_pte m root a;
  sd_data : uread m' root va (Z.of_nat (length bs)) = bs;
  sd_frame : forall x, (forall j, 0 <= j < Z.of_nat (length bs) -> x <> uaddr m root (va + j)) -> m' x = m x
}.

Lemma stored_cons root ps va n i c bs m m' :
  user_wr m root ps va n -> 0 <= i -> i + 1 + Z.of_nat (length bs) <= n ->
  (forall a, lookup_pte (mwrite m (uaddr m root (va + i)) [c]) root a = lookup_pte m root a) ->
  stored root (va + (i + 1)) bs (mwrite m (uaddr m root (va + i)) [c]) m' -> stored root (va + i) (c :: bs) m m'.
Proof.
  intros Hu Hi Hn Hlk [Hl Hd Hf]. set (m1 := mwrite _ _ _) in *.
  assert (forall a, uaddr m1 root a = uaddr m root a) as Hua by (intros; by apply uaddr_lookup).
  split.
  - intros a. by rewrite Hl.
  - cbn [length]. replace (Z.of_nat (S (length bs))) with (1 + Z.of_nat (length bs)) by lia.
    rewrite uread_app by lia. rewrite <- Z.add_assoc, Hd. cbn [app]. f_equal. unfold uread.
    change (seqZ 0 1) with [0]. cbn [map]. f_equal. rewrite Z.add_0_r, (uaddr_lookup m) by (intros; by rewrite Hl).
    rewrite Hf; [unfold m1; rewrite mwrite_in by (cbn; lia); by rewrite Z.sub_diag|].
    intros j Hj. rewrite Hua. apply (uaddr_inj m root ps va n); [done|lia..].
  - intros x Hx. rewrite Hf.
    + unfold m1. apply mwrite_out. cbn. specialize (Hx 0). rewrite Z.add_0_r in Hx. cbn in Hx. lia.
    + intros j Hj. rewrite Hua. replace (va + (i + 1) + j) with (va + i + (1 + j)) by lia. apply Hx. cbn [length]. lia.
Qed.

Lemma piperead_loop root ps pr pi addr n fuel s i q :
  vm_inv s root ps -> p_pagetable (k_proc s !!! pr) = root -> is_Some (k_pipes s !! pi) ->
  pipe_queue (thepipe s pi) q -> user_wr (k_mem s) root ps addr n -> 0 <= i <= n ->
  (Z.to_nat (n - i) < fuel)%nat ->
  let k := Z.min (n - i) (Z.of_nat (length q)) in
  exists M m, loop fuel (piperead_step pr pi addr n) i s = Done (i + k) (set_k_pipes M (set_k_mem m s)) /\
    pipes_upd s pi (drop (Z.to_nat k) q) M /\ stored root (addr + i) (take (Z.to_nat k) q) (k_mem s) m /\
    vm_inv (set_k_mem m s) root ps.
Proof.
  revert s i q. induction fuel as [|fuel IH]; intros s i q Hi Hpt Hs Hq Hu Hin Hf k; [lia|]. cbn [loop].
  destruct (decide (k = 0)) as [Ek|Hk].
  - exists (k_pipes s), (k_mem s). rewrite Ek, Z.add_0_r. cbn [Z.to_nat take drop]. split_and!.
    + assert (piperead_step pr pi addr n i s = Done (inr i) s) as Hstep.
      { unfold piperead_step. destruct (Z.ltb_spec i n) as [Hlt|]; cbn [negb]; [|done].
        unfold getpipe. rewrite bind_gets, (pipe_empty _ _ Hq), (proj2 (Z.eqb_eq _ 0)) by lia. done. }
      erewrite bind_done by exact Hstep. by destruct s.
    + done.
    + by split.
    + by apply (vm_inv_proj s).
  - destruct q as [|c q]; [cbn in k; lia|]. erewrite bind_done by (eapply piperead_step_get; [done..|lia|done]).
    set (m1 := mwrite _ _ _).
    destruct (user_wr_write s root ps addr n (addr + i) m1) as (Hi1 & Hu1 & Hlk); [done|done|lia| |].
    { intros x Hx. apply mwrite_out. cbn. unfold uaddr. pose proof (PGROUNDDOWN_le (addr + i)). lia. }
    destruct (pipe_queue_get _ _ _ Hq) as [_ Hq1].
    destruct (IH (set_pipe pi (fun p => set_pi_nread (u32 (pi_nread p + 1)) p) (set_k_mem m1 s)) (i + 1) q)
      as (M & m & HM & HU & Hst & Hv).
    + by apply (vm_inv_proj (set_k_mem m1 s)).
    + done.
    + unfold set_pipe. ksimp. rewrite lookup_alter_eq. destruct Hs as [x ->]. by eexists.
    + by rewrite thepipe_set.
    + done.
    + lia.
    + lia.
    + exists M, m. replace (i + k) with (i + 1 + Z.min (n - (i + 1)) (Z.of_nat (length q))) by (cbn [length] in k; lia).
      replace (Z.to_nat k) with (S (Z.to_nat (Z.min (n - (i + 1)) (Z.of_nat (length q))))) by (cbn [length] in k; lia).
      rewrite HM. cbn [take drop]. split; [by destruct s|]. split_and!.
      * by apply (pipes_upd_step (set_k_mem m1 s) pi _ M (fun p => set_pi_nread (u32 (pi_nread p + 1)) p)).
      * eapply stored_cons; [done|lia| |done|done]. rewrite length_take. lia.
      * by apply (vm_inv_proj _ _ _ _ Hv).
Qed.

(* ------------------------------------------------------------------ *)
(** ** The operations *)

Record pipe_ready (s : kst) (root : Z) (ps : list Z) (pr : nat) (pi : Z) (q : list Z) : Prop := {
  pr_vm : vm_inv s root ps;
  pr_held : k_held s = [];
  pr_cur : k_cur s = Some pr;
  pr_root : p_pagetable (k_proc s !!! pr) = root;
  pr_alive : p_killed (k_proc s !!! pr) = 0;
  pr_procs : procs_wf s;
  pr_pipe : is_Some (k_pipes s !! pi);
  pr_queue : pipe_queue (thepipe s pi) q
}.

Lemma woken_field {B} (g : proc -> B) me ch l pr :
  (forall p st, g (set_p_state st p) = g p) -> g (imap (woken me ch) l !!! pr) = g (l !!! pr).
Proof.
  intros Hg. rewrite !list_lookup_total_alt, list_lookup_imap. destruct (l !! pr) as [p|]; [|done]. cbn.
  unfold woken. case_match; [apply Hg|done].
Qed.

(** The end of both operations. *)
Lemma pipe_finish {A} s root ps pr pi q q' ch M m (a : A) :
  pipe_ready s root ps pr pi q -> vm_inv (set_k_mem m s) root ps -> pipes_upd s pi q' M ->
  exists s', (wakeup ch ;;; release (Lpipe pi) ;;; ret a)
      (set_k_pipes M (set_k_mem m (set_k_held [Lpipe pi] s))) = Done a s' /\
    pipe_ready s' root ps pr pi q' /\ k_mem s' = m.
Proof.
  intros [Hi Hh Hc Hr Ha Hp Hs Hq] Hi' (Hq' & Hs' & _). eexists. split.
  - erewrite bind_done by (apply wakeup_eq; [done|intros i; ksimp; set_solver]).
    erewrite bind_done by (by apply release_head). done.
  - split; [|done]. split; ksimp; rewrite ?woken_field; try done.
    + by apply (vm_inv_proj (set_k_mem m s)).
    + unfold procs_wf. ksimp. by rewrite length_imap.
Qed.

Lemma pipewrite_spec s root ps pr pi q addr n :
  pipe_ready s root ps pr pi q -> 0 <= n -> pi_readopen (thepipe s pi) <> 0 ->
  Z.of_nat (length q) + n <= PIPESIZE -> user_range (k_mem s) root addr n ->
  exists s', pipewrite pi addr n s = Done n s' /\
    pipe_ready s' root ps pr pi (q ++ uread (k_mem s) root addr n) /\ k_mem s' = k_mem s.
Proof.
  intros Hready Hn Hro Hcap Hur. pose proof Hready as [Hi Hh Hc Hr Ha Hp Hs Hq].
  unfold pipewrite. rewrite (bind_curproc pr) by done. rewrite bind_acquire by (rewrite Hh; set_solver). rewrite Hh.
  destruct (pipewrite_loop root ps pr pi addr n (sleep_fuel + S (Z.to_nat n)) (set_k_held [Lpipe pi] s) 0 q)
    as (M & HM & HU); try done; try lia; [by apply (vm_inv_proj s)|by rewrite Z.add_0_r, Z.sub_0_r|].
  rewrite Z.add_0_r, Z.sub_0_r in HU. erewrite bind_done by exact HM.
  destruct (pipe_finish s root ps pr pi q (q ++ uread (k_mem s) root addr n) (ChNread pi) M (k_mem s) n)
    as (s' & Hf & Hr' & Hm'); [done|by apply (vm_inv_proj s)|exact HU|].
  exists s'. split; [|done]. rewrite <- Hf. by destruct s.
Qed.

Lemma pipe_wait_no (fuel_pos : (0 < sleep_fuel)%nat) pr pi s q :
  pipe_queue (thepipe s pi) q -> q <> [] \/ pi_writeopen (thepipe s pi) = 0 ->
  pipe_wait pr pi s = Done false s.
Proof.
  intros Hq Hne. unfold pipe_wait. destruct sleep_fuel as [|f]; [lia|]. cbn [loop].
  assert ((Z.of_nat (length q) =? 0) && nz (pi_writeopen (thepipe s pi)) = false) as E.
  { destruct Hne as [Hne| ->]; [|apply andb_false_r]. by destruct q. }
  erewrite bind_done; [|unfold getpipe; rewrite bind_gets, (pipe_empty _ _ Hq), E; done]. done.
Qed.

Lemma piperead_spec (fuel_pos : (0 < sleep_fuel)%nat) s root ps pr pi q addr n :
  pipe_ready s root ps pr pi q -> 0 <= n -> q <> [] \/ pi_writeopen (thepipe s pi) = 0 ->
  user_wr (k_mem s) root ps addr n ->
  let k := Z.min n (Z.of_nat (length q)) in
  exists s', piperead pi addr n s = Done k s' /\
    pipe_ready s' root ps pr pi (drop (Z.to_nat k) q) /\
    stored root addr (take (Z.to_nat k) q) (k_mem s) (k_mem s').
Proof.
  intros Hready Hn Hne Hu k. pose proof Hready as [Hi Hh Hc Hr Ha Hp Hs Hq].
  unfold piperead. rewrite (bind_curproc pr) by done. rewrite bind_acquire by (rewrite Hh; set_solver). rewrite Hh.
  erewrite bind_done by (by apply (pipe_wait_no fuel_pos _ _ _ q)).
  destruct (piperead_loop root ps pr pi addr n (S (Z.to_nat n)) (set_k_held [Lpipe pi] s) 0 q)
    as (M & m & HM & HU & Hst & Hv); try done; try lia; [by apply (vm_inv_proj s)|].
  rewrite Z.sub_0_r in HM, HU, Hst. rewrite Z.add_0_r in Hst. fold k in HM, HU, Hst. erewrite bind_done by exact HM.
  destruct (pipe_finish s root ps pr pi q (drop (Z.to_nat k) q) (ChNwrite pi) M m (0 + k))
    as (s' & Hf & Hr' & <-); [done|by apply (vm_inv_proj _ _ _ _ Hv)|exact HU|].
  exists s'. split; [exact Hf|]. done.
Qed.

End Fifo.

(** A pipe that holds one byte, with a counter about to wrap around. *)
Definition pipe_demo : kst :=
  set_k_pipes {[ 0x87001000 := mkpipe (<[511%nat := 7]> (zeros 512)) (2 ^ 32 - 1) 0 1 1 ]}
    (set_k_proc (alter (set_p_pagetable 0x87ff0000) 0%nat (k_proc copy_demo)) (set_k_cur (Some 0%nat) copy_demo)).

Lemma pipe_demo_ready : @pipe_ready demo_image pipe_demo 0x87ff0000 [] 0 0x87001000 [7].
Proof.
  split; try reflexivity.
  - apply (@vm_inv_proj demo_image copy_demo); [apply copy_demo_inv|done|done].
  - by eexists.
  - split; try reflexivity; [done|vm_compute; discriminate|]. intros [|i] x Hi; [|done]. by injection Hi as <-.
Qed.

