(* ===== verification/System.v ===== *)
(** * The whole kernel: threads, traps and the outside world

    A CPU runs one kernel thread at a time: boot and the scheduler, the first
    run of a process, the handler of a trap. A thread runs until it returns to
    user mode or switches ([swtch]); a suspended thread is a continuation and
    the spinlocks it expects to find held when it is resumed. In between, user
    programs, the disk and the other devices change what they can reach. The
    disk driver is the one of [Virtio]. *)

From S2P Require Import Prelude Machine KState Spinlock Kalloc Swap Walk FrameTable Vm Sched Strings.
From S2P Require Import Printf Print Bio Log Fs Console Pipe File Proc Sysarg Exec Sysfile Sysproc Virtio Trap Wf WfOps.
Local Open Scope Z_scope.
Local Open Scope kern_scope.

(** Where the CPU is between two steps: in user mode, or switching threads. *)
Inductive mode : Type := Muser | Mswitch.

Record sys : Type := mksys {
  y_kst : kst;
  y_mode : mode;
  y_threads : list (list lockid * (kst -> res kst mode))
}.

(** What the outside world may do: a user program writes memory and a trap sets
    the registers; the disk completes requests and fills buffers. *)
Inductive env_step : kst -> kst -> Prop :=
| env_user s m : env_step s (set_k_mem m s)
| env_hw s w : env_step s (set_k_hw w s)
| env_disk s d b data : env_step s (set_k_disk d (set_k_bcache (alter (set_b_data data) b (k_bcache s)) s))
| env_used s used ring : env_step s (set_k_vdisk (set_v_used used (set_v_used_ring ring (k_vdisk s))) s)
| env_status s i st :
    env_step s (set_k_vdisk (set_v_info_status (<[i := st]> (v_info_status (k_vdisk s))) (k_vdisk s)) s).

Section System.
Context `{KernelImage} `{SleepFuel} `{VirtioRegs}.
#[local] Instance driver : BlockDev := disk_rw.
#[local] Instance driver_safe : BlockDevSafe driver := ok_disk_rw.

(** The threads: each ends in user mode. *)
Definition boot (rounds : nat) : K mode := main rounds ;;; (fun _ => Spin).
Definition run_trap : K mode := usertrap ;;; ret Muser.
Definition run_new : K mode := forkret ;;; ret Muser.
Definition run_interrupt (m : mode) : K mode := kerneltrap ;;; ret m.

(** The state after a thread ran; none when the kernel panicked or spins. *)
Definition settle (r : res kst mode) (ts : list (list lockid * (kst -> res kst mode))) : option sys :=
  match r with
  | Done m s => Some (mksys s m ts)
  | Swtch s k => Some (mksys s Mswitch ((k_held s, k) :: ts))
  | Panic _ _ | Spin => None
  end.

Inductive sstep : sys -> sys -> Prop :=
| step_env s s' m ts : env_step s s' -> sstep (mksys s m ts) (mksys s' m ts)
| step_trap s ts y : settle (run_trap s) ts = Some y -> sstep (mksys s Muser ts) y
| step_interrupt s m ts y : settle (run_interrupt m s) ts = Some y -> sstep (mksys s m ts) y
| step_new s p ts y :
    k_held s = [Lproc p] -> settle (run_new s) ts = Some y -> sstep (mksys s Mswitch ts) y
| step_resume s ts1 k ts2 y :
    settle (k s) (ts1 ++ ts2) = Some y -> sstep (mksys s Mswitch (ts1 ++ (k_held s, k) :: ts2)) y.

(** No spinlock is held in user mode. *)
Definition mode_held (m : mode) (h : list lockid) : Prop := match m with Muser => h = [] | Mswitch => True end.

Record sys_wf (y : sys) : Prop := {
  yw_kst : kst_wf (y_kst y);
  yw_user : mode_held (y_mode y) (k_held (y_kst y));
  yw_threads : Forall (fun t => ok t.1 t.2 mode_held) (y_threads y)
}.

Lemma ok_boot rounds : ok [] (boot rounds) mode_held.
Proof. unfold boot. eapply ok_bind; [apply ok_main|]. intros. apply ok_spin. Qed.
Lemma ok_run_trap : ok [] run_trap mode_held.
Proof. unfold run_trap. eapply ok_bind; [apply ok_usertrap|]. intros _ h ->. by apply ok_ret. Qed.
Lemma ok_run_new p : ok [Lproc p] run_new mode_held.
Proof. unfold run_new. eapply ok_bind; [apply ok_forkret|]. intros _ h ->. by apply ok_ret. Qed.
Lemma ok_run_interrupt m h : mode_held m h -> ok h (run_interrupt m) mode_held.
Proof.
  intros Hm. unfold run_interrupt. eapply ok_bind; [apply ok_kerneltrap|]. intros _ h' ->. by apply ok_ret.
Qed.

Lemma settle_wf r ts y :
  rok mode_held r -> Forall (fun t => ok t.1 t.2 mode_held) ts -> settle r ts = Some y -> sys_wf y.
Proof.
  intros Hr Hts Hy. destruct r as [m s|e s|s k|]; cbn in Hy; simplify_eq; cbn in Hr; destruct Hr as [Hs Hr].
  - by split.
  - split; [done|done|]. constructor; [|done]. intros s' Hs' Hh. by apply Hr.
Qed.

Lemma env_step_wf s s' : env_step s s' -> kst_wf s -> kst_wf s' /\ k_held s' = k_held s.
Proof.
  intros Hstep Hs. split; [|by destruct Hstep].
  destruct Hstep; destruct Hs as [? Hb]; split; ksimp; try done.
  - apply tbl_alter; [done|]. intros x [Hp Hn]. by split.
  - destruct wf_vdisk. by split.
  - destruct wf_vdisk. split; ksimp; try done. by rewrite length_insert.
Qed.

Lemma sstep_wf y y' : sys_wf y -> sstep y y' -> sys_wf y'.
Proof.
  intros [Hs Hm Hts] Hstep.
  destruct Hstep as [s s' m ts He|s ts y Hy|s m ts y Hy|s p ts y Hh Hy|s ts1 k ts2 y Hy]; cbn in *.
  - destruct (env_step_wf _ _ He Hs) as [Hs' Hh]. split; cbn; [done|by rewrite Hh|done].
  - eapply settle_wf; [by apply ok_run_trap|done..].
  - eapply settle_wf; [by eapply ok_run_interrupt|done..].
  - eapply settle_wf; [by eapply ok_run_new|done..].
  - apply Forall_app in Hts as [Hl [Hk Hr]%Forall_cons]. eapply settle_wf; [by apply Hk| |done].
    by apply Forall_app.
Qed.

(** C22: Every way into the kernel is well typed. Boot from the zeroed state, the
    first run of a process, the handlers of traps from user and from kernel
    mode keep the kernel's state well-formed at every switch of threads and
    when they return: tables keep their sizes, every stored index is in range,
    a process's level is 0 to 3 and its ticks are below the level's quantum.
    They return with exactly the spinlocks they should: none in user mode. And
    [exit] never returns. *)
Theorem kernel_entries_typed m d :
  kst_wf (kst0 m d) /\ k_held (kst0 m d) = [] /\
  (forall rounds, ok [] (main rounds) (fun _ h => h = [])) /\
  (forall p, ok [Lproc p] forkret (fun _ h => h = [])) /\
  ok [] usertrap (fun _ h => h = []) /\
  (forall held, ok held kerneltrap (fun _ h => h = held)) /\
  (forall held status, ok held (kexit status) (fun _ _ => False)).
Proof.
  split_and!; [apply kst0_wf|done|apply ok_main|apply ok_forkret|apply ok_usertrap|apply ok_kerneltrap|].
  apply ok_kexit.
Qed.

(** C2: The invariant of the running system. From a well-formed state, in
    particular from boot, whatever sequence of traps, interrupts, first runs,
    thread switches and outside events follows, the kernel's state stays
    well-formed, the CPU holds no spinlock in user mode, and every suspended
    thread can be resumed safely with the locks it left held. *)
Theorem system_invariant rounds m d y y' :
  settle (boot rounds (kst0 m d)) [] = Some y \/ sys_wf y -> rtc sstep y y' -> sys_wf y'.
Proof.
  intros Hy Hrtc. assert (sys_wf y) as Hw.
  { destruct Hy as [Hy|Hy]; [|done]. eapply settle_wf; [|done|done]. by apply ok_boot; [apply kst0_wf|]. }
  clear Hy. induction Hrtc as [y|y1 y2 y3 Hstep _ IH]; [done|]. by eapply IH, sstep_wf.
Qed.
End System.

(** A process in user mode, and a timer interrupt. *)
Definition user_state : kst :=
  set_k_cur (Some 3%nat) (kst0 (fun _ => 0) []).
Definition timer_state : kst :=
  set_k_hw (set_h_scause 0x8000000000000005 (k_hw user_state)) user_state.

Definition demo_regs : VirtioRegs := fun _ _ => 0.

Lemma system_invariant_witness :
  exists s, sys_wf (mksys s Muser []) /\ k_ticks s = 1.
Proof.
  assert (sys_wf (mksys user_state Muser [])) as Hw.
  { split; [|done|constructor]. destruct (kst0_wf (fun _ => 0) []). split; try done. cbn. lia. }
  destruct (@run_trap demo_image 1%nat demo_regs timer_state) as [m s| | |] eqn:E; try discriminate E.
  assert (m = Muser) as -> by (vm_compute in E; congruence).
  exists s. split; [|vm_compute in E; by injection E as <-].
  apply (@system_invariant demo_image 1%nat demo_regs 1 (fun _ => 0) [] (mksys user_state Muser [])); [by right|].
  eapply rtc_l; [apply step_env, (env_hw _ (k_hw timer_state))|].
  eapply rtc_once, step_trap. change (settle (@run_trap demo_image 1%nat demo_regs timer_state) [] = Some (mksys s Muser [])).
  by rewrite E.
Defined.
