(* ===== verification/Grep.v ===== *)
(** * [grep] ([user/grep.c])

    The matcher works on C strings, lists without NULs here; the scan of a file
    works on the buffer in memory, with [strchr] and [memmove] of the user
    library. What [read] returns is the kernel's choice. *)

From S2P Require Import Prelude Machine Strings.
Local Open Scope Z_scope.

Abbreviation CARET := 94%Z.
Abbreviation STAR := 42%Z.
Abbreviation DOLLAR := 36%Z.
Abbreviation DOT := 46%Z.
Abbreviation NEWLINE := 10%Z.

(* ------------------------------------------------------------------ *)
(** ** The matcher *)

(** The loop of [matchstar], which tries [matchhere(re, text)] at each step. *)
Fixpoint matchstar (c : Z) (here : list Z -> bool) (text : list Z) : bool :=
  if here text then true
  else
    match text with
    | [] => false
    | t :: text => if (t =? c) || (c =? DOT) then matchstar c here text else false
    end.

Fixpoint matchhere (re text : list Z) : bool :=
  match re with
  | [] => true
  | c :: re1 =>
      match re1 with
      | s :: re2 =>
          if s =? STAR then matchstar c (matchhere re2) text
          else
            match text with
            | t :: text => if (c =? DOT) || (c =? t) then matchhere re1 text else false
            | [] => false
            end
      | [] =>
          if c =? DOLLAR then match text with [] => true | _ :: _ => false end
          else
            match text with
            | t :: text => if (c =? DOT) || (c =? t) then matchhere re1 text else false
            | [] => false
            end
      end
  end.

(** The loop of [match]: [matchhere] at every suffix, the empty one included. *)
Fixpoint match_any (re text : list Z) : bool :=
  if matchhere re text then true
  else match text with [] => false | _ :: text => match_any re text end.

Definition match_ (re text : list Z) : bool :=
  match re with
  | c :: re' => if c =? CARET then matchhere re' text else match_any re text
  | [] => match_any re text
  end.

(* ------------------------------------------------------------------ *)
(** ** The scan of a file *)

Abbreviation BUFSIZE := 1024%Z.

(** The C string at [p] of the buffer. *)
Definition ustr (m : mem) (p : Z) : list Z := cstr (mread m p BUFSIZE).

(** The loop over the complete lines of the buffer: memory, [p] and output. *)
Fixpoint grep_lines (fuel : nat) (pattern : list Z) (m : mem) (p : Z) (out : list Z) :
    option (mem * Z * list Z) :=
  match fuel with
  | O => None
  | S fuel =>
      match strchr m p NEWLINE (Z.to_nat BUFSIZE) with
      | None => None
      | Some q =>
          if q =? 0 then Some (m, p, out)
          else
            let m := setb m q 0 in
            if match_ pattern (ustr m p) then
              let m := setb m q NEWLINE in
              grep_lines fuel pattern m (q + 1) (out ++ mread m p (q + 1 - p))
            else grep_lines fuel pattern m (q + 1) out
      end
  end.

Section Grep.
(** [rd rest n]: how many bytes [read] returns of a file with [rest] to come,
    when asked for [n]; the address of [buf]. *)
Context (rd : list Z -> Z -> Z) (buf : Z).

Fixpoint grep (fuel : nat) (pattern : list Z) (mm : mem) (m : Z) (rest out : list Z) : option (list Z) :=
  match fuel with
  | O => None
  | S fuel =>
      let n := rd rest (BUFSIZE - m - 1) in
      if negb (0 <? n) then Some out
      else
        let mm := mwrite mm (buf + m) (take (Z.to_nat n) rest) in
        let rest := drop (Z.to_nat n) rest in
        let m := m + n in
        let mm := setb mm (buf + m) 0 in
        match grep_lines (Z.to_nat BUFSIZE) pattern mm buf out with
        | None => None
        | Some (mm, p, out) =>
            if 0 <? m then
              let m := m - (p - buf) in
              grep fuel pattern (umemmove mm buf p m) m rest out
            else grep fuel pattern mm m rest out
        end
  end.
End Grep.

(* ------------------------------------------------------------------ *)
(** ** What a pattern means *)

Inductive atom : Type := Lit (c : Z) | Dot.
Inductive item : Type := One (a : atom) | Many (a : atom) | Eol.

Definition atom_of (c : Z) : atom := if c =? DOT then Dot else Lit c.
Definition atom_ok (a : atom) (c : Z) : Prop := match a with Lit d => c = d | Dot => True end.

(** A character followed by a star is repeated; a dollar at the end anchors. *)
Fixpoint items (re : list Z) : list item :=
  match re with
  | [] => []
  | c :: re1 =>
      match re1 with
      | s :: re2 => if s =? STAR then Many (atom_of c) :: items re2 else One (atom_of c) :: items re1
      | [] => if c =? DOLLAR then [Eol] else [One (atom_of c)]
      end
  end.

(** The items match a prefix of the text. *)
Inductive here : list item -> list Z -> Prop :=
| here_nil text : here [] text
| here_one a l c text : atom_ok a c -> here l text -> here (One a :: l) (c :: text)
| here_many a l pre text : Forall (atom_ok a) pre -> here l text -> here (Many a :: l) (pre ++ text)
| here_eol l : here l [] -> here (Eol :: l) [].

Lemma here_many_inv a l text :
  here (Many a :: l) text <->
  here l text \/ exists c text', text = c :: text' /\ atom_ok a c /\ here (Many a :: l) text'.
Proof.
  split.
  - intros Hh. inversion Hh as [| |a' l' pre t Hpre Hl|]; subst. destruct Hpre as [|c pre Hc Hpre]; [by left|].
    right. exists c, (pre ++ t). split_and!; [done|done|]. by constructor.
  - intros [Hl|(c & t & -> & Hc & Hh)]; [by apply (here_many a l [])|].
    inversion Hh as [| |a' l' pre t' Hpre Hl|]; subst. apply (here_many a l (c :: pre)); [by constructor|done].
Qed.

Lemma atom_of_ok c t : atom_ok (atom_of c) t <-> (t =? c) || (c =? DOT) = true.
Proof.
  unfold atom_of. destruct (Z.eqb_spec c DOT); cbn; [by rewrite orb_true_r|].
  rewrite orb_false_r. symmetry. apply Z.eqb_eq.
Qed.

Lemma matchstar_here c mh l text :
  (forall t, mh t = true <-> here l t) -> (matchstar c mh text = true <-> here (Many (atom_of c) :: l) text).
Proof.
  intros Hmh. induction text as [|t text IH]; rewrite here_many_inv, <- Hmh; cbn [matchstar];
    destruct (mh _) eqn:E; [naive_solver..|].
  pose proof (atom_of_ok c t) as Ha. destruct ((t =? c) || (c =? DOT)); split.
  - intros Hm%IH. right. exists t, text. naive_solver.
  - intros [?|(c' & text' & [= <- <-] & _ & Hh)]; [done|by apply IH].
  - done.
  - naive_solver.
Qed.

Lemma here_one_eq c l text :
  here (One (atom_of c) :: l) text <->
  match text with [] => False | t :: text => (c =? DOT) || (c =? t) = true /\ here l text end.
Proof.
  split.
  - intros Hh. inversion Hh; subst. split; [|done]. by rewrite orb_comm, (Z.eqb_sym c), <- atom_of_ok.
  - destruct text as [|t text]; [done|]. intros [Ha Hl]. constructor; [|done].
    by rewrite atom_of_ok, orb_comm, (Z.eqb_sym t).
Qed.

Lemma matchhere_here re text : matchhere re text = true <-> here (items re) text.
Proof.
  revert text. induction re as [re IH] using (induction_ltof1 _ length); unfold ltof in IH. intros text.
  destruct re as [|c re1]; [split; [constructor|done]|]. cbn [matchhere items].
  assert (forall l, (forall t, matchhere re1 t = true <-> here l t) ->
    match text with t :: text => if (c =? DOT) || (c =? t) then matchhere re1 text else false | [] => false end = true
    <-> here (One (atom_of c) :: l) text) as Hone.
  { intros l Hl. rewrite here_one_eq. destruct text; [done|]. case_match; rewrite ?Hl; naive_solver. }
  destruct re1 as [|s re2].
  - destruct (c =? DOLLAR); [|apply Hone; intros t; apply (IH []); cbn; lia]. split; [by destruct text; repeat constructor|].
    by inversion 1.
  - destruct (s =? STAR); [apply matchstar_here; intros; apply IH; cbn; lia|].
    apply Hone. intros. apply IH. cbn. lia.
Qed.

(** C34: grep's matcher decides the patterns it documents. [match] returns 1
    exactly when some part of the text matches the pattern: a dot matches any
    character, a starred character any number of its matches, a final dollar the
    end of the text, an initial caret the start. *)
Theorem match_correct re text :
  match_ re text = true <->
  match re with
  | c :: re' =>
      if c =? CARET then here (items re') text
      else exists pre suf, text = pre ++ suf /\ here (items re) suf
  | [] => True
  end.
Proof.
  assert (match_any re text = true <-> exists pre suf, text = pre ++ suf /\ here (items re) suf) as Hany.
  { induction text as [|t text IH]; cbn [match_any]; rewrite <- ?matchhere_here.
    - pose proof (matchhere_here re []) as Hh. destruct (matchhere re []).
      { split; [|done]. intros _. exists [], []. split; [done|]. by apply Hh. }
      split; [done|]. intros (pre & suf & Hp & Hs). symmetry in Hp. apply app_nil in Hp as [-> ->]. by apply Hh in Hs.
    - pose proof (matchhere_here re (t :: text)) as Hh. destruct (matchhere re (t :: text)).
      + split; [|done]. intros _. exists [], (t :: text). split; [done|]. by apply Hh.
      + rewrite IH. split; [intros (pre & suf & -> & Hs); by exists (t :: pre), suf|].
        intros ([|t' pre] & suf & Hp & Hs); cbn in Hp; simplify_eq; [by apply Hh in Hs|eauto]. }
  destruct re as [|c re]; cbn [match_].
  - destruct text; cbn; done.
  - destruct (c =? CARET); [apply matchhere_here|done].
Qed.

(* ------------------------------------------------------------------ *)
(** ** Lines *)

(** The complete lines of a text, and what follows the last newline. *)
Fixpoint lines_from (cur text : list Z) : list (list Z) * list Z :=
  match text with
  | [] => ([], cur)
  | c :: text =>
      if c =? NEWLINE then (cur :: (lines_from [] text).1, (lines_from [] text).2)
      else lines_from (cur ++ [c]) text
  end.
Definition lines (text : list Z) : list (list Z) * list Z := lines_from [] text.

(** What grep prints of these lines. *)
Definition grep_out (pattern : list Z) (ls : list (list Z)) : list Z :=
  concat (map (fun l => if match_ pattern l then l ++ [NEWLINE] else []) ls).

Definition no_nl (l : list Z) : Prop := Forall (fun c => c <> NEWLINE) l.

Lemma lines_from_app cur l text :
  no_nl l -> lines_from cur (l ++ text) = lines_from (cur ++ l) text.
Proof.
  intros Hl. revert cur. induction Hl as [|c l Hc Hl IH]; intros cur; cbn; [by rewrite app_nil_r|].
  rewrite (proj2 (Z.eqb_neq _ _) Hc), IH, <- app_assoc. done.
Qed.
Lemma lines_cons l text : no_nl l -> lines (l ++ NEWLINE :: text) = (l :: (lines text).1, (lines text).2).
Proof. intros Hl. unfold lines. by rewrite lines_from_app. Qed.
Lemma lines_none l : no_nl l -> lines l = ([], l).
Proof. intros Hl. unfold lines. rewrite <- (app_nil_r l) at 1. by rewrite lines_from_app. Qed.

(** A text has a first newline or none. *)
Lemma first_newline t : no_nl t \/ exists l r, t = l ++ NEWLINE :: r /\ no_nl l.
Proof.
  induction t as [|c t [Ht|(l & r & -> & Hl)]]; [left; constructor| |];
    (destruct (Z.eq_dec c NEWLINE) as [->|Hc]; [right; eexists [], _; split; [done|constructor]|]).
  - left. by constructor.
  - right. exists (c :: l), r. split; [done|]. by constructor.
Qed.

Lemma lines_tail t : no_nl (lines t).2.
Proof.
  induction t as [t IH] using (induction_ltof1 _ length); unfold ltof in IH.
  destruct (first_newline t) as [Ht|(l & r & -> & Hl)]; [by rewrite lines_none|].
  rewrite lines_cons by done. apply IH. rewrite length_app. cbn. lia.
Qed.
Lemma lines_app t text :
  lines (t ++ text) = ((lines t).1 ++ (lines ((lines t).2 ++ text)).1, (lines ((lines t).2 ++ text)).2).
Proof.
  induction t as [t IH] using (induction_ltof1 _ length); unfold ltof in IH.
  destruct (first_newline t) as [Ht|(l & r & -> & Hl)]; [rewrite (lines_none t) by done; by destruct (lines _)|].
  rewrite <- app_assoc. cbn [app]. rewrite !lines_cons by done. rewrite IH by (rewrite length_app; cbn; lia). done.
Qed.
Lemma lines_length t : (length (lines t).2 <= length t)%nat.
Proof.
  induction t as [t IH] using (induction_ltof1 _ length); unfold ltof in IH.
  destruct (first_newline t) as [Ht|(l & r & -> & Hl)]; [by rewrite lines_none|].
  rewrite lines_cons by done. rewrite length_app. cbn. rewrite IH; [|rewrite length_app; cbn]; lia.
Qed.

(* ------------------------------------------------------------------ *)
(** ** The buffer *)

(** The string [t] is at [p]. *)
Fixpoint text_at (m : mem) (p : Z) (t : list Z) : Prop :=
  match t with
  | [] => m p = 0
  | c :: t => m p = c /\ text_at m (p + 1) t
  end.

Definition no_nul (l : list Z) : Prop := Forall (fun c => c <> 0) l.

Lemma text_at_app m p l t : text_at m p (l ++ t) -> text_at m (p + Z.of_nat (length l)) t.
Proof.
  revert p. induction l as [|c l IH]; intros p; cbn [app text_at length]; [by rewrite Z.add_0_r|].
  intros [_ Ht]. replace (p + Z.of_nat (S (length l))) with (p + 1 + Z.of_nat (length l)) by lia. by apply IH.
Qed.
Lemma text_at_ext m m' p t :
  (forall x, p <= x <= p + Z.of_nat (length t) -> m' x = m x) -> text_at m p t -> text_at m' p t.
Proof.
  revert p. induction t as [|c t IH]; intros p Hx; cbn [text_at length] in *; [rewrite Hx by lia; done|].
  intros [Hc Ht]. split; [rewrite Hx by lia; done|]. apply IH; [|done]. intros x Hr. apply Hx. lia.
Qed.
Lemma text_at_cut m p l r : text_at m p (l ++ r) -> text_at (setb m (p + Z.of_nat (length l)) 0) p l.
Proof.
  revert p. induction l as [|c l IH]; intros p; cbn [app text_at length]; [intros _; rewrite Z.add_0_r; apply setb_eq|].
  intros [Hc Ht]. split; [rewrite setb_ne by lia; done|].
  replace (p + Z.of_nat (S (length l))) with (p + 1 + Z.of_nat (length l)) by lia. by apply IH.
Qed.
Lemma text_at_mread m p l r : text_at m p (l ++ r) -> mread m p (Z.of_nat (length l)) = l.
Proof.
  revert p. induction l as [|c l IH]; intros p; [done|]. cbn [app text_at length]. intros [Hc Ht].
  by rewrite mread_S, Hc, IH.
Qed.
Lemma text_at_intro m p t :
  mread m p (Z.of_nat (length t)) = t -> m (p + Z.of_nat (length t)) = 0 -> text_at m p t.
Proof.
  revert p. induction t as [|c t IH]; intros p; cbn [text_at length]; [by rewrite Z.add_0_r|].
  rewrite mread_S. intros [= Hc Ht] Hz. split; [done|]. apply IH; [done|]. rewrite <- Hz. f_equal. lia.
Qed.
Lemma cstr_text m p t n : text_at m p t -> no_nul t -> (length t < n)%nat -> cstr (mread m p (Z.of_nat n)) = t.
Proof.
  revert p n. induction t as [|c t IH]; intros p [|n] Ht Hn Hl; cbn in Hl; try lia; rewrite mread_S; cbn [text_at] in Ht.
  - by rewrite Ht.
  - destruct Ht as [-> Ht]. apply Forall_cons in Hn as [Hc Hn]. cbn [cstr].
    rewrite (proj2 (nz_true _) Hc), IH by (done || lia). done.
Qed.

Lemma strchr_none m p t fuel :
  text_at m p t -> no_nul t -> no_nl t -> (length t < fuel)%nat -> strchr m p NEWLINE fuel = Some 0.
Proof.
  revert p fuel. induction t as [|c t IH]; intros p [|fuel] Ht Hz Hn Hl; cbn in Hl; try lia; cbn [strchr text_at] in *.
  - by rewrite Ht.
  - destruct Ht as [-> Ht]. apply Forall_cons in Hz as [Hcz Hz], Hn as [Hcn Hn].
    rewrite (proj2 (nz_true _) Hcz), (proj2 (Z.eqb_neq _ _) Hcn). apply IH; [done..|lia].
Qed.
Lemma strchr_found m p l r fuel :
  text_at m p (l ++ NEWLINE :: r) -> no_nul l -> no_nl l -> (length l < fuel)%nat ->
  strchr m p NEWLINE fuel = Some (p + Z.of_nat (length l)).
Proof.
  revert p fuel. induction l as [|c l IH]; intros p [|fuel] Ht Hz Hn Hl; cbn in Hl; try lia; cbn [app strchr text_at length] in *.
  - destruct Ht as [-> _]. cbn. f_equal. lia.
  - destruct Ht as [-> Ht]. apply Forall_cons in Hz as [Hcz Hz], Hn as [Hcn Hn].
    rewrite (proj2 (nz_true _) Hcz), (proj2 (Z.eqb_neq _ _) Hcn), IH by (done || lia). f_equal. lia.
Qed.

Lemma setb_back m q v x : m q = v -> 0 <= v < 256 -> setb (setb m q 0) q v x = m x.
Proof.
  intros Hq Hv. destruct (Z.eq_dec x q) as [->|Hne]; [rewrite setb_eq, u8_id; done|]. by rewrite !setb_ne.
Qed.

Lemma grep_lines_spec pattern fuel m p t out :
  mem_ok m -> 0 < p -> text_at m p t -> no_nul t -> (length t < fuel)%nat -> (length t < 1024)%nat ->
  exists m', grep_lines fuel pattern m p out =
      Some (m', p + Z.of_nat (length t - length (lines t).2), out ++ grep_out pattern (lines t).1) /\
    text_at m' (p + Z.of_nat (length t - length (lines t).2)) (lines t).2 /\ mem_ok m'.
Proof.
  revert m p t out. induction fuel as [|fuel IH]; intros m p t out Hm Hp Ht Hz Hl Hb; [lia|]. cbn [grep_lines].
  destruct (first_newline t) as [Hn|(l & r & -> & Hn)].
  - rewrite (strchr_none m p t), lines_none by (done || lia). exists m. cbn [fst snd].
    rewrite Nat.sub_diag, Z.add_0_r. unfold grep_out. cbn. by rewrite app_nil_r.
  - apply Forall_app in Hz as [Hzl [_ Hzr]%Forall_cons]. rewrite length_app in Hl, Hb. cbn [length] in Hl, Hb.
    rewrite (strchr_found m p l r), lines_cons by (done || lia). set (q := p + Z.of_nat (length l)).
    rewrite (proj2 (Z.eqb_neq q 0)) by lia. pose proof (text_at_app m p l _ Ht) as [Hq Hr].
    assert (ustr (setb m q 0) p = l) as ->.
    { apply (cstr_text _ _ _ 1024); [by eapply text_at_cut|done|lia]. }
    cbn [fst snd]. replace (p + Z.of_nat (length (l ++ NEWLINE :: r) - length (lines r).2))
      with (q + 1 + Z.of_nat (length r - length (lines r).2))
      by (rewrite length_app; cbn [length]; pose proof (lines_length r); lia).
    unfold grep_out. cbn [map concat]. fold (grep_out pattern (lines r).1).
    destruct (match_ pattern l).
    + set (m2 := setb (setb m q 0) q NEWLINE).
      assert (forall x, m2 x = m x) as Hm2 by (intros x; by apply setb_back).
      replace (mread m2 p (q + 1 - p)) with (l ++ [NEWLINE]).
      * rewrite (app_assoc out (l ++ [NEWLINE]) (grep_out pattern (lines r).1)). apply IH; [by apply setb_ok, setb_ok|lia| |done|lia..].
        by apply (text_at_ext m).
      * replace (q + 1 - p) with (Z.of_nat (length (l ++ [NEWLINE]))) by (rewrite length_app; cbn; lia).
        symmetry. apply (text_at_mread _ _ _ r). rewrite <- app_assoc. by apply (text_at_ext m).
    + cbn [app]. apply IH; [by apply setb_ok|lia| |done|lia..].
      apply (text_at_ext m); [|done]. intros x Hx. apply setb_ne. lia.
Qed.

Lemma lines_suffix t : exists pre, t = pre ++ (lines t).2.
Proof.
  induction t as [t IH] using (induction_ltof1 _ length); unfold ltof in IH.
  destruct (first_newline t) as [Ht|(l & r & -> & Hl)]; [exists []; by rewrite lines_none|].
  rewrite lines_cons by done. destruct (IH r) as [pre Hp]; [rewrite length_app; cbn; lia|].
  exists (l ++ NEWLINE :: pre). rewrite <- app_assoc. cbn [app fst snd]. by rewrite <- Hp.
Qed.
Lemma grep_out_app pattern l1 l2 : grep_out pattern (l1 ++ l2) = grep_out pattern l1 ++ grep_out pattern l2.
Proof. unfold grep_out. by rewrite map_app, concat_app. Qed.

Lemma umemmove_read m dst src n :
  mem_ok m -> 0 <= n -> mread (umemmove m dst src n) dst n = mread m src n /\ mem_ok (umemmove m dst src n).
Proof.
  intros Hm Hn. assert (forall x, umemmove m dst src n x = mcopy m dst src n x) as E.
  { intros x. unfold umemmove. destruct (Z.ltb_spec dst src);
      rewrite ?copy_up_eq, ?copy_down_eq, ?Z2Nat.id, ?Z.add_simpl_r by (done || lia); done. }
  split; [|intros x; rewrite E; by apply mcopy_ok].
  unfold mread. apply map_ext_in. intros i Hi%list_elem_of_In%elem_of_seqZ. rewrite E, mcopy_in by lia. f_equal. lia.
Qed.

Lemma mread_app m a (i j : nat) :
  mread m a (Z.of_nat (i + j)) = mread m a (Z.of_nat i) ++ mread m (a + Z.of_nat i) (Z.of_nat j).
Proof.
  revert a. induction i as [|i IH]; intros a; [by rewrite Z.add_0_r|]. cbn [Nat.add]. rewrite !mread_S, IH.
  cbn [app]. do 3 f_equal. lia.
Qed.

(** Without a newline in what is to come, nothing more is printed; otherwise the
    buffer has room for more. *)
Lemma buffer_room T rest :
  no_nl T -> Forall (fun l => (length l <= 1022)%nat) (lines (T ++ rest)).1 ->
  (lines (T ++ rest)).1 = [] \/ (length T <= 1022)%nat.
Proof.
  intros HT Hs. destruct (first_newline rest) as [Hr|(l & r & -> & Hl)].
  - left. rewrite lines_none; [done|]. by apply Forall_app.
  - right. rewrite app_assoc, lines_cons in Hs by (by apply Forall_app). apply Forall_cons in Hs as [Hs _].
    rewrite length_app in Hs. lia.
Qed.

Section Scan.
Context (rd : list Z -> Z -> Z) (buf : Z).
(** [read] returns at most what was asked for and what is left, and something
    when there is something to return and room for it. *)
Hypothesis rd_le : forall rest n, rd rest n <= Z.max 0 (Z.min n (Z.of_nat (length rest))).
Hypothesis rd_pos : forall rest n, 0 < n -> rest <> [] -> 0 < rd rest n.
Hypothesis buf_pos : 0 < buf.

(** One pass over the buffer: it prints the complete lines and moves the rest to
    the front. *)
Lemma grep_fill pattern mm T chunk out :
  mem_ok mm -> Forall (fun c => 0 <= c < 256) chunk -> mread mm buf (Z.of_nat (length T)) = T ->
  (length (T ++ chunk) <= 1023)%nat -> no_nul (T ++ chunk) ->
  let T1 := T ++ chunk in
  let m1 := setb (mwrite mm (buf + Z.of_nat (length T)) chunk) (buf + Z.of_nat (length T1)) 0 in
  exists m' p, grep_lines (Z.to_nat BUFSIZE) pattern m1 buf out = Some (m', p, out ++ grep_out pattern (lines T1).1) /\
    Z.of_nat (length T1) - (p - buf) = Z.of_nat (length (lines T1).2) /\
    mread (umemmove m' buf p (Z.of_nat (length (lines T1).2))) buf (Z.of_nat (length (lines T1).2)) = (lines T1).2 /\
    mem_ok (umemmove m' buf p (Z.of_nat (length (lines T1).2))).
Proof.
  intros Hm Hc HT Hl Hz T1 m1. assert (mem_ok m1) as Hm1 by (by apply setb_ok, mwrite_ok).
  destruct (grep_lines_spec pattern (Z.to_nat BUFSIZE) m1 buf T1 out) as (m' & Hg & Ht' & Hm');
    [done|done| |done|fold T1 in Hl; lia..|].
  - apply text_at_intro; [|apply setb_eq]. unfold m1. rewrite mread_setb by lia. unfold T1.
    rewrite length_app, mread_app, mread_mwrite_disj, mread_mwrite, HT by lia. done.
  - set (p := buf + Z.of_nat (length T1 - length (lines T1).2)) in *.
    exists m', p. split; [done|]. pose proof (lines_length T1). split; [lia|]. destruct (umemmove_read m' buf p (Z.of_nat (length (lines T1).2))) as [-> Hmo]; [done|lia|].
    split; [|done]. apply (text_at_mread _ _ _ []). by rewrite app_nil_r.
Qed.

Lemma grep_spec pattern fuel mm T rest out :
  mem_ok mm -> mread mm buf (Z.of_nat (length T)) = T -> (length T <= 1023)%nat -> no_nl T ->
  no_nul (T ++ rest) -> Forall (fun c => 0 <= c < 256) rest ->
  Forall (fun l => (length l <= 1022)%nat) (lines (T ++ rest)).1 -> (length rest < fuel)%nat ->
  grep rd buf fuel pattern mm (Z.of_nat (length T)) rest out =
    Some (out ++ grep_out pattern (lines (T ++ rest)).1).
Proof.
  revert mm T rest out. induction fuel as [|fuel IH]; intros mm T rest out Hm HT HTl HTn Hz Hb Hs Hf; [lia|].
  cbn [grep]. set (n := rd rest _). pose proof (rd_le rest (1024 - Z.of_nat (length T) - 1)) as Hle. fold n in Hle.
  destruct (Z.ltb_spec 0 n) as [Hn|Hn]; cbn [negb].
  2: { assert ((lines (T ++ rest)).1 = []) as ->; [|by rewrite app_nil_r].
       destruct (buffer_room T rest) as [|Hr]; [done..|]. destruct rest as [|c rest].
       - rewrite app_nil_r. by rewrite lines_none.
       - pose proof (rd_pos (c :: rest) (1024 - Z.of_nat (length T) - 1)) as Hp. fold n in Hp.
         assert (0 < n) by (apply Hp; [lia|done]). lia. }
  set (T1 := T ++ take (Z.to_nat n) rest). set (rest' := drop (Z.to_nat n) rest).
  assert (Z.of_nat (length T) + n = Z.of_nat (length T1)) as Hl.
  { unfold T1. rewrite length_app, length_take. lia. }
  assert (length rest' < fuel)%nat as Hf' by (unfold rest'; rewrite length_drop; lia).
  assert (T ++ rest = T1 ++ rest') as E by (unfold T1, rest'; by rewrite <- app_assoc, take_drop).
  rewrite Hl, E in *. destruct (grep_fill pattern mm T (take (Z.to_nat n) rest) out) as (m' & p & Hg & Hp & Hread & Hm').
  - done.
  - by apply Forall_take.
  - done.
  - fold T1. lia.
  - apply Forall_app in Hz. apply Hz.
  - fold T1 in Hg, Hp, Hread, Hm'. rewrite Hg. rewrite (proj2 (Z.ltb_lt 0 _)) by lia. 
    rewrite Hp. destruct (lines_suffix T1) as [pre Hpre]. rewrite lines_app in Hs |- *. cbn [fst] in Hs |- *.
    apply Forall_app in Hs as [_ Hs]. rewrite Hpre in Hz. rewrite <- app_assoc in Hz. apply Forall_app in Hz as [_ Hz].
    rewrite grep_out_app, app_assoc. apply IH; [done|done| |apply lines_tail|done| |done|done].
    + pose proof (lines_length T1). lia.
    + by apply Forall_drop.
Qed.

(** [grep] of a file ends, and prints exactly the complete lines that match,
    in order, however [read] cuts the file into pieces. At most one call of
    [read] per byte is made, and one at the end. Complete lines must fit in the
    buffer (1022 bytes without the newline), and the file has no NULs; what
    follows the last newline is never printed. *)
Theorem grep_prints_matches pattern mm file :
  mem_ok mm -> no_nul file -> Forall (fun c => 0 <= c < 256) file ->
  Forall (fun l => (length l <= 1022)%nat) (lines file).1 ->
  grep rd buf (S (length file)) pattern mm 0 file [] = Some (grep_out pattern (lines file).1).
Proof.
  intros Hm Hz Hb Hs. apply (grep_spec pattern _ mm [] file []); try done; cbn; [lia|constructor|lia].
Qed.
End Scan.

(** A file read one byte at a time. *)
Lemma grep_prints_matches_witness :
  grep (fun rest n => Z.min 1 (Z.max 0 (Z.min n (Z.of_nat (length rest))))) 0x4000 8 [97; 42; 98; 36]
    (fun _ => 0) 0 [97; 98; 10; 98; 97; 10; 120] [] = Some [97; 98; 10].
Proof.
  apply (grep_prints_matches
    (fun rest n => Z.min 1 (Z.max 0 (Z.min n (Z.of_nat (length rest))))) 0x4000) with (file := [97; 98; 10; 98; 97; 10; 120]).
  - intros. lia.
  - intros rest n Hn Hr. destruct rest; [done|]. cbn. lia.
  - lia.
  - intros x. lia.
  - repeat constructor; lia.
  - repeat constructor; lia.
  - repeat constructor; cbn; lia.
Defined.
