(* ===== verification/Utils.v ===== *)
(** * User programs ([user/cat.c], [user/echo.c], [user/init.c], [user/kill.c],
    [user/ln.c], [user/ls.c], [user/mkdir.c], [user/rm.c], [user/wc.c],
    [user/zombie.c], [start] and [stat] of [user/ulib.c])

    A program is an interaction tree whose events are the system calls; a loop
    is [ITree.iter], so that a program may run forever. Programs are run
    against what a process sees of the kernel: the files by name, its table of
    descriptors, what was written to the standard output and to the standard
    error, the other calls made so far. How many bytes a [read] returns, which
    calls fail and what the other calls answer are arbitrary functions of the
    time. *)

From S2P Require Import Prelude Machine KState Strings Printf Fs Dirs.
From ITree Require Import ITree ITreeFacts Events.State Events.StateFacts.
Local Open Scope Z_scope.

(* ------------------------------------------------------------------ *)
(** ** System calls *)

(** Calls of which the programs use only the answer. *)
Inductive scall : Type :=
| Link (old new : list Z)
| Unlink (path : list Z)
| Mkdir (path : list Z)
| Mknod (path : list Z) (major minor : Z)
| Kill (pid : Z)
| Dup (fd : Z)
| Fork
| Wait
| Exec (path : list Z) (argv : list (list Z))
| Pause (n : Z)
| Chdir (path : list Z)
| Hello
| Getpid
| Getpid2
| Getppid
| Getnumchild
| Getsyscount
| Getchildsyscount (pid : Z).

Variant sysE : Type -> Type :=
| Read (fd n : Z) : sysE (Z * list Z)
| Write (fd : Z) (bs : list Z) : sysE Z
| Open (path : list Z) (omode : Z) : sysE Z
| Close (fd : Z) : sysE Z
| Fstat (fd : Z) : sysE (Z * stat)
| Other (c : scall) : sysE Z.

Variant exitE : Type -> Type :=
| Exit (code : Z) : exitE void.

Abbreviation prog := (itree (sysE +' exitE)).

Definition ecall {T} (e : sysE T) : prog T := ITree.trigger (inl1 e).
Definition exit {T} (code : Z) : prog T :=
  ITree.bind (ITree.trigger (inr1 (Exit code))) (fun v : void => match v with end).

Declare Scope prog_scope.
Delimit Scope prog_scope with prog.
Notation "x <- m ;; k" := (ITree.bind m (fun x => k)) : prog_scope.
Notation "m ;;; k" := (ITree.bind m (fun _ => k)) : prog_scope.
Local Open Scope prog_scope.

Abbreviation O_RDONLY := 0%Z.
Abbreviation O_RDWR := 2%Z.
Abbreviation CONSOLE := 1%Z.
Abbreviation NL := 10%Z.

(* ------------------------------------------------------------------ *)
(** ** The library *)

(** A loop over arguments. *)
Fixpoint for_args {A} (l : list A) (body : A -> prog unit) : prog unit :=
  match l with
  | [] => Ret tt
  | a :: l => body a ;;; for_args l body
  end.

Definition putc (fd c : Z) : prog unit := ecall (Write fd [c]) ;;; Ret tt.
Definition fprintf (fd : Z) (fmt : list Z) (ap : list vararg) : prog unit := for_args (vprintf udigits fmt ap) (putc fd).
Definition uprintf (fmt : list Z) (ap : list vararg) : prog unit := fprintf 1 fmt ap.

Definition ustart (main : list (list Z) -> prog Z) (argv : list (list Z)) : prog Z :=
  r <- main argv ;; exit r.

Definition ustat (n : list Z) : prog (Z * stat) :=
  fd <- ecall (Open n O_RDONLY) ;;
  if fd <? 0 then Ret (-1, mkstat 0 0 0 0 0)
  else
    r <- ecall (Fstat fd) ;;
    ecall (Close fd) ;;;
    Ret r.

(** [atoi] of an argument. *)
Definition arg_atoi (s : list Z) : Z := default 0 (atoi (fun a => nth (Z.to_nat a) s 0) 0 (S (length s))).

(* ------------------------------------------------------------------ *)
(** ** The programs *)

(** *** [wc.c] *)
(** Lines, words, characters, and whether the last one was in a word. *)
Record counts : Type := mkcounts { c_l : Z; c_w : Z; c_c : Z; c_inword : bool }.

Definition is_space (b : Z) : bool := existsb (Z.eqb b) [32; 13; 9; 10; 11].

Definition count (x : counts) (b : Z) : counts :=
  let c := i32 (c_c x + 1) in
  let l := if b =? NL then i32 (c_l x + 1) else c_l x in
  if is_space b then mkcounts l (c_w x) c false
  else if negb (c_inword x) then mkcounts l (i32 (c_w x + 1)) c true
  else mkcounts l (c_w x) c true.

Definition wc (fd : Z) (name : list Z) : prog unit :=
  r <- ITree.iter (fun x =>
         r <- ecall (Read fd 512) ;;
         Ret (if 0 <? r.1 then inl (fold_left count r.2 x) else inr (r.1, x)))
       (mkcounts 0 0 0 false) ;;
  if r.1 <? 0 then uprintf (chr "wc: read error" ++ [NL]) [] ;;; exit 1
  else uprintf (chr "%d %d %d %s" ++ [NL]) [ANum (c_l r.2); ANum (c_w r.2); ANum (c_c r.2); AStr (Some name)].

Definition wc_main (argv : list (list Z)) : prog Z :=
  if (length argv <=? 1)%nat then wc 0 [] ;;; exit 0
  else
    for_args (drop 1 argv) (fun a =>
      fd <- ecall (Open a O_RDONLY) ;;
      if fd <? 0 then uprintf (chr "wc: cannot open %s" ++ [NL]) [AStr (Some a)] ;;; exit 1
      else
        wc fd a ;;;
        ecall (Close fd) ;;;
        Ret tt) ;;;
    exit 0.

(** *** [cat.c] *)
Definition cat (fd : Z) : prog unit :=
  n <- ITree.iter (fun _ : unit =>
         r <- ecall (Read fd 512) ;;
         if 0 <? r.1 then
           w <- ecall (Write 1 r.2) ;;
           if negb (w =? r.1) then fprintf 2 (chr "cat: write error" ++ [NL]) [] ;;; exit 1
           else Ret (inl tt)
         else Ret (inr r.1)) tt ;;
  if n <? 0 then fprintf 2 (chr "cat: read error" ++ [NL]) [] ;;; exit 1 else Ret tt.

Definition cat_main (argv : list (list Z)) : prog Z :=
  if (length argv <=? 1)%nat then cat 0 ;;; exit 0
  else
    for_args (drop 1 argv) (fun a =>
      fd <- ecall (Open a O_RDONLY) ;;
      if fd <? 0 then fprintf 2 (chr "cat: cannot open %s" ++ [NL]) [AStr (Some a)] ;;; exit 1
      else
        cat fd ;;;
        ecall (Close fd) ;;;
        Ret tt) ;;;
    exit 0.

(** *** [echo.c] *)
(** The loop over the arguments that are left. *)
Fixpoint echo_words (args : list (list Z)) : prog unit :=
  match args with
  | [] => Ret tt
  | a :: args =>
      ecall (Write 1 a) ;;;
      ecall (Write 1 (match args with [] => [NL] | _ :: _ => [32] end)) ;;;
      echo_words args
  end.

Definition echo_main (argv : list (list Z)) : prog Z := echo_words (drop 1 argv) ;;; exit 0.

(** *** [ln.c] *)
Definition ln_main (argv : list (list Z)) : prog Z :=
  match argv with
  | [_; old; new] =>
      r <- ecall (Other (Link old new)) ;;
      (if r <? 0 then fprintf 2 (chr "link %s %s: failed" ++ [NL]) [AStr (Some old); AStr (Some new)] else Ret tt) ;;;
      exit 0
  | _ => fprintf 2 (chr "Usage: ln old new" ++ [NL]) [] ;;; exit 1
  end.

(** [rm] and [mkdir] have the same loop, which stops at the first failure. *)
Fixpoint each_file (op : list Z -> scall) (msg : list Z) (args : list (list Z)) : prog unit :=
  match args with
  | [] => Ret tt
  | a :: args =>
      r <- ecall (Other (op a)) ;;
      if r <? 0 then fprintf 2 msg [AStr (Some a)] else each_file op msg args
  end.

(** *** [rm.c] *)
Definition rm_main (argv : list (list Z)) : prog Z :=
  if (length argv <? 2)%nat then fprintf 2 (chr "Usage: rm files..." ++ [NL]) [] ;;; exit 1
  else each_file Unlink (chr "rm: %s failed to delete" ++ [NL]) (drop 1 argv) ;;; exit 0.

(** *** [mkdir.c] *)
Definition mkdir_main (argv : list (list Z)) : prog Z :=
  if (length argv <? 2)%nat then fprintf 2 (chr "Usage: mkdir files..." ++ [NL]) [] ;;; exit 1
  else each_file Mkdir (chr "mkdir: %s failed to create" ++ [NL]) (drop 1 argv) ;;; exit 0.

(** *** [kill.c] *)
Definition kill_main (argv : list (list Z)) : prog Z :=
  if (length argv <? 2)%nat then fprintf 2 (chr "usage: kill pid..." ++ [NL]) [] ;;; exit 1
  else for_args (drop 1 argv) (fun a => ecall (Other (Kill (arg_atoi a))) ;;; Ret tt) ;;; exit 0.

(** *** [zombie.c] *)
Definition zombie_main : prog Z :=
  pid <- ecall (Other Fork) ;;
  (if 0 <? pid then ecall (Other (Pause 5)) ;;; Ret tt else Ret tt) ;;;
  exit 0.

(** *** [init.c] *)
Definition sh_path : list Z := chr "sh".
Definition console_path : list Z := chr "console".

(** The inner loop: [wait] until the shell is gone. *)
Definition init_reap (pid : Z) : prog unit :=
  ITree.iter (fun _ : unit =>
    wpid <- ecall (Other Wait) ;;
    if wpid =? pid then Ret (inr tt)
    else if wpid <? 0 then uprintf (chr "init: wait returned an error" ++ [NL]) [] ;;; exit 1
    else Ret (inl tt)) tt.

(** One round of the outer loop: start a shell and wait for its end. *)
Definition init_round : prog unit :=
  uprintf (chr "init: starting sh" ++ [NL]) [] ;;;
  pid <- ecall (Other Fork) ;;
  if pid <? 0 then uprintf (chr "init: fork failed" ++ [NL]) [] ;;; exit 1
  else if pid =? 0 then
    ecall (Other (Exec sh_path [sh_path])) ;;;
    uprintf (chr "init: exec sh failed" ++ [NL]) [] ;;;
    exit 1
  else init_reap pid.

(** The outer loop, which never ends by itself. *)
Definition init_loop : prog Z := ITree.iter (fun _ : unit => init_round ;;; Ret (inl tt)) tt.

Definition init_main : prog Z :=
  fd <- ecall (Open console_path O_RDWR) ;;
  (if fd <? 0 then ecall (Other (Mknod console_path CONSOLE 0)) ;;; ecall (Open console_path O_RDWR) ;;; Ret tt else Ret tt) ;;;
  ecall (Other (Dup 0)) ;;;
  ecall (Other (Dup 0)) ;;;
  init_loop.

(** *** [ls.c] *)
(** The index after the last slash: [p] walks down from the NUL, [i] is
    [p - path + 1]. *)
Fixpoint back (path : list Z) (i : nat) : nat :=
  match i with
  | O => O
  | S j => if nth j path 0 =? 47 then i else back path j
  end.

Definition fmtname (path : list Z) : list Z :=
  let p := drop (back path (S (length path))) path in
  if (DIRSIZ <=? length p)%nat then p else p ++ replicate (DIRSIZ - length p) 32.

Definition print_stat (path : list Z) (st : stat) : prog unit :=
  uprintf (chr "%s %d %d %d" ++ [NL])
    [AStr (Some (fmtname path)); ANum (st_type st); ANum (st_ino st); ANum (i32 (st_size st))].

(** The loop over the entries of a directory, and one round of it. *)
Definition ls_entry (fd : Z) (path : list Z) : prog (unit + unit) :=
  r <- ecall (Read fd DIRENT_SIZE) ;;
  if negb (r.1 =? DIRENT_SIZE) then Ret (inr tt)
  else
    let de := dirent_of_bytes r.2 in
    if de_inum de =? 0 then Ret (inl tt)
    else
      let buf := path ++ [47] ++ cstr (de_name de) in
      st <- ustat buf ;;
      (if st.1 <? 0 then uprintf (chr "ls: cannot stat %s" ++ [NL]) [AStr (Some buf)]
       else print_stat buf st.2) ;;;
      Ret (inl tt).
Definition ls_entries (fd : Z) (path : list Z) : prog unit := ITree.iter (fun _ => ls_entry fd path) tt.

Definition ls (path : list Z) : prog unit :=
  fd <- ecall (Open path O_RDONLY) ;;
  if fd <? 0 then fprintf 2 (chr "ls: cannot open %s" ++ [NL]) [AStr (Some path)]
  else
    st <- ecall (Fstat fd) ;;
    if st.1 <? 0 then
      fprintf 2 (chr "ls: cannot stat %s" ++ [NL]) [AStr (Some path)] ;;;
      ecall (Close fd) ;;;
      Ret tt
    else
      (if (st_type st.2 =? T_DEVICE) || (st_type st.2 =? T_FILE) then print_stat path st.2
       else if st_type st.2 =? T_DIR then
         if (512 <? length path + 1 + DIRSIZ + 1)%nat then uprintf (chr "ls: path too long" ++ [NL]) []
         else ls_entries fd path
       else Ret tt) ;;;
      ecall (Close fd) ;;;
      Ret tt.

Definition ls_main (argv : list (list Z)) : prog Z :=
  if (length argv <? 2)%nat then ls (chr ".") ;;; exit 0
  else for_args (drop 1 argv) ls ;;; exit 0.

(* ------------------------------------------------------------------ *)
(** ** Counting *)

(** A number in decimal, as printed with [%d]. *)
Definition dec (n : Z) : list Z := printint udigits (i32 n) 10 true.
Definition newlines (t : list Z) : nat := length (filter (fun c => c = NL) t).

(** The pieces of a text between white space, and those that are not empty. *)
Fixpoint fields (t : list Z) : list (list Z) :=
  match t with
  | [] => [[]]
  | b :: t => if is_space b then [] :: fields t else (b :: hd [] (fields t)) :: tl (fields t)
  end.
Definition words (t : list Z) : list (list Z) := filter (fun w => w <> []) (fields t).

(** What [wc] prints for a file. *)
Definition wc_line (name t : list Z) : list Z :=
  dec (Z.of_nat (newlines t)) ++ [32] ++ dec (Z.of_nat (length (words t))) ++ [32] ++ dec (Z.of_nat (length t)) ++
  [32] ++ name ++ [NL].

Lemma i32_succ x : i32 (i32 x + 1) = i32 (x + 1).
Proof.
  unfold i32, sext. cbv zeta. change (32 - 1) with 31.
  assert (forall y z, y mod 2 ^ 32 = z mod 2 ^ 32 -> (y + 1) mod 2 ^ 32 = (z + 1) mod 2 ^ 32) as Hc.
  { intros y z Hyz. rewrite (Z.add_mod y), (Z.add_mod z), Hyz by lia. done. }
  rewrite (Hc _ x); [done|]. destruct (x mod 2 ^ 32 <? 2 ^ 31); [by apply Z.mod_mod|].
  replace (x mod 2 ^ 32 - 2 ^ 32) with (x mod 2 ^ 32 + (-1) * 2 ^ 32) by lia. by rewrite Z.mod_add, Z.mod_mod.
Qed.

Lemma i32_idem x : i32 (i32 x) = i32 x.
Proof. apply i32_small. unfold i32, sext. cbv zeta. pose proof (Z.mod_pos_bound x (2 ^ 32)). destruct (Z.ltb_spec (x mod 2 ^ 32) (2 ^ (32 - 1))); lia. Qed.

(** Words that start in the rest of a text, when a word is under way or not. *)
Definition starts (inword : bool) (t : list Z) : nat :=
  length (filter (fun w => w <> []) (if inword then tl (fields t) else fields t)).

Lemma fields_cons t : exists w ws, fields t = w :: ws.
Proof. destruct t as [|b t]; [by exists [], []|]. cbn [fields]. destruct (is_space b); by eexists _, _. Qed.

Lemma count_fold t x l w c :
  c_l x = i32 l -> c_w x = i32 w -> c_c x = i32 c ->
  let y := fold_left count t x in
  c_l y = i32 (l + Z.of_nat (newlines t)) /\ c_w y = i32 (w + Z.of_nat (starts (c_inword x) t)) /\
  c_c y = i32 (c + Z.of_nat (length t)).
Proof.
  revert x l w c. induction t as [|b t IH]; intros x l w c Hl Hw Hc; cbn [fold_left].
  - destruct (c_inword x); cbn; rewrite !Z.add_0_r; done.
  - set (l' := if b =? NL then l + 1 else l).
    set (w' := if is_space b then w else if c_inword x then w else w + 1).
    assert (c_l (count x b) = i32 l') as Hl'.
    { unfold count, l'. destruct (b =? NL), (is_space b), (c_inword x); cbn; by rewrite ?Hl, ?i32_succ. }
    assert (c_w (count x b) = i32 w') as Hw'.
    { unfold count, w'. destruct (is_space b), (c_inword x); cbn; by rewrite ?Hw, ?i32_succ. }
    assert (c_c (count x b) = i32 (c + 1)) as Hc'.
    { unfold count. destruct (is_space b), (c_inword x); cbn; by rewrite Hc, i32_succ. }
    destruct (IH (count x b) l' w' (c + 1) Hl' Hw' Hc') as (I1 & I2 & I3). rewrite I1, I2, I3.
    assert (c_inword (count x b) = negb (is_space b)) as Hin by (unfold count; destruct (is_space b), (c_inword x); done).
    split_and!; f_equal.
    + unfold l', newlines. rewrite filter_cons. destruct (Z.eqb_spec b NL); case_decide; try done. cbn [length]. lia.
    + rewrite Hin. unfold w', starts. cbn [fields]. destruct (fields_cons t) as (v & vs & E). rewrite E.
      destruct (is_space b), (c_inword x); cbn [negb tl hd]; rewrite ?E; cbn [tl]; try done.
      rewrite (filter_cons_True _ (b :: v)) by done. cbn [length]. lia.
    + cbn [length]. lia.
Qed.

(* ------------------------------------------------------------------ *)
(** ** What a process sees of the kernel *)

Record node : Type := mknode { n_stat : stat; n_data : list Z }.

(** An open file: the file and what is left to read. *)
Record ofile : Type := mkofile { of_node : node; of_rest : list Z }.

Record sys : Type := mksys {
  s_files : gmap (list Z) node;
  s_fds : list (option ofile);
  s_out : list Z;
  s_err : list Z;
  s_calls : list scall;
  s_now : nat
}.

Definition fd_file (s : sys) (fd : Z) : option ofile := if fd <? 0 then None else mjoin (s_fds s !! Z.to_nat fd).
Definition is_free (o : option ofile) : bool := match o with None => true | Some _ => false end.

(** *** The columns of [ls] *)

Definition pad (name : list Z) : list Z := name ++ replicate (DIRSIZ - length name) 32.

Lemma back_stops pre name j :
  (pre = [] \/ last pre = Some 47) -> Forall (fun c => c <> 47) name -> (j <= length name)%nat ->
  back (pre ++ name) (length pre + j) = length pre.
Proof.
  intros Hpre Hn. induction j as [|j IH]; intros Hj.
  - rewrite Nat.add_0_r. destruct Hpre as [->|Hl]; [done|]. apply last_Some in Hl as [l' ->].
    rewrite length_app. cbn [length]. rewrite Nat.add_1_r. cbn [back].
    by rewrite <- app_assoc, app_nth2, Nat.sub_diag by lia.
  - rewrite Nat.add_succ_r. cbn [back]. rewrite app_nth2 by lia. replace (length pre + j - length pre)%nat with j by lia.
    destruct (nth_lookup_or_length name j 0) as [Hc|Hc]; [|lia].
    rewrite (proj2 (Z.eqb_neq _ _)); [apply IH; lia|]. by eapply Forall_lookup_1 in Hn.
Qed.

(** [fmtname] gives the last element of a path, with blanks up to 14 bytes. *)
Theorem fmtname_last pre name :
  (pre = [] \/ last pre = Some 47) -> Forall (fun c => c <> 47) name -> fmtname (pre ++ name) = pad name.
Proof.
  intros Hpre Hn. unfold fmtname. cbn [back]. rewrite nth_overflow by lia. cbn [Z.eqb].
  rewrite length_app, back_stops, drop_app_length by (done || lia). unfold pad.
  destruct (Nat.leb_spec DIRSIZ (length name)); [|done]. replace (DIRSIZ - length name)%nat with 0%nat by lia. by rewrite app_nil_r.
Qed.

(** What [ls] prints for a file, and for an entry of a directory. *)
Definition stat_line (path : list Z) (st : stat) : list Z :=
  fmtname path ++ [32] ++ dec (st_type st) ++ [32] ++ dec (st_ino st) ++ [32] ++ dec (st_size st) ++ [NL].
Definition entry_line (fs : gmap (list Z) node) (path : list Z) (de : dirent) : list Z :=
  if de_inum de =? 0 then []
  else
    let buf := path ++ [47] ++ cstr (de_name de) in
    match fs !! buf with
    | Some nd => stat_line buf (n_stat nd)
    | None => chr "ls: cannot stat " ++ buf ++ [NL]
    end.
Definition dirent_ok (de : dirent) : Prop := 0 <= de_inum de < 2 ^ 16 /\ length (de_name de) = DIRSIZ.

Lemma index_of_occupied fds i f g :
  fds !! i = Some (Some f) -> index_of is_free (<[i := Some g]> fds) = index_of is_free fds.
Proof.
  revert i. induction fds as [|o fds IH]; intros [|i] Hi; cbn in *; [done|done|by injection Hi as ->|].
  by rewrite IH.
Qed.

Variant haltE : Type -> Type :=
| Halt (s : sys) (code : Z) : haltE void.

Section Kernel.
(** At time [t] a read returns at most [S (cut t)] bytes, the call fails when
    [fails t], and a call of which only the answer matters returns [ans t]. *)
Context (cut : nat -> nat) (fails : nat -> bool) (ans : nat -> Z).

Definition kcall {T} (e : sysE T) (s : sys) : sys * T :=
  let 'mksys files fds out err calls now := s in
  match e in sysE T return sys * T with
  | Read fd n =>
      match fd_file s fd with
      | Some f =>
          if fails now then (mksys files fds out err calls (S now), (-1, []))
          else
            let m := Nat.min (Z.to_nat n) (Nat.min (length (of_rest f)) (S (cut now))) in
            (mksys files (<[Z.to_nat fd := Some (mkofile (of_node f) (drop m (of_rest f)))]> fds) out err calls (S now),
             (Z.of_nat m, take m (of_rest f)))
      | None => (mksys files fds out err calls (S now), (-1, []))
      end
  | Write fd bs =>
      if fails now then (mksys files fds out err calls (S now), -1)
      else if fd =? 1 then (mksys files fds (out ++ bs) err calls (S now), Z.of_nat (length bs))
      else if fd =? 2 then (mksys files fds out (err ++ bs) calls (S now), Z.of_nat (length bs))
      else (mksys files fds out err calls (S now), -1)
  | Open path _ =>
      match files !! path, index_of is_free fds with
      | Some nd, Some i =>
          if fails now then (mksys files fds out err calls (S now), -1)
          else (mksys files (<[i := Some (mkofile nd (n_data nd))]> fds) out err calls (S now), Z.of_nat i)
      | _, _ => (mksys files fds out err calls (S now), -1)
      end
  | Close fd =>
      match fd_file s fd with
      | Some _ => (mksys files (<[Z.to_nat fd := None]> fds) out err calls (S now), 0)
      | None => (mksys files fds out err calls (S now), -1)
      end
  | Fstat fd =>
      match fd_file s fd with
      | Some f =>
          if fails now then (mksys files fds out err calls (S now), (-1, mkstat 0 0 0 0 0))
          else (mksys files fds out err calls (S now), (0, n_stat (of_node f)))
      | None => (mksys files fds out err calls (S now), (-1, mkstat 0 0 0 0 0))
      end
  | Other c => (mksys files fds out err (calls ++ [c]) (S now), ans now)
  end.

Definition handler : (sysE +' exitE) ~> Monads.stateT sys (itree haltE) :=
  fun T e s =>
    match e with
    | inl1 e => Ret (kcall e s)
    | inr1 e => match e in exitE T return itree haltE (sys * T) with
                | Exit code => Vis (Halt s code) (fun v : void => match v with end)
                end
    end.

Definition run {R} (p : prog R) (s : sys) : itree haltE (sys * R) := interp_state handler p s.

(** The process has called [exit]. *)
Definition halt {R} (s : sys) (code : Z) : itree haltE R := Vis (Halt s code) (fun v : void => match v with end).

(* ------------------------------------------------------------------ *)
(** ** Rules *)

Lemma run_ret {R} (a : R) s : run (Ret a) s ≈ Ret (s, a).
Proof. unfold run. by rewrite interp_state_ret. Qed.

Lemma run_bind {R A} (p : prog A) (k : A -> prog R) s s' a T :
  run p s ≈ Ret (s', a) -> run (k a) s' ≈ T -> run (ITree.bind p k) s ≈ T.
Proof. intros Hp Hk. unfold run in *. rewrite interp_state_bind, Hp, bind_ret_l. exact Hk. Qed.

Lemma run_call {R A} (e : sysE A) (k : A -> prog R) s s' a T :
  kcall e s = (s', a) -> run (k a) s' ≈ T -> run (ITree.bind (ecall e) k) s ≈ T.
Proof.
  intros He. apply run_bind. unfold run, ecall. rewrite interp_state_trigger. cbn. by rewrite He.
Qed.

Lemma halt_bind {A B} s code (k : A -> itree haltE B) : ITree.bind (halt s code) k ≈ halt s code.
Proof. unfold halt. rewrite bind_vis. apply eqit_Vis. intros []. Qed.

Lemma run_exit {R} code s : run (exit code : prog R) s ≈ halt s code.
Proof.
  unfold run, exit. rewrite interp_state_bind, interp_state_trigger. cbn. apply halt_bind.
Qed.

Lemma run_halt {R A} (p : prog A) (k : A -> prog R) s s' code :
  run p s ≈ halt s' code -> run (ITree.bind p k) s ≈ halt s' code.
Proof. intros Hp. unfold run in *. rewrite interp_state_bind, Hp. apply halt_bind. Qed.

Lemma run_iter {I R} (body : I -> prog (I + R)) i s : 
  run (ITree.iter body i) s ≈ run (r <- body i ;; match r with inl i => ITree.iter body i | inr r => Ret r end) s.
Proof.
  unfold run. rewrite unfold_iter, !interp_state_bind. apply eutt_clo_bind with (UU := eq); [reflexivity|].
  intros [s1 [j|r]] ? <-; cbn; [by rewrite interp_state_tau, tau_eutt|reflexivity].
Qed.

(** Output, and time that passes. *)
Definition say (o e : list Z) (n : nat) (s : sys) : sys :=
  mksys (s_files s) (s_fds s) (s_out s ++ o) (s_err s ++ e) (s_calls s) (s_now s + n).

(** The same, with [rest] left to read of the open file [fd]. *)
Definition upd (fd : nat) (nd : node) (rest o e : list Z) (n : nat) (s : sys) : sys :=
  mksys (s_files s) (<[fd := Some (mkofile nd rest)]> (s_fds s)) (s_out s ++ o) (s_err s ++ e) (s_calls s) (s_now s + n).

Lemma say_say o1 e1 n1 o2 e2 n2 s : say o2 e2 n2 (say o1 e1 n1 s) = say (o1 ++ o2) (e1 ++ e2) (n1 + n2) s.
Proof. unfold say. cbn. by rewrite <- !app_assoc, Nat.add_assoc. Qed.

Lemma say_upd fd nd r o1 e1 n1 o2 e2 n2 s :
  say o2 e2 n2 (upd fd nd r o1 e1 n1 s) = upd fd nd r (o1 ++ o2) (e1 ++ e2) (n1 + n2) s.
Proof. unfold say, upd. cbn. by rewrite <- !app_assoc, Nat.add_assoc. Qed.

Lemma upd_upd fd nd r1 r2 o1 e1 n1 o2 e2 n2 s :
  upd fd nd r2 o2 e2 n2 (upd fd nd r1 o1 e1 n1 s) = upd fd nd r2 (o1 ++ o2) (e1 ++ e2) (n1 + n2) s.
Proof. unfold upd. cbn. by rewrite list_insert_insert_eq, <- !app_assoc, Nat.add_assoc. Qed.

Lemma fd_file_nat s (i : nat) : fd_file s (Z.of_nat i) = mjoin (s_fds s !! i).
Proof. unfold fd_file. rewrite (proj2 (Z.ltb_ge _ _)) by lia. by rewrite Nat2Z.id. Qed.

Lemma fd_file_upd i nd r o e n s : (i < length (s_fds s))%nat -> fd_file (upd i nd r o e n s) (Z.of_nat i) = Some (mkofile nd r).
Proof. intros Hi. rewrite fd_file_nat. unfold upd. cbn. by rewrite list_lookup_insert_eq. Qed.

Lemma fd_file_lt s i f : fd_file s (Z.of_nat i) = Some f -> (i < length (s_fds s))%nat.
Proof. rewrite fd_file_nat. intros Hf. destruct (s_fds s !! i) eqn:E; [by eapply lookup_lt_Some|done]. Qed.

Section Reliable.
Hypothesis reliable : forall t, fails t = false.

Lemma kcall_write fd bs s : fd = 1 \/ fd = 2 ->
  kcall (Write fd bs) s = (say (if fd =? 1 then bs else []) (if fd =? 1 then [] else bs) 1 s, Z.of_nat (length bs)).
Proof.
  intros Hfd. destruct s. cbn. rewrite reliable. destruct Hfd as [-> | ->]; unfold say; cbn; by rewrite app_nil_r, Nat.add_1_r.
Qed.

Lemma run_fprintf fd fmt ap s : fd = 1 \/ fd = 2 ->
  let l := vprintf udigits fmt ap in
  run (fprintf fd fmt ap) s ≈ Ret (say (if fd =? 1 then l else []) (if fd =? 1 then [] else l) (length l) s, tt).
Proof.
  intros Hfd l. unfold fprintf. fold l. clearbody l. revert s. induction l as [|c l IH]; intros s; cbn [for_args].
  - rewrite run_ret. destruct s. unfold say. cbn. destruct Hfd as [-> | ->]; cbn; by rewrite !app_nil_r, Nat.add_0_r.
  - unfold putc at 1. eapply run_bind; [eapply run_call; [apply kcall_write; done|apply run_ret]|].
    rewrite IH, say_say. destruct Hfd as [-> | ->]; reflexivity.
Qed.

Lemma run_uprintf fmt ap s :
  let l := vprintf udigits fmt ap in run (uprintf fmt ap) s ≈ Ret (say l [] (length l) s, tt).
Proof. apply (run_fprintf 1). by left. Qed.
Lemma run_eprintf fmt ap s :
  let l := vprintf udigits fmt ap in run (fprintf 2 fmt ap) s ≈ Ret (say [] l (length l) s, tt).
Proof. apply (run_fprintf 2). by right. Qed.

(** [read] returns some bytes, none only at the end of the file. *)
Lemma kcall_read i nd rest n s : fd_file s (Z.of_nat i) = Some (mkofile nd rest) -> 0 < n -> exists m,
  kcall (Read (Z.of_nat i) n) s = (upd i nd (drop m rest) [] [] 1 s, (Z.of_nat m, take m rest)) /\
  (m <= length rest)%nat /\ (m <= Z.to_nat n)%nat /\ (m = 0%nat -> rest = []).
Proof.
  intros Hf Hn. destruct s as [files fds out err calls now]. unfold kcall. rewrite Hf, reliable, Nat2Z.id. cbn [of_rest of_node].
  eexists. split; [unfold upd; cbn; by rewrite !app_nil_r, Nat.add_1_r|]. split; [lia|]. split; [lia|]. destruct rest; [done|cbn; lia].
Qed.

(** The loop of [wc] reads the file to its end. *)
Lemma wc_loop i nd rest s x : fd_file s (Z.of_nat i) = Some (mkofile nd rest) -> exists n,
  run (ITree.iter (fun x =>
         r <- ecall (Read (Z.of_nat i) 512) ;;
         Ret (if 0 <? r.1 then inl (fold_left count r.2 x) else inr (r.1, x))) x) s
  ≈ Ret (upd i nd [] [] [] n s, (0, fold_left count rest x)).
Proof.
  remember (length rest) as k eqn:Hk. revert rest s x Hk. induction (lt_wf k) as [k _ IH]. intros rest s x Hk Hf.
  destruct (kcall_read i nd rest 512 s Hf) as (m & Hr & Hm & _ & Hz); [lia|].
  assert (Hlt := fd_file_lt _ _ _ Hf). destruct (decide (m = 0%nat)) as [->|Hm0].
  - rewrite Hz in * by done. exists 1%nat. rewrite run_iter. eapply run_bind; [eapply run_call; [exact Hr|apply run_ret]|]. cbn. apply run_ret.
  - destruct (IH (length (drop m rest)) ltac:(rewrite length_drop; lia) (drop m rest) (upd i nd (drop m rest) [] [] 1 s)
      (fold_left count (take m rest) x) eq_refl) as [n Hn]; [by apply fd_file_upd|].
    exists (1 + n)%nat. rewrite run_iter. eapply run_bind; [eapply run_call; [exact Hr|apply run_ret]|].
    cbn [fst snd]. rewrite (proj2 (Z.ltb_lt 0 _)) by lia. rewrite Hn, upd_upd, <- fold_left_app, take_drop. reflexivity.
Qed.

(** The loop of [cat] copies the file to the standard output. *)
Lemma cat_runs i nd rest s : fd_file s (Z.of_nat i) = Some (mkofile nd rest) -> exists n,
  run (cat (Z.of_nat i)) s ≈ Ret (upd i nd [] rest [] n s, tt).
Proof.
  intros Hf. unfold cat. match goal with |- context [ITree.iter ?b] => set (body := b) end.
  assert (exists n, run (ITree.iter body tt) s ≈ Ret (upd i nd [] rest [] n s, 0)) as [n Hn].
  2:{ exists n. eapply run_bind; [exact Hn|]. apply run_ret. }
  remember (length rest) as k eqn:Hk. revert rest s Hk Hf. induction (lt_wf k) as [k _ IH]. intros rest s Hk Hf.
  destruct (kcall_read i nd rest 512 s Hf) as (m & Hr & Hm & _ & Hz); [lia|].
  assert (Hlt := fd_file_lt _ _ _ Hf). destruct (decide (m = 0%nat)) as [->|Hm0].
  - rewrite Hz in * by done. exists 1%nat. rewrite run_iter. eapply run_bind; [eapply run_call; [exact Hr|apply run_ret]|]. cbn. apply run_ret.
  - set (s2 := upd i nd (drop m rest) (take m rest) [] 2 s).
    destruct (IH (length (drop m rest)) ltac:(rewrite length_drop; lia) (drop m rest) s2 eq_refl) as [n Hn]; [by apply fd_file_upd|].
    exists (2 + n)%nat. rewrite run_iter. eapply run_bind.
    + eapply run_call; [exact Hr|]. cbn [fst snd]. rewrite (proj2 (Z.ltb_lt 0 _)) by lia.
      eapply run_call; [apply kcall_write; by left|]. cbn [Z.eqb Pos.eqb]. rewrite length_take, Nat.min_l, Z.eqb_refl by lia. apply run_ret.
    + cbv beta iota. rewrite say_upd. change (run (ITree.iter body tt) s2 ≈ Ret (upd i nd [] rest [] (2 + n) s, 0)).
      rewrite Hn. unfold s2. rewrite upd_upd, take_drop. reflexivity.
Qed.

Lemma free_at fds i : index_of is_free fds = Some i -> fds !! i = Some None.
Proof. intros [(x & Hx & Hf) _]%index_of_Some. by destruct x. Qed.

Lemma kcall_open a m i nd s : s_files s !! a = Some nd -> index_of is_free (s_fds s) = Some i ->
  kcall (Open a m) s = (upd i nd (n_data nd) [] [] 1 s, Z.of_nat i).
Proof.
  intros Ha Hi. destruct s. cbn in *. rewrite Ha, Hi, reliable. unfold upd. cbn. by rewrite !app_nil_r, Nat.add_1_r.
Qed.

Lemma kcall_open_none a m s : s_files s !! a = None -> kcall (Open a m) s = (say [] [] 1 s, -1).
Proof. intros Ha. destruct s. cbn in *. rewrite Ha. unfold say. cbn. by rewrite !app_nil_r, Nat.add_1_r. Qed.

Lemma kcall_fstat i g s : fd_file s (Z.of_nat i) = Some g ->
  kcall (Fstat (Z.of_nat i)) s = (say [] [] 1 s, (0, n_stat (of_node g))).
Proof.
  intros Hf. destruct s. unfold kcall. rewrite Hf, reliable. unfold say. cbn. by rewrite !app_nil_r, Nat.add_1_r.
Qed.

Lemma kcall_close i g s : fd_file s (Z.of_nat i) = Some g ->
  kcall (Close (Z.of_nat i)) s = (mksys (s_files s) (<[i := None]> (s_fds s)) (s_out s) (s_err s) (s_calls s) (S (s_now s)), 0).
Proof. intros Hf. destruct s. unfold kcall. by rewrite Hf, Nat2Z.id. Qed.

(** Opening the files of a list one by one. *)
Section Files.
Variables (f : Z -> list Z -> prog unit) (o : list Z -> list Z -> list Z).
Variables (bad : list Z -> prog unit) (bo be : list Z -> list Z).
Hypothesis f_runs : forall i a nd rest s, fd_file s (Z.of_nat i) = Some (mkofile nd rest) -> exists n,
  run (f (Z.of_nat i) a) s ≈ Ret (upd i nd [] (o a rest) [] n s, tt).
Hypothesis bad_runs : forall a s, exists n, run (bad a) s ≈ halt (say (bo a) (be a) n s) 1.

Definition with_file (a : list Z) : prog unit :=
  fd <- ecall (Open a O_RDONLY) ;;
  if fd <? 0 then bad a
  else f fd a ;;; ecall (Close fd) ;;; Ret tt.

Lemma with_file_runs a s i nd :
  s_files s !! a = Some nd -> index_of is_free (s_fds s) = Some i -> exists n,
  run (with_file a) s ≈ Ret (say (o a (n_data nd)) [] n s, tt).
Proof using f_runs reliable.
  intros Ha Hi. assert (Hfree := free_at _ _ Hi). assert (Hlt := lookup_lt_Some _ _ _ Hfree).
  destruct (f_runs i a nd (n_data nd) (upd i nd (n_data nd) [] [] 1 s)) as [n Hn]; [by apply fd_file_upd|].
  exists (1 + n + 1)%nat. unfold with_file. eapply run_call; [by apply kcall_open|]. rewrite (proj2 (Z.ltb_ge _ _)) by lia.
  eapply run_bind; [exact Hn|]. cbv beta. rewrite upd_upd. eapply run_call; [|apply run_ret].
  erewrite kcall_close by (by apply fd_file_upd). unfold say, upd. cbn. f_equal. f_equal; [|lia].
  rewrite list_insert_insert_eq. by apply list_insert_id.
Qed.

Lemma with_file_missing a s : s_files s !! a = None -> exists n, run (with_file a) s ≈ halt (say (bo a) (be a) n s) 1.
Proof using bad_runs.
  intros Ha. destruct (bad_runs a (say [] [] 1 s)) as [n Hn]. exists (1 + n)%nat. unfold with_file.
  eapply run_call; [by apply kcall_open_none|]. cbv beta. change (-1 <? 0) with true. cbv iota. rewrite Hn, say_say. reflexivity.
Qed.
End Files.

(** The files of a list up to the first that does not exist, with what they
    hold; that file. *)
Fixpoint found (fs : gmap (list Z) node) (names : list (list Z)) : list (list Z * list Z) * option (list Z) :=
  match names with
  | [] => ([], None)
  | a :: names =>
      match fs !! a with
      | None => ([], Some a)
      | Some nd => ((a, n_data nd) :: (found fs names).1, (found fs names).2)
      end
  end.

Lemma files_run f o bad bo be names s i :
  (forall i a nd rest s, fd_file s (Z.of_nat i) = Some (mkofile nd rest) -> exists n,
    run (f (Z.of_nat i) a) s ≈ Ret (upd i nd [] (o a rest) [] n s, tt)) ->
  (forall a s, exists n, run (bad a) s ≈ halt (say (bo a) (be a) n s) 1) ->
  index_of is_free (s_fds s) = Some i ->
  let l := (found (s_files s) names).1 in let b := (found (s_files s) names).2 in exists n,
  run (for_args names (with_file f bad) ;;; exit 0 : prog Z) s ≈
    halt (say (concat (List.map (fun at_ => o at_.1 at_.2) l) ++ default [] (bo <$> b)) (default [] (be <$> b)) n s)
         (match b with None => 0 | Some _ => 1 end).
Proof using reliable.
  intros Hf Hb. revert s. induction names as [|a names IH]; intros s Hi; cbn [found for_args].
  - exists 0%nat. eapply run_bind; [apply run_ret|]. rewrite run_exit. cbn. unfold say. destruct s. cbn.
    rewrite !app_nil_r, Nat.add_0_r. reflexivity.
  - destruct (s_files s !! a) as [nd|] eqn:E; cbn [fst snd].
    + destruct (with_file_runs f o bad Hf a s i nd E Hi) as [n1 H1]. destruct (IH (say (o a (n_data nd)) [] n1 s) Hi) as [n2 H2].
      exists (n1 + n2)%nat. cbn [say s_files] in H2. unfold run in *. rewrite bind_bind.
      rewrite interp_state_bind, H1, bind_ret_l. cbn [fst snd]. rewrite H2, say_say.
      cbn [List.map concat fst snd]. rewrite <- app_assoc. reflexivity.
    + destruct (with_file_missing f bad bo be Hb a s E) as [n Hn]. exists n. cbn.
      do 2 apply run_halt. exact Hn.
Qed.

Lemma vprintf_wc l w c name :
  vprintf udigits (chr "%d %d %d %s" ++ [NL]) [ANum l; ANum w; ANum c; AStr (Some name)] =
  dec l ++ [32] ++ dec w ++ [32] ++ dec c ++ [32] ++ name ++ [NL].
Proof. reflexivity. Qed.

Lemma wc_runs i name nd rest s : fd_file s (Z.of_nat i) = Some (mkofile nd rest) -> exists n,
  run (wc (Z.of_nat i) name) s ≈ Ret (upd i nd [] (wc_line name rest) [] n s, tt).
Proof using reliable.
  intros Hf. destruct (wc_loop i nd rest s (mkcounts 0 0 0 false) Hf) as [n Hn].
  destruct (count_fold rest (mkcounts 0 0 0 false) 0 0 0 eq_refl eq_refl eq_refl) as (Hl & Hw & Hc).
  set (y := fold_left count rest _) in *.
  eexists. unfold wc. eapply run_bind; [exact Hn|]. cbn [fst snd]. change (0 <? 0) with false. cbv iota.
  rewrite run_uprintf, say_upd, vprintf_wc, Hl, Hw, Hc. unfold dec. rewrite !i32_idem. reflexivity.
Qed.

Definition wc_missing (a : list Z) : list Z := chr "wc: cannot open " ++ a ++ [NL].
Definition cat_missing (a : list Z) : list Z := chr "cat: cannot open " ++ a ++ [NL].

(** C35: When no call fails, [wc] prints, for each file, the number of its newlines, of its words
    (maximal runs of characters other than white space) and of its bytes,
    however [read] cuts the files into pieces. At the first file that does not
    exist it prints an error and exits with 1; otherwise it exits with 0. All
    descriptors that it opened are closed. *)
Theorem wc_counts argv0 names s i :
  index_of is_free (s_fds s) = Some i -> names <> [] ->
  let l := (found (s_files s) names).1 in let b := (found (s_files s) names).2 in exists n,
  run (wc_main (argv0 :: names)) s ≈
    halt (say (concat (List.map (fun at_ => wc_line at_.1 at_.2) l) ++ default [] (wc_missing <$> b)) [] n s)
         (match b with None => 0 | Some _ => 1 end).
Proof using reliable.
  intros Hi Hn l b. unfold wc_main. destruct names as [|a names]; [done|]. cbn [length Nat.leb drop].
  destruct (files_run wc wc_line (fun a => uprintf (chr "wc: cannot open %s" ++ [NL]) [AStr (Some a)] ;;; exit 1)
    wc_missing (fun _ => []) (a :: names) s i wc_runs) as [n Hr]; [|done|].
  - intros a' s'. eexists. eapply run_bind; [apply run_uprintf|]. apply run_exit.
  - exists n. replace (default [] ((fun _ => []) <$> _)) with ([] : list Z) in Hr by (by destruct (_.2)). exact Hr.
Qed.

(** When no call fails, [cat] copies its files to the standard output, one after the other,
    however [read] cuts them into pieces. At the first file that does not exist
    it prints an error to the standard error and exits with 1; otherwise it
    exits with 0. All descriptors that it opened are closed. *)
Theorem cat_copies argv0 names s i :
  index_of is_free (s_fds s) = Some i -> names <> [] ->
  let l := (found (s_files s) names).1 in let b := (found (s_files s) names).2 in exists n,
  run (cat_main (argv0 :: names)) s ≈
    halt (say (concat l.*2) (default [] (cat_missing <$> b)) n s) (match b with None => 0 | Some _ => 1 end).
Proof using reliable.
  intros Hi Hn l b. unfold cat_main. destruct names as [|a names]; [done|]. cbn [length Nat.leb drop].
  destruct (files_run (fun fd _ => cat fd) (fun _ t => t)
    (fun a => fprintf 2 (chr "cat: cannot open %s" ++ [NL]) [AStr (Some a)] ;;; exit 1)
    (fun _ => []) cat_missing (a :: names) s i (fun i _ => cat_runs i)) as [n Hr]; [|done|].
  - intros a' s'. eexists. eapply run_bind; [apply run_eprintf|]. apply run_exit.
  - exists n. replace (default [] ((fun _ => []) <$> _)) with ([] : list Z) in Hr by (by destruct (_.2)).
    rewrite app_nil_r in Hr. exact Hr.
Qed.

(** [echo] prints its arguments with a blank between two and a newline at the
    end, and nothing without arguments. *)
Fixpoint echo_text (args : list (list Z)) : list Z :=
  match args with
  | [] => []
  | [a] => a ++ [NL]
  | a :: args => a ++ [32] ++ echo_text args
  end.

Theorem echo_prints argv0 args s : exists n,
  run (echo_main (argv0 :: args)) s ≈ halt (say (echo_text args) [] n s) 0.
Proof using reliable.
  assert (exists n, run (echo_words args) s ≈ Ret (say (echo_text args) [] n s, tt)) as [n Hn].
  2:{ exists n. unfold echo_main. cbn [drop]. eapply run_bind; [exact Hn|]. apply run_exit. }
  revert s. induction args as [|a args IH]; intros s; cbn [echo_words].
  - exists 0%nat. rewrite run_ret. destruct s. unfold say. cbn. by rewrite !app_nil_r, Nat.add_0_r.
  - set (c := match args with [] => [NL] | _ :: _ => [32] end). destruct (IH (say (a ++ c) [] 2 s)) as [n Hn].
    exists (2 + n)%nat. eapply run_call; [apply kcall_write; by left|]. eapply run_call; [apply kcall_write; by left|].
    cbn [Z.eqb Pos.eqb]. rewrite say_say. cbn [app Nat.add]. rewrite Hn, say_say. subst c.
    destruct args; cbn [echo_text]; rewrite <- ?app_assoc; [|reflexivity]. cbn [app]. reflexivity.
Qed.

(** Calls of which the program uses only the answer. *)
Definition did (cs : list scall) (s : sys) : sys :=
  mksys (s_files s) (s_fds s) (s_out s) (s_err s) (s_calls s ++ cs) (s_now s + length cs).

Lemma kcall_other c s : kcall (Other c) s = (did [c] s, ans (s_now s)).
Proof. destruct s. unfold did. cbn. by rewrite Nat.add_1_r. Qed.

Lemma did_did cs1 cs2 s : did cs2 (did cs1 s) = did (cs1 ++ cs2) s.
Proof. unfold did. cbn. by rewrite length_app, <- app_assoc, Nat.add_assoc. Qed.

(** The loop of [rm] and [mkdir] makes one call per argument, and stops after
    the first that fails, which it reports. *)
Theorem each_file_stops op msg args s k :
  (forall j, (j < k)%nat -> 0 <= ans (s_now s + j)) ->
  ((k < length args)%nat -> ans (s_now s + k) < 0) -> (k <= length args)%nat ->
  run (each_file op msg args) s ≈
    match args !! k with
    | None => Ret (did (op <$> args) s, tt)
    | Some a => let l := vprintf udigits msg [AStr (Some a)] in
        Ret (say [] l (length l) (did (op <$> take (S k) args) s), tt)
    end.
Proof using reliable.
  revert s k. induction args as [|a args IH]; intros s k Hok Hbad Hk; cbn [each_file length] in *.
  - rewrite run_ret. destruct s. unfold did. cbn. by rewrite app_nil_r, Nat.add_0_r.
  - eapply run_call; [apply kcall_other|]. destruct k as [|k]; cbn [lookup list_lookup].
    + specialize (Hbad ltac:(lia)). rewrite Nat.add_0_r in Hbad. rewrite (proj2 (Z.ltb_lt _ _)) by done. apply run_eprintf.
    + pose proof (Hok 0%nat ltac:(lia)) as H0. rewrite Nat.add_0_r in H0. rewrite (proj2 (Z.ltb_ge _ _)) by done.
      rewrite (IH (did [op a] s) k).
      * rewrite !did_did. destruct (args !! k); reflexivity.
      * intros j Hj. cbn. rewrite <- Nat.add_assoc. apply Hok. lia.
      * intros Hlt. cbn. rewrite <- Nat.add_assoc. apply Hbad. lia.
      * lia.
Qed.

(** [init]: [wait] until the answer is the shell. *)
Lemma init_reap_runs pid k s :
  ans (s_now s + k) = pid -> (forall j, (j < k)%nat -> 0 <= ans (s_now s + j) /\ ans (s_now s + j) <> pid) ->
  run (init_reap pid) s ≈ Ret (did (replicate (S k) Wait) s, tt).
Proof.
  unfold init_reap. match goal with |- context [ITree.iter ?b] => set (body := b) end.
  revert s. induction k as [|k IH]; intros s Hp Hj; rewrite run_iter.
  - rewrite Nat.add_0_r in Hp. eapply run_bind; [eapply run_call; [apply kcall_other|]|].
    + rewrite Hp, Z.eqb_refl. apply run_ret.
    + apply run_ret.
  - destruct (Hj 0%nat) as [H0 H1]; [lia|]. rewrite Nat.add_0_r in H0, H1.
    eapply run_bind; [eapply run_call; [apply kcall_other|]|].
    + rewrite (proj2 (Z.eqb_neq _ _)), (proj2 (Z.ltb_ge _ _)) by done. apply run_ret.
    + rewrite IH.
      * by rewrite did_did.
      * cbn. by rewrite <- Nat.add_assoc.
      * intros j Hlt. cbn. rewrite <- Nat.add_assoc. apply Hj. lia.
Qed.

(** [init] keeps a shell running: after it has started a shell it waits;
    whatever orphans it is told about in between, when [wait] returns the
    shell's process it is back at the start of its loop, having made one [fork]
    and the calls of [wait], and starts the next one. *)
Theorem init_restarts_shell s k :
  let msg := chr "init: starting sh" ++ [NL] in let t := (s_now s + length msg)%nat in let pid := ans t in
  0 < pid -> ans (S t + k) = pid -> (forall j, (j < k)%nat -> 0 <= ans (S t + j) /\ ans (S t + j) <> pid) ->
  run init_loop s ≈ run init_loop (did (Fork :: replicate (S k) Wait) (say msg [] (length msg) s)).
Proof using reliable.
  intros msg t pid Hpos Hp Hj. unfold init_loop at 1. rewrite run_iter. unfold run at 1. rewrite bind_bind.
  match goal with |- interp_state _ ?p s ≈ _ => change (interp_state _ p s) with (run p s) end.
  eapply run_bind.
  - unfold init_round. eapply run_bind; [apply run_uprintf|]. eapply run_call; [apply kcall_other|].
    change (vprintf _ _ _) with msg. change (s_now (say msg [] (length msg) s)) with t. fold pid.
    rewrite (proj2 (Z.ltb_ge _ _)), (proj2 (Z.eqb_neq _ _)) by lia. apply (init_reap_runs pid k).
    + change (s_now (did [Fork] (say msg [] (length msg) s))) with (t + 1)%nat. by rewrite Nat.add_1_r.
    + change (s_now (did [Fork] (say msg [] (length msg) s))) with (t + 1)%nat. by rewrite Nat.add_1_r.
  - unfold run at 1. rewrite bind_ret_l. rewrite did_did. reflexivity.
Qed.

(** [stat] of a name opens the file and closes it again. *)
Lemma ustat_runs a s i :
  index_of is_free (s_fds s) = Some i -> exists n,
  run (ustat a) s ≈ Ret (say [] [] n s, match s_files s !! a with Some nd => (0, n_stat nd) | None => (-1, mkstat 0 0 0 0 0) end).
Proof using reliable.
  intros Hi. unfold ustat. destruct (s_files s !! a) as [nd|] eqn:Ha.
  - assert (s_fds s !! i = Some None) as Hfree by (by apply free_at).
    assert (Hlt := lookup_lt_Some _ _ _ Hfree). exists 3%nat. eapply run_call; [by apply kcall_open|].
    rewrite (proj2 (Z.ltb_ge _ _)) by lia. eapply run_call; [by apply kcall_fstat, fd_file_upd|].
    rewrite say_upd. eapply run_call; [by eapply kcall_close, fd_file_upd|]. rewrite run_ret.
    unfold say, upd. cbn. rewrite list_insert_insert_eq, list_insert_id, !app_nil_r by done.
    do 2 f_equiv. f_equal. f_equal. lia.
  - exists 1%nat. eapply run_call; [by apply kcall_open_none|]. apply run_ret.
Qed.

Lemma print_stat_runs path st s : run (print_stat path st) s ≈
  Ret (say (stat_line path st) [] (length (stat_line path st)) s, tt).
Proof using reliable.
  unfold print_stat. rewrite run_uprintf.
  assert (forall p t i z, vprintf udigits (chr "%s %d %d %d" ++ [NL]) [AStr (Some p); ANum t; ANum i; ANum z] =
    p ++ [32] ++ dec t ++ [32] ++ dec i ++ [32] ++ dec z ++ [NL]) as -> by reflexivity.
  unfold stat_line, dec. rewrite i32_idem. reflexivity.
Qed.

Section Directory.
(** A read of a directory is not cut. *)
Hypothesis whole : forall t, (15 <= cut t)%nat.

Lemma kcall_read_dirent i nd rest s : fd_file s (Z.of_nat i) = Some (mkofile nd rest) ->
  kcall (Read (Z.of_nat i) DIRENT_SIZE) s =
    (upd i nd (drop 16 rest) [] [] 1 s, (Z.of_nat (Nat.min 16 (length rest)), take 16 rest)).
Proof using whole reliable.
  intros Hf. destruct s as [files fds out err calls now]. unfold kcall. rewrite Hf, reliable, Nat2Z.id. cbn [of_rest of_node].
  pose proof (whole now) as Hw. change (Z.to_nat DIRENT_SIZE) with 16%nat.
  replace (Nat.min 16 _) with (Nat.min 16 (length rest)) by lia.
  unfold upd. cbn [s_files s_fds s_out s_err s_calls s_now]. rewrite !app_nil_r, Nat.add_1_r.
  destruct (decide (16 <= length rest)%nat); [by rewrite Nat.min_l by lia|]. rewrite Nat.min_r by lia.
  by rewrite !drop_ge, !take_ge by lia.
Qed.

Lemma free_upd i nd rest o e n s f : fd_file s (Z.of_nat i) = Some f ->
  index_of is_free (s_fds (upd i nd rest o e n s)) = index_of is_free (s_fds s).
Proof.
  rewrite fd_file_nat. intros Hf. cbn. destruct (s_fds s !! i) as [[g|]|] eqn:E; try done. by eapply index_of_occupied.
Qed.

Lemma ls_entry_runs i nd path de rest s j :
  fd_file s (Z.of_nat i) = Some (mkofile nd (dirent_bytes de ++ rest)) -> dirent_ok de ->
  index_of is_free (s_fds s) = Some j -> exists n,
  run (ls_entry (Z.of_nat i) path) s ≈ Ret (upd i nd rest (entry_line (s_files s) path de) [] n s, inl tt).
Proof using whole reliable.
  intros Hf [Hi Hl] Hj. assert (Hlt := fd_file_lt _ _ _ Hf). pose proof (kcall_read_dirent _ _ _ _ Hf) as Hr.
  pose proof (length_dirent_bytes de Hl) as H16. rewrite take_app_length', drop_app_length', length_app, Nat.min_l in Hr by lia.
  set (s1 := upd i nd rest [] [] 1 s) in Hr. assert (index_of is_free (s_fds s1) = Some j) as Hj1 by (unfold s1; by erewrite free_upd).
  set (buf := path ++ [47] ++ cstr (de_name de)). destruct (ustat_runs buf s1 j Hj1) as [n Hn].
  change (s_files s1) with (s_files s) in Hn. unfold entry_line. fold buf.
  destruct (Z.eqb_spec (de_inum de) 0) as [E0|E0];
    [|destruct (s_files s !! buf) as [nf|]]; eexists; unfold ls_entry; (eapply run_call; [exact Hr|]); cbn [fst snd];
    change (Z.of_nat 16 =? DIRENT_SIZE) with true; cbn [negb]; rewrite dirent_roundtrip by done.
  - rewrite (proj2 (Z.eqb_eq _ _)) by done. apply run_ret.
  - rewrite (proj2 (Z.eqb_neq _ _)) by done. eapply run_bind; [exact Hn|]. cbn [fst snd Z.ltb Z.compare].
    eapply run_bind; [apply print_stat_runs|]. rewrite run_ret. unfold s1. rewrite !say_upd. reflexivity.
  - rewrite (proj2 (Z.eqb_neq _ _)) by done. eapply run_bind; [exact Hn|]. cbn [fst snd Z.ltb Z.compare].
    eapply run_bind; [apply run_uprintf|]. rewrite run_ret. unfold s1. rewrite !say_upd. reflexivity.
Qed.

Lemma ls_entries_runs i nd path es s j :
  fd_file s (Z.of_nat i) = Some (mkofile nd (concat (List.map dirent_bytes es))) -> Forall dirent_ok es ->
  index_of is_free (s_fds s) = Some j -> exists n,
  run (ls_entries (Z.of_nat i) path) s ≈ Ret (upd i nd [] (concat (List.map (entry_line (s_files s) path) es)) [] n s, tt).
Proof using whole reliable.
  unfold ls_entries. revert s. induction es as [|de es IH]; intros s Hf Hes Hj; assert (Hlt := fd_file_lt _ _ _ Hf).
  - exists 1%nat. rewrite run_iter. eapply run_bind; [eapply run_call; [by apply kcall_read_dirent|apply run_ret]|]. apply run_ret.
  - apply Forall_cons in Hes as [Hd Hes]. cbn [List.map concat] in *.
    destruct (ls_entry_runs i nd path de _ s j Hf Hd Hj) as [n1 H1].
    destruct (IH (upd i nd (concat (List.map dirent_bytes es)) (entry_line (s_files s) path de) [] n1 s)) as [n2 H2];
      [by apply fd_file_upd|done|by erewrite free_upd|].
    exists (n1 + n2)%nat. rewrite run_iter. eapply run_bind; [exact H1|]. rewrite H2, upd_upd. reflexivity.
Qed.

(** C36: [ls] of a directory prints a line for each of its entries in use, with
    the type, the inode number and the size of the file that the entry names,
    or an error when there is no such file; it closes what it opens. No call
    fails, and the entries are read in one piece. *)
Theorem ls_lists path nd es s i j :
  s_files s !! path = Some nd -> st_type (n_stat nd) = T_DIR -> n_data nd = concat (List.map dirent_bytes es) ->
  Forall dirent_ok es -> (length path + 16 <= 512)%nat ->
  index_of is_free (s_fds s) = Some i -> index_of is_free (<[i := Some (mkofile nd [])]> (s_fds s)) = Some j -> exists n,
  run (ls path) s ≈ Ret (say (concat (List.map (entry_line (s_files s) path) es)) [] n s, tt).
Proof using whole reliable.
  intros Hp Ht Hdata Hes Hlen Hi Hj. assert (Hfree := free_at _ _ Hi). assert (Hlt := lookup_lt_Some _ _ _ Hfree).
  set (s1 := upd i nd (n_data nd) [] [] 2 s). assert (fd_file s1 (Z.of_nat i) = Some (mkofile nd (n_data nd))) as Hf by (by apply fd_file_upd).
  destruct (ls_entries_runs i nd path es s1 j) as [n Hn]; [by rewrite <- Hdata|done| |].
  { rewrite <- Hj, <- (free_upd i nd [] [] [] 0 s1 _ Hf). cbn. by rewrite list_insert_insert_eq. }
  eexists. unfold ls. eapply run_call; [by apply kcall_open|]. rewrite (proj2 (Z.ltb_ge _ _)) by lia.
  eapply run_call; [by apply kcall_fstat, fd_file_upd|]. cbn [fst snd Z.ltb Z.compare of_node]. rewrite Ht, say_upd.
  cbn [Z.eqb Pos.eqb orb]. rewrite (proj2 (Nat.ltb_ge _ _)) by (cbn; lia). fold s1. eapply run_bind; [exact Hn|]. cbv beta. unfold s1. rewrite upd_upd.
  eapply run_call; [eapply kcall_close; by apply fd_file_upd|]. rewrite run_ret.
  unfold say, upd. cbn. rewrite !list_insert_insert_eq, list_insert_id, !app_nil_r by done. do 2 f_equiv. f_equal. f_equal.
  instantiate (1 := (3 + n)%nat). lia.
Qed.
End Directory.
End Reliable.
End Kernel.

(* ------------------------------------------------------------------ *)
(** ** A small system *)

(** A directory with three entries, one of them unused and one without a file,
    and a text of two lines; descriptors 3 to 5 are free. *)
Definition ex_dirents : list dirent :=
  [mkdirent 7 (97 :: zeros 13); mkdirent 0 (98 :: zeros 13); mkdirent 9 (99 :: zeros 13)].
Definition ex_text : list Z := chr "one two" ++ [NL] ++ chr "three" ++ [NL].
Definition ex_sys : sys :=
  mksys (<[chr "d" := mknode (mkstat 1 1 T_DIR 1 48) (concat (List.map dirent_bytes ex_dirents))]>
        (<[chr "d/a" := mknode (mkstat 1 7 T_FILE 1 14) ex_text]> ∅))
    [Some (mkofile (mknode (mkstat 1 2 T_DEVICE 1 0) []) []); Some (mkofile (mknode (mkstat 1 2 T_DEVICE 1 0) []) []);
     Some (mkofile (mknode (mkstat 1 2 T_DEVICE 1 0) []) []); None; None; None] [] [] [] 0.

Definition ex_run {R} : prog R -> sys -> itree haltE (sys * R) :=
  run (fun t => (15 + t)%nat) (fun _ => false) (fun _ => 5).

(** The counts of the text, then an error. *)
Lemma wc_counts_witness : exists n,
  ex_run (wc_main [chr "wc"; chr "d/a"; chr "x"; chr "d/a"]) ex_sys ≈
    halt (say (chr "2 3 14 d/a" ++ [NL] ++ chr "wc: cannot open x" ++ [NL]) [] n ex_sys) 1.
Proof.
  destruct (wc_counts (fun t => (15 + t)%nat) (fun _ => false) (fun _ => 5) (fun _ => eq_refl)
    (chr "wc") [chr "d/a"; chr "x"; chr "d/a"] ex_sys 3 eq_refl ltac:(discriminate)) as [n Hn].
  exists n. exact Hn.
Defined.

Lemma cat_copies_witness : exists n,
  ex_run (cat_main [chr "cat"; chr "d/a"; chr "d/a"]) ex_sys ≈ halt (say (ex_text ++ ex_text) [] n ex_sys) 0.
Proof.
  destruct (cat_copies (fun t => (15 + t)%nat) (fun _ => false) (fun _ => 5) (fun _ => eq_refl)
    (chr "cat") [chr "d/a"; chr "d/a"] ex_sys 3 eq_refl ltac:(discriminate)) as [n Hn].
  exists n. exact Hn.
Defined.

Lemma ls_lists_witness : exists n,
  ex_run (ls (chr "d")) ex_sys ≈
    Ret (say (chr "a              2 7 14" ++ [NL] ++ chr "ls: cannot stat d/c" ++ [NL]) [] n ex_sys, tt).
Proof.
  destruct (ls_lists (fun t => (15 + t)%nat) (fun _ => false) (fun _ => 5) (fun _ => eq_refl) ltac:(intros; cbv beta; lia)
    (chr "d") _ ex_dirents ex_sys 3 4 eq_refl eq_refl eq_refl
    ltac:(repeat apply Forall_cons_2; try apply Forall_nil_2; (split; [cbn; lia|reflexivity])) ltac:(cbn; lia) eq_refl eq_refl)
    as [n Hn].
  exists n. exact Hn.
Defined.

(** The shell is process 5; an orphan, 6, ends before it. *)
Lemma init_restarts_shell_witness :
  let ans := fun t => if decide (t = 19%nat) then 6 else 5 in
  run (fun _ => 0%nat) (fun _ => false) ans init_loop ex_sys ≈
  run (fun _ => 0%nat) (fun _ => false) ans init_loop
    (did [Fork; Wait; Wait] (say (chr "init: starting sh" ++ [NL]) [] 18 ex_sys)).
Proof.
  apply (init_restarts_shell (fun _ => 0%nat) (fun _ => false) (fun t => if decide (t = 19%nat) then 6 else 5) (fun _ => eq_refl) ex_sys 1).
  - reflexivity.
  - reflexivity.
  - intros j Hj. assert (j = 0%nat) as -> by lia. vm_compute. split; discriminate.
Defined.
