(* ===== verification/GrepMain.v ===== *)
(** * [grep] as a program ([user/grep.c])

    The function [grep] and [main] with their system calls, in the model of
    [Utils.v]; the matcher and the scan of the buffer are those of [Grep.v]. *)

From S2P Require Import Prelude Machine Strings Printf Utils Grep.
From ITree Require Import ITree ITreeFacts.
Local Open Scope Z_scope.
Local Open Scope prog_scope.

Section Program.
(** The address of [buf]. *)
Context (buf : Z).

(** The loop over the complete lines of the buffer. Its strings end in the
    buffer; otherwise the code would read past it, here it does not return. *)
Definition grep_scan (pattern : list Z) : mem * Z -> prog (mem * Z) :=
  ITree.iter (fun x : mem * Z =>
    let '(m, p) := x in
    match strchr m p NEWLINE (Z.to_nat BUFSIZE) with
    | None => ITree.spin
    | Some q =>
        if q =? 0 then Ret (inr (m, p))
        else
          let m := setb m q 0 in
          if match_ pattern (ustr m p) then
            let m := setb m q NEWLINE in
            ecall (Write 1 (mread m p (q + 1 - p))) ;;;
            Ret (inl (m, q + 1))
          else Ret (inl (m, q + 1))
    end).

(** [grep(pattern, fd)], with the buffer before and after, and one round of
    its loop: the buffer and [m]. *)
Definition grep_round (pattern : list Z) (fd : Z) (x : mem * Z) : prog (mem * Z + mem) :=
  let '(mm, m) := x in
  r <- ecall (Read fd (BUFSIZE - m - 1)) ;;
  if 0 <? r.1 then
    let mm := mwrite mm (buf + m) r.2 in
    let m := m + r.1 in
    let mm := setb mm (buf + m) 0 in
    y <- grep_scan pattern (mm, buf) ;;
    Ret (inl (if 0 <? m then let m := m - (y.2 - buf) in (umemmove y.1 buf y.2 m, m) else (y.1, m)))
  else Ret (inr mm).
Definition grep_fd (pattern : list Z) (fd : Z) (mm : mem) : prog mem := ITree.iter (grep_round pattern fd) (mm, 0).

(** The loop of [main] over the files. *)
Fixpoint grep_files (pattern : list Z) (names : list (list Z)) (mm : mem) : prog Z :=
  match names with
  | [] => exit 0
  | a :: names =>
      fd <- ecall (Open a O_RDONLY) ;;
      if fd <? 0 then uprintf (chr "grep: cannot open %s" ++ [NL]) [AStr (Some a)] ;;; exit 1
      else
        mm <- grep_fd pattern fd mm ;;
        ecall (Close fd) ;;;
        grep_files pattern names mm
  end.

Definition grep_main (argv : list (list Z)) (mm : mem) : prog Z :=
  match argv with
  | _ :: pattern :: names =>
      match names with
      | [] => grep_fd pattern 0 mm ;;; exit 0
      | _ :: _ => grep_files pattern names mm
      end
  | _ => fprintf 2 (chr "usage: grep pattern [file ...]" ++ [NL]) [] ;;; exit 1
  end.

(* ------------------------------------------------------------------ *)
(** ** Correctness *)

Context (cut : nat -> nat) (fails : nat -> bool) (ans : nat -> Z).
Hypothesis reliable : forall t, fails t = false.
Hypothesis buf_pos : 0 < buf.
Abbreviation run := (run cut fails ans).

(** What was printed by the scan is what [grep_lines] collects. *)
Lemma grep_scan_runs pattern fuel m p m' p' out out' s :
  grep_lines fuel pattern m p out = Some (m', p', out') -> exists o n,
  out' = out ++ o /\ run (grep_scan pattern (m, p)) s ≈ Ret (say o [] n s, (m', p')).
Proof using reliable.
  revert m p out s. induction fuel as [|fuel IH]; intros m p out s Hg; [done|]. cbn [grep_lines] in Hg.
  unfold grep_scan. setoid_rewrite run_iter. cbv beta iota. destruct (strchr m p NEWLINE (Z.to_nat BUFSIZE)) as [q|]; [|done].
  destruct (q =? 0).
  { injection Hg as -> -> ->. exists [], 0%nat. split; [by rewrite app_nil_r|]. eapply run_bind; [apply run_ret|].
    rewrite run_ret. unfold say. destruct s. cbn. by rewrite !app_nil_r, Nat.add_0_r. }
  destruct (match_ pattern (ustr (setb m q 0) p)).
  - set (l := mread _ p (q + 1 - p)) in *. destruct (IH _ _ _ (say l [] 1 s) Hg) as (o & n & -> & Hr).
    exists (l ++ o), (1 + n)%nat. split; [by rewrite app_assoc|].
    eapply run_bind; [eapply run_call; [apply kcall_write; auto|apply run_ret]|]. cbn [Z.eqb Pos.eqb].
    unfold grep_scan in Hr. rewrite Hr, say_say. reflexivity.
  - destruct (IH _ _ _ s Hg) as (o & n & -> & Hr). exists o, n. split; [done|].
    eapply run_bind; [apply run_ret|]. exact Hr.
Qed.

Definition text_ok (t : list Z) : Prop :=
  no_nul t /\ Forall (fun c => 0 <= c < 256) t /\ Forall (fun l => (length l <= 1022)%nat) (lines t).1.

(** A read into a full buffer returns nothing. *)
Lemma kcall_read_0 i nd rest s : fd_file s (Z.of_nat i) = Some (mkofile nd rest) ->
  kcall cut fails ans (Read (Z.of_nat i) 0) s = (upd i nd rest [] [] 1 s, (0, [])).
Proof using reliable.
  intros Hf. destruct s. unfold kcall. rewrite Hf, reliable, Nat2Z.id. unfold upd. cbn. by rewrite !app_nil_r, Nat.add_1_r.
Qed.

(** One round that gets [chunk] from the file: the complete lines are printed,
    what is left is at the start of the buffer. *)
Lemma grep_round_runs pattern i nd mm T rest s :
  fd_file s (Z.of_nat i) = Some (mkofile nd rest) ->
  mem_ok mm -> mread mm buf (Z.of_nat (length T)) = T -> (length T <= 1023)%nat -> text_ok (T ++ rest) ->
  exists k, let chunk := take k rest in let T1 := T ++ chunk in
  (k = 0%nat /\ (rest = [] \/ length T = 1023%nat) /\
   run (grep_round pattern (Z.of_nat i) (mm, Z.of_nat (length T))) s ≈ Ret (upd i nd rest [] [] 1 s, inr mm)) \/
  (0 < k <= length rest)%nat /\ (length T1 <= 1023)%nat /\ exists mm' n,
   mem_ok mm' /\ mread mm' buf (Z.of_nat (length (lines T1).2)) = (lines T1).2 /\
   run (grep_round pattern (Z.of_nat i) (mm, Z.of_nat (length T))) s ≈
     Ret (upd i nd (drop k rest) (grep_out pattern (lines T1).1) [] n s, inl (mm', Z.of_nat (length (lines T1).2))).
Proof using reliable buf_pos.
  intros Hf Hm HT Hl (Hz & Hb & Hs). unfold grep_round. destruct (decide (length T = 1023%nat)) as [Hfull|Hroom].
  { exists 0%nat. left. split; [done|]. split; [by right|]. rewrite Hfull. change (BUFSIZE - Z.of_nat 1023 - 1) with 0.
    eapply run_call; [by apply kcall_read_0|apply run_ret]. }
  destruct (kcall_read cut fails ans reliable i nd rest (BUFSIZE - Z.of_nat (length T) - 1) s Hf) as (k & Hr & Hk1 & Hk2 & Hk0); [lia|].
  exists k. destruct (decide (k = 0%nat)) as [->|Hk].
  { left. split; [done|]. split; [left; auto|]. eapply run_call; [exact Hr|apply run_ret]. }
  right. split; [lia|]. set (chunk := take k rest). assert (length (T ++ chunk) <= 1023)%nat as H1023.
  { unfold chunk. rewrite length_app, length_take. lia. }
  split; [done|]. rewrite <- (take_drop k rest), app_assoc in Hz, Hb. fold chunk in Hz, Hb. apply Forall_app in Hz as [Hz _].
  apply Forall_app in Hb as [[_ Hb]%Forall_app _].
  destruct (grep_fill buf buf_pos pattern mm T chunk [] Hm Hb HT H1023 Hz) as (m' & p & Hg & Hp & Hrd & Hok).
  destruct (grep_scan_runs _ _ _ _ _ _ _ _ (upd i nd (drop k rest) [] [] 1 s) Hg) as (o & n & Ho & Hrun). cbn in Ho. subst o.
  eexists _, _. split; [exact Hok|]. split; [exact Hrd|].
  eapply run_call; [exact Hr|]. cbn [fst snd]. rewrite (proj2 (Z.ltb_lt 0 _)) by lia. fold chunk.
  replace (Z.of_nat (length T) + Z.of_nat k) with (Z.of_nat (length (T ++ chunk))) by (unfold chunk; rewrite length_app, length_take; lia).
  eapply run_bind; [exact Hrun|]. cbn [fst snd]. rewrite (proj2 (Z.ltb_lt 0 _)) by (unfold chunk; rewrite length_app, length_take; lia).
  cbv zeta. rewrite Hp, run_ret, say_upd. reflexivity.
Qed.

Lemma grep_loop_runs pattern i nd mm T rest s :
  fd_file s (Z.of_nat i) = Some (mkofile nd rest) ->
  mem_ok mm -> mread mm buf (Z.of_nat (length T)) = T -> (length T <= 1023)%nat -> no_nl T -> text_ok (T ++ rest) ->
  exists mm' n r, mem_ok mm' /\
  run (ITree.iter (grep_round pattern (Z.of_nat i)) (mm, Z.of_nat (length T))) s ≈
    Ret (upd i nd r (grep_out pattern (lines (T ++ rest)).1) [] n s, mm').
Proof using reliable buf_pos.
  remember (length rest) as len eqn:Hlen. revert mm T rest s Hlen. induction (lt_wf len) as [len _ IH].
  intros mm T rest s Hlen Hf Hm HT Hl Hnl Hok. assert (Hlt := fd_file_lt _ _ _ Hf).
  destruct (grep_round_runs pattern i nd mm T rest s Hf Hm HT Hl Hok) as [k [(-> & Hend & Hr)|(Hk & H1 & mm1 & n1 & Hm1 & Hrd & Hr)]].
  - exists mm, 1%nat, rest. split; [done|]. rewrite run_iter. eapply run_bind; [exact Hr|]. cbv beta iota. rewrite run_ret.
    assert ((lines (T ++ rest)).1 = []) as ->; [|reflexivity].
    destruct Hend as [-> | H1023]; [rewrite app_nil_r; by rewrite lines_none|].
    destruct (buffer_room T rest) as [|]; [done|apply Hok|done|lia].
  - set (T1 := T ++ take k rest) in *.
    assert (T ++ rest = T1 ++ drop k rest) as E by (unfold T1; by rewrite <- app_assoc, take_drop).
    destruct (IH (length (drop k rest))) with (mm := mm1) (T := (lines T1).2) (rest := drop k rest)
      (s := upd i nd (drop k rest) (grep_out pattern (lines T1).1) [] n1 s) as (mm2 & n2 & r & Hm2 & Hr2).
    { rewrite length_drop. lia. } { done. } { by apply fd_file_upd. } { done. } { done. }
    { pose proof (lines_length T1). lia. } { apply lines_tail. }
    { rewrite E in Hok. destruct Hok as (Hz & Hb & Hs), (lines_suffix T1) as [pre Hpre].
      rewrite Hpre, <- app_assoc in Hz, Hb. rewrite lines_app in Hs. apply Forall_app in Hz as [_ Hz], Hb as [_ Hb], Hs as [_ Hs].
      by split. }
    exists mm2, (n1 + n2)%nat, r. split; [done|]. rewrite run_iter. eapply run_bind; [exact Hr|]. cbv beta iota.
    rewrite Hr2, upd_upd, E, (lines_app T1). cbn [fst]. rewrite grep_out_app. reflexivity.
Qed.

Lemma grep_fd_runs pattern i nd mm rest s :
  fd_file s (Z.of_nat i) = Some (mkofile nd rest) -> mem_ok mm -> text_ok rest -> exists mm' n r, mem_ok mm' /\
  run (grep_fd pattern (Z.of_nat i) mm) s ≈ Ret (upd i nd r (grep_out pattern (lines rest).1) [] n s, mm').
Proof using reliable buf_pos.
  intros Hf Hm Hok. apply (grep_loop_runs pattern i nd mm [] rest s); try done; [cbn; lia|constructor].
Qed.

Definition grep_missing (a : list Z) : list Z := chr "grep: cannot open " ++ a ++ [NL].

Lemma grep_files_runs pattern names mm s i :
  index_of is_free (s_fds s) = Some i -> mem_ok mm ->
  let l := (found (s_files s) names).1 in let b := (found (s_files s) names).2 in
  Forall (fun at_ => text_ok at_.2) l -> exists n,
  run (grep_files pattern names mm) s ≈
    halt (say (concat (List.map (fun at_ => grep_out pattern (lines at_.2).1) l) ++ default [] (grep_missing <$> b)) [] n s)
         (match b with None => 0 | Some _ => 1 end).
Proof using reliable buf_pos.
  revert mm s. induction names as [|a names IH]; intros mm s Hi Hm l b Hl; subst l b; cbn [found grep_files].
  - exists 0%nat. rewrite run_exit. cbn. unfold say. destruct s. cbn. rewrite !app_nil_r, Nat.add_0_r. reflexivity.
  - cbn [found] in Hl. destruct (s_files s !! a) as [nd|] eqn:Ea; cbn [fst snd] in *.
    + apply Forall_cons in Hl as [Hd Hl]. assert (Hfree := free_at _ _ Hi). assert (Hlt := lookup_lt_Some _ _ _ Hfree).
      destruct (grep_fd_runs pattern i nd mm (n_data nd) (upd i nd (n_data nd) [] [] 1 s)) as (mm1 & n1 & r & Hm1 & Hr); [by apply fd_file_upd|done|done|].
      destruct (IH mm1 (say (grep_out pattern (lines (n_data nd)).1) [] (2 + n1) s) Hi Hm1 Hl) as [n2 H2].
      exists (2 + n1 + n2)%nat. eapply run_call; [by apply kcall_open|]. rewrite (proj2 (Z.ltb_ge _ _)) by lia.
      eapply run_bind; [exact Hr|]. cbv beta. rewrite upd_upd. eapply run_call; [eapply kcall_close; by apply fd_file_upd|].
      match goal with |- run _ ?t ≈ _ => replace t with (say (grep_out pattern (lines (n_data nd)).1) [] (2 + n1) s) end.
      * rewrite H2, say_say. cbn [List.map concat fst snd say s_files]. rewrite <- app_assoc. reflexivity.
      * unfold say, upd. cbn. rewrite list_insert_insert_eq, list_insert_id by done. f_equal. lia.
    + eexists. eapply run_call; [by apply kcall_open_none|]. change (-1 <? 0) with true. cbv iota.
      eapply run_bind; [by apply run_uprintf|]. rewrite run_exit, say_say. reflexivity.
Qed.

(** C25: [grep pattern files] prints the complete lines of the files that match
    the pattern, in order, however [read] cuts the files into pieces. At the
    first file that does not exist it prints an error and exits with 1;
    otherwise it exits with 0, and the descriptors are closed. The files have
    no NULs, and their lines fit in the buffer. *)
Theorem grep_main_prints argv0 pattern names mm s i :
  index_of is_free (s_fds s) = Some i -> names <> [] -> mem_ok mm ->
  let l := (found (s_files s) names).1 in let b := (found (s_files s) names).2 in
  Forall (fun at_ => text_ok at_.2) l -> exists n,
  run (grep_main (argv0 :: pattern :: names) mm) s ≈
    halt (say (concat (List.map (fun at_ => grep_out pattern (lines at_.2).1) l) ++ default [] (grep_missing <$> b)) [] n s)
         (match b with None => 0 | Some _ => 1 end).
Proof using reliable buf_pos.
  intros Hi Hn Hm l b Hl. unfold grep_main. destruct names as [|a names]; [done|]. by apply (grep_files_runs pattern (a :: names) mm s i).
Qed.
End Program.

(** One line of two matches; [read] returns one or two bytes at a time. *)
Lemma grep_main_prints_witness : exists n,
  run (fun t => (t mod 2)%nat) (fun _ => false) (fun _ => 0) (grep_main 0x4000 [chr "grep"; chr "t.*e"; chr "d/a"] (fun _ => 0)) ex_sys ≈
    halt (say (chr "three" ++ [NL]) [] n ex_sys) 0.
Proof.
  destruct (grep_main_prints 0x4000 (fun t => (t mod 2)%nat) (fun _ => false) (fun _ => 0) (fun _ => eq_refl) ltac:(lia)
    (chr "grep") (chr "t.*e") [chr "d/a"] (fun _ => 0) ex_sys 3 eq_refl ltac:(discriminate) ltac:(intros x; lia)) as [n Hn].
  - constructor; [|constructor]. split; [|split]; vm_compute; repeat constructor; discriminate.
  - exists n. exact Hn.
Defined.
