(* ===== verification/Demos.v ===== *)
(** * Demonstration programs ([user/hello.c], [user/getpid2.c], [user/getppid.c],
    [user/getnumchild.c], [user/getsyscount.c], [user/childcount.c],
    [user/dorphan.c], [user/forphan.c])

    The programs that show the system calls added to the kernel, in the model of
    [Utils.v]. *)

From S2P Require Import Prelude Machine Strings Printf Fs Utils.
From ITree Require Import ITree ITreeFacts.
Local Open Scope Z_scope.
Local Open Scope prog_scope.

Abbreviation ans c := (ecall (Other c)).
Abbreviation O_CREATE_WRONLY := 0x201%Z.

Definition hello_main : prog Z := ans Hello ;;; exit 0.

Definition getpid2_main : prog Z :=
  pid <- ans Getpid2 ;;
  uprintf (chr "Current PID is %d" ++ [NL]) [ANum pid] ;;;
  exit 0.

Definition getppid_main : prog Z :=
  pid <- ans Getppid ;;
  (if pid =? -1 then uprintf (chr "No parent exists" ++ [NL]) []
   else uprintf (chr "PID of parent is %d" ++ [NL]) [ANum pid]) ;;;
  exit 0.

Definition getnumchild_main : prog Z :=
  n <- ans Getnumchild ;;
  uprintf (chr "Children before fork: %d" ++ [NL]) [ANum n] ;;;
  pid <- ans Fork ;;
  (if pid =? 0 then ans (Pause 9) ;;; exit 0 else Ret tt) ;;;
  pid <- ans Fork ;;
  (if pid =? 0 then ans (Pause 10) ;;; exit 0 else Ret tt) ;;;
  n <- ans Getnumchild ;;
  uprintf (chr "Number of Children after 2 forks: %d" ++ [NL]) [ANum n] ;;;
  ans Wait ;;;
  n <- ans Getnumchild ;;
  uprintf (chr "Number of Children after 1 wait: %d" ++ [NL]) [ANum n] ;;;
  ans Wait ;;;
  n <- ans Getnumchild ;;
  uprintf (chr "Number of Children after 2 waits: %d" ++ [NL]) [ANum n] ;;;
  exit 0.

Definition getsyscount_main : prog Z :=
  initial <- ans Getsyscount ;;
  uprintf (chr "Test 1: Initial syscall count: %d" ++ [NL]) [ANum initial] ;;;
  ans Getpid ;;;
  ans Getpid ;;;
  ans Getpid ;;;
  after <- ans Getsyscount ;;
  uprintf (chr "Test 2: After 3 getpid() calls: %d (increased by %d)" ++ [NL]) [ANum after; ANum (i32 (after - initial))] ;;;
  final <- ans Getsyscount ;;
  uprintf ([NL] ++ chr "Test 3: Verify counter includes all syscalls" ++ [NL]) [] ;;;
  uprintf (chr "  Total syscalls made: %d" ++ [NL]) [ANum (i32 (final - initial))] ;;;
  exit 0.

Definition childcount_main : prog Z :=
  child <- ans Fork ;;
  (if child =? 0 then
     count1 <- ans Getsyscount ;;
     uprintf (chr "Child: Initial syscall count: %d" ++ [NL]) [ANum count1] ;;;
     ans Getpid ;;;
     ans Getpid ;;;
     ans Getpid ;;;
     count2 <- ans Getsyscount ;;
     uprintf (chr "Child: After 3 getpid() calls: %d" ++ [NL]) [ANum count2] ;;;
     exit 0
   else
     ans (Pause 10) ;;;
     uprintf (chr "Test 1: Parent reading child's syscall count" ++ [NL]) [] ;;;
     n <- ans (Getchildsyscount child) ;;
     uprintf (chr "  Child PID %d has made %d syscalls" ++ [NL]) [ANum child; ANum n] ;;;
     uprintf ([NL] ++ chr "Test 2: Reading non-existent child (PID 9999)" ++ [NL]) [] ;;;
     invalid <- ans (Getchildsyscount 9999) ;;
     uprintf (chr "  Result: %d" ++ [NL]) [ANum invalid] ;;;
     (if invalid =? -1 then uprintf (chr "  Correctly returned -1 for invalid PID" ++ [NL]) []
      else uprintf (chr "  ERROR: Should return -1!" ++ [NL]) []) ;;;
     uprintf ([NL] ++ chr "Test 3: Parent reading own PID as child (should fail)" ++ [NL]) [] ;;;
     parent <- ans Getpid ;;
     self <- ans (Getchildsyscount parent) ;;
     uprintf (chr "  Result: %d" ++ [NL]) [ANum self] ;;;
     (if self =? -1 then uprintf (chr "  Correctly returned -1 (own process is not a child)" ++ [NL]) [] else Ret tt) ;;;
     ans Wait ;;;
     uprintf ([NL] ++ chr "Test 4: Child process exited" ++ [NL]) []) ;;;
  exit 0.

(** [for(;;) pause(1000)] *)
Definition sit_around : prog Z := ITree.iter (fun _ : unit => ans (Pause 1000) ;;; Ret (inl tt)) tt.

Definition dorphan_main (argv : list (list Z)) : prog Z :=
  let s := nth 0 argv [] in
  r <- ans (Mkdir (chr "dd")) ;;
  if negb (r =? 0) then uprintf (chr "%s: mkdir dd failed" ++ [NL]) [AStr (Some s)] ;;; exit 1
  else
    r <- ans (Chdir (chr "dd")) ;;
    if negb (r =? 0) then uprintf (chr "%s: chdir dd failed" ++ [NL]) [AStr (Some s)] ;;; exit 1
    else
      r <- ans (Unlink (chr "../dd")) ;;
      if r <? 0 then uprintf (chr "%s: unlink failed" ++ [NL]) [AStr (Some s)] ;;; exit 1
      else
        uprintf (chr "wait for kill and reclaim" ++ [NL]) [] ;;;
        sit_around.

Definition forphan_main (argv : list (list Z)) : prog Z :=
  let s := nth 0 argv [] in
  let ff := chr "file0" in
  fd <- ecall (Open ff O_CREATE_WRONLY) ;;
  if fd <? 0 then uprintf (chr "%s: open failed" ++ [NL]) [AStr (Some s)] ;;; exit 1
  else
    st <- ecall (Fstat fd) ;;
    if st.1 <? 0 then fprintf 2 (chr "%s: cannot stat %s" ++ [NL]) [AStr (Some s); AStr (Some (chr "ff"))] ;;; exit 1
    else
      r <- ans (Unlink ff) ;;
      if r <? 0 then uprintf (chr "%s: unlink failed" ++ [NL]) [AStr (Some s)] ;;; exit 1
      else
        fd <- ecall (Open ff O_RDONLY) ;;
        if negb (fd =? -1) then uprintf (chr "%s: open successed" ++ [NL]) [AStr (Some s)] ;;; exit 1
        else
          uprintf (chr "wait for kill and reclaim %d" ++ [NL]) [ANum (st_ino st.2)] ;;;
          sit_around.

(* ------------------------------------------------------------------ *)
(** ** What the counter shows *)

Lemma i32_sub a b : i32 (i32 a - i32 b) = i32 (a - b).
Proof.
  assert (forall x, i32 x mod 2 ^ 32 = x mod 2 ^ 32) as Hm.
  { intros x. unfold i32, sext. cbv zeta. destruct (_ <? _); [by apply Z.mod_mod|].
    replace (x mod 2 ^ 32 - 2 ^ 32) with (x mod 2 ^ 32 + (-1) * 2 ^ 32) by lia. by rewrite Z.mod_add, Z.mod_mod. }
  assert ((i32 a - i32 b) mod 2 ^ 32 = (a - b) mod 2 ^ 32) as E by (by rewrite Zminus_mod, !Hm, <- Zminus_mod).
  unfold i32 at 1, sext. rewrite E. done.
Qed.

Lemma dec_i32 a : dec (i32 a) = dec a.
Proof. unfold dec. by rewrite i32_idem. Qed.

Lemma say_did o e n cs s : say o e n (did cs s) = did cs (say o e n s).
Proof. unfold say, did. cbn. f_equal. lia. Qed.

Lemma vprintf_1 a : vprintf udigits (chr "Test 1: Initial syscall count: %d" ++ [NL]) [ANum a] =
  chr "Test 1: Initial syscall count: " ++ dec a ++ [NL].
Proof. reflexivity. Qed.
Lemma vprintf_2 a b : vprintf udigits (chr "Test 2: After 3 getpid() calls: %d (increased by %d)" ++ [NL]) [ANum a; ANum b] =
  chr "Test 2: After 3 getpid() calls: " ++ dec a ++ chr " (increased by " ++ dec b ++ chr ")" ++ [NL].
Proof. reflexivity. Qed.
Lemma vprintf_4 a : vprintf udigits (chr "  Total syscalls made: %d" ++ [NL]) [ANum a] =
  chr "  Total syscalls made: " ++ dec a ++ [NL].
Proof. reflexivity. Qed.

Section Counter.
Context (cut : nat -> nat) (fails : nat -> bool) (c : Z).
Hypothesis reliable : forall t, fails t = false.
Abbreviation run := (run cut fails (fun t => i32 (c + Z.of_nat t + 1))).

(** [getsyscount] when the kernel's counter was [c] at time 0 and every call
    counts, the one that reads it included: [printf] makes one call per
    character, so that the increase after three calls of [getpid] is four and
    the length of the first line. *)
Theorem getsyscount_reports s : exists n,
  let n1 := c + Z.of_nat (s_now s) + 1 in
  let l1 := chr "Test 1: Initial syscall count: " ++ dec n1 ++ [NL] in
  let n2 := n1 + Z.of_nat (length l1) + 4 in
  let l2 := chr "Test 2: After 3 getpid() calls: " ++ dec n2 ++ chr " (increased by " ++ dec (n2 - n1) ++ chr ")" ++ [NL] in
  let n3 := n2 + Z.of_nat (length l2) + 1 in
  run getsyscount_main s ≈
    halt (did [Getsyscount; Getpid; Getpid; Getpid; Getsyscount; Getsyscount]
      (say (l1 ++ l2 ++ [NL] ++ chr "Test 3: Verify counter includes all syscalls" ++ [NL] ++
            chr "  Total syscalls made: " ++ dec (n3 - n1) ++ [NL]) [] n s)) 0.
Proof using reliable.
  intros. eexists. intros n1 l1 n2 l2 n3. unfold getsyscount_main.
  eapply run_call; [apply kcall_other|]. fold n1. eapply run_bind; [by apply run_uprintf|].
  rewrite vprintf_1, dec_i32. fold l1. rewrite say_did.
  do 3 (eapply run_call; [apply kcall_other|]; rewrite did_did). eapply run_call; [apply kcall_other|]. rewrite did_did.
  cbn [app]. match goal with |- context [i32 ?z] => replace z with n2 by (unfold n2, n1; cbn; lia) end.
  eapply run_bind; [by apply run_uprintf|]. rewrite i32_sub, vprintf_2, !dec_i32. fold l2. rewrite say_did, say_say.
  eapply run_call; [apply kcall_other|]. rewrite did_did. cbn [app].
  match goal with |- context [i32 (c + ?z + 1)] => replace (c + z + 1) with n3 by (unfold n3, n2, n1; cbn; lia) end.
  eapply run_bind; [by apply run_uprintf|]. eapply run_bind; [by apply run_uprintf|].
  rewrite i32_sub, vprintf_4, dec_i32, run_exit, !say_did, !say_say, <- !app_assoc. reflexivity.
Qed.
End Counter.
