(* ===== verification/Umalloc.v ===== *)
(** * The user-level memory allocator ([user/umalloc.c])

    The allocator of Kernighan and Ritchie. Blocks are a multiple of the size of
    [Header] (16 bytes: [ptr], [size] in units, padding); the free blocks are a
    circular list in order of their addresses, which starts with the empty block
    [base] of the program's data. How the heap grows is up to the kernel. *)

From S2P Require Import Prelude Machine.
Local Open Scope Z_scope.

(* ------------------------------------------------------------------ *)
(** ** The code *)

Abbreviation UNIT := 16%Z.
Abbreviation SBRK_ERROR := (2 ^ 64 - 1)%Z.

(** [p->s.ptr], [p->s.size] and assignments to them. *)
Definition hptr (m : mem) (p : Z) : Z := load64 m p.
Definition hsize (m : mem) (p : Z) : Z := load32 m (p + 8).
Definition set_ptr (m : mem) (p v : Z) : mem := store64 m p v.
Definition set_size (m : mem) (p v : Z) : mem := store32 m (p + 8) v.

(** The memory, the variable [freep] and the program's break. *)
Record ustate : Type := mkustate { u_mem : mem; u_freep : Z; u_brk : Z }.

Section Alloc.
(** The address of [base]; the break after [sbrk(n)] at a break, unless the
    kernel refuses. *)
Context (base : Z) (grow : Z -> Z -> option Z).

(** The loop of [free]: the free block after which [bp] belongs. *)
Fixpoint find_slot (fuel : nat) (m : mem) (bp p : Z) : option Z :=
  match fuel with
  | O => None
  | S fuel =>
      let q := hptr m p in
      if (p <? bp) && (bp <? q) then Some p
      else if (q <=? p) && ((p <? bp) || (bp <? q)) then Some p
      else find_slot fuel m bp q
  end.

(** Joins [bp] to the block after it, or links it there. *)
Definition join_next (m : mem) (bp q : Z) : mem :=
  if bp + UNIT * hsize m bp =? q then
    let m := set_size m bp (u32 (hsize m bp + hsize m q)) in
    set_ptr m bp (hptr m q)
  else set_ptr m bp q.

(** Joins [bp] to the block before it, or links it there. *)
Definition join_prev (m : mem) (bp p : Z) : mem :=
  if p + UNIT * hsize m p =? bp then
    let m := set_size m p (u32 (hsize m p + hsize m bp)) in
    set_ptr m p (hptr m bp)
  else set_ptr m p bp.

Definition free (fuel : nat) (ap : Z) (s : ustate) : option ustate :=
  let bp := ap - UNIT in
  match find_slot fuel (u_mem s) bp (u_freep s) with
  | None => None
  | Some p => Some (mkustate (join_prev (join_next (u_mem s) bp (hptr (u_mem s) p)) bp p) p (u_brk s))
  end.

(** [sbrk(n)] for an [int] [n]. *)
Definition sbrk (n : Z) (s : ustate) : Z * ustate :=
  match grow (u_brk s) (i32 n) with
  | Some b => (u_brk s, mkustate (u_mem s) (u_freep s) b)
  | None => (SBRK_ERROR, s)
  end.

Definition morecore (fuel : nat) (nu : Z) (s : ustate) : option (Z * ustate) :=
  let nu := if nu <? 4096 then 4096 else nu in
  let '(p, s) := sbrk (u64 (nu * UNIT)) s in
  if p =? SBRK_ERROR then Some (0, s)
  else
    match free fuel (p + UNIT) (mkustate (set_size (u_mem s) p nu) (u_freep s) (u_brk s)) with
    | None => None
    | Some s => Some (u_freep s, s)
    end.

(** [malloc] once a block [p] with enough room was found: the block is taken
    out of the list, or its tail is. *)
Definition take_block (nunits prevp p : Z) (s : ustate) : Z * ustate :=
  let m := u_mem s in
  if hsize m p =? nunits then (p + UNIT, mkustate (set_ptr m prevp (hptr m p)) prevp (u_brk s))
  else
    let m := set_size m p (u32 (hsize m p - nunits)) in
    let q := p + UNIT * hsize m p in
    (q + UNIT, mkustate (set_size m q nunits) prevp (u_brk s)).

Fixpoint malloc_loop (fuel ffuel : nat) (nunits prevp p : Z) (s : ustate) : option (Z * ustate) :=
  match fuel with
  | O => None
  | S fuel =>
      if nunits <=? hsize (u_mem s) p then Some (take_block nunits prevp p s)
      else if p =? u_freep s then
        match morecore ffuel nunits s with
        | None => None
        | Some (p, s) =>
            if p =? 0 then Some (0, s)
            else malloc_loop fuel ffuel nunits p (hptr (u_mem s) p) s
        end
      else malloc_loop fuel ffuel nunits p (hptr (u_mem s) p) s
  end.

Definition units (nbytes : Z) : Z := u32 ((nbytes + UNIT - 1) / UNIT + 1).

(** [fuel] bounds the two loops over the free list. *)
Definition malloc (fuel : nat) (nbytes : Z) (s : ustate) : option (Z * ustate) :=
  let nunits := units nbytes in
  let s := if u_freep s =? 0
           then mkustate (set_size (set_ptr (u_mem s) base base) base 0) base (u_brk s) else s in
  malloc_loop fuel fuel nunits (u_freep s) (hptr (u_mem s) (u_freep s)) s.
End Alloc.

(* ------------------------------------------------------------------ *)
(** ** Headers in memory *)

(** Two headers are the same or apart. *)
Definition apart (p q : Z) : Prop := p = q \/ p + UNIT <= q \/ q + UNIT <= p.
Definition word (v : Z) : Prop := 0 <= v < 2 ^ 64.

Lemma hptr_set_ptr m p v x : apart p x -> word v -> hptr (set_ptr m p v) x = if decide (x = p) then v else hptr m x.
Proof.
  intros Ha Hv. unfold hptr, set_ptr. case_decide as E; [subst; rewrite load_store; by apply Z.mod_small|].
  apply load_store_disj. unfold apart in Ha. lia.
Qed.
Lemma hsize_set_ptr m p v x : apart p x -> hsize (set_ptr m p v) x = hsize m x.
Proof. intros Ha. unfold hsize, set_ptr. apply load_store_disj. unfold apart in Ha. lia. Qed.
Lemma hptr_set_size m p v x : apart p x -> hptr (set_size m p v) x = hptr m x.
Proof. intros Ha. unfold hptr, set_size. apply load_store_disj. unfold apart in Ha. lia. Qed.
Lemma hsize_set_size m p v x :
  apart p x -> 0 <= v < 2 ^ 32 -> hsize (set_size m p v) x = if decide (x = p) then v else hsize m x.
Proof.
  intros Ha Hv. unfold hsize, set_size. case_decide as E; [subst; rewrite load_store; by apply Z.mod_small|].
  apply load_store_disj. unfold apart in Ha. lia.
Qed.
Lemma set_ptr_out m p v x : x < p \/ p + UNIT <= x -> set_ptr m p v x = m x.
Proof. intros Hx. apply store_out. lia. Qed.
Lemma set_size_out m p v x : x < p \/ p + UNIT <= x -> set_size m p v x = m x.
Proof. intros Hx. apply store_out. lia. Qed.

(* ------------------------------------------------------------------ *)
(** ** The heap *)

Definition bend (b : Z * Z) : Z := b.1 + UNIT * b.2.

(** Free blocks in order, with a gap after each. *)
Fixpoint ordered (l : list (Z * Z)) : Prop :=
  match l with
  | [] => True
  | b :: l => (forall c, c ∈ l -> bend b < c.1) /\ ordered l
  end.

Lemma ordered_app l1 l2 :
  ordered (l1 ++ l2) <-> ordered l1 /\ ordered l2 /\ (forall b c, b ∈ l1 -> c ∈ l2 -> bend b < c.1).
Proof.
  induction l1 as [|b l1 IH]; cbn [app ordered]; [split; [intros; split_and!; [done..|set_solver]|naive_solver]|].
  rewrite IH. split.
  - intros (H1 & H2 & H3 & H4). split_and!; [set_solver|done|done|]. intros x c [->|Hx]%elem_of_cons Hc; [|by apply H4].
    apply H1. set_solver.
  - intros ((H1 & H2) & H3 & H4). split_and!; [|done|done|set_solver].
    intros c [Hc|Hc]%elem_of_app; [by apply H1|]. apply H4; [set_solver|done].
Qed.

Section Heap.
Context (base lo : Z).

Abbreviation ring fl := (base :: map fst fl).

(** The free list [fl], the allocated blocks [al] by address. *)
Record heap (s : ustate) (fl : list (Z * Z)) (al : gmap Z Z) : Prop := {
  hp_base : 0 < base /\ base + UNIT <= lo <= u_brk s /\ u_brk s < 2 ^ 36;
  hp_chain : nexts (hptr (u_mem s)) (ring fl ++ [base]);
  hp_size0 : hsize (u_mem s) base = 0;
  hp_free : forall b, b ∈ fl -> hsize (u_mem s) b.1 = b.2 /\ 0 < b.2 /\ lo <= b.1 /\ bend b <= u_brk s;
  hp_used : forall a n, al !! a = Some n -> hsize (u_mem s) a = n /\ 0 < n /\ lo <= a /\ a + UNIT * n <= u_brk s;
  hp_ordered : ordered fl;
  hp_mixed : forall b a n, b ∈ fl -> al !! a = Some n -> bend b <= a \/ a + UNIT * n <= b.1;
  hp_apart : forall a n a' n', al !! a = Some n -> al !! a' = Some n' -> a <> a' ->
    a + UNIT * n <= a' \/ a' + UNIT * n' <= a;
  hp_cover : forall x, lo <= x < u_brk s ->
    (exists b, b ∈ fl /\ b.1 <= x < bend b) \/ exists a n, al !! a = Some n /\ a <= x < a + UNIT * n;
  hp_freep : u_freep s ∈ ring fl
}.

(** The bytes of the allocated blocks. *)
Definition same_used (al : gmap Z Z) (m m' : mem) : Prop :=
  forall a n x, al !! a = Some n -> a <= x < a + UNIT * n -> m' x = m x.

(** Where a block that is not free belongs. *)
Lemma split_at fl a n :
  ordered fl -> (forall b, b ∈ fl -> 0 < b.2) -> 0 < n ->
  (forall b, b ∈ fl -> bend b <= a \/ a + UNIT * n <= b.1) ->
  exists F1 F2, fl = F1 ++ F2 /\ (forall b, b ∈ F1 -> bend b <= a) /\ (forall b, b ∈ F2 -> a + UNIT * n <= b.1).
Proof.
  intros Ho Hp Hn Hd. induction fl as [|b fl IH]; [exists [], []; set_solver|]. destruct Ho as [Hb Ho].
  destruct (Hd b) as [Hle|Hge]; [set_solver| |].
  - destruct IH as (F1 & F2 & -> & H1 & H2); [done|set_solver|set_solver|].
    exists (b :: F1), F2. split_and!; [done| |done]. intros c [->|Hc]%elem_of_cons; [done|by apply H1].
  - exists [], (b :: fl). split_and!; [done|set_solver|]. intros c [->|Hc]%elem_of_cons; [done|].
    specialize (Hb c Hc). specialize (Hp b). unfold bend in Hb. assert (b ∈ b :: fl) by set_solver. specialize (Hp H). lia.
Qed.

Lemma ring_last (fl : list (Z * Z)) : exists X t, ring fl = X ++ [t] /\ (t = base /\ fl = [] \/ exists (F : list (Z * Z)) b, fl = F ++ [b] /\ t = b.1 /\ X = ring F).
Proof.
  destruct fl as [|b fl] using rev_ind; [exists [], base; by split; [|left]|].
  exists (ring fl), b.1. rewrite map_app. split; [done|]. right. by exists fl, b.
Qed.

Lemma nexts_lookup {A} (f : A -> A) l i a b : nexts f l -> l !! i = Some a -> l !! S i = Some b -> f a = b.
Proof.
  revert i. induction l as [|x l IH]; intros i Hn Ha Hb; [done|]. destruct l as [|y l]; [by destruct i|].
  destruct Hn as [Hx Hn]. destruct i as [|i]; cbn in *; [congruence|]. by apply (IH i).
Qed.

(** The ring seen from another of its elements. *)
Lemma ring_rotate {A} (f : A -> A) (h : A) l l1 p l2 :
  nexts f ((h :: l) ++ [h]) -> h :: l = l1 ++ p :: l2 -> nexts f (p :: (l2 ++ l1) ++ [p]).
Proof.
  intros Hn E. rewrite E in Hn. rewrite <- app_assoc in Hn. cbn [app] in Hn. rewrite nexts_app in Hn.
  destruct Hn as [H1 H2]. destruct l1 as [|h' l1]; cbn [app] in *; injection E as -> _.
  - by rewrite app_nil_r.
  - rewrite <- app_assoc. cbn [app]. change (p :: l2 ++ h' :: l1 ++ [p]) with ((p :: l2) ++ h' :: (l1 ++ [p])).
    rewrite nexts_app. split; done.
Qed.

Lemma ordered_pair l b c : ordered l -> b ∈ l -> c ∈ l -> b = c \/ bend b < c.1 \/ bend c < b.1.
Proof.
  induction l as [|x l IH]; [set_solver|]. intros [Hx Ho] [->|Hb]%elem_of_cons [->|Hc]%elem_of_cons; [by left|..].
  - right. left. by apply Hx.
  - right. right. by apply Hx.
  - by apply IH.
Qed.

(** The headers in use. *)
Definition hdr (fl : list (Z * Z)) (al : gmap Z Z) (x : Z) : Prop :=
  x = base \/ (exists b, b ∈ fl /\ x = b.1) \/ is_Some (al !! x).

Lemma hdr_apart s fl al x y : heap s fl al -> hdr fl al x -> hdr fl al y -> apart x y.
Proof.
  intros [Hb _ _ Hf Hu Ho Hm Ha _ _] Hx Hy. unfold apart.
  destruct Hx as [->|[(b & Hbx & ->)|[n Hn]]], Hy as [->|[(c & Hcy & ->)|[k Hk]]].
  - by left.
  - specialize (Hf c Hcy). lia.
  - specialize (Hu y k Hk). lia.
  - specialize (Hf b Hbx). lia.
  - destruct (ordered_pair fl b c) as [->|Hp]; [done..|by left|].
    pose proof (Hf b Hbx). pose proof (Hf c Hcy). unfold bend in *. lia.
  - pose proof (Hf b Hbx). pose proof (Hu y k Hk). specialize (Hm b y k Hbx Hk). unfold bend in *. lia.
  - specialize (Hu x n Hn). lia.
  - pose proof (Hf c Hcy). pose proof (Hu x n Hn). specialize (Hm c x n Hcy Hn). unfold bend in *. lia.
  - destruct (Z.eq_dec x y) as [->|Hne]; [by left|]. pose proof (Hu x n Hn). pose proof (Hu y k Hk).
    specialize (Ha x n y k Hn Hk Hne). lia.
Qed.

(** When the loop of [free] stops. *)
Definition stops (m : mem) (bp p : Z) : bool :=
  let q := hptr m p in ((p <? bp) && (bp <? q)) || ((q <=? p) && ((p <? bp) || (bp <? q))).

Lemma find_slot_S fuel m bp p :
  find_slot (S fuel) m bp p = if stops m bp p then Some p else find_slot fuel m bp (hptr m p).
Proof. cbn [find_slot]. unfold stops. repeat case_match; done. Qed.

Lemma find_slot_ring m bp t l p fuel :
  nexts (hptr m) (p :: l) -> (forall x, x ∈ p :: l -> stops m bp x = bool_decide (x = t)) -> t ∈ p :: l ->
  (length (p :: l) <= fuel)%nat -> find_slot fuel m bp p = Some t.
Proof.
  revert p fuel. induction l as [|q l IH]; intros p fuel Hn Hs Ht Hf; (destruct fuel as [|fuel]; [cbn in Hf; lia|]);
    rewrite find_slot_S, Hs by set_solver; case_bool_decide as E; try (by rewrite E).
  - set_solver.
  - destruct Hn as [-> Hn]. apply IH; [done|set_solver|set_solver|cbn in *; lia].
Qed.

(** The addresses on the ring increase. *)
Fixpoint incr (l : list Z) : Prop :=
  match l with
  | [] => True
  | x :: l => (forall y, y ∈ l -> x < y) /\ incr l
  end.
Lemma incr_app l1 l2 : incr (l1 ++ l2) <-> incr l1 /\ incr l2 /\ (forall x y, x ∈ l1 -> y ∈ l2 -> x < y).
Proof.
  induction l1 as [|b l1 IH]; cbn [app incr]; [split; [intros; split_and!; [done..|set_solver]|naive_solver]|].
  rewrite IH. split; [intros (H1 & H2 & H3 & H4)|intros ((H1 & H2) & H3 & H4)]; split_and!; set_solver.
Qed.
Lemma ring_incr fl : ordered fl -> (forall b, b ∈ fl -> 0 < b.2 /\ base < b.1) -> incr (ring fl).
Proof.
  intros Ho Hp. split.
  - intros y (b & -> & Hb)%list_elem_of_fmap. apply Hp, Hb.
  - clear -Ho Hp. induction fl as [|b fl IH]; [done|]. destruct Ho as [Hb Ho]. split; [|apply IH; [done|set_solver]].
    intros y (c & -> & Hc)%list_elem_of_fmap. specialize (Hb c Hc). destruct (Hp b) as [? _]; [set_solver|]. unfold bend in Hb. lia.
Qed.

(** It stops exactly at the block before the one to be freed. *)
Lemma stops_at m F1 F2 X t a n :
  nexts (hptr m) (ring (F1 ++ F2) ++ [base]) -> ordered (F1 ++ F2) -> (forall b, b ∈ F1 ++ F2 -> 0 < b.2 /\ base < b.1) ->
  base < a -> 0 < n -> (forall b, b ∈ F1 -> bend b <= a) -> (forall b, b ∈ F2 -> a + UNIT * n <= b.1) ->
  ring F1 = X ++ [t] -> forall x, x ∈ ring (F1 ++ F2) -> stops m a x = bool_decide (x = t).
Proof.
  intros Hc Ho Hp Hba Hn H1 H2 Ht x Hx. pose proof (ring_incr _ Ho Hp) as Hi.
  assert (forall y, y ∈ ring F1 -> y < a /\ y <= t) as HF1.
  { intros y Hy. assert (t ∈ ring F1) as Htr by (rewrite Ht; set_solver).
    assert (forall z, z ∈ ring F1 -> z < a) as Hlt.
    { intros z [->|(b & -> & Hb)%list_elem_of_fmap]%elem_of_cons; [done|]. specialize (H1 b Hb). destruct (Hp b); [set_solver|].
      unfold bend in H1. lia. }
    split; [by apply Hlt|]. rewrite map_app, app_comm_cons, Ht, <- app_assoc in Hi. apply incr_app in Hi as (_ & _ & Hi).
    rewrite Ht in Hy. apply elem_of_app in Hy as [Hy|Hy]; [|set_solver]. assert (y < t); [|lia]. apply Hi; set_solver. }
  assert (forall y, y ∈ map fst F2 -> a < y) as HF2 by (intros y (b & -> & Hb)%list_elem_of_fmap; specialize (H2 b Hb); lia).
  assert (x ∈ ring F1 \/ x ∈ map fst F2) as Hx' by (rewrite map_app, app_comm_cons in Hx; by apply elem_of_app in Hx).
  assert (t ∈ ring F1) as Htr by (rewrite Ht; set_solver). pose proof (HF1 t Htr) as [Hta _].
  apply list_elem_of_split in Hx as (l1 & l2 & E). rewrite E, <- app_assoc in Hc. cbn [app] in Hc. rewrite nexts_app in Hc.
  destruct Hc as [_ Hc]. rewrite E in Hi. apply incr_app in Hi as (Hi1 & [Hx2 Hi2] & Hi12).
  assert (forall z, z ∈ ring F1 \/ z ∈ map fst F2 -> z ∈ l1 \/ z = x \/ z ∈ l2) as Hall.
  { intros z Hz. assert (z ∈ ring (F1 ++ F2)) as Hz' by (rewrite map_app, app_comm_cons; by apply elem_of_app).
    rewrite E in Hz'. set_solver. }
  unfold stops. destruct l2 as [|y l2]; destruct Hc as [-> _].
  - assert (base <= x) by (destruct Hx' as [Hx|Hx%HF2]; [|lia]; apply elem_of_cons in Hx as [->|(b & -> & Hb)%list_elem_of_fmap];
      [lia|destruct (Hp b); [set_solver|lia]]).
    rewrite (proj2 (Z.ltb_ge a base)), andb_false_r, orb_false_r, (proj2 (Z.leb_le base x)) by lia. cbn [orb andb].
    destruct Hx' as [Hx|Hx].
    + destruct (HF1 x Hx) as [Hxa Hxt]. rewrite (proj2 (Z.ltb_lt x a)), bool_decide_eq_true_2; [done| |done].
      destruct (Hall t) as [Htl|[->|Htl]]; [by left| |done|set_solver].
      assert (t < x) by (apply Hi12; set_solver). lia.
    + specialize (HF2 x Hx). rewrite (proj2 (Z.ltb_ge x a)), bool_decide_eq_false_2 by lia. done.
  - assert (x < y) by (apply Hx2; set_solver). rewrite (proj2 (Z.leb_gt y x)), andb_false_l, orb_false_r by lia.
    assert (y ∈ ring F1 \/ y ∈ map fst F2) as Hy.
    { rewrite <- elem_of_app. change (y ∈ base :: map fst F1 ++ map fst F2). rewrite <- map_app, E. set_solver. }
    case_bool_decide as Ext.
    + subst x. rewrite (proj2 (Z.ltb_lt t a)) by lia. destruct Hy as [Hy%HF1|Hy%HF2]; [lia|]. by apply Z.ltb_lt.
    + destruct Hx' as [Hx|Hx%HF2]; [|by rewrite (proj2 (Z.ltb_ge x a)) by lia].
      destruct (HF1 x Hx) as [_ Hxt]. assert (y <= t) as Hyt.
      { destruct (Hall t) as [Htl|[->|[->|Htl]%elem_of_cons]]; [by left| |done|lia|].
        - assert (t < x) by (apply Hi12; set_solver). lia.
        - assert (y < t) by (apply Hi2; set_solver). lia. }
      rewrite (proj2 (Z.ltb_ge a y)) by lia. apply andb_false_r.
Qed.

(** A block about to be freed: the free blocks before and after it. *)
Record around (s : ustate) (fl : list (Z * Z)) (al : gmap Z Z) (a n : Z) (F1 F2 : list (Z * Z)) (X : list Z) (t : Z) : Prop := {
  ar_heap : heap s fl al;
  ar_used : al !! a = Some n;
  ar_split : fl = F1 ++ F2;
  ar_before : forall b, b ∈ F1 -> bend b <= a;
  ar_after : forall b, b ∈ F2 -> a + UNIT * n <= b.1;
  ar_last : ring F1 = X ++ [t]
}.

Lemma around_exists s fl al a n :
  heap s fl al -> al !! a = Some n -> exists F1 F2 X t, around s fl al a n F1 F2 X t.
Proof.
  intros Hh Ha. destruct (split_at fl a n) as (F1 & F2 & E & H1 & H2).
  - apply Hh.
  - intros b Hb. by apply (hp_free s fl al Hh).
  - by apply (hp_used s fl al Hh a).
  - intros b Hb. by apply (hp_mixed s fl al Hh).
  - destruct (ring_last F1) as (X & t & Ht & _). by exists F1, F2, X, t.
Qed.

Lemma find_slot_around s fl al a n F1 F2 X t fuel :
  around s fl al a n F1 F2 X t -> (length fl < fuel)%nat -> find_slot fuel (u_mem s) a (u_freep s) = Some t.
Proof.
  intros [Hh Ha -> H1 H2 Ht] Hf. pose proof (hp_freep _ _ _ Hh) as Hfp.
  apply list_elem_of_split in Hfp as (l1 & l2 & E).
  pose proof (ring_rotate _ base _ l1 (u_freep s) l2 (hp_chain _ _ _ Hh) E) as Hr.
  destruct (hp_used _ _ _ Hh a n Ha) as (_ & Hn & Hlo & _). destruct (hp_base _ _ _ Hh) as (Hb0 & Hb1 & _).
  assert (forall x, x ∈ u_freep s :: l2 ++ l1 <-> x ∈ ring (F1 ++ F2)) as Hin by (intros x; rewrite E; set_solver).
  apply (find_slot_ring _ _ _ (l2 ++ l1)).
  - rewrite app_comm_cons in Hr. clear -Hr. revert Hr. generalize (u_freep s :: l2 ++ l1). intros l.
    destruct l as [|x l] using rev_ind; [done|]. rewrite <- app_assoc. cbn [app]. rewrite nexts_app. by intros [? _].
  - intros x Hx%Hin. apply (stops_at _ F1 F2 X t a n); try done; [apply Hh|apply Hh| |lia].
    intros b Hb. destruct (hp_free _ _ _ Hh b Hb) as (_ & ? & ? & _). lia.
  - apply Hin. rewrite map_app, app_comm_cons, Ht. set_solver.
  - apply (f_equal length) in E. cbn in E. rewrite length_map, length_app in E. cbn in *. rewrite length_app in E.
    rewrite !length_app in *. cbn in E. lia.
Qed.

(** The successor of [t] on the ring. *)
Lemma around_next s fl al a n F1 F2 X t :
  around s fl al a n F1 F2 X t -> nexts (hptr (u_mem s)) (t :: map fst F2 ++ [base]) /\ nexts (hptr (u_mem s)) (X ++ [t]).
Proof.
  intros [Hh Ha -> H1 H2 Ht]. pose proof (hp_chain _ _ _ Hh) as Hc.
  rewrite map_app, app_comm_cons, Ht, <- app_assoc in Hc. cbn [app] in Hc. rewrite <- app_assoc in Hc. cbn [app] in Hc.
  rewrite nexts_app in Hc. by destruct Hc.
Qed.

(** Joining with the free block after: the new size and the blocks that remain. *)
Definition absorb (a n : Z) (F2 : list (Z * Z)) : Z * list (Z * Z) :=
  match F2 with
  | b :: F => if a + UNIT * n =? b.1 then (n + b.2, F) else (n, F2)
  | [] => (n, [])
  end.

(** What an operation on the header [a] leaves alone. *)
Definition only (fl : list (Z * Z)) (al : gmap Z Z) (a : Z) (m m' : mem) : Prop :=
  (forall x, hdr fl al x -> x <> a -> hptr m' x = hptr m x /\ hsize m' x = hsize m x) /\
  forall x, x < a \/ a + UNIT <= x -> m' x = m x.

Lemma only_set_ptr s fl al m a v : heap s fl al -> hdr fl al a -> word v -> only fl al a m (set_ptr m a v).
Proof.
  intros Hh Ha Hv. split; [|intros; by apply set_ptr_out]. intros x Hx Hne.
  pose proof (hdr_apart _ _ _ _ _ Hh Ha Hx). rewrite hptr_set_ptr, decide_False, hsize_set_ptr by done. done.
Qed.
Lemma only_set_size s fl al m a v : heap s fl al -> hdr fl al a -> 0 <= v < 2 ^ 32 -> only fl al a m (set_size m a v).
Proof.
  intros Hh Ha Hv. split; [|intros; by apply set_size_out]. intros x Hx Hne.
  pose proof (hdr_apart _ _ _ _ _ Hh Ha Hx). rewrite hptr_set_size, hsize_set_size, decide_False by done. done.
Qed.
Lemma only_trans fl al a m1 m2 m3 : only fl al a m1 m2 -> only fl al a m2 m3 -> only fl al a m1 m3.
Proof.
  intros [H1 H2] [H3 H4]. split.
  - intros x Hx Hne. destruct (H1 x Hx Hne), (H3 x Hx Hne). split; congruence.
  - intros x Hx. rewrite H4, H2; done.
Qed.

(** Both fields of a header. *)
Lemma set_both s fl al m a v k :
  heap s fl al -> hdr fl al a -> word v -> 0 <= k < 2 ^ 32 ->
  let m' := set_ptr (set_size m a k) a v in
  hptr m' a = v /\ hsize m' a = k /\ only fl al a m m'.
Proof.
  intros Hh Ha Hv Hk m'. assert (apart a a) by (by left). split_and!.
  - unfold m'. by rewrite hptr_set_ptr, decide_True.
  - unfold m'. by rewrite hsize_set_ptr, hsize_set_size, decide_True.
  - eapply only_trans; [by eapply only_set_size|by eapply only_set_ptr].
Qed.

Lemma set_link s fl al m a v :
  heap s fl al -> hdr fl al a -> word v ->
  let m' := set_ptr m a v in hptr m' a = v /\ hsize m' a = hsize m a /\ only fl al a m m'.
Proof.
  intros Hh Ha Hv m'. assert (apart a a) by (by left). split_and!.
  - unfold m'. by rewrite hptr_set_ptr, decide_True.
  - unfold m'. by rewrite hsize_set_ptr.
  - by eapply only_set_ptr.
Qed.

Lemma hdr_word s fl al x : heap s fl al -> hdr fl al x -> word x.
Proof.
  intros Hh Hx. destruct (hp_base _ _ _ Hh) as (? & ? & ?). unfold word.
  destruct Hx as [->|[(b & Hb & ->)|[n Hn]]]; [lia| |].
  - destruct (hp_free _ _ _ Hh b Hb) as (_ & ? & ? & ?). unfold bend in *. lia.
  - destruct (hp_used _ _ _ Hh x n Hn) as (_ & ? & ? & ?). lia.
Qed.

Lemma next_word s fl al f x F :
  heap s fl al -> (forall b, b ∈ F -> b ∈ fl) -> nexts f (x :: map fst F ++ [base]) -> word (f x).
Proof.
  intros Hh HF Hc. apply (hdr_word s fl al); [done|]. destruct F as [|b F]; destruct Hc as [-> _]; [by left|].
  right. left. exists b. split; [set_solver|done].
Qed.

Lemma join_next_spec s fl al a n F1 F2 X t :
  around s fl al a n F1 F2 X t ->
  let m := u_mem s in let m1 := join_next m a (hptr m t) in
  nexts (hptr m1) (a :: map fst (absorb a n F2).2 ++ [base]) /\ hsize m1 a = (absorb a n F2).1 /\ only fl al a m m1.
Proof.
  intros Har m m1. pose proof (around_next _ _ _ _ _ _ _ _ _ Har) as [Hc _]. destruct Har as [Hh Ha -> H1 H2 Ht].
  assert (hdr (F1 ++ F2) al a) as Hha by (right; right; by eexists).
  destruct (hp_used _ _ _ Hh a n Ha) as (Hsz & Hn & Hlo & Hbr). destruct (hp_base _ _ _ Hh) as (? & ? & ?).
  fold m in Hsz, Hc. unfold m1, join_next. rewrite Hsz.
  assert (forall F m', (forall b, b ∈ F -> b ∈ F2) -> only (F1 ++ F2) al a m m' ->
    nexts (hptr m) (map fst F ++ [base]) -> nexts (hptr m') (map fst F ++ [base])) as Hkeep.
  { intros F m' HF [Ho _]. apply nexts_ext. intros x (b & -> & Hb)%list_elem_of_fmap. symmetry. apply Ho.
    - right. left. exists b. split; [set_solver|done].
    - specialize (H2 b (HF b Hb)). lia. }
  destruct F2 as [|b F]; cbn [map app] in Hc; destruct Hc as [-> Hc]; cbn [absorb].
  - rewrite (proj2 (Z.eqb_neq _ _)) by lia.
    destruct (set_link s (F1 ++ []) al m a base) as (Hp & Hs & Ho); [done|done|red; lia|].
    rewrite Hs. cbn. done.
  - assert (hdr (F1 ++ b :: F) al b.1) as Hhb by (right; left; exists b; split; [set_solver|done]).
    pose proof (hdr_word _ _ _ _ Hh Hhb) as Hwb.
    destruct (hp_free _ _ _ Hh b) as (Hbs & Hb0 & Hblo & Hbe); [set_solver|]. fold m in Hbs.
    destruct (Z.eqb_spec (a + UNIT * n) b.1) as [E|E].
    + unfold bend in Hbe. rewrite Hbs, u32_small by lia.
      destruct (set_both s (F1 ++ b :: F) al m a (hptr m b.1) (n + b.2)) as (Hp & Hs & Ho); [done|done| |lia|].
      { apply (next_word s (F1 ++ b :: F) al _ _ F); [done|set_solver|done]. }
      rewrite hptr_set_size by (by eapply hdr_apart).
      split_and!; [|done|done]. cbn [snd]. destruct F as [|c F]; cbn [map app] in *.
      * destruct Hc as [Hb _]. split; [by rewrite <- Hb|done].
      * destruct Hc as [Hb Hc]. split; [by rewrite <- Hb|]. apply (Hkeep (c :: F)); [set_solver|done|done].
    + destruct (set_link s (F1 ++ b :: F) al m a b.1) as (Hp & Hs & Ho); [done..|].
      rewrite Hs. split_and!; [|done|done]. split; [done|]. apply (Hkeep (b :: F)); [set_solver|done|done].
Qed.

(** Joining with the free block before. *)
Definition place (F1 : list (Z * Z)) (a A : Z) (F2 : list (Z * Z)) : list (Z * Z) :=
  match reverse F1 with
  | b :: F => if b.1 + UNIT * b.2 =? a then reverse F ++ (b.1, b.2 + A) :: F2 else F1 ++ (a, A) :: F2
  | [] => (a, A) :: F2
  end.
Lemma place_nil a A F2 : place [] a A F2 = (a, A) :: F2.
Proof. done. Qed.
Lemma place_snoc F b a A F2 :
  place (F ++ [b]) a A F2 = if bend b =? a then F ++ (b.1, b.2 + A) :: F2 else (F ++ [b]) ++ (a, A) :: F2.
Proof. unfold place, bend. rewrite reverse_snoc, reverse_involutive. done. Qed.

(** The addresses covered by a list of blocks. *)
Definition covered (l : list (Z * Z)) (x : Z) : Prop := exists b, b ∈ l /\ b.1 <= x < bend b.

Lemma covered_app l1 l2 x : covered (l1 ++ l2) x <-> covered l1 x \/ covered l2 x.
Proof. unfold covered. set_solver. Qed.
Lemma covered_cons b l x : covered (b :: l) x <-> b.1 <= x < bend b \/ covered l x.
Proof. unfold covered. set_solver. Qed.

Lemma absorb_ok a n F2 :
  0 < n -> ordered F2 -> (forall b, b ∈ F2 -> 0 < b.2 /\ a + UNIT * n <= b.1) ->
  let '(A, F) := absorb a n F2 in
  n <= A /\ ordered ((a, A) :: F) /\ (forall c, c ∈ F -> c ∈ F2) /\
  forall x, covered ((a, A) :: F) x <-> a <= x < a + UNIT * n \/ covered F2 x.
Proof.
  intros Hn Ho H2. destruct F2 as [|b F]; cbn [absorb].
  { split_and!; [lia|by split; [set_solver|]|done|]. intros x. by rewrite covered_cons. }
  destruct Ho as [Hb Ho]. destruct (H2 b) as [Hb0 Hb1]; [set_solver|]. unfold bend in Hb.
  destruct (Z.eqb_spec (a + UNIT * n) b.1) as [E|E].
  - split_and!; [lia| |set_solver|].
    + split; [|done]. intros c Hc. specialize (Hb c Hc). unfold bend. cbn. lia.
    + intros x. rewrite !covered_cons. unfold bend. cbn. split; [intros [?|?]|intros [?|[?|?]]]; auto; lia.
  - split_and!; [lia| |done|].
    + split; [|by split]. intros c [->|Hc]%elem_of_cons; unfold bend; cbn; [lia|]. specialize (Hb c Hc). lia.
    + intros x. rewrite (covered_cons (a, n)). unfold bend. cbn. done.
Qed.

Lemma place_ok F1 a A F2 :
  0 < A -> ordered F1 -> ordered ((a, A) :: F2) -> (forall b, b ∈ F1 -> 0 < b.2 /\ bend b <= a) ->
  (forall b, b ∈ F2 -> 0 < b.2) ->
  let fl := place F1 a A F2 in
  ordered fl /\ (forall b, b ∈ fl -> 0 < b.2) /\ forall x, covered fl x <-> covered F1 x \/ covered ((a, A) :: F2) x.
Proof.
  intros HA Ho1 [HaF Ho2] H1 H2. unfold bend in HaF; cbn in HaF.
  destruct F1 as [|b F] using rev_ind; [rewrite place_nil|clear IHF; rewrite place_snoc].
  { split_and!; [by split| |set_solver]. intros b [->|Hb]%elem_of_cons; [done|by apply H2]. }
  apply ordered_app in Ho1 as (HoF & _ & HFb). destruct (H1 b) as [Hb0 Hba]; [set_solver|]. unfold bend in Hba, HFb.
  destruct (Z.eqb_spec (bend b) a) as [E|E]; unfold bend in E.
  - split_and!.
    + apply ordered_app. split_and!; [done| |].
      * split; [|done]. intros c Hc. specialize (HaF c Hc). unfold bend. cbn. lia.
      * intros c d Hc [->|Hd]%elem_of_cons; unfold bend; cbn; [apply HFb; set_solver|].
        specialize (HFb c b Hc ltac:(set_solver)). specialize (HaF d Hd). lia.
    + intros c [Hc|[->|Hc]%elem_of_cons]%elem_of_app; [apply H1; set_solver|cbn; lia|by apply H2].
    + intros x. rewrite !covered_app, !covered_cons. unfold bend, covered at 4. cbn. split.
      * intros [?|[?|?]]; auto. destruct (Z.lt_ge_cases x a); [left; right; left|right; left]; lia.
      * intros [[?|[?|[? ?]]]|[?|?]]; auto; [right; left; lia|set_solver|right; left; lia].
  - split_and!.
    + rewrite <- app_assoc. apply ordered_app. split_and!; [done| |].
      * split; [|by split]. intros c [->|Hc]%elem_of_cons; unfold bend; cbn; [lia|]. specialize (HaF c Hc). lia.
      * intros c d Hc [->|[->|Hd]%elem_of_cons]%elem_of_cons; unfold bend; cbn; specialize (HFb c b Hc ltac:(set_solver));
          [lia|lia|]. specialize (HaF d Hd). lia.
    + intros c [Hc|[->|Hc]%elem_of_cons]%elem_of_app; [by apply H1|done|by apply H2].
    + intros x. by rewrite covered_app.
Qed.

(** The chain is kept on headers that are not changed. *)
Lemma chain_only fl al h m m' l z :
  only fl al h m m' -> (forall x, x ∈ l -> hdr fl al x /\ x <> h) -> nexts (hptr m) (l ++ [z]) -> nexts (hptr m') (l ++ [z]).
Proof. intros [Ho _] Hl. apply nexts_ext. intros x Hx. destruct (Hl x Hx). symmetry. by apply Ho. Qed.

(** The state between the two joins: [a] is linked to the blocks [F] after it. *)
Record linked (s : ustate) (fl : list (Z * Z)) (al : gmap Z Z) (a A t : Z) (F : list (Z * Z)) (m1 : mem) : Prop := {
  lk_heap : heap s fl al;
  lk_hdr : hdr fl al a;
  lk_pos : t < a /\ lo <= a;
  lk_size : 0 < A /\ a + UNIT * A <= u_brk s;
  lk_F : forall b, b ∈ F -> b ∈ fl /\ a < b.1;
  lk_chain : nexts (hptr m1) ((a :: map fst F) ++ [base]);
  lk_sizes : hsize m1 a = A;
  lk_only : only fl al a (u_mem s) m1
}.

Lemma hdr_free fl al b : b ∈ fl -> hdr fl al b.1.
Proof. intros Hb. right. left. by exists b. Qed.

Lemma linked_size s fl al a A t F m1 x : linked s fl al a A t F m1 -> hdr fl al x -> x <> a -> hsize m1 x = hsize (u_mem s) x.
Proof. intros Hl Hx Hne. by apply (lk_only _ _ _ _ _ _ _ _ Hl). Qed.

(** Changing the header [t] keeps it so. *)
Lemma linked_tail s fl al a A t F m1 m2 :
  linked s fl al a A t F m1 -> only fl al t m1 m2 ->
  nexts (hptr m2) ((a :: map fst F) ++ [base]) /\ hsize m2 a = A /\ hptr m2 a = hptr m1 a /\
  forall b, b ∈ F -> hsize m2 b.1 = b.2.
Proof.
  intros Hl Ho. pose proof Hl as [Hh Ha Hp Hs HF Hc Hsz _]. split_and!.
  - apply (chain_only _ _ _ _ _ _ _ Ho); [|done]. intros x [->|(c & -> & Hx)%list_elem_of_fmap]%elem_of_cons; [split; [done|lia]|].
    destruct (HF c Hx). split; [by apply hdr_free|lia].
  - rewrite <- Hsz. apply Ho; [done|lia].
  - apply Ho; [done|lia].
  - intros b Hb. destruct (HF b Hb) as [Hbf Hab]. pose proof (hdr_free fl al b Hbf).
    rewrite (proj2 (proj1 Ho b.1 ltac:(done) ltac:(lia))), (linked_size _ _ _ _ _ _ _ _ _ Hl) by (done || lia).
    by apply (hp_free _ _ _ Hh).
Qed.

(** What the second join leaves behind. *)
Definition joined (fl : list (Z * Z)) (al : gmap Z Z) (t : Z) (m1 m2 : mem) (fl' : list (Z * Z)) : Prop :=
  nexts (hptr m2) (ring fl' ++ [base]) /\ (forall b, b ∈ fl' -> hsize m2 b.1 = b.2) /\
  hsize m2 base = 0 /\ t ∈ ring fl' /\ only fl al t m1 m2.

Lemma join_prev_base s fl al a A F m1 :
  linked s fl al a A base F m1 -> joined fl al base m1 (join_prev m1 a base) ((a, A) :: F).
Proof.
  intros Hl. pose proof Hl as [Hh Ha Hp Hs HF Hc Hsz Ho1]. destruct (hp_base _ _ _ Hh) as (Hb0 & Hb1 & Hb2).
  assert (hsize m1 base = 0) as Hs0 by (erewrite linked_size; [apply Hh|done|by left|lia]).
  unfold join_prev. rewrite Hs0, (proj2 (Z.eqb_neq _ _)) by lia.
  destruct (set_link s fl al m1 base a Hh) as (Hpt & Hsb & Ho); [by left|by eapply hdr_word|].
  destruct (linked_tail _ _ _ _ _ _ _ _ _ Hl Ho) as (Hc2 & Hsa & _ & HsF).
  split_and!; [by split| |by rewrite Hsb|set_solver|done]. intros c [->|Hin]%elem_of_cons; [done|by apply HsF].
Qed.

Lemma linked_head s fl al a A b F1 F m1 m2 :
  linked s fl al a A b.1 F m1 -> only fl al b.1 m1 m2 -> (forall c, c ∈ F1 -> c ∈ fl /\ bend c < b.1) -> b ∈ fl ->
  nexts (hptr (u_mem s)) (ring F1 ++ [b.1]) ->
  nexts (hptr m2) (ring F1 ++ [b.1]) /\ hsize m2 base = 0 /\ forall c, c ∈ F1 -> hsize m2 c.1 = c.2.
Proof.
  intros Hl Ho2 HF1 Hbf HcX. pose proof Hl as [Hh Ha Hp Hs HF Hc Hsz Ho1]. destruct (hp_base _ _ _ Hh) as (Hb0 & Hb1 & Hb2).
  destruct (hp_free _ _ _ Hh b Hbf) as (Hbs & Hbp & Hblo & _).
  assert (forall x, x ∈ ring F1 -> hdr fl al x /\ x < b.1) as HrF.
  { intros x [->|(c & -> & Hx)%list_elem_of_fmap]%elem_of_cons; [split; [by left|lia]|]. destruct (HF1 c Hx) as [Hcf Hcb].
    destruct (hp_free _ _ _ Hh c Hcf) as (_ & ? & _). unfold bend in Hcb. split; [by apply hdr_free|lia]. }
  split_and!.
  - apply (chain_only _ _ _ _ _ _ _ Ho2); [intros x Hx; destruct (HrF x Hx); split; [done|lia]|].
    apply (chain_only _ _ _ _ _ _ _ Ho1); [|done]. intros x Hx. destruct (HrF x Hx). split; [done|lia].
  - rewrite (proj2 (proj1 Ho2 base ltac:(by left) ltac:(lia))). erewrite linked_size; [apply Hh|done|by left|lia].
  - intros c Hx. destruct (HF1 c Hx) as [Hcf _]. destruct (HrF c.1) as [Hhc Hlt].
    { apply elem_of_cons. right. by apply list_elem_of_fmap_2. }
    rewrite (proj2 (proj1 Ho2 c.1 Hhc ltac:(lia))). erewrite linked_size; [|done|done|lia]. by apply (hp_free _ _ _ Hh).
Qed.

Lemma join_prev_block s fl al a A b F1 F m1 :
  linked s fl al a A b.1 F m1 -> (forall c, c ∈ F1 -> c ∈ fl /\ bend c < b.1) -> b ∈ fl -> bend b <= a ->
  nexts (hptr (u_mem s)) (ring F1 ++ [b.1]) ->
  joined fl al b.1 m1 (join_prev m1 a b.1) (place (F1 ++ [b]) a A F).
Proof.
  intros Hl HF1 Hbf Hba HcX. pose proof Hl as [Hh Ha Hp Hs HF Hc Hsz Ho1]. destruct (hp_base _ _ _ Hh) as (Hb0 & Hb1 & Hb2).
  destruct (hp_free _ _ _ Hh b Hbf) as (Hbs & Hbp & Hblo & _). unfold bend in Hba.
  assert (hsize m1 b.1 = b.2) as Hsb by (erewrite linked_size; [done|done|by apply hdr_free|lia]).
  rewrite place_snoc. unfold join_prev. rewrite Hsb, Hsz. fold (bend b). destruct (Z.eqb_spec (bend b) a) as [E|E].
  - assert (b.2 + A < 2 ^ 32) by (unfold bend in E; lia). rewrite u32_small by lia.
    rewrite hptr_set_size by (eapply hdr_apart; [done|by apply hdr_free|done]).
    destruct (set_both s fl al m1 b.1 (hptr m1 a) (b.2 + A) Hh) as (Hpt & Hst & Ho2); [by apply hdr_free| |lia|].
    { apply (next_word s fl al _ _ F); [done|apply HF|done]. }
    destruct (linked_tail _ _ _ _ _ _ _ _ _ Hl Ho2) as (Hc2 & Hsa & Hpa & HsF).
    destruct (linked_head _ _ _ _ _ _ F1 _ _ _ Hl Ho2) as (Hc3 & Hs3 & HsF1); [done..|]. split_and!; try done.
    + rewrite map_app, app_comm_cons, <- app_assoc. apply (nexts_app _ (ring F1) b.1 (map fst F ++ [base])). split; [done|].
      destruct F as [|c F]; cbn [map app] in Hc2 |- *; destruct Hc2 as [Hc2 Hc2']; (split; [congruence|done]).
    + intros c [Hin|[->|Hin]%elem_of_cons]%elem_of_app; [by apply HsF1|done|by apply HsF].
    + rewrite map_app. set_solver.
  - destruct (set_link s fl al m1 b.1 a Hh) as (Hpt & Hst & Ho2); [by apply hdr_free|by eapply hdr_word|].
    destruct (linked_tail _ _ _ _ _ _ _ _ _ Hl Ho2) as (Hc2 & Hsa & Hpa & HsF).
    destruct (linked_head _ _ _ _ _ _ F1 _ _ _ Hl Ho2) as (Hc3 & Hs3 & HsF1); [done..|]. split_and!; try done.
    + replace (ring ((F1 ++ [b]) ++ (a, A) :: F) ++ [base]) with (ring F1 ++ b.1 :: (a :: map fst F ++ [base]))
        by (rewrite !map_app; cbn; by rewrite <- !app_assoc).
      apply (nexts_app _ (ring F1) b.1 (a :: map fst F ++ [base])). split; [done|]. by split.
    + intros c [[Hin|Hin]%elem_of_app|[->|Hin]%elem_of_cons]%elem_of_app; [by apply HsF1| |done|by apply HsF].
      apply list_elem_of_singleton in Hin as ->. by rewrite Hst.
    + rewrite !map_app. set_solver.
Qed.

(** Every free block lies where the heap is free. *)
Lemma covered_block l b : ordered l -> b ∈ l -> 0 < b.2 -> covered l b.1 /\ covered l (bend b - 1).
Proof. intros Ho Hb Hp. split; exists b; unfold bend; (split; [done|lia]). Qed.

(** The header before a block in use is outside of it. *)
Lemma hdr_outside s fl al t a n x :
  heap s fl al -> t ∈ ring fl -> al !! a = Some n -> a <= x < a + UNIT * n -> x < t \/ t + UNIT <= x.
Proof.
  intros Hh Ht Ha Hx. destruct (hp_base _ _ _ Hh) as (? & ? & ?). destruct (hp_used _ _ _ Hh a n Ha) as (_ & ? & ? & ?).
  apply elem_of_cons in Ht as [->|(b & -> & Hb)%list_elem_of_fmap]; [lia|].
  destruct (hp_free _ _ _ Hh b Hb) as (_ & ? & ? & _). destruct (hp_mixed _ _ _ Hh b a n Hb Ha); unfold bend in *; lia.
Qed.

(** The heap after a block was freed, given the new list. *)
Lemma heap_freed s fl al a n t m2 fl' :
  heap s fl al -> al !! a = Some n -> t ∈ ring fl ->
  nexts (hptr m2) (ring fl' ++ [base]) -> (forall b, b ∈ fl' -> hsize m2 b.1 = b.2) -> hsize m2 base = 0 ->
  t ∈ ring fl' -> ordered fl' -> (forall b, b ∈ fl' -> 0 < b.2) ->
  (forall x, covered fl' x <-> covered fl x \/ a <= x < a + UNIT * n) ->
  (forall x k, al !! x = Some k -> x <> a -> hsize m2 x = hsize (u_mem s) x) ->
  heap (mkustate m2 t (u_brk s)) fl' (delete a al).
Proof.
  intros Hh Ha Ht Hc Hs Hs0 Ht' Ho Hpos Hcov Hsz. destruct (hp_used _ _ _ Hh a n Ha) as (_ & Hn & Halo & Habr).
  assert (forall x, covered fl x -> lo <= x < u_brk s) as Hin.
  { intros x (b & Hb & Hx). destruct (hp_free _ _ _ Hh b Hb) as (_ & ? & ? & ?). lia. }
  assert (forall x a' n', covered fl' x -> al !! a' = Some n' -> a' <> a -> ~ (a' <= x < a' + UNIT * n')) as Hdis.
  { intros x a' n' [(b & Hb & Hx)|Hx]%Hcov Ha' Hne Hx'.
    - destruct (hp_mixed _ _ _ Hh b a' n' Hb Ha'); lia.
    - destruct (hp_apart _ _ _ Hh a n a' n'); [done..|lia|lia]. }
  split; cbn [u_mem u_brk u_freep]; try done.
  - apply Hh.
  - intros b Hb. specialize (Hpos b Hb). destruct (covered_block fl' b Ho Hb Hpos) as [H1 H2].
    apply Hcov in H1, H2. split_and!; [by apply Hs|done|destruct H1 as [?%Hin|?]; lia|destruct H2 as [?%Hin|?]; lia].
  - intros a' n' [Hne Ha']%lookup_delete_Some. rewrite (Hsz a' n') by done. by apply (hp_used _ _ _ Hh).
  - intros b a' n' Hb [Hne Ha']%lookup_delete_Some. specialize (Hpos b Hb).
    destruct (hp_used _ _ _ Hh a' n' Ha') as (_ & Hn' & _).
    destruct (Z.le_gt_cases (bend b) a') as [?|Hlt]; [by left|right]. apply Z.nlt_ge. intros Hlt2.
    apply (Hdis (Z.max b.1 a') a' n'); [|done|done|unfold bend in *; lia]. exists b. split; [done|]. unfold bend in *. lia.
  - intros a1 n1 a2 n2 [_ H1]%lookup_delete_Some [_ H2]%lookup_delete_Some. by apply (hp_apart _ _ _ Hh).
  - intros x Hx. destruct (hp_cover _ _ _ Hh x Hx) as [Hf|(a' & n' & Ha' & Hx')].
    + left. apply Hcov. by left.
    + destruct (Z.eq_dec a' a) as [->|Hne].
      * left. apply Hcov. right. simplify_eq. lia.
      * right. exists a', n'. by rewrite lookup_delete_ne.
Qed.


(** What the two joins give. *)
Lemma free_joins s fl al a n F1 F2 X t :
  around s fl al a n F1 F2 X t ->
  let m := u_mem s in let m1 := join_next m a (hptr m t) in
  let fl' := place F1 a (absorb a n F2).1 (absorb a n F2).2 in
  joined fl al t m1 (join_prev m1 a t) fl' /\ only fl al a m m1 /\ ordered fl' /\ (forall b, b ∈ fl' -> 0 < b.2) /\
  (forall x, covered fl' x <-> covered fl x \/ a <= x < a + UNIT * n).
Proof.
  intros Har m m1 fl'. destruct (join_next_spec _ _ _ _ _ _ _ _ _ Har) as (Hc1 & Hs1 & Ho1). fold m m1 in Hc1, Hs1, Ho1.
  pose proof (around_next _ _ _ _ _ _ _ _ _ Har) as [_ HcX]. destruct Har as [Hh Ha -> H1 H2 Ht].
  destruct (hp_used _ _ _ Hh a n Ha) as (_ & Hn & Hlo & Hbr). destruct (hp_base _ _ _ Hh) as (Hb0 & Hb1 & Hb2).
  pose proof (hp_ordered _ _ _ Hh) as Hord. apply ordered_app in Hord as (Ho1' & Ho2' & Ho12).
  assert (forall b, b ∈ F1 ++ F2 -> 0 < b.2 /\ lo <= b.1 /\ bend b <= u_brk s) as Hfree by (intros b Hb; by apply (hp_free _ _ _ Hh b Hb)).
  pose proof (absorb_ok a n F2 Hn Ho2') as Hab. destruct (absorb a n F2) as [A F] eqn:EA. cbn [fst snd] in *.
  destruct Hab as (HnA & HoA & HF & HcA); [intros b Hb; split; [apply Hfree; set_solver|by apply H2]|].
  assert (a + UNIT * A <= u_brk s) as HAbr.
  { destruct (covered_block _ (a, A) HoA) as [_ Hlast]; [set_solver|cbn; lia|]. unfold bend in Hlast. cbn in Hlast.
    apply HcA in Hlast as [?|(b & Hb & ?)]; [lia|]. destruct (Hfree b) as (_ & _ & ?); [set_solver|]. lia. }
  destruct (place_ok F1 a A F) as (Hop & Hpp & Hcp); [lia|done|done| | |].
  { intros b Hb. split; [apply Hfree; set_solver|by apply H1]. }
  { intros b Hb. apply Hfree. set_solver. }
  split_and!; try done.
  2:{ intros x. unfold fl'. rewrite (Hcp x), (HcA x), covered_app. tauto. }
  assert (forall t', t' < a -> linked s (F1 ++ F2) al a A t' F m1) as Hlk.
  { intros t' Ht'. split; try done; [right; right; by eexists|lia|]. intros b Hb. split; [set_solver|].
    specialize (H2 b (HF b Hb)). lia. }
  destruct F1 as [|b F1] using rev_ind; [|clear IHF1].
  - destruct X as [|? [|]]; [|done..]. injection Ht as <-. unfold fl'. rewrite place_nil. apply (join_prev_base s); apply Hlk; lia.
  - rewrite map_app, app_comm_cons in Ht. apply app_inj_tail in Ht as [<- <-].
    apply ordered_app in Ho1' as (_ & _ & Hfb). specialize (H1 b ltac:(set_solver)).
    apply (join_prev_block s); [|intros c Hc; split; [set_solver|apply Hfb; set_solver]|set_solver|done|done].
    apply Hlk. destruct (Hfree b) as (? & ? & _); [set_solver|]. unfold bend in H1. lia.
Qed.

Lemma place_length F1 a n F2 : (length (place F1 a (absorb a n F2).1 (absorb a n F2).2) <= S (length (F1 ++ F2)))%nat.
Proof.
  assert (length (absorb a n F2).2 <= length F2)%nat by (destruct F2; cbn; [lia|]; case_match; cbn; lia).
  rewrite length_app. destruct F1 as [|b F1 _] using rev_ind; [rewrite place_nil; cbn; lia|].
  rewrite place_snoc. case_match; rewrite !length_app; cbn [length]; lia.
Qed.
Lemma free_spec s fl al a n fuel :
  heap s fl al -> al !! a = Some n -> (length fl < fuel)%nat ->
  exists s' fl', free fuel (a + UNIT) s = Some s' /\ heap s' fl' (delete a al) /\
    same_used (delete a al) (u_mem s) (u_mem s') /\ u_brk s' = u_brk s /\ (length fl' <= S (length fl))%nat /\
    (forall x, covered fl' x <-> covered fl x \/ a <= x < a + UNIT * n).
Proof.
  intros Hh Ha Hf. destruct (around_exists s fl al a n Hh Ha) as (F1 & F2 & X & t & Har).
  destruct (free_joins _ _ _ _ _ _ _ _ _ Har) as ((Hc & Hs & Hs0 & Ht & Ho2) & Ho1 & Hord & Hpos & Hcov).
  unfold free. rewrite Z.add_simpl_r, (find_slot_around _ _ _ _ _ _ _ _ _ _ Har Hf).
  set (m1 := join_next _ _ _) in *. set (m2 := join_prev _ _ _) in *. set (fl' := place _ _ _ _) in *.
  assert (t ∈ ring fl) as Htr.
  { destruct Har as [_ _ -> _ _ HX]. rewrite map_app, app_comm_cons, HX. set_solver. }
  assert (forall a' n', al !! a' = Some n' -> a' <> a -> a' <> t) as Hne.
  { intros a' n' Ha' Hn' ->. destruct (hp_used _ _ _ Hh _ _ Ha') as (_ & ? & _).
    destruct (hdr_outside _ _ _ t t n' t Hh Htr Ha'); lia. }
  eexists _, fl'. split; [done|]. split_and!; [| |done| |done].
  - apply (heap_freed s fl al a n t m2 fl'); try done. intros x k Hx Hxa. assert (hdr fl al x) by (right; right; by eexists).
    destruct Ho1 as [Ho1 _], Ho2 as [Ho2 _]. destruct (Ho1 x) as [_ <-]; [done..|]. apply Ho2; [done|]. by eapply Hne.
  - intros a' n' x [Hna Ha']%lookup_delete_Some Hx. cbn [u_mem]. destruct Ho1 as [_ Ho1], Ho2 as [_ Ho2].
    rewrite Ho2, Ho1; [done| |by eapply (hdr_outside s fl al t a' n')].
    destruct (hp_apart _ _ _ Hh a n a' n'); [done..| |]; destruct (hp_used _ _ _ Hh a n Ha) as (_ & ? & _); lia.
  - destruct Har as [_ _ -> _ _ _]. apply place_length.
Qed.

(* ------------------------------------------------------------------ *)
(** ** Memory from the kernel *)

Lemma used_below s fl al a n : heap s fl al -> al !! a = Some n -> a + UNIT <= u_brk s.
Proof. intros Hh Ha. destruct (hp_used _ _ _ Hh a n Ha) as (_ & ? & ? & ?). lia. Qed.

Lemma hdr_below s fl al x : heap s fl al -> hdr fl al x -> x + UNIT <= u_brk s.
Proof.
  intros Hh [->|[(b & Hb & ->)|[n Hn]]]; [destruct (hp_base _ _ _ Hh); lia| |by eapply used_below].
  destruct (hp_free _ _ _ Hh b Hb) as (_ & ? & ? & ?). unfold bend in *. lia.
Qed.

Lemma brk_unused s fl al : heap s fl al -> al !! u_brk s = None.
Proof. intros Hh. destruct (al !! u_brk s) as [n|] eqn:E; [|done]. pose proof (used_below _ _ _ _ _ Hh E). lia. Qed.

(** The memory the kernel gave, as a block in use. *)
Lemma heap_grown s fl al nu :
  heap s fl al -> 0 < nu < 2 ^ 32 -> u_brk s + UNIT * nu < 2 ^ 36 ->
  heap (mkustate (set_size (u_mem s) (u_brk s) nu) (u_freep s) (u_brk s + UNIT * nu)) fl (<[u_brk s := nu]> al) /\
  same_used al (u_mem s) (set_size (u_mem s) (u_brk s) nu).
Proof.
  intros Hh Hnu Hbr. set (m' := set_size _ _ _). assert (forall x, hdr fl al x -> hptr m' x = hptr (u_mem s) x /\ hsize m' x = hsize (u_mem s) x) as Hk.
  { intros x Hx%(hdr_below s); [|done]. assert (apart (u_brk s) x) by (red; lia).
    unfold m'. rewrite hptr_set_size, hsize_set_size, decide_False by (done || lia). done. }
  assert (forall a n, al !! a = Some n -> a + UNIT * n <= u_brk s) as Hal by (intros a n Ha; apply (hp_used _ _ _ Hh a n Ha)).
  split; [split; cbn [u_mem u_brk u_freep]|].
  - destruct (hp_base _ _ _ Hh). lia.
  - eapply nexts_ext; [|apply Hh]. intros x [->|(b & -> & Hb)%list_elem_of_fmap]%elem_of_cons; symmetry; apply Hk; [by left|].
    right. left. by exists b.
  - rewrite (proj2 (Hk base ltac:(by left))). apply Hh.
  - intros b Hb. rewrite (proj2 (Hk b.1 ltac:(right; left; by exists b))). destruct (hp_free _ _ _ Hh b Hb) as (? & ? & ? & ?). lia.
  - intros a n [[<- <-]|[Hne Ha]]%lookup_insert_Some.
    + split_and!; [|lia|destruct (hp_base _ _ _ Hh); lia|lia]. unfold m'. rewrite hsize_set_size, decide_True; [done..|by left|lia].
    + rewrite (proj2 (Hk a ltac:(right; right; by eexists))). destruct (hp_used _ _ _ Hh a n Ha) as (? & ? & ? & ?). lia.
  - apply Hh.
  - intros b a n Hb [[<- <-]|[Hne Ha]]%lookup_insert_Some; [|by apply (hp_mixed _ _ _ Hh)].
    left. apply (hp_free _ _ _ Hh b Hb).
  - intros a n a' n' [[<- <-]|[Hne Ha]]%lookup_insert_Some [[<- <-]|[Hne' Ha']]%lookup_insert_Some Hd; [done| | |].
    + right. by apply Hal.
    + left. by apply Hal.
    + by apply (hp_apart _ _ _ Hh).
  - intros x Hx. destruct (Z.lt_ge_cases x (u_brk s)) as [Hlt|Hge].
    + destruct (hp_cover _ _ _ Hh x ltac:(lia)) as [Hf|(a & n & Ha & Hxa)]; [by left|right]. exists a, n.
      rewrite lookup_insert_ne; [done|]. intros <-. by rewrite (brk_unused _ _ _ Hh) in Ha.
    + right. exists (u_brk s), nu. rewrite lookup_insert_eq. split; [done|lia].
  - apply Hh.
  - intros a n x Ha Hx. apply set_size_out. specialize (Hal a n Ha). lia.
Qed.

(** Free blocks have gaps between them, so an interval that is free is part of
    one block. *)
Lemma covered_interval fl a n :
  ordered fl -> 0 < n -> (forall x, a <= x < a + UNIT * n -> covered fl x) -> exists b, b ∈ fl /\ n <= b.2.
Proof.
  intros Ho Hn Hc. destruct (Hc a ltac:(lia)) as (b & Hb & Hab). exists b. split; [done|].
  destruct (Z.le_gt_cases (a + UNIT * n) (bend b)) as [Hle|Hgt]; [unfold bend in *; lia|exfalso].
  destruct (Hc (bend b) ltac:(lia)) as (c & Hcf & Hcb).
  destruct (ordered_pair fl b c Ho Hb Hcf) as [->|[?|?]]; lia.
Qed.

(** What the kernel promises about [sbrk]: memory that is granted starts at the
    break and stays below 64 GB (the machine has 128 MB). *)
Definition grows (grow : Z -> Z -> option Z) : Prop :=
  forall b n b', 0 < n -> grow b n = Some b' -> b' = b + n /\ b' < 2 ^ 36.

Section Kernel.
Context (grow : Z -> Z -> option Z) (Hgrow : grows grow).

(** [morecore]: the kernel refused, or there is a free block with enough room. *)
Lemma morecore_spec s fl al nu fuel :
  heap s fl al -> 0 < nu < 2 ^ 27 -> (length fl < fuel)%nat ->
  morecore grow fuel nu s = Some (0, s) \/
  exists s' fl', morecore grow fuel nu s = Some (u_freep s', s') /\ heap s' fl' al /\ same_used al (u_mem s) (u_mem s') /\
    (length fl' <= S (length fl))%nat /\ exists b, b ∈ fl' /\ nu <= b.2.
Proof.
  intros Hh Hnu Hf. unfold morecore, sbrk. set (n := if nu <? 4096 then 4096 else nu).
  assert (nu <= n < 2 ^ 27) as Hn by (unfold n; destruct (Z.ltb_spec nu 4096); lia).
  assert (i32 (u64 (n * UNIT)) = n * UNIT) as ->.
  { rewrite u64_small by lia. apply i32_small. lia. }
  destruct (hp_base _ _ _ Hh) as (? & ? & ?).
  destruct (grow (u_brk s) (n * UNIT)) as [b'|] eqn:E; [right|left; done].
  apply Hgrow in E as [-> Hb']; [|lia]. rewrite (proj2 (Z.eqb_neq (u_brk s) _)) by lia. cbn [u_mem u_freep u_brk].
  replace (u_brk s + n * UNIT) with (u_brk s + UNIT * n) by lia.
  destruct (heap_grown s fl al n Hh) as [Hh1 Hu1]; [lia..|].
  destruct (free_spec _ _ _ (u_brk s) n fuel Hh1 ltac:(apply lookup_insert_eq) Hf) as (s' & fl' & -> & Hh2 & Hu2 & _ & Hl & Hc).
  rewrite delete_insert_id in Hh2, Hu2 by (by eapply brk_unused).
  exists s', fl'. split_and!; [done|done| |done|].
  - intros a k x Ha Hx. rewrite (Hu2 a k x Ha Hx). by apply (Hu1 a k).
  - destruct (covered_interval fl' (u_brk s) n) as (b & Hb & ?); [apply Hh2|lia|intros x Hx; apply Hc; by right|].
    exists b. split; [done|lia].
Qed.

End Kernel.

(* ------------------------------------------------------------------ *)
(** ** Taking a block *)

(** The free blocks before and after the block [p] that follows [q]. *)
Lemma ring_pred s fl al q p :
  heap s fl al -> q ∈ ring fl -> hptr (u_mem s) q = p -> p <> base ->
  exists F1 b F2 X, fl = F1 ++ b :: F2 /\ b.1 = p /\ ring F1 = X ++ [q].
Proof.
  intros Hh Hq Hp Hne. pose proof (hp_chain _ _ _ Hh) as Hc. apply list_elem_of_split in Hq as (l1 & l2 & E).
  rewrite E, <- app_assoc in Hc. cbn [app] in Hc. rewrite nexts_app in Hc. destruct Hc as [_ Hc].
  destruct l2 as [|y l2]; destruct Hc as [Hy _]; [congruence|]. rewrite Hp in Hy. subst y.
  assert (exists Y, l1 ++ [q] = base :: Y) as [Y HY] by (destruct l1; cbn in E |- *; injection E as <- _; eauto).
  replace (l1 ++ q :: p :: l2) with ((l1 ++ [q]) ++ p :: l2) in E by (by rewrite <- app_assoc).
  rewrite HY in E. injection E as E. apply map_eq_app in E as (F1 & F2' & -> & HF1 & E).
  destruct F2' as [|b F2]; [done|]. injection E as Hb _. exists F1, b, F2, l1. split_and!; [done|done|]. by rewrite HF1.
Qed.

(** The heap after a block was taken from the free ones, given the new list. *)
Lemma heap_taken s fl al a n t m2 fl' :
  heap s fl al -> 0 < n -> hsize m2 a = n ->
  nexts (hptr m2) (ring fl' ++ [base]) -> (forall b, b ∈ fl' -> hsize m2 b.1 = b.2) -> hsize m2 base = 0 ->
  t ∈ ring fl' -> ordered fl' -> (forall b, b ∈ fl' -> 0 < b.2) ->
  (forall x, covered fl x <-> covered fl' x \/ a <= x < a + UNIT * n) ->
  (forall x, covered fl' x -> ~ a <= x < a + UNIT * n) ->
  (forall x k, al !! x = Some k -> hsize m2 x = hsize (u_mem s) x) ->
  heap (mkustate m2 t (u_brk s)) fl' (<[a := n]> al) /\ al !! a = None.
Proof.
  intros Hh Hn Ha Hc Hs Hs0 Ht Ho Hpos Hcov Hdisj Hsz.
  assert (forall x, covered fl x -> lo <= x < u_brk s) as Hin.
  { intros x (b & Hb & Hx). destruct (hp_free _ _ _ Hh b Hb) as (_ & ? & ? & ?). lia. }
  assert (forall x a' n', covered fl x -> al !! a' = Some n' -> ~ (a' <= x < a' + UNIT * n')) as Hdis.
  { intros x a' n' (b & Hb & Hx) Ha' Hx'. destruct (hp_mixed _ _ _ Hh b a' n' Hb Ha'); lia. }
  assert (covered fl a /\ covered fl (a + UNIT * n - 1)) as [HcA HcZ] by (split; apply Hcov; right; lia).
  apply Hin in HcA as HA. apply Hin in HcZ as HZ.
  assert (forall a' n', al !! a' = Some n' -> a + UNIT * n <= a' \/ a' + UNIT * n' <= a) as Hap.
  { intros a' n' Ha'. destruct (hp_used _ _ _ Hh a' n' Ha') as (_ & ? & _).
    destruct (Z.le_gt_cases (a + UNIT * n) a') as [?|Hlt]; [by left|right]. apply Z.nlt_ge. intros Hlt2.
    apply (Hdis (Z.max a a') a' n'); [apply Hcov; right; lia|done|lia]. }
  split; [split; cbn [u_mem u_brk u_freep]; try done|].
  - apply Hh.
  - intros b Hb. specialize (Hpos b Hb). destruct (covered_block fl' b Ho Hb Hpos) as [H1 H2].
    pose proof (Hin b.1 ltac:(apply Hcov; by left)). pose proof (Hin (bend b - 1) ltac:(apply Hcov; by left)).
    split_and!; [by apply Hs|done|lia|lia].
  - intros a' n' [[<- <-]|[Hne Ha']]%lookup_insert_Some; [lia|]. rewrite (Hsz a' n') by done. by apply (hp_used _ _ _ Hh).
  - intros b a' n' Hb Ha'. specialize (Hpos b Hb).
    assert (0 < n' /\ forall x, covered fl' x -> ~ a' <= x < a' + UNIT * n') as [Hn' Hno].
    { apply lookup_insert_Some in Ha' as [[<- <-]|[_ Ha']]; [done|]. split; [by apply (hp_used _ _ _ Hh a')|].
      intros x Hx. apply (Hdis x a' n'); [apply Hcov; by left|done]. }
    destruct (Z.le_gt_cases (bend b) a') as [?|Hlt]; [by left|right]. apply Z.nlt_ge. intros Hlt2.
    apply (Hno (Z.max b.1 a')); [|unfold bend in *; lia]. exists b. split; [done|]. unfold bend in *. lia.
  - intros a1 n1 a2 n2 [[<- <-]|[_ H1]]%lookup_insert_Some [[<- <-]|[_ H2]]%lookup_insert_Some Hne; [done|by apply Hap| |].
    + destruct (Hap a1 n1 H1); [by right|by left].
    + by apply (hp_apart _ _ _ Hh).
  - intros x Hx. destruct (hp_cover _ _ _ Hh x Hx) as [Hf|(a' & n' & Ha' & Hx')].
    + apply Hcov in Hf as [Hf|Hf]; [by left|right]. exists a, n. by rewrite lookup_insert_eq.
    + right. exists a', n'. rewrite lookup_insert_ne; [done|]. intros <-.
      destruct (Hap _ _ Ha'); destruct (hp_used _ _ _ Hh _ _ Ha') as (_ & ? & _); lia.
  - destruct (al !! a) as [k|] eqn:E; [|done]. destruct (Hap _ _ E); destruct (hp_used _ _ _ Hh _ _ E) as (_ & ? & _); lia.
Qed.

Lemma same_used_only s fl al t m m' : heap s fl al -> t ∈ ring fl -> only fl al t m m' -> same_used al m m'.
Proof. intros Hh Ht [_ Ho] a n x Ha Hx. apply Ho. by eapply hdr_outside. Qed.

Lemma ring_hdr fl al x : x ∈ ring fl -> hdr fl al x.
Proof. intros [->|(c & -> & Hc)%list_elem_of_fmap]%elem_of_cons; [by left|by apply hdr_free]. Qed.

Lemma heap_incr s fl al : heap s fl al -> incr (ring fl).
Proof.
  intros Hh. destruct (hp_base _ _ _ Hh). apply ring_incr; [apply Hh|]. intros c Hc.
  destruct (hp_free _ _ _ Hh c Hc) as (_ & ? & ? & _). lia.
Qed.

(** A block of the right size. *)
Lemma take_exact s fl al F1 b F2 X q :
  heap s fl al -> fl = F1 ++ b :: F2 -> ring F1 = X ++ [q] ->
  let m' := set_ptr (u_mem s) q (hptr (u_mem s) b.1) in
  heap (mkustate m' q (u_brk s)) (F1 ++ F2) (<[b.1 := b.2]> al) /\ al !! b.1 = None /\ same_used al (u_mem s) m'.
Proof.
  intros Hh -> HX m'. set (m := u_mem s) in *. assert (b ∈ F1 ++ b :: F2) as Hb by set_solver.
  pose proof (heap_incr _ _ _ Hh) as Hi. pose proof (hp_chain _ _ _ Hh) as Hc. fold m in Hc.
  destruct (hp_free _ _ _ Hh b Hb) as (Hbs & Hb0 & Hblo & _). pose proof (hp_ordered _ _ _ Hh) as Ho.
  rewrite map_app, app_comm_cons, HX in Hi, Hc. repeat (rewrite <- app_assoc in Hc; cbn [app] in Hc). cbn [map app] in Hc.
  rewrite nexts_app in Hc. destruct Hc as [HcX [_ Hc]].
  assert (q ∈ ring (F1 ++ b :: F2)) as Hq by (rewrite map_app, app_comm_cons, HX; set_solver).
  destruct (set_link s _ al m q (hptr m b.1) Hh) as (Hpq & Hsq & Hon); [by apply ring_hdr|by eapply next_word; [done|set_solver|exact Hc]|].
  fold m' in Hpq, Hsq, Hon.
  assert (forall x, hdr (F1 ++ b :: F2) al x -> hsize m' x = hsize m x) as Hsz.
  { intros x Hx. destruct (Z.eq_dec x q) as [->|]; [done|by apply Hon]. }
  apply incr_app in Hi as (Hi1 & [Hib _] & Hi12). apply incr_app in Hi1 as (_ & _ & HiX).
  apply ordered_app in Ho as (Ho1 & [Hbo Ho2] & Ho12).
  assert (nexts (hptr m') (map fst F2 ++ [base])) as Hc2.
  { eapply (chain_only _ _ _ _ _ _ _ Hon); [|by destruct F2; destruct Hc].
    intros x Hx. split; [apply ring_hdr; rewrite map_app; set_solver|]. specialize (Hi12 q x ltac:(set_solver) ltac:(set_solver)). lia. }
  assert (forall x, covered (F1 ++ b :: F2) x <-> covered (F1 ++ F2) x \/ b.1 <= x < b.1 + UNIT * b.2) as Hcov.
  { intros x. rewrite !covered_app, covered_cons. unfold bend. tauto. }
  enough (heap (mkustate m' q (u_brk s)) (F1 ++ F2) (<[b.1 := b.2]> al) /\ al !! b.1 = None) as [? ?]
    by (split_and!; [done|done|by eapply same_used_only]).
  apply (heap_taken s (F1 ++ b :: F2)); try done.
  all: try (rewrite Hsz; [done|by apply hdr_free]).
  - rewrite map_app, app_comm_cons, HX, <- !app_assoc. cbn [app]. apply nexts_app. split.
    + apply (chain_only _ _ _ _ _ _ _ Hon); [|done]. intros x Hx. split.
      * apply ring_hdr. rewrite map_app, app_comm_cons, HX. set_solver.
      * specialize (HiX x q Hx ltac:(set_solver)). lia.
    + destruct F2 as [|c F2]; destruct Hc as [Hbn _]; (split; [congruence|done]).
  - intros c Hc'. rewrite Hsz; [|apply hdr_free; set_solver]. apply (hp_free _ _ _ Hh c). set_solver.
  - rewrite Hsz; [apply Hh|by left].
  - rewrite map_app, app_comm_cons, HX. set_solver.
  - apply ordered_app. split_and!; [done|done|set_solver].
  - intros c Hc'. apply (hp_free _ _ _ Hh c). set_solver.
  - intros x (c & Hc' & Hx) Hxb. destruct (ordered_pair _ b c (hp_ordered _ _ _ Hh) Hb) as [->|Hd]; [set_solver| |unfold bend in *; lia].
    apply elem_of_app in Hc' as [Hc'|Hc']; [specialize (Ho12 c c Hc' ltac:(set_solver))|specialize (Hbo c Hc')]; unfold bend in *; lia.
  - intros x k Hx. apply Hsz. right. right. by eexists.
Qed.

Lemma set_sized s fl al m a k :
  heap s fl al -> hdr fl al a -> 0 <= k < 2 ^ 32 ->
  let m' := set_size m a k in hsize m' a = k /\ hptr m' a = hptr m a /\ only fl al a m m'.
Proof.
  intros Hh Ha Hv m'. assert (apart a a) by (by left). split_and!.
  - unfold m'. by rewrite hsize_set_size, decide_True.
  - unfold m'. by rewrite hptr_set_size.
  - by eapply only_set_size.
Qed.

(** No other header is inside of a free block. *)
Lemma hdr_block s fl al b x : heap s fl al -> b ∈ fl -> hdr fl al x -> x = b.1 \/ x + UNIT <= b.1 \/ bend b <= x.
Proof.
  intros Hh Hb [->|[(c & Hc & ->)|[n Hn]]].
  - destruct (hp_base _ _ _ Hh), (hp_free _ _ _ Hh b Hb) as (_ & _ & ? & _). lia.
  - destruct (ordered_pair fl b c (hp_ordered _ _ _ Hh) Hb Hc) as [->|Hd]; [by left|].
    destruct (hp_free _ _ _ Hh c Hc) as (_ & ? & _). unfold bend in *. lia.
  - destruct (hp_used _ _ _ Hh x n Hn) as (_ & ? & _). destruct (hp_mixed _ _ _ Hh b x n Hb Hn); lia.
Qed.

(** The tail of a block that is larger. *)
Lemma take_split s fl al F1 b F2 n t :
  heap s fl al -> fl = F1 ++ b :: F2 -> t ∈ ring fl -> 0 < n < b.2 ->
  let a := b.1 + UNIT * (b.2 - n) in
  let m' := set_size (set_size (u_mem s) b.1 (b.2 - n)) a n in
  heap (mkustate m' t (u_brk s)) (F1 ++ (b.1, b.2 - n) :: F2) (<[a := n]> al) /\ al !! a = None /\ same_used al (u_mem s) m'.
Proof.
  intros Hh -> Ht Hn a m'. set (m := u_mem s) in *. assert (b ∈ F1 ++ b :: F2) as Hb by set_solver.
  destruct (hp_base _ _ _ Hh) as (Hbase & Hlo & Hbrk).
  destruct (hp_free _ _ _ Hh b Hb) as (Hbs & Hb0 & Hblo & Hbe). pose proof (hp_ordered _ _ _ Hh) as Ho.
  unfold bend in Hbe. apply ordered_app in Ho as (Ho1 & [Hbo Ho2] & Ho12).
  destruct (set_sized s (F1 ++ b :: F2) al m b.1 (b.2 - n)) as (Hs1 & Hp1 & Hon1); [done|by apply hdr_free|lia|].
  assert (forall x, hdr (F1 ++ b :: F2) al x -> apart a x /\ x <> a) as Hap.
  { intros x Hx. destruct (hdr_block _ _ _ b x Hh Hb Hx) as [->|Hd]; unfold apart, a, bend in *; lia. }
  assert (forall x, hdr (F1 ++ b :: F2) al x -> hptr m' x = hptr m x /\ (x <> b.1 -> hsize m' x = hsize m x)) as Hk.
  { intros x Hx. destruct (Hap x Hx) as [Hax Hxa]. unfold m'. rewrite hptr_set_size, hsize_set_size, decide_False by (done || lia).
    split; [|intros Hne; by apply Hon1]. destruct (Z.eq_dec x b.1) as [->|]; [done|by apply Hon1]. }
  assert (hsize m' b.1 = b.2 - n) as Hbs'.
  { unfold m'. destruct (Hap b.1) as [Hax Hxa]; [by apply hdr_free|]. by rewrite hsize_set_size, decide_False by (done || lia). }
  assert (forall c, c ∈ F1 ++ F2 -> c ∈ F1 ++ b :: F2 /\ c.1 <> b.1) as Hc.
  { intros c Hc. split; [set_solver|]. apply elem_of_app in Hc as [Hc|Hc].
    - specialize (Ho12 c b Hc ltac:(set_solver)). destruct (hp_free _ _ _ Hh c) as (_ & ? & _); [set_solver|]. unfold bend in *. lia.
    - specialize (Hbo c Hc). unfold bend in *. lia. }
  enough (heap (mkustate m' t (u_brk s)) (F1 ++ (b.1, b.2 - n) :: F2) (<[a := n]> al) /\ al !! a = None) as [? ?].
  { split_and!; [done|done|]. intros a' k x Ha' Hx. unfold m'. destruct (hp_mixed _ _ _ Hh b a' k Hb Ha');
      rewrite !set_size_out; unfold a, bend in *; (done || lia). }
  apply (heap_taken s (F1 ++ b :: F2)); try done; try lia.
  - unfold m'. rewrite hsize_set_size, decide_True; [done..|by left|lia].
  - replace (ring (F1 ++ (b.1, b.2 - n) :: F2)) with (ring (F1 ++ b :: F2)) by (by rewrite !map_app).
    eapply nexts_ext; [|apply Hh]. intros x Hx. symmetry. by apply Hk, ring_hdr.
  - intros c [Hin|[->|Hin]%elem_of_cons]%elem_of_app; [|done|]; (destruct (Hc c) as [Hcf Hne]; [set_solver|]);
      (rewrite (proj2 (Hk c.1 ltac:(by apply hdr_free))) by done); by apply (hp_free _ _ _ Hh c).
  - rewrite (proj2 (Hk base ltac:(by left))) by lia. apply Hh.
  - rewrite map_app in Ht |- *. done.
  - apply ordered_app. split_and!; [done| |].
    + split; [|done]. intros c Hcc. specialize (Hbo c Hcc). unfold bend in *. cbn. lia.
    + intros c d Hcc [->|Hd]%elem_of_cons; [specialize (Ho12 c b Hcc ltac:(set_solver)); done|apply Ho12; set_solver].
  - intros c [Hin|[->|Hin]%elem_of_cons]%elem_of_app; [|cbn; lia|]; (apply (hp_free _ _ _ Hh c); set_solver).
  - intros x. rewrite !covered_app, !covered_cons. unfold a, bend. cbn. split; [|intros [[?|[?|?]]|?]]; try tauto.
    + intros [?|[?|?]]; [tauto| |tauto]. destruct (Z.lt_ge_cases x (b.1 + UNIT * (b.2 - n))); [left; right; left; lia|right; lia].
    + right. left. lia.
    + right. left. lia.
  - intros x. rewrite covered_app, covered_cons. unfold a, bend. cbn. intros [(c & Hin & Hx)|[?|(c & Hin & Hx)]] Hxa; [|lia|].
    + specialize (Ho12 c b Hin ltac:(set_solver)). lia.
    + specialize (Hbo c Hin). unfold bend in *. lia.
  - intros x k Hx. assert (hdr (F1 ++ b :: F2) al x) by (right; right; by eexists). apply Hk; [done|].
    destruct (hp_used _ _ _ Hh x k Hx) as (_ & ? & _). destruct (hp_mixed _ _ _ Hh b x k Hb Hx); unfold bend in *; lia.
Qed.

Lemma take_block_spec s fl al q p n :
  heap s fl al -> q ∈ ring fl -> hptr (u_mem s) q = p -> 0 < n -> n <= hsize (u_mem s) p -> p ∈ ring fl ->
  exists a fl' s', take_block n q p s = (a + UNIT, s') /\ heap s' fl' (<[a := n]> al) /\ al !! a = None /\
    same_used al (u_mem s) (u_mem s').
Proof.
  intros Hh Hq Hp Hn Hsz Hpr. assert (p <> base) as Hne by (intros ->; rewrite (hp_size0 _ _ _ Hh) in Hsz; lia).
  destruct (ring_pred _ _ _ _ _ Hh Hq Hp Hne) as (F1 & b & F2 & X & -> & <- & HX).
  destruct (hp_free _ _ _ Hh b) as (Hbs & Hb0 & Hblo & Hbe); [set_solver|]. unfold take_block. rewrite Hbs in *.
  destruct (Z.eqb_spec b.2 n) as [<-|Hd].
  - destruct (take_exact _ _ _ F1 b F2 X q Hh) as (? & ? & ?); [done..|]. by eexists _, _, _.
  - destruct (hp_base _ _ _ Hh) as (? & ? & ?). unfold bend in Hbe. rewrite u32_small by lia.
    rewrite hsize_set_size, decide_True; [|done|by left|lia].
    destruct (take_split _ _ _ F1 b F2 n q Hh) as (? & ? & ?); [done|done|lia|]. by eexists _, _, _.
Qed.

(* ------------------------------------------------------------------ *)
(** ** The walk of [malloc] *)

Section Walk.
Context (grow : Z -> Z -> option Z) (Hgrow : grows grow).

(** [malloc] walks the list from [prevp] on until a block has room, or until it
    is back where the walk started. *)
Lemma malloc_walk s n ff l prevp fuel :
  nexts (hptr (u_mem s)) (prevp :: l ++ [u_freep s]) -> u_freep s ∉ l -> (length l < fuel)%nat ->
  (exists q p, q ∈ prevp :: l /\ hptr (u_mem s) q = p /\ p ∈ l ++ [u_freep s] /\ n <= hsize (u_mem s) p /\
     malloc_loop grow fuel ff n prevp (hptr (u_mem s) prevp) s = Some (take_block n q p s)) \/
  (forall p, p ∈ l ++ [u_freep s] -> hsize (u_mem s) p < n) /\
  malloc_loop grow fuel ff n prevp (hptr (u_mem s) prevp) s =
    match morecore grow ff n s with
    | None => None
    | Some (p, s) => if p =? 0 then Some (0, s) else malloc_loop grow (fuel - length l - 1) ff n p (hptr (u_mem s) p) s
    end.
Proof.
  revert prevp fuel. induction l as [|x l IH]; intros prevp fuel Hc Hfp Hf; destruct fuel as [|fuel]; try (cbn in Hf; lia).
  - destruct Hc as [Hp _]. rewrite Hp. cbn [malloc_loop app length]. destruct (Z.leb_spec n (hsize (u_mem s) (u_freep s))) as [Hle|Hgt].
    + left. exists prevp, (u_freep s). set_solver.
    + right. split; [set_solver|]. rewrite Z.eqb_refl. by rewrite Nat.sub_0_r, Nat.sub_succ, Nat.sub_0_r.
  - destruct Hc as [Hp Hc]. rewrite Hp. cbn [malloc_loop]. destruct (Z.leb_spec n (hsize (u_mem s) x)) as [Hle|Hgt].
    + left. exists prevp, x. set_solver.
    + rewrite (proj2 (Z.eqb_neq x (u_freep s))) by set_solver.
      destruct (IH x fuel) as [(q & p & Hq & Hqp & Hp' & Hs & ->)|[Ha ->]]; [done|set_solver|cbn in Hf; lia| |].
      * left. exists q, p. set_solver.
      * right. split; [set_solver|]. done.
Qed.

(** The ring as the walk of [malloc] meets it. *)
Lemma walk_ring s fl al :
  heap s fl al -> exists l, nexts (hptr (u_mem s)) (u_freep s :: l ++ [u_freep s]) /\ (u_freep s ∉ l) /\ length l = length fl /\
    forall x, x ∈ l ++ [u_freep s] <-> x ∈ ring fl.
Proof.
  intros Hh. pose proof (heap_incr _ _ _ Hh) as Hi. pose proof (hp_freep _ _ _ Hh) as Hfp.
  apply list_elem_of_split in Hfp as (l1 & l2 & E). exists (l2 ++ l1).
  pose proof (ring_rotate _ base _ l1 (u_freep s) l2 (hp_chain _ _ _ Hh) E) as Hr. split; [done|].
  rewrite E in Hi. apply incr_app in Hi as (_ & [H2 _] & H1). split_and!.
  - intros [Hin|Hin]%elem_of_app; [specialize (H2 _ Hin)|specialize (H1 _ (u_freep s) Hin ltac:(set_solver))]; lia.
  - apply (f_equal length) in E. rewrite length_app in *. cbn in E. rewrite length_map in E. lia.
  - intros x. rewrite E. set_solver.
Qed.

Lemma freep_nonzero s fl al : heap s fl al -> u_freep s <> 0.
Proof.
  intros Hh. destruct (hp_base _ _ _ Hh) as (? & ? & ?).
  pose proof (hp_freep _ _ _ Hh) as [->|(c & -> & Hc)%list_elem_of_fmap]%elem_of_cons; [lia|].
  destruct (hp_free _ _ _ Hh c Hc) as (_ & _ & ? & _). lia.
Qed.

(** The outcome of [malloc] for [n] units. *)
Definition allocated (s s' : ustate) (al : gmap Z Z) (n p : Z) : Prop :=
  p = 0 /\ (exists fl, heap s' fl al) /\ same_used al (u_mem s) (u_mem s') \/
  exists a fl, p = a + UNIT /\ heap s' fl (<[a := n]> al) /\ al !! a = None /\ same_used al (u_mem s) (u_mem s').

Lemma same_used_trans al m1 m2 m3 : same_used al m1 m2 -> same_used al m2 m3 -> same_used al m1 m3.
Proof. intros H1 H2 a n x Ha Hx. rewrite (H2 a n x Ha Hx). by apply (H1 a n). Qed.

Lemma take_walk s fl al q p n l :
  heap s fl al -> 0 < n -> q ∈ u_freep s :: l -> hptr (u_mem s) q = p -> p ∈ l ++ [u_freep s] ->
  n <= hsize (u_mem s) p -> (forall x, x ∈ l ++ [u_freep s] <-> x ∈ ring fl) ->
  allocated s (take_block n q p s).2 al n (take_block n q p s).1.
Proof.
  intros Hh Hn Hq Hqp Hp Hs Hr. destruct (take_block_spec s fl al q p n Hh) as (a & fl' & s' & -> & H1 & H2 & H3); [|done..|by apply Hr|].
  - apply Hr. set_solver.
  - right. by exists a, fl'.
Qed.

Lemma malloc_loop_spec s fl al n fuel :
  heap s fl al -> 0 < n < 2 ^ 27 -> (2 * length fl + 4 <= fuel)%nat ->
  exists p s', malloc_loop grow fuel fuel n (u_freep s) (hptr (u_mem s) (u_freep s)) s = Some (p, s') /\ allocated s s' al n p.
Proof.
  intros Hh Hn Hf. destruct (walk_ring _ _ _ Hh) as (l & Hc & Hfp & Hl & Hr).
  destruct (malloc_walk s n fuel l (u_freep s) fuel Hc Hfp) as [(q & p & Hq & Hqp & Hp & Hs & ->)|[_ ->]]; [lia| |].
  { exists (take_block n q p s).1, (take_block n q p s).2. split; [by destruct (take_block n q p s)|]. apply (take_walk s fl al q p n l Hh); (done || lia). }
  destruct (morecore_spec grow Hgrow s fl al n fuel Hh Hn) as [->|(s1 & fl1 & -> & Hh1 & Hu1 & Hl1 & b & Hb & Hnb)]; [lia| |].
  { exists 0, s. split; [done|]. left. split_and!; [done|by exists fl|done]. }
  rewrite (proj2 (Z.eqb_neq _ _) (freep_nonzero _ _ _ Hh1)). destruct (walk_ring _ _ _ Hh1) as (l1 & Hc1 & Hfp1 & Hlen1 & Hr1).
  destruct (malloc_walk s1 n fuel l1 (u_freep s1) (fuel - length l - 1)%nat Hc1 Hfp1) as [(q & p & Hq & Hqp & Hp & Hs & ->)|[Hno _]]; [lia| |].
  - exists (take_block n q p s1).1, (take_block n q p s1).2. split; [by destruct (take_block n q p s1)|].
    destruct (take_walk s1 fl1 al q p n l1 Hh1) as [(-> & Hx & Hu)|(a & fl' & -> & Ha & Hn' & Hu)]; [lia|done..| |].
    + left. split_and!; [done|done|by eapply same_used_trans].
    + right. exists a, fl'. split_and!; [done..|by eapply same_used_trans].
  - exfalso. specialize (Hno b.1 ltac:(apply Hr1; right; by apply list_elem_of_fmap_2)).
    destruct (hp_free _ _ _ Hh1 b Hb) as (Hbs & _). lia.
Qed.
End Walk.

(* ------------------------------------------------------------------ *)
(** ** More fuel changes nothing *)

Lemma find_slot_mono f f' m bp p r : (f <= f')%nat -> find_slot f m bp p = Some r -> find_slot f' m bp p = Some r.
Proof.
  revert f' p. induction f as [|f IH]; [done|]. intros f' p Hle. destruct f' as [|f']; [lia|]. rewrite !find_slot_S.
  case_match; [done|]. apply IH. lia.
Qed.

Lemma free_mono f f' ap s r : (f <= f')%nat -> free f ap s = Some r -> free f' ap s = Some r.
Proof.
  intros Hle. unfold free. destruct (find_slot f _ _ _) as [t|] eqn:E; [|done]. by rewrite (find_slot_mono f f' _ _ _ _ Hle E).
Qed.

Lemma morecore_mono grow f f' nu s r : (f <= f')%nat -> morecore grow f nu s = Some r -> morecore grow f' nu s = Some r.
Proof.
  intros Hle. unfold morecore. destruct (sbrk _ _ _) as [p s1]. case_match; [done|].
  destruct (free f _ _) as [s2|] eqn:E; [|done]. by rewrite (free_mono f f' _ _ _ Hle E).
Qed.

Lemma malloc_loop_mono grow f f' g g' n q p s r :
  (f <= f')%nat -> (g <= g')%nat -> malloc_loop grow f g n q p s = Some r -> malloc_loop grow f' g' n q p s = Some r.
Proof.
  intros Hle Hg. revert f' q p s Hle. induction f as [|f IH]; [done|]. intros f' q p s Hle. destruct f' as [|f']; [lia|].
  cbn [malloc_loop]. destruct (n <=? _); [done|]. destruct (p =? u_freep s); [|apply IH; lia].
  destruct (morecore grow g n s) as [[p1 s1]|] eqn:E; [|done]. rewrite (morecore_mono grow g g' _ _ _ Hg E).
  destruct (p1 =? 0); [done|]. apply IH. lia.
Qed.

Lemma malloc_mono b grow f f' nb s r : (f <= f')%nat -> malloc b grow f nb s = Some r -> malloc b grow f' nb s = Some r.
Proof. intros Hle. unfold malloc. by apply malloc_loop_mono. Qed.

(* ------------------------------------------------------------------ *)
(** ** A program that uses the allocator *)

Section Program.
Context (grow : Z -> Z -> option Z) (Hgrow : grows grow).

(** The heap before the first call of [malloc]. *)
Definition fresh (s : ustate) : Prop :=
  u_freep s = 0 /\ 0 < base /\ base + UNIT <= lo /\ u_brk s = lo /\ lo < 2 ^ 36.

Definition uheap (s : ustate) (al : gmap Z Z) : Prop := fresh s /\ al = ∅ \/ exists fl, heap s fl al.

Definition write (x v : Z) (s : ustate) : ustate := mkustate (store 1 (u_mem s) x v) (u_freep s) (u_brk s).

(** The bytes that belong to the program: those of its blocks, and whatever is
    outside of the heap and is not [base]. *)
Definition owns (s : ustate) (al : gmap Z Z) (x : Z) : Prop :=
  (exists a n, al !! a = Some n /\ a + UNIT <= x < a + UNIT * n) \/ x < base \/ base + UNIT <= x < lo \/ u_brk s <= x.

(** The states of a program that frees only what it has and writes only what it
    owns, with the blocks that it has. *)
Inductive uses : ustate -> gmap Z Z -> Prop :=
| uses_start s : fresh s -> uses s ∅
| uses_malloc s al fuel nbytes a s' : uses s al -> 0 <= nbytes < 2 ^ 31 - 64 ->
    malloc base grow fuel nbytes s = Some (a + UNIT, s') -> a + UNIT <> 0 -> uses s' (<[a := units nbytes]> al)
| uses_null s al fuel nbytes s' : uses s al -> 0 <= nbytes < 2 ^ 31 - 64 ->
    malloc base grow fuel nbytes s = Some (0, s') -> uses s' al
| uses_free s al fuel a n s' : uses s al -> al !! a = Some n -> free fuel (a + UNIT) s = Some s' -> uses s' (delete a al)
| uses_write s al x v : uses s al -> owns s al x -> uses (write x v s) al.

Lemma heap_init s : fresh s -> heap (mkustate (set_size (set_ptr (u_mem s) base base) base 0) base (u_brk s)) [] ∅.
Proof.
  intros (Hf & H0 & Hlo & Hb & H36). assert (apart base base) by (by left). split; cbn [u_mem u_brk u_freep map]; try set_solver.
  - split; [|done]. by rewrite hptr_set_size, hptr_set_ptr, decide_True by (done || (red; lia)).
  - by rewrite hsize_set_size, decide_True by (done || lia).
  - intros x Hx. lia.
Qed.

Lemma units_range nbytes : 0 <= nbytes < 2 ^ 31 - 64 -> 0 < units nbytes < 2 ^ 27 /\ nbytes <= UNIT * units nbytes - UNIT.
Proof.
  intros Hn. unfold units. pose proof (Z.div_mod (nbytes + UNIT - 1) UNIT ltac:(lia)).
  pose proof (Z.mod_pos_bound (nbytes + UNIT - 1) UNIT ltac:(lia)). rewrite u32_small; lia.
Qed.

Lemma malloc_spec s al nbytes :
  uheap s al -> 0 <= nbytes < 2 ^ 31 - 64 ->
  exists p s' N, (forall fuel, (N <= fuel)%nat -> malloc base grow fuel nbytes s = Some (p, s')) /\ allocated s s' al (units nbytes) p.
Proof.
  intros Hu Hn. destruct (units_range nbytes Hn) as [Hr _].
  set (s0 := if u_freep s =? 0 then mkustate (set_size (set_ptr (u_mem s) base base) base 0) base (u_brk s) else s).
  assert (exists fl, heap s0 fl al /\ same_used al (u_mem s) (u_mem s0)) as (fl & Hh & Hs).
  { unfold s0. destruct Hu as [[Hf ->]|(fl & Hh)].
    - destruct Hf as (Hz & Hf). rewrite Hz. exists []. split; [by apply heap_init; split|]. intros a n x Ha. done.
    - exists fl. rewrite (proj2 (Z.eqb_neq _ _)); [done|by eapply freep_nonzero]. }
  destruct (malloc_loop_spec grow Hgrow s0 fl al (units nbytes) (2 * length fl + 4) Hh) as (p & s' & E & Ha); [lia..|].
  exists p, s', (2 * length fl + 4)%nat. split; [intros fuel Hf; by eapply malloc_mono|].
  destruct Ha as [(-> & ? & ?)|(a & fl' & -> & ? & ? & ?)]; [left|right; exists a, fl']; split_and!; try done; by eapply same_used_trans.
Qed.

Lemma heap_write s fl al x v : heap s fl al -> owns s al x -> heap (write x v s) fl al.
Proof.
  intros Hh Hx. assert (forall y, hdr fl al y -> x < y \/ y + UNIT <= x) as Ho.
  { intros y Hy. pose proof (hdr_below _ _ _ _ Hh Hy). destruct Hx as [(a & n & Ha & Hx)|Hx].
    - destruct Hy as [->|[(b & Hb & ->)|[k Hk]]].
      + destruct (hp_base _ _ _ Hh), (hp_used _ _ _ Hh a n Ha) as (_ & _ & ? & _). lia.
      + destruct (hp_free _ _ _ Hh b Hb) as (_ & ? & _). destruct (hp_mixed _ _ _ Hh b a n Hb Ha); unfold bend in *; lia.
      + destruct (Z.eq_dec a y) as [->|Hne]; [lia|]. destruct (hp_used _ _ _ Hh y k Hk) as (_ & ? & _).
        destruct (hp_apart _ _ _ Hh a n y k Ha Hk Hne); lia.
    - destruct Hy as [->|[(b & Hb & ->)|[k Hk]]]; [lia| |].
      + destruct (hp_base _ _ _ Hh), (hp_free _ _ _ Hh b Hb) as (_ & ? & ? & ?). unfold bend in *. lia.
      + destruct (hp_base _ _ _ Hh), (hp_used _ _ _ Hh y k Hk) as (_ & ? & ? & ?). lia. }
  assert (forall y, hdr fl al y -> hptr (u_mem (write x v s)) y = hptr (u_mem s) y /\ hsize (u_mem (write x v s)) y = hsize (u_mem s) y) as Hk.
  { intros y Hy. specialize (Ho y Hy). unfold hptr, hsize. cbn [write u_mem]. split; apply load_store_disj; lia. }
  destruct Hh as [Hb Hc H0 Hf Hus Hor Hmi Hap Hco Hfp]. split; cbn [write u_brk u_freep] in *; try done.
  - eapply nexts_ext; [|exact Hc]. intros y Hy. symmetry. by apply Hk, ring_hdr.
  - rewrite (proj2 (Hk base ltac:(by left))). done.
  - intros b Hbf. rewrite (proj2 (Hk b.1 ltac:(by apply hdr_free))). by apply Hf.
  - intros a n Ha. rewrite (proj2 (Hk a ltac:(right; right; by eexists))). by apply Hus.
Qed.

Lemma uses_heap s al : uses s al -> uheap s al.
Proof.
  induction 1 as [s Hf|s al fuel nb a s' _ IH Hn E Hnz|s al fuel nb s' _ IH Hn E|s al fuel a n s' _ IH Ha E|s al x v _ IH Hx].
  - by left.
  - destruct (malloc_spec s al nb IH Hn) as (p & s'' & N & HN & Hal).
    pose proof (malloc_mono base grow fuel (N + fuel) _ _ _ ltac:(lia) E) as E'. rewrite HN in E' by lia. simplify_eq.
    destruct Hal as [[Hz _]|(a' & fl & Hp & Hh & _)]; [done|]. right. exists fl. by replace a with a' by lia.
  - destruct (malloc_spec s al nb IH Hn) as (p & s'' & N & HN & Hal).
    pose proof (malloc_mono base grow fuel (N + fuel) _ _ _ ltac:(lia) E) as E'. rewrite HN in E' by lia. simplify_eq.
    destruct Hal as [(_ & (fl & Hh) & _)|(a' & fl & Hp & Hh & _)]; [right; by exists fl|].
    destruct (hp_base _ _ _ Hh), (hp_used _ _ _ Hh a' (units nb) ltac:(by apply lookup_insert_eq)) as (_ & _ & ? & _). lia.
  - destruct IH as [[_ ->]|(fl & Hh)]; [done|].
    destruct (free_spec s fl al a n (S (length fl) + fuel) Hh Ha) as (s'' & fl' & E' & Hh' & _); [lia|].
    rewrite (free_mono fuel (S (length fl) + fuel) _ _ s' ltac:(lia) E) in E'. simplify_eq. right. by exists fl'.
  - destruct IH as [[Hf ->]|(fl & Hh)]; [by left|]. right. exists fl. by apply heap_write.
Qed.

(** C7: The allocator is safe for a program that frees only blocks that it has and
    writes only bytes that it owns. The blocks that it has are disjoint and inside
    the heap. [malloc] always returns: null, or a fresh block, disjoint from the
    others, with room for the request; [free] always returns. Neither changes a
    byte of the (other) blocks the program has. *)
Theorem umalloc_safe s al :
  uses s al ->
  (forall a n, al !! a = Some n -> lo <= a /\ a + UNIT * n <= u_brk s) /\
  (forall a n a' n', al !! a = Some n -> al !! a' = Some n' -> a <> a' -> a + UNIT * n <= a' \/ a' + UNIT * n' <= a) /\
  (forall nbytes, 0 <= nbytes < 2 ^ 31 - 64 ->
    exists p s' N, (forall fuel, (N <= fuel)%nat -> malloc base grow fuel nbytes s = Some (p, s')) /\
      same_used al (u_mem s) (u_mem s') /\
      (p = 0 \/ lo + UNIT <= p /\ p + nbytes <= u_brk s' /\ p <> 0 /\
        forall a n, al !! a = Some n -> p + nbytes <= a \/ a + UNIT * n <= p - UNIT)) /\
  (forall a n, al !! a = Some n ->
    exists s' N, (forall fuel, (N <= fuel)%nat -> free fuel (a + UNIT) s = Some s') /\
      same_used (delete a al) (u_mem s) (u_mem s')).
Proof.
  intros Hus%uses_heap. split_and!.
  - intros a n Ha. destruct Hus as [[_ ->]|(fl & Hh)]; [done|]. by apply (hp_used _ _ _ Hh a n Ha).
  - intros a n a' n' Ha Ha'. destruct Hus as [[_ ->]|(fl & Hh)]; [done|]. by apply (hp_apart _ _ _ Hh).
  - intros nb Hn. destruct (malloc_spec s al nb Hus Hn) as (p & s' & N & HN & Hal). exists p, s', N. split; [done|].
    destruct Hal as [(-> & _ & Hu)|(a & fl & -> & Hh & Hno & Hu)]; (split; [done|]); [by left|right].
    destruct (units_range nb Hn) as [Hr Hnb]. destruct (hp_base _ _ _ Hh) as (? & ? & ?).
    destruct (hp_used _ _ _ Hh a (units nb) ltac:(by apply lookup_insert_eq)) as (_ & ? & ? & ?).
    split_and!; [lia..|]. intros a' n' Ha'. assert (a <> a') as Hne by (intros ->; congruence).
    destruct (hp_apart _ _ _ Hh a (units nb) a' n'); [by apply lookup_insert_eq|by rewrite lookup_insert_ne|done|lia|lia].
  - intros a n Ha. destruct Hus as [[_ ->]|(fl & Hh)]; [done|].
    destruct (free_spec s fl al a n (S (length fl)) Hh Ha) as (s' & fl' & E & _ & Hu & _); [lia|].
    exists s', (S (length fl)). split; [|done]. intros fuel Hf. by eapply free_mono.
Qed.
End Program.
End Heap.

(** A program that asks for 100 bytes, fills the first, and frees them, on a
    kernel that always grants. *)
Definition any_grow (b n : Z) : option Z := if b + n <? 2 ^ 36 then Some (b + n) else None.
Lemma any_grow_grows : grows any_grow.
Proof. intros b n b' _ H. unfold any_grow in H. destruct (Z.ltb_spec (b + n) (2 ^ 36)); simplify_eq. done. Qed.

Definition ex_start : ustate := mkustate (fun _ => 0) 0 8192.
Definition ex_malloc : option (Z * ustate) := malloc 4096 any_grow 10 100 ex_start.

Lemma umalloc_safe_witness :
  exists a s', ex_malloc = Some (a + UNIT, s') /\ uses 4096 8192 any_grow s' (<[a := 8]> ∅) /\
    (exists s'' N, (forall fuel, (N <= fuel)%nat -> free fuel (a + UNIT) s' = Some s'')).
Proof.
  assert (fresh 4096 8192 ex_start) as Hf by (repeat split; cbn; lia).
  exists (8192 + UNIT * 4088). eexists. split; [reflexivity|].
  assert (uses 4096 8192 any_grow (snd (default (0, ex_start) ex_malloc)) (<[8192 + UNIT * 4088 := units 100]> ∅)) as Hu.
  { apply (uses_malloc _ _ _ ex_start ∅ 10 100); [by apply uses_start|lia|reflexivity|lia]. }
  split; [exact Hu|].
  destruct (umalloc_safe 4096 8192 any_grow any_grow_grows _ _ Hu) as (_ & _ & _ & Hfree).
  destruct (Hfree (8192 + UNIT * 4088) 8) as (s'' & N & HN & _); [apply lookup_insert_eq|]. by exists s'', N.
Defined.

(* ------------------------------------------------------------------ *)
(** ** Requests of 2 GB and more *)

(** The size of a process after [growproc(n)], when there is memory: [sz + n] is
    64 bits wide and [uvmdealloc] only shrinks. *)
Definition growproc_sz (sz n : Z) : option Z :=
  if 0 <? n then (if sz + n <=? TRAPFRAME then Some (sz + n) else None)
  else if n <? 0 then Some (if sz <=? u64 (sz + n) then sz else u64 (sz + n))
  else Some sz.

(** The [int] argument of [sbrk] truncates the size: [malloc] of 2 GB asks the
    kernel to shrink the process, takes that for success, and returns a block
    that is not in the heap. *)
Theorem malloc_truncates :
  exists p s', malloc 4096 growproc_sz 10 (2 ^ 31) ex_start = Some (p, s') /\ p <> 0 /\ u_brk s' = u_brk ex_start /\
    u_brk s' < p.
Proof. eexists _, _. split; [vm_compute; reflexivity|]. vm_compute. done. Qed.
