(* ===== verification/Riscv.v ===== *)
(** * A hart: registers, address translation and instructions

    What the assembly files of the kernel and the accessors of [kernel/riscv.h]
    need of the RISC-V architecture: the integer registers, the control and
    status registers, the Sv39 translation of addresses, the instructions that
    occur in the assembly files, and the entry into and the return from traps.
    Translations are not cached, so [sfence.vma] has no effect; the accessed and
    dirty bits of page-table entries are not modelled. *)

From S2P Require Import Prelude Machine.
Local Open Scope Z_scope.

(* ------------------------------------------------------------------ *)
(** ** State *)

Inductive reg : Type :=
| zero | ra | sp | gp | tp | t0 | t1 | t2 | s0 | s1 | a0 | a1 | a2 | a3 | a4 | a5 | a6 | a7
| s2 | s3 | s4 | s5 | s6 | s7 | s8 | s9 | s10 | s11 | t3 | t4 | t5 | t6.
#[export] Instance reg_eq_dec : EqDecision reg.
Proof. solve_decision. Defined.

(** [sstatus] and [sie] are views of [mstatus] and [mie]. *)
Inductive csr : Type :=
| mhartid | mstatus | mepc | mie | medeleg | mideleg | menvcfg | mcounteren | pmpcfg0 | pmpaddr0
| sstatus | sie | sip | sepc | scause | stval | stvec | sscratch | satp | stimecmp | time.
#[export] Instance csr_eq_dec : EqDecision csr.
Proof. solve_decision. Defined.

Inductive privilege : Type := User | Supervisor | MachineMode.

Record hart : Type := mkhart { regs : reg -> Z; csrs : csr -> Z; mode : privilege; hmem : mem }.

Definition upd {A} `{EqDecision A} (f : A -> Z) (a : A) (v : Z) : A -> Z := fun b => if decide (b = a) then v else f b.

Lemma upd_eq {A} `{EqDecision A} (f : A -> Z) a v : upd f a v a = v.
Proof. unfold upd. by rewrite decide_True. Qed.
Lemma upd_ne {A} `{EqDecision A} (f : A -> Z) a v b : b <> a -> upd f a v b = f b.
Proof. intros. unfold upd. by rewrite decide_False. Qed.

Definition rd (h : hart) (r : reg) : Z := if decide (r = zero) then 0 else regs h r.
Definition wr (r : reg) (v : Z) (h : hart) : hart := mkhart (upd (regs h) r v) (csrs h) (mode h) (hmem h).
Definition wmem (m : mem) (h : hart) : hart := mkhart (regs h) (csrs h) (mode h) m.
Definition wcsrs (c : csr -> Z) (h : hart) : hart := mkhart (regs h) c (mode h) (hmem h).
Definition wmode (p : privilege) (h : hart) : hart := mkhart (regs h) (csrs h) p (hmem h).

Lemma rd_wr_ne r r' v h : r <> r' -> rd (wr r' v h) r = rd h r.
Proof. intros Hne. unfold rd. case_decide; [done|]. by apply upd_ne. Qed.
Lemma rd_wr_eq r v h : r <> zero -> rd (wr r v h) r = v.
Proof. intros Hne. unfold rd. rewrite decide_False by done. apply upd_eq. Qed.

(** The bits of [mstatus] that [sstatus] shows: SIE, SPIE, UBE, SPP, VS, FS, XS,
    SUM, MXR, UXL, SD. *)
Definition SSTATUS_MASK : Z := 0x80000003000DE762.

Definition mask_write (old new mask : Z) : Z := Z.lor (Z.land old (Z.lnot mask)) (Z.land new mask).

Definition csr_read (c : csr) (h : hart) : Z :=
  match c with
  | sstatus => Z.land (csrs h mstatus) SSTATUS_MASK
  | sie => Z.land (csrs h mie) (csrs h mideleg)
  | _ => csrs h c
  end.

Definition csr_write (c : csr) (v : Z) (h : hart) : hart :=
  match c with
  | sstatus => wcsrs (upd (csrs h) mstatus (mask_write (csrs h mstatus) v SSTATUS_MASK)) h
  | sie => wcsrs (upd (csrs h) mie (mask_write (csrs h mie) v (csrs h mideleg))) h
  | mhartid | time => h
  | _ => wcsrs (upd (csrs h) c v) h
  end.

(* ------------------------------------------------------------------ *)
(** ** Sv39 *)

Definition pte_at (m : mem) (table level va : Z) : Z := load64 m (table + 8 * PX level va).
Definition has (pte bit : Z) : bool := negb (Z.land pte bit =? 0).
Definition leaf (pte : Z) : bool := has pte PTE_R || has pte PTE_W || has pte PTE_X.

(** Whether a leaf entry allows a load or a store; supervisor code may not touch
    user pages. *)
Definition allows (p : privilege) (store : bool) (pte : Z) : bool :=
  has pte (if store then PTE_W else PTE_R) &&
  match p with User => has pte PTE_U | _ => negb (has pte PTE_U) end.

Fixpoint sv39 (n : nat) (m : mem) (p : privilege) (w : bool) (table va : Z) : option Z :=
  let level := Z.of_nat n in
  let pte := pte_at m table level va in
  if has pte PTE_V then
    if leaf pte then
      if allows p w pte then Some (PTE2PA pte + va mod 2 ^ PXSHIFT level) else None
    else match n with O => None | S n => sv39 n m p w (PTE2PA pte) va end
  else None.

(** The addresses of the entries that are read. *)
Fixpoint sv39_reads (n : nat) (m : mem) (table va : Z) : list Z :=
  let level := Z.of_nat n in
  let pte := pte_at m table level va in
  (table + 8 * PX level va) ::
  if has pte PTE_V && negb (leaf pte) then match n with O => [] | S n => sv39_reads n m (PTE2PA pte) va end else [].

Definition SATP_SV39 : Z := 8 * 2 ^ 60.
Definition satp_root (v : Z) : Z := Z.shiftl (v mod 2 ^ 44) 12.
Definition paging (p : privilege) (s : Z) : bool :=
  match p with MachineMode => false | _ => Z.shiftr s 60 =? 8 end.

Definition translate (m : mem) (p : privilege) (s : Z) (w : bool) (va : Z) : option Z :=
  if paging p s then (if va <? 2 ^ 38 then sv39 2 m p w (satp_root s) va else None) else Some va.
Definition translate_reads (m : mem) (p : privilege) (s va : Z) : list Z :=
  if paging p s then sv39_reads 2 m (satp_root s) va else [].

Lemma sv39_ext n m m' p w table va :
  (forall a, a ∈ sv39_reads n m table va -> load64 m' a = load64 m a) ->
  sv39 n m' p w table va = sv39 n m p w table va /\ sv39_reads n m' table va = sv39_reads n m table va.
Proof.
  revert table. induction n as [|n IH]; intros table Hm; cbn [sv39 sv39_reads] in *; unfold pte_at in *;
    (rewrite (Hm (table + 8 * PX _ va)) by set_solver).
  - done.
  - destruct (has _ PTE_V) eqn:EV; [|done]. destruct (leaf _) eqn:EL; [done|]. cbn [andb negb] in *.
    destruct (IH (PTE2PA (load64 m (table + 8 * PX (Z.of_nat (S n)) va)))) as [-> ->]; [set_solver|done].
Qed.

Lemma translate_ext m m' p s w va :
  (forall a, a ∈ translate_reads m p s va -> load64 m' a = load64 m a) ->
  translate m' p s w va = translate m p s w va /\ translate_reads m' p s va = translate_reads m p s va.
Proof.
  unfold translate, translate_reads. destruct (paging p s); [|done]. intros Hm.
  destruct (sv39_ext 2 m m' p w (satp_root s) va Hm) as [-> ->]. done.
Qed.

(* ------------------------------------------------------------------ *)
(** ** Instructions *)

Inductive instr : Type :=
| Sd (rs : reg) (off : Z) (rb : reg)
| Ld (rdst : reg) (off : Z) (rb : reg)
| Li (rdst : reg) (imm : Z)
| La (rdst : reg) (addr : Z)
| Addi (rdst rs : reg) (imm : Z)
| Add (rdst rs rt : reg)
| Mul (rdst rs rt : reg)
| Csrw (c : csr) (rs : reg)
| Csrr (rdst : reg) (c : csr)
| SfenceVma.

(** One instruction that does not jump; [None] is an exception. *)
Definition exec1 (i : instr) (h : hart) : option hart :=
  match i with
  | Sd rs off rb =>
      let va := u64 (rd h rb + off) in
      if va mod 8 =? 0 then
        match translate (hmem h) (mode h) (csrs h satp) true va with
        | Some pa => Some (wmem (store64 (hmem h) pa (rd h rs)) h)
        | None => None
        end
      else None
  | Ld rdst off rb =>
      let va := u64 (rd h rb + off) in
      if va mod 8 =? 0 then
        match translate (hmem h) (mode h) (csrs h satp) false va with
        | Some pa => Some (wr rdst (load64 (hmem h) pa) h)
        | None => None
        end
      else None
  | Li rdst imm => Some (wr rdst imm h)
  | La rdst a => Some (wr rdst a h)
  | Addi rdst rs imm => Some (wr rdst (u64 (rd h rs + imm)) h)
  | Add rdst rs rt => Some (wr rdst (u64 (rd h rs + rd h rt)) h)
  | Mul rdst rs rt => Some (wr rdst (u64 (rd h rs * rd h rt)) h)
  | Csrw c rs => Some (csr_write c (rd h rs) h)
  | Csrr rdst c => Some (wr rdst (csr_read c h) h)
  | SfenceVma => Some h
  end.

Fixpoint exec (l : list instr) (h : hart) : option hart :=
  match l with
  | [] => Some h
  | i :: l => match exec1 i h with Some h => exec l h | None => None end
  end.

Lemma exec_app l1 l2 h h1 : exec l1 h = Some h1 -> exec (l1 ++ l2) h = exec l2 h1.
Proof.
  revert h. induction l1 as [|i l1 IH]; intros h; cbn; [intros; by simplify_eq|]. destruct (exec1 i h); [apply IH|done].
Qed.

(** [jalr rs], [ret] and [call f]: the next program counter. *)
Definition jalr (after : Z) (rs : reg) (h : hart) : hart * Z := (wr ra after h, rd h rs).
Definition ret (h : hart) : hart * Z := (h, rd h ra).

(** Bits of [mstatus]. *)
Definition MIE_BIT : Z := 3.
Definition MPIE_BIT : Z := 7.
Definition SIE_BIT : Z := 1.
Definition SPIE_BIT : Z := 5.
Definition SPP_BIT : Z := 8.

Definition put_bit (v i : Z) (b : bool) : Z := if b then Z.setbit v i else Z.clearbit v i.

Lemma testbit_put_bit v i b j : 0 <= i -> 0 <= j -> Z.testbit (put_bit v i b) j = if decide (j = i) then b else Z.testbit v j.
Proof.
  intros Hi Hj. unfold put_bit. case_decide as E; [subst|]; destruct b.
  - by apply Z.setbit_eq.
  - apply Z.clearbit_eq.
  - apply Z.setbit_neq; lia.
  - apply Z.clearbit_neq; lia.
Qed.

(** An exception or interrupt that is delegated to supervisor mode. *)
Definition take_trap (pc cause tval : Z) (h : hart) : hart * Z :=
  let st := csrs h mstatus in
  let st := put_bit st SPIE_BIT (Z.testbit st SIE_BIT) in
  let st := put_bit st SIE_BIT false in
  let st := put_bit st SPP_BIT (match mode h with User => false | _ => true end) in
  let c := upd (upd (upd (upd (csrs h) mstatus st) sepc pc) scause cause) stval tval in
  (wmode Supervisor (wcsrs c h), csrs h stvec).

Definition sret (h : hart) : hart * Z :=
  let st := csrs h mstatus in
  let p := if Z.testbit st SPP_BIT then Supervisor else User in
  let st := put_bit st SIE_BIT (Z.testbit st SPIE_BIT) in
  let st := put_bit (put_bit st SPIE_BIT true) SPP_BIT false in
  (wmode p (wcsrs (upd (csrs h) mstatus st) h), csrs h sepc).

(** The mode in the field MPP (bits 11 and 12). *)
Definition mpp (st : Z) : privilege :=
  if (Z.shiftr st 11) mod 4 =? 3 then MachineMode else if (Z.shiftr st 11) mod 4 =? 1 then Supervisor else User.

Definition mret (h : hart) : hart * Z :=
  let st := csrs h mstatus in
  let p := mpp st in
  let st := put_bit st MIE_BIT (Z.testbit st MPIE_BIT) in
  let st := put_bit (put_bit (put_bit st MPIE_BIT true) 11 false) 12 false in
  (wmode p (wcsrs (upd (csrs h) mstatus st) h), csrs h mepc).

(** Interrupts are off after a trap; [SPP] tells where it came from. *)
Lemma take_trap_bits pc cause tval h :
  let st := csrs (take_trap pc cause tval h).1 mstatus in
  Z.testbit st SIE_BIT = false /\ Z.testbit st SPP_BIT = (match mode h with User => false | _ => true end) /\
  Z.testbit st SPIE_BIT = Z.testbit (csrs h mstatus) SIE_BIT.
Proof.
  intros st. unfold st, take_trap. cbn [fst csrs wmode wcsrs]. rewrite !upd_ne, upd_eq by done.
  unfold SIE_BIT, SPP_BIT, SPIE_BIT. rewrite !testbit_put_bit by lia. by repeat case_decide.
Qed.

(** [sret] undoes that. *)
Lemma sret_bits h :
  Z.testbit (csrs (sret h).1 mstatus) SIE_BIT = Z.testbit (csrs h mstatus) SPIE_BIT.
Proof.
  unfold sret. cbn [fst csrs wmode wcsrs]. rewrite upd_eq. unfold SIE_BIT, SPP_BIT, SPIE_BIT.
  rewrite !testbit_put_bit by lia. by repeat case_decide.
Qed.
