(* ===== verification/Asm.v ===== *)
(** * The assembly of the kernel ([trampoline.S], [swtch.S], [kernelvec.S])

    The entry from and the return to user space, the switch between kernel
    threads, and traps taken in the kernel, as instruction sequences. A C
    function that is called between two parts of a routine appears as a condition
    on the hart at its return. *)

From S2P Require Import Prelude Machine Proc Riscv.
Local Open Scope Z_scope.

(* ------------------------------------------------------------------ *)
(** ** The code *)

(** trampoline.S; the instruction after [jalr t0] is the first of [userret]. *)
Definition uservec_code : list instr := [
  Csrw sscratch a0; Li a0 TRAPFRAME; Sd ra 40 a0; Sd sp 48 a0;
  Sd gp 56 a0; Sd tp 64 a0; Sd t0 72 a0; Sd t1 80 a0;
  Sd t2 88 a0; Sd s0 96 a0; Sd s1 104 a0; Sd a1 120 a0;
  Sd a2 128 a0; Sd a3 136 a0; Sd a4 144 a0; Sd a5 152 a0;
  Sd a6 160 a0; Sd a7 168 a0; Sd s2 176 a0; Sd s3 184 a0;
  Sd s4 192 a0; Sd s5 200 a0; Sd s6 208 a0; Sd s7 216 a0;
  Sd s8 224 a0; Sd s9 232 a0; Sd s10 240 a0; Sd s11 248 a0;
  Sd t3 256 a0; Sd t4 264 a0; Sd t5 272 a0; Sd t6 280 a0;
  Csrr t0 sscratch; Sd t0 112 a0; Ld sp 8 a0; Ld tp 32 a0;
  Ld t0 16 a0; Ld t1 0 a0; SfenceVma; Csrw satp t1;
  SfenceVma].

Definition uservec (userret_addr : Z) (h : hart) : option (hart * Z) :=
  match exec uservec_code h with Some h => Some (jalr userret_addr t0 h) | None => None end.

Definition userret_code : list instr := [
  SfenceVma; Csrw satp a0; SfenceVma; Li a0 TRAPFRAME;
  Ld ra 40 a0; Ld sp 48 a0; Ld gp 56 a0; Ld tp 64 a0;
  Ld t0 72 a0; Ld t1 80 a0; Ld t2 88 a0; Ld s0 96 a0;
  Ld s1 104 a0; Ld a1 120 a0; Ld a2 128 a0; Ld a3 136 a0;
  Ld a4 144 a0; Ld a5 152 a0; Ld a6 160 a0; Ld a7 168 a0;
  Ld s2 176 a0; Ld s3 184 a0; Ld s4 192 a0; Ld s5 200 a0;
  Ld s6 208 a0; Ld s7 216 a0; Ld s8 224 a0; Ld s9 232 a0;
  Ld s10 240 a0; Ld s11 248 a0; Ld t3 256 a0; Ld t4 264 a0;
  Ld t5 272 a0; Ld t6 280 a0; Ld a0 112 a0].

Definition userret (h : hart) : option (hart * Z) :=
  match exec userret_code h with Some h => Some (sret h) | None => None end.

(** swtch.S *)
Definition swtch_code : list instr := [
  Sd ra 0 a0; Sd sp 8 a0; Sd s0 16 a0; Sd s1 24 a0;
  Sd s2 32 a0; Sd s3 40 a0; Sd s4 48 a0; Sd s5 56 a0;
  Sd s6 64 a0; Sd s7 72 a0; Sd s8 80 a0; Sd s9 88 a0;
  Sd s10 96 a0; Sd s11 104 a0; Ld ra 0 a1; Ld sp 8 a1;
  Ld s0 16 a1; Ld s1 24 a1; Ld s2 32 a1; Ld s3 40 a1;
  Ld s4 48 a1; Ld s5 56 a1; Ld s6 64 a1; Ld s7 72 a1;
  Ld s8 80 a1; Ld s9 88 a1; Ld s10 96 a1; Ld s11 104 a1].

Definition swtch (h : hart) : option (hart * Z) :=
  match exec swtch_code h with Some h => Some (ret h) | None => None end.

(** kernelvec.S: up to [call kerneltrap], and from its return on. *)
Definition kernelvec_save : list instr := [
  Addi sp sp (-256); Sd ra 0 sp; Sd gp 16 sp; Sd tp 24 sp;
  Sd t0 32 sp; Sd t1 40 sp; Sd t2 48 sp; Sd a0 72 sp;
  Sd a1 80 sp; Sd a2 88 sp; Sd a3 96 sp; Sd a4 104 sp;
  Sd a5 112 sp; Sd a6 120 sp; Sd a7 128 sp; Sd t3 216 sp;
  Sd t4 224 sp; Sd t5 232 sp; Sd t6 240 sp].

Definition kernelvec_restore : list instr := [
  Ld ra 0 sp; Ld gp 16 sp; Ld t0 32 sp; Ld t1 40 sp;
  Ld t2 48 sp; Ld a0 72 sp; Ld a1 80 sp; Ld a2 88 sp;
  Ld a3 96 sp; Ld a4 104 sp; Ld a5 112 sp; Ld a6 120 sp;
  Ld a7 128 sp; Ld t3 216 sp; Ld t4 224 sp; Ld t5 232 sp;
  Ld t6 240 sp; Addi sp sp 256].

Definition kernelvec (kerneltrap : hart -> option hart) (h : hart) : option (hart * Z) :=
  match exec kernelvec_save h with
  | None => None
  | Some h =>
      match kerneltrap h with
      | None => None
      | Some h => match exec kernelvec_restore h with Some h => Some (sret h) | None => None end
      end
  end.

(* ------------------------------------------------------------------ *)
(** ** Sequences of stores and loads *)

(** Addresses [va .. va + n) are mapped to [pa ..], for loads and stores, by
    entries that are outside of that memory. *)
Definition window (m : mem) (p : privilege) (s va n pa : Z) : Prop :=
  (0 <= va /\ va mod 8 = 0 /\ va + n <= 2 ^ 64) /\
  forall o, 0 <= o < n -> o mod 8 = 0 ->
    (forall w, translate m p s w (va + o) = Some (pa + o)) /\
    forall a, a ∈ translate_reads m p s (va + o) -> a + 8 <= pa \/ pa + n <= a.

Definition slot (n o : Z) : Prop := 0 <= o /\ o + 8 <= n /\ o mod 8 = 0.

Lemma window_mem m m' p s va n pa :
  (forall a, a + 8 <= pa \/ pa + n <= a -> load64 m' a = load64 m a) -> window m p s va n pa -> window m' p s va n pa.
Proof.
  intros Hm [Hva Hw]. split; [done|]. intros o Ho Ho8. destruct (Hw o Ho Ho8) as [Ht Hr].
  assert (forall a, a ∈ translate_reads m p s (va + o) -> load64 m' a = load64 m a) as He by (intros a Ha; by apply Hm, Hr).
  destruct (translate_ext m m' p s false (va + o) He) as [_ Er]. split.
  - intros w. destruct (translate_ext m m' p s w (va + o) He) as [-> _]. apply Ht.
  - rewrite Er. apply Hr.
Qed.

Definition saves (b : reg) (l : list (reg * Z)) : list instr := map (fun '(r, o) => Sd r o b) l.
Definition loads (b : reg) (l : list (reg * Z)) : list instr := map (fun '(r, o) => Ld r o b) l.

Definition saved (f : reg -> Z) (pa : Z) (l : list (reg * Z)) (m : mem) : mem :=
  fold_left (fun m '(r, o) => store64 m (pa + o) (f r)) l m.
Definition loaded (m : mem) (pa : Z) (l : list (reg * Z)) (f : reg -> Z) : reg -> Z :=
  fold_left (fun f '(r, o) => upd f r (load64 m (pa + o))) l f.

Lemma saved_out f pa l m n a :
  (forall r o, (r, o) ∈ l -> slot n o) -> a + 8 <= pa \/ pa + n <= a -> load64 (saved f pa l m) a = load64 m a.
Proof.
  revert m. induction l as [|[r o] l IH]; intros m Hl Ha; [done|]. cbn. fold (saved f pa l (store64 m (pa + o) (f r))).
  rewrite IH; [|set_solver|done]. destruct (Hl r o) as (? & ? & ?); [set_solver|]. apply load_store_disj. lia.
Qed.

Lemma saved_other f pa l m o :
  (forall r' o', (r', o') ∈ l -> o' mod 8 = 0 /\ o' <> o) -> o mod 8 = 0 -> load64 (saved f pa l m) (pa + o) = load64 m (pa + o).
Proof.
  revert m. induction l as [|[r' o'] l IH]; intros m Hl Ho; [done|]. cbn. fold (saved f pa l (store64 m (pa + o') (f r'))).
  rewrite IH; [|set_solver|done]. destruct (Hl r' o') as [? ?]; [set_solver|]. apply load_store_disj.
  pose proof (Z.div_mod o 8 ltac:(lia)). pose proof (Z.div_mod o' 8 ltac:(lia)). lia.
Qed.

Lemma saved_in f pa l m r o :
  (r, o) ∈ l -> NoDup (map snd l) -> (forall r' o', (r', o') ∈ l -> o' mod 8 = 0) -> 0 <= f r < 2 ^ 64 ->
  load64 (saved f pa l m) (pa + o) = f r.
Proof.
  revert m. induction l as [|[r' o'] l IH]; intros m Hin Hnd Ho Hf; [set_solver|]. cbn in *.
  fold (saved f pa l (store64 m (pa + o') (f r'))). apply NoDup_cons in Hnd as [Hn Hnd].
  apply elem_of_cons in Hin as [[= -> ->]|Hin]; [|apply IH; set_solver].
  rewrite saved_other; [rewrite load_store; by apply Z.mod_small| |apply (Ho r' o'); set_solver].
  intros r o Hro. split; [apply (Ho r); set_solver|]. intros ->. apply Hn. by apply (list_elem_of_fmap_2 snd _ (r, o')).
Qed.

Lemma loaded_out m pa l f r : r ∉ map fst l -> loaded m pa l f r = f r.
Proof.
  revert f. induction l as [|[r' o] l IH]; intros f Hr; [done|]. cbn in *.
  fold (loaded m pa l (upd f r' (load64 m (pa + o)))). rewrite IH by set_solver. apply upd_ne. set_solver.
Qed.

Lemma loaded_in m pa l f r o : (r, o) ∈ l -> NoDup (map fst l) -> loaded m pa l f r = load64 m (pa + o).
Proof.
  revert f. induction l as [|[r' o'] l IH]; intros f Hin Hnd; [set_solver|]. cbn in *.
  fold (loaded m pa l (upd f r' (load64 m (pa + o')))). apply NoDup_cons in Hnd as [Hn Hnd].
  apply elem_of_cons in Hin as [[= -> ->]|Hin]; [|by apply IH]. rewrite loaded_out by done. apply upd_eq.
Qed.

Lemma window_va m p s va n pa o : window m p s va n pa -> slot n o ->
  u64 (va + o) = va + o /\ (va + o) mod 8 = 0 /\ forall w, translate m p s w (va + o) = Some (pa + o).
Proof.
  intros [(H0 & H8 & H64) Hw] (Ho & Hn & Ho8). split; [apply u64_small; lia|]. split.
  - rewrite Z.add_mod, H8, Ho8 by lia. done.
  - apply Hw; [lia|done].
Qed.

Lemma window_store m p s va n pa o v : window m p s va n pa -> slot n o -> window (store64 m (pa + o) v) p s va n pa.
Proof. intros Hw (? & ? & ?). apply (window_mem m); [|done]. intros a Ha. apply load_store_disj. lia. Qed.

(** Stores of registers into the window. *)
Lemma exec_saves b l h n pa :
  window (hmem h) (mode h) (csrs h satp) (rd h b) n pa -> (forall r o, (r, o) ∈ l -> slot n o) ->
  exec (saves b l) h = Some (wmem (saved (rd h) pa l (hmem h)) h).
Proof.
  revert h. induction l as [|[r o] l IH]; intros h Hw Hl; [by destruct h|]. cbn [saves map exec exec1].
  destruct (window_va _ _ _ _ _ _ o Hw) as (-> & -> & ->); [apply (Hl r); set_solver|]. cbn [Z.eqb].
  fold (saves b l). rewrite IH; [done| |intros r' o' Hin; apply (Hl r'), elem_of_cons; by right]. apply (window_store _ _ _ _ _ _ o _ Hw), (Hl r). set_solver.
Qed.

Definition wregs (f : reg -> Z) (h : hart) : hart := mkhart f (csrs h) (mode h) (hmem h).

(** Loads of other registers from the window. *)
Lemma exec_loads b l h n pa :
  window (hmem h) (mode h) (csrs h satp) (rd h b) n pa -> (forall r o, (r, o) ∈ l -> slot n o /\ r <> b) ->
  exec (loads b l) h = Some (wregs (loaded (hmem h) pa l (regs h)) h).
Proof.
  revert h. induction l as [|[r o] l IH]; intros h Hw Hl; [by destruct h|]. cbn [loads map exec exec1].
  destruct (Hl r o) as [Hs Hb]; [set_solver|]. destruct (window_va _ _ _ _ _ _ o Hw Hs) as (-> & -> & ->). cbn [Z.eqb].
  fold (loads b l). rewrite IH; [done| |intros r' o' Hin; apply Hl, elem_of_cons; by right].
  by rewrite rd_wr_ne.
Qed.

(** Conditions on a list of slots, by evaluation. *)
Definition slots_ok (n : Z) (b : reg) (l : list (reg * Z)) : bool :=
  forallb (fun '(r, o) => (0 <=? o) && (o + 8 <=? n) && (o mod 8 =? 0) && bool_decide (r <> b)) l.
Lemma slots_ok_spec n b l : slots_ok n b l = true -> forall r o, (r, o) ∈ l -> slot n o /\ r <> b.
Proof.
  unfold slots_ok. rewrite forallb_forall. intros H r o Hin. apply list_elem_of_In in Hin. specialize (H (r, o) Hin). cbn in H.
  rewrite !andb_true_iff, bool_decide_eq_true, Z.eqb_eq, !Z.leb_le in H. destruct H as [[[? ?] ?] ?]. by repeat split.
Qed.

(* ------------------------------------------------------------------ *)
(** ** Traps from user space *)

(** Where [uservec] saves the registers other than [a0]. *)
Definition user_saves : list (reg * Z) := [
  (ra, 40); (sp, 48); (gp, 56); (tp, 64); (t0, 72); (t1, 80); (t2, 88); (s0, 96); (s1, 104);
  (a1, 120); (a2, 128); (a3, 136); (a4, 144); (a5, 152); (a6, 160); (a7, 168);
  (s2, 176); (s3, 184); (s4, 192); (s5, 200); (s6, 208); (s7, 216); (s8, 224); (s9, 232); (s10, 240); (s11, 248);
  (t3, 256); (t4, 264); (t5, 272); (t6, 280)].

Lemma user_saves_all r : r = zero \/ r = a0 \/ exists o, (r, o) ∈ user_saves.
Proof. destruct r; (by left) || (right; by left) || (right; right; eexists; unfold user_saves; repeat (apply list_elem_of_here || apply list_elem_of_further)). Qed.

Lemma user_slots r o : (r, o) ∈ user_saves -> slot TF_SIZE o /\ r <> a0.
Proof. by apply slots_ok_spec. Qed.

Lemma user_saves_offsets r o : (r, o) ∈ user_saves -> 40 <= o < TF_SIZE /\ o <> TF_a0.
Proof.
  intros Hin%list_elem_of_In.
  assert (forallb (fun '(_, o) => (40 <=? o) && (o <? TF_SIZE) && negb (o =? TF_a0)) user_saves = true) as Hk by done.
  rewrite forallb_forall in Hk. specialize (Hk _ Hin). cbn in Hk.
  rewrite !andb_true_iff, negb_true_iff, Z.leb_le, Z.ltb_lt, Z.eqb_neq in Hk. tauto.
Qed.
Lemma user_saves_nz r o : (r, o) ∈ user_saves -> r <> zero.
Proof. intros Hin. by apply (slots_ok_spec TF_SIZE zero user_saves eq_refl r o). Qed.
Lemma user_saves_nodup : NoDup (map fst user_saves) /\ NoDup (map snd user_saves).
Proof. split; apply (bool_decide_unpack _); vm_compute; exact I. Qed.

Lemma uservec_code_eq :
  uservec_code = ([Csrw sscratch a0; Li a0 TRAPFRAME] ++ saves a0 user_saves ++ [Csrr t0 sscratch] ++
    saves a0 [(t0, TF_a0)]) ++ loads a0 [(sp, TF_kernel_sp); (tp, TF_kernel_hartid); (t0, TF_kernel_trap); (t1, TF_kernel_satp)] ++
    [SfenceVma; Csrw satp t1; SfenceVma].
Proof. reflexivity. Qed.

Lemma userret_code_eq :
  userret_code = [SfenceVma; Csrw satp a0; SfenceVma; Li a0 TRAPFRAME] ++ loads a0 user_saves ++ [Ld a0 TF_a0 a0].
Proof. reflexivity. Qed.

(** The memory after [uservec]. *)
Definition frame_saved (f : reg -> Z) (tf : Z) (m : mem) : mem := store64 (saved f tf user_saves m) (tf + TF_a0) (f a0).

Lemma saved_ext f g pa l m : (forall r o, (r, o) ∈ l -> f r = g r) -> saved f pa l m = saved g pa l m.
Proof.
  revert m. induction l as [|[r o] l IH]; intros m H; [done|]. cbn. rewrite (H r o) by apply list_elem_of_here.
  apply IH. intros r' o' Hin. apply (H r' o'). by apply list_elem_of_further.
Qed.

#[local] Opaque load store translate.

(** The first half of [uservec]: the registers are in the trapframe. *)
Lemma exec_save_frame h tf :
  mode h = Supervisor -> window (hmem h) Supervisor (csrs h satp) TRAPFRAME TF_SIZE tf ->
  exists h1, exec ([Csrw sscratch a0; Li a0 TRAPFRAME] ++ saves a0 user_saves ++ [Csrr t0 sscratch] ++ saves a0 [(t0, TF_a0)]) h = Some h1 /\
    hmem h1 = frame_saved (rd h) tf (hmem h) /\ mode h1 = Supervisor /\ rd h1 a0 = TRAPFRAME /\
    (forall c, c <> sscratch -> csrs h1 c = csrs h c) /\ window (hmem h1) Supervisor (csrs h satp) TRAPFRAME TF_SIZE tf.
Proof.
  intros Hmode Hw. set (h1 := wr a0 TRAPFRAME (csr_write sscratch (rd h a0) h)).
  rewrite (exec_app [_; _] _ h h1) by done.
  assert (rd h1 a0 = TRAPFRAME) as Ea by done. assert (mode h1 = Supervisor) as Em by done.
  assert (forall c, c <> sscratch -> csrs h1 c = csrs h c) as Ec by (intros c Hc; by apply upd_ne).
  assert (csr_read sscratch h1 = rd h a0) as Es by (apply upd_eq). assert (hmem h1 = hmem h) as Eh by done.
  assert (forall r, r <> a0 -> rd h1 r = rd h r) as Er by (intros r Hr; unfold h1; by rewrite rd_wr_ne).
  clearbody h1. erewrite exec_app.
  2:{ apply (exec_saves a0 user_saves h1 TF_SIZE tf); [by rewrite Ea, Em, Eh, Ec|]. intros r o Hin. by apply (user_slots r). }
  rewrite (saved_ext _ (rd h)) by (intros r o [_ Hne]%user_slots; by apply Er). rewrite Eh.
  set (m2 := saved _ _ _ _). assert (window m2 Supervisor (csrs h satp) TRAPFRAME TF_SIZE tf) as Hw2.
  { apply (window_mem (hmem h)); [|done]. intros a Ha. apply (saved_out _ _ _ _ TF_SIZE); [|done].
    intros r o Hin. by apply (user_slots r). }
  set (m3 := frame_saved _ _ _). assert (m3 = store64 m2 (tf + TF_a0) (rd h a0)) as E3 by done. clearbody m2 m3.
  set (h2 := wr t0 (rd h a0) (wmem m2 h1)). rewrite (exec_app [_] _ _ h2) by (cbn [exec exec1]; unfold h2; rewrite <- Es; done).
  assert (rd h2 a0 = TRAPFRAME) as Ea2 by (unfold h2; by rewrite rd_wr_ne). assert (rd h2 t0 = rd h a0) as Et by (by apply rd_wr_eq).
  rewrite (exec_saves a0 [(t0, TF_a0)] h2 TF_SIZE tf).
  - eexists. split; [reflexivity|]. cbn [saved fold_left]. rewrite Et. cbn [hmem wmem h2 wr].
    rewrite <- E3. split_and!; try done. rewrite E3. apply window_store; [done|by repeat split].
  - rewrite Ea2. cbn [hmem mode csrs h2 wr wmem]. by rewrite Em, Ec.
  - intros r o Hin. by apply (slots_ok_spec TF_SIZE a0 [(t0, TF_a0)] eq_refl r).
Qed.

Lemma uservec_spec h ura tf :
  mode h = Supervisor -> window (hmem h) Supervisor (csrs h satp) TRAPFRAME TF_SIZE tf ->
  let m1 := frame_saved (rd h) tf (hmem h) in
  exists h1, uservec ura h = Some (h1, load64 m1 (tf + TF_kernel_trap)) /\ hmem h1 = m1 /\ mode h1 = Supervisor /\
    rd h1 sp = load64 m1 (tf + TF_kernel_sp) /\ rd h1 tp = load64 m1 (tf + TF_kernel_hartid) /\ rd h1 ra = ura /\
    csrs h1 satp = load64 m1 (tf + TF_kernel_satp) /\ (forall c, c <> satp -> c <> sscratch -> csrs h1 c = csrs h c).
Proof.
  intros Hmode Hw m1. destruct (exec_save_frame h tf Hmode Hw) as (h3 & E & Em & Emode & Ea & Ec & Hw3).
  fold m1 in Em. clearbody m1. unfold uservec. rewrite uservec_code_eq, (exec_app _ _ _ _ E). erewrite exec_app.
  2:{ apply (exec_loads a0 _ h3 TF_SIZE tf); [by rewrite Emode, Ea, Ec|by apply slots_ok_spec]. }
  rewrite Em. cbn [exec exec1]. eexists. split; [reflexivity|].
  split_and!; try done. intros c Hs Hc. cbn. rewrite upd_ne by done. by apply Ec.
Qed.

Lemma userret_spec h tf :
  mode h = Supervisor -> window (hmem h) Supervisor (rd h a0) TRAPFRAME TF_SIZE tf ->
  exists h1, userret h = Some (h1, csrs h sepc) /\ hmem h1 = hmem h /\ csrs h1 satp = rd h a0 /\
    mode h1 = (if Z.testbit (csrs h mstatus) SPP_BIT then Supervisor else User) /\
    rd h1 a0 = load64 (hmem h) (tf + TF_a0) /\
    forall r o, (r, o) ∈ user_saves -> rd h1 r = load64 (hmem h) (tf + o).
Proof.
  intros Hmode Hw. unfold userret. rewrite userret_code_eq.
  set (h1 := wr a0 TRAPFRAME (csr_write satp (rd h a0) h)). rewrite (exec_app [_; _; _; _] _ h h1) by done.
  assert (window (hmem h1) (mode h1) (csrs h1 satp) (rd h1 a0) TF_SIZE tf) as Hw1 by (cbn; by rewrite Hmode).
  erewrite exec_app by (eapply (exec_loads a0); [exact Hw1|apply user_slots]).
  set (f := loaded _ _ _ _). assert (f a0 = TRAPFRAME) as Ef.
  { apply loaded_out. intros ([r o] & Er & [_ Hne]%user_slots)%list_elem_of_fmap. by apply Hne. }
  assert (forall r o, (r, o) ∈ user_saves -> f r = load64 (hmem h) (tf + o)) as Hf.
  { intros r o Hin. apply loaded_in; [done|apply user_saves_nodup]. }
  clearbody f. change (rd h1 a0) with TRAPFRAME in Hw1. destruct (window_va _ _ _ _ _ _ TF_a0 Hw1) as (Hu & H8 & Ht); [by repeat split|].
  cbn [exec exec1]. replace (rd (wregs f h1) a0) with TRAPFRAME by (symmetry; exact Ef).
  rewrite Hu, H8. cbn [Z.eqb]. change (hmem (wregs f h1)) with (hmem h1). change (mode (wregs f h1)) with (mode h1).
  change (csrs (wregs f h1) satp) with (csrs h1 satp). rewrite Ht. eexists. split; [reflexivity|].
  split_and!; try done. intros r o Hin. rewrite <- (Hf r o Hin). destruct (user_slots r o Hin) as [_ Hne].
  unfold rd. cbn. rewrite upd_ne by done. by rewrite decide_False by (by eapply user_saves_nz).
Qed.

(** The trapframe after [uservec]. *)
Lemma frame_saved_reg f tf m r o :
  (forall r, 0 <= f r < 2 ^ 64) -> (r, o) ∈ user_saves -> load64 (frame_saved f tf m) (tf + o) = f r.
Proof.
  intros Hf Hin. unfold frame_saved. rewrite load_store_disj.
  - apply saved_in; [done|apply user_saves_nodup| |done]. intros r' o' [(_ & _ & ?) _]%user_slots. done.
  - destruct (user_saves_offsets r o Hin) as [_ ?]. destruct (user_slots r o Hin) as [(_ & _ & ?) _].
    pose proof (Z.div_mod o 8 ltac:(lia)). lia.
Qed.

Lemma frame_saved_kernel f tf m o :
  0 <= o < 40 -> o mod 8 = 0 -> load64 (frame_saved f tf m) (tf + o) = load64 m (tf + o).
Proof.
  intros Ho H8. unfold frame_saved. rewrite load_store_disj by lia. apply saved_other; [|done].
  intros r' o' Hin. split; [by destruct (user_slots _ _ Hin) as [(_ & _ & ?) _]|]. destruct (user_saves_offsets _ _ Hin). lia.
Qed.

Lemma frame_saved_out f tf m a : a + 8 <= tf \/ tf + TF_SIZE <= a -> load64 (frame_saved f tf m) a = load64 m a.
Proof.
  intros Ha. unfold frame_saved. rewrite load_store_disj by lia. apply (saved_out _ _ _ _ TF_SIZE); [|done].
  intros r o Hin. by apply (user_slots r).
Qed.


#[local] Transparent load store translate.

(** A page of which an entry is known. *)
Lemma px_page level va o : 0 <= level -> va mod PGSIZE = 0 -> 0 <= o < PGSIZE ->
  PX level (va + o) = PX level va /\ (va + o) mod 2 ^ PXSHIFT level = va mod 2 ^ PXSHIFT level + o.
Proof.
  intros Hl Hva Ho. rewrite !PX_eq by done. unfold PXSHIFT.
  assert (2 ^ (12 + 9 * level) = PGSIZE * 2 ^ (9 * level)) as -> by (rewrite Z.pow_add_r by lia; done).
  assert (0 < 2 ^ (9 * level)) by (apply Z.pow_pos_nonneg; lia).
  assert (va = PGSIZE * (va / PGSIZE)) as Ev by (apply Z_div_exact_full_2; [done|exact Hva]).
  assert ((va + o) / PGSIZE = va / PGSIZE) as Ed.
  { rewrite Ev at 1. rewrite Z.add_comm, Z.mul_comm, Z.div_add, Z.div_small by lia. lia. }
  split; [by rewrite <- !Z.div_div, Ed by lia|].
  rewrite !Z.rem_mul_r, Ed by lia. rewrite (Z.add_mod va), Hva, Z.add_0_l, Z.mod_mod, (Z.mod_small o) by lia. lia.
Qed.

Lemma sv39_page n m p w table va o :
  va mod PGSIZE = 0 -> 0 <= o < PGSIZE ->
  sv39 n m p w table (va + o) = (fun pa => pa + o) <$> sv39 n m p w table va /\
  sv39_reads n m table (va + o) = sv39_reads n m table va.
Proof.
  intros Hva Ho. revert table. induction n as [|n IH]; intros table; cbn [sv39 sv39_reads]; unfold pte_at.
  - destruct (px_page (Z.of_nat 0) va o) as [-> ->]; [lia|done|done|].
    repeat case_match; try done. split; [cbn; f_equal; lia|done].
  - destruct (px_page (Z.of_nat (S n)) va o) as [-> ->]; [lia|done|done|].
    destruct (IH (PTE2PA (load64 m (table + 8 * PX (Z.of_nat (S n)) va)))) as [-> ->].
    split; [|done]. repeat case_match; try done. cbn. f_equal. lia.
Qed.

Lemma page_window m p s va n pa :
  paging p s = true -> 0 <= va -> va mod PGSIZE = 0 -> va + PGSIZE <= 2 ^ 38 -> n <= PGSIZE ->
  (forall w, translate m p s w va = Some pa) ->
  (forall a, a ∈ translate_reads m p s va -> a + 8 <= pa \/ pa + n <= a) -> window m p s va n pa.
Proof.
  intros Hp H0 Hva H38 Hn Ht Hr. split; [split_and!; [lia| |lia]|].
  - apply Z.mod_divide in Hva as [k ->]; [|lia]. apply Z.mod_divide; [lia|]. exists (k * 512). lia.
  - intros o Ho _. unfold translate, translate_reads in *. rewrite Hp in *. split.
    + intros w. specialize (Ht w). rewrite (proj2 (Z.ltb_lt va _)) in Ht by lia. rewrite (proj2 (Z.ltb_lt _ _)) by lia.
      destruct (sv39_page 2 m p w (satp_root s) va o) as [-> _]; [done|lia|]. by rewrite Ht.
    + destruct (sv39_page 2 m p false (satp_root s) va o) as [_ ->]; [done|lia|]. apply Hr.
Qed.

(** A process with its trapframe at 0x80003000, mapped as [proc_pagetable] does,
    that runs with the registers 0 .. 31. *)
Definition ex_mem : mem :=
  let m := store64 (fun _ => 0) (0x80000000 + 8 * PX 2 TRAPFRAME) (Z.lor (PA2PTE 0x80001000) PTE_V) in
  let m := store64 m (0x80001000 + 8 * PX 1 TRAPFRAME) (Z.lor (PA2PTE 0x80002000) PTE_V) in
  store64 m (0x80002000 + 8 * PX 0 TRAPFRAME) (Z.lor (PA2PTE 0x80003000) (Z.lor PTE_V (Z.lor PTE_R PTE_W))).
Definition ex_user : hart :=
  mkhart (fun r => if decide (r = a7) then 7 else 1) (fun c => if decide (c = satp) then SATP_SV39 + 0x80000 else 0) User ex_mem.

Lemma ex_window : window ex_mem Supervisor (SATP_SV39 + 0x80000) TRAPFRAME TF_SIZE 0x80003000.
Proof.
  apply page_window; [by vm_compute..| |].
  - intros [|]; by vm_compute.
  - assert (translate_reads ex_mem Supervisor (SATP_SV39 + 0x80000) TRAPFRAME =
      [0x80000000 + 8 * 255; 0x80001000 + 8 * 511; 0x80002000 + 8 * 510]) as -> by (by vm_compute).
    intros a Ha. set_unfold in Ha. lia.
Qed.


(* ------------------------------------------------------------------ *)
(** ** Switching kernel threads *)

(** The registers of [struct context]. *)
Definition ctx_regs : list (reg * Z) := [
  (ra, 0); (sp, 8); (s0, 16); (s1, 24); (s2, 32); (s3, 40); (s4, 48); (s5, 56); (s6, 64); (s7, 72); (s8, 80); (s9, 88);
  (s10, 96); (s11, 104)].
Abbreviation CTX_SIZE := 112%Z.

Lemma swtch_code_eq : swtch_code = saves a0 ctx_regs ++ loads a1 ctx_regs.
Proof. reflexivity. Qed.

Lemma ctx_slots r o : (r, o) ∈ ctx_regs -> slot CTX_SIZE o /\ r <> a0 /\ r <> a1 /\ r <> zero.
Proof.
  intros Hin. destruct (slots_ok_spec CTX_SIZE a0 ctx_regs eq_refl r o Hin) as [Hs H0].
  split_and!; [done|done|by apply (slots_ok_spec CTX_SIZE a1 ctx_regs eq_refl r o)|by apply (slots_ok_spec CTX_SIZE zero ctx_regs eq_refl r o)].
Qed.
Lemma ctx_nodup : NoDup (map fst ctx_regs) /\ NoDup (map snd ctx_regs).
Proof. split; apply (bool_decide_unpack _); vm_compute; exact I. Qed.

(** The two arguments of [swtch]: contexts in memory that are apart, and whose
    page-table entries are apart from the first. *)
Definition swtch_args (h : hart) (old new : Z) : Prop :=
  window (hmem h) (mode h) (csrs h satp) (rd h a0) CTX_SIZE old /\
  window (hmem h) (mode h) (csrs h satp) (rd h a1) CTX_SIZE new /\
  (old + CTX_SIZE <= new \/ new + CTX_SIZE <= old) /\
  forall o a, 0 <= o < CTX_SIZE -> a ∈ translate_reads (hmem h) (mode h) (csrs h satp) (rd h a1 + o) -> a + 8 <= old \/ old + CTX_SIZE <= a.

#[local] Opaque load store translate.
Lemma swtch_spec h old new :
  swtch_args h old new -> (forall r, 0 <= rd h r < 2 ^ 64) ->
  exists h1, swtch h = Some (h1, load64 (hmem h) new) /\
    (forall r o, (r, o) ∈ ctx_regs -> rd h1 r = load64 (hmem h) (new + o) /\ load64 (hmem h1) (old + o) = rd h r) /\
    (forall r, r ∉ map fst ctx_regs -> rd h1 r = rd h r) /\
    (forall a, a + 8 <= old \/ old + CTX_SIZE <= a -> load64 (hmem h1) a = load64 (hmem h) a) /\
    mode h1 = mode h /\ csrs h1 = csrs h.
Proof.
  intros (Ho & Hn & Hd & Hr) Hw. unfold swtch. rewrite swtch_code_eq.
  erewrite exec_app by (apply (exec_saves a0 ctx_regs h CTX_SIZE old Ho); intros r o Hin; by apply (ctx_slots r)).
  set (m1 := saved _ _ _ _).
  assert (forall a, a + 8 <= old \/ old + CTX_SIZE <= a -> load64 m1 a = load64 (hmem h) a) as Hout.
  { intros a Ha. apply (saved_out _ _ _ _ CTX_SIZE); [|done]. intros r o Hin. by apply (ctx_slots r). }
  assert (forall r o, (r, o) ∈ ctx_regs -> load64 m1 (old + o) = rd h r) as Hin.
  { intros r o Hi. apply saved_in; [done|apply ctx_nodup| |done]. intros r' o' [(_ & _ & ?) _]%ctx_slots. done. }
  assert (window m1 (mode h) (csrs h satp) (rd h a1) CTX_SIZE new) as Hn1.
  { destruct Hn as [Hv Hn]. split; [done|]. intros o Ho' H8. destruct (Hn o Ho' H8) as [Ht Hrd].
    assert (forall a, a ∈ translate_reads (hmem h) (mode h) (csrs h satp) (rd h a1 + o) -> load64 m1 a = load64 (hmem h) a) as He
      by (intros a Ha; by eapply Hout, Hr).
    destruct (translate_ext _ m1 _ _ false _ He) as [_ Er]. split; [|by rewrite Er].
    intros w. destruct (translate_ext _ m1 _ _ w _ He) as [-> _]. apply Ht. }
  clearbody m1. rewrite (exec_loads a1 ctx_regs (wmem m1 h) CTX_SIZE new); [|exact Hn1|intros r o Hi; by apply ctx_slots in Hi as (? & ? & ? & ?)].
  set (f := loaded _ _ _ _).
  assert (forall r o, (r, o) ∈ ctx_regs -> f r = load64 (hmem h) (new + o)) as Hf.
  { intros r o Hi. unfold f. rewrite (loaded_in _ _ _ _ r o Hi) by apply ctx_nodup. apply Hout.
    destruct (ctx_slots r o Hi) as [(? & ? & _) _]. lia. }
  assert (forall r, r ∉ map fst ctx_regs -> f r = regs h r) as Hf' by (intros r Hn'; by apply loaded_out).
  clearbody f. eexists. split; [unfold ret, rd; cbn; rewrite (Hf ra 0 (list_elem_of_here _ _)), Z.add_0_r; reflexivity|].
  split_and!; try done.
  - intros r o Hi. split; [|by apply Hin]. unfold rd. cbn. rewrite decide_False; [by apply Hf|]. by apply (ctx_slots r o).
  - intros r Hn'. unfold rd. cbn. by rewrite Hf'.
Qed.

(** C27: [swtch(old, new)] continues the thread whose registers are in [new], and
    the thread that called it continues, when someone later switches to [old],
    after its call with its stack pointer and all its callee-saved registers. *)
Theorem swtch_resumes h old new h2 old2 :
  swtch_args h old new -> (forall r, 0 <= rd h r < 2 ^ 64) -> swtch_args h2 old2 old -> (forall r, 0 <= rd h2 r < 2 ^ 64) ->
  exists h1, swtch h = Some (h1, load64 (hmem h) new) /\
    (forall r o, (r, o) ∈ ctx_regs -> rd h1 r = load64 (hmem h) (new + o)) /\ (forall r, r ∉ map fst ctx_regs -> rd h1 r = rd h r) /\
    ((forall o, 0 <= o < CTX_SIZE -> load64 (hmem h2) (old + o) = load64 (hmem h1) (old + o)) ->
     exists h3, swtch h2 = Some (h3, rd h ra) /\ forall r, r ∈ map fst ctx_regs -> rd h3 r = rd h r).
Proof.
  intros Ha Hr Ha2 Hr2. destruct (swtch_spec h old new Ha Hr) as (h1 & E & Hc & Hother & _ & _ & _). exists h1.
  split; [done|]. split; [intros r o Hi; by apply Hc|]. split; [done|]. intros Hkeep.
  destruct (swtch_spec h2 old2 old Ha2 Hr2) as (h3 & E3 & Hc3 & _). exists h3.
  assert (forall r o, (r, o) ∈ ctx_regs -> load64 (hmem h2) (old + o) = rd h r) as Hs.
  { intros r o Hi. destruct (ctx_slots r o Hi) as [(? & ? & _) _]. rewrite Hkeep by lia. by apply Hc. }
  split.
  - rewrite E3. rewrite <- (Hs ra 0 (list_elem_of_here _ _)), Z.add_0_r. done.
  - intros r ([r' o] & -> & Hi)%list_elem_of_fmap. cbn. rewrite <- (Hs r' o Hi). by apply Hc3.
Qed.
#[local] Transparent load store translate.

Lemma bare_window m p s va n : paging p s = false -> 0 <= va -> va mod 8 = 0 -> va + n <= 2 ^ 64 -> window m p s va n va.
Proof.
  intros Hp H0 H8 Hn. split; [done|]. intros o _ _. unfold translate, translate_reads. rewrite Hp. set_solver.
Qed.

Lemma bare_swtch_args h old new :
  paging (mode h) (csrs h satp) = false -> rd h a0 = old -> rd h a1 = new -> 0 <= old /\ old mod 8 = 0 /\ old + CTX_SIZE <= 2 ^ 64 ->
  0 <= new /\ new mod 8 = 0 /\ new + CTX_SIZE <= 2 ^ 64 -> old + CTX_SIZE <= new \/ new + CTX_SIZE <= old -> swtch_args h old new.
Proof.
  intros Hp <- <- (? & ? & ?) (? & ? & ?) Hd. split_and!; [by apply bare_window..|done|].
  intros o a _. unfold translate_reads. rewrite Hp. set_solver.
Qed.

(** A thread with context 0x1000 switches to 0x2000; then 0x3000 switches back. *)
Definition ex_thread (m : mem) (old new : Z) : hart :=
  mkhart (fun r => if decide (r = a0) then old else if decide (r = a1) then new else 5) (fun _ => 0) Supervisor m.
Definition ex_h : hart := ex_thread (fun _ => 0) 0x1000 0x2000.
Definition ex_h2 : hart := ex_thread (match swtch ex_h with Some (h, _) => hmem h | None => fun _ => 0 end) 0x3000 0x1000.

Lemma ex_thread_word m old new r : 0 <= old < 2 ^ 64 -> 0 <= new < 2 ^ 64 -> 0 <= rd (ex_thread m old new) r < 2 ^ 64.
Proof. intros. unfold rd. cbn. repeat case_decide; lia. Qed.

Lemma swtch_resumes_witness :
  exists h1, swtch ex_h = Some (h1, 0) /\ exists h3, swtch ex_h2 = Some (h3, 5) /\ rd h3 s11 = 5.
Proof.
  destruct (swtch_resumes ex_h 0x1000 0x2000 ex_h2 0x3000) as (h1 & E & _ & _ & Hres).
  - apply bare_swtch_args; (done || lia).
  - intros r. by apply ex_thread_word.
  - apply bare_swtch_args; (done || lia).
  - intros r. by apply ex_thread_word.
  - exists h1. split; [rewrite E; reflexivity|].
    destruct Hres as (h3 & E3 & Hr3); [|exists h3; split; [exact E3|]].
    + intros o _. unfold ex_h2. cbn [hmem ex_thread]. by rewrite E.
    + rewrite Hr3; [done|]. apply (bool_decide_unpack _). vm_compute. exact I.
Defined.

(* ------------------------------------------------------------------ *)
(** ** Traps in the kernel *)

Definition kv_saves : list (reg * Z) := [
  (ra, 0); (gp, 16); (tp, 24); (t0, 32); (t1, 40); (t2, 48); (a0, 72); (a1, 80); (a2, 88); (a3, 96); (a4, 104);
  (a5, 112); (a6, 120); (a7, 128); (t3, 216); (t4, 224); (t5, 232); (t6, 240)].
Definition kv_loads : list (reg * Z) := [
  (ra, 0); (gp, 16); (t0, 32); (t1, 40); (t2, 48); (a0, 72); (a1, 80); (a2, 88); (a3, 96); (a4, 104);
  (a5, 112); (a6, 120); (a7, 128); (t3, 216); (t4, 224); (t5, 232); (t6, 240)].
Definition callee_saved : list reg := [sp; s0; s1; s2; s3; s4; s5; s6; s7; s8; s9; s10; s11].
Abbreviation KV_SIZE := 256%Z.

Lemma kv_slots r o : (r, o) ∈ kv_saves -> slot KV_SIZE o /\ r <> sp.
Proof. by apply slots_ok_spec. Qed.
Lemma kv_load_slots r o : (r, o) ∈ kv_loads -> slot KV_SIZE o /\ r <> sp.
Proof. by apply slots_ok_spec. Qed.
Lemma kv_loads_saved r o : (r, o) ∈ kv_loads -> (r, o) ∈ kv_saves.
Proof. intros Hin. unfold kv_loads in Hin. unfold kv_saves. set_unfold. tauto. Qed.
Lemma kv_regs r : r = zero \/ r = tp \/ r ∈ callee_saved \/ exists o, (r, o) ∈ kv_loads.
Proof.
  destruct r; (by left) || (right; by left) || (right; right; left; apply (bool_decide_unpack _); vm_compute; exact I) ||
    (right; right; right; eexists; unfold kv_loads; repeat (apply list_elem_of_here || apply list_elem_of_further)).
Qed.
Lemma kv_nodup : NoDup (map fst kv_loads) /\ NoDup (map snd kv_saves).
Proof. split; apply (bool_decide_unpack _); vm_compute; exact I. Qed.
Lemma callee_not_loaded r : r ∈ callee_saved -> r ∉ map fst kv_loads.
Proof.
  intros Hr. assert (Forall (fun r => r ∉ map fst kv_loads) callee_saved) as Hf by (apply (bool_decide_unpack _); vm_compute; exact I).
  rewrite Forall_forall in Hf. by apply Hf.
Qed.

(** A C function keeps the calling convention: the callee-saved registers and
    the memory of its caller's frame. *)
Definition c_function (f : hart -> option hart) (pa : Z) : Prop :=
  forall g, mode g = Supervisor -> window (hmem g) Supervisor (csrs g satp) (rd g sp) KV_SIZE pa ->
    exists g', f g = Some g' /\ mode g' = Supervisor /\ (forall r, r ∈ callee_saved -> rd g' r = rd g r) /\
      (forall o, 0 <= o < KV_SIZE -> load64 (hmem g') (pa + o) = load64 (hmem g) (pa + o)) /\
      window (hmem g') Supervisor (csrs g' satp) (rd g sp) KV_SIZE pa.

#[local] Opaque load store translate.
Lemma kernelvec_save_spec h pa :
  256 <= rd h sp < 2 ^ 64 -> mode h = Supervisor -> window (hmem h) Supervisor (csrs h satp) (rd h sp - 256) KV_SIZE pa ->
  (forall r, 0 <= rd h r < 2 ^ 64) ->
  exists g, exec kernelvec_save h = Some g /\ rd g sp = rd h sp - 256 /\ mode g = Supervisor /\ csrs g = csrs h /\
    window (hmem g) Supervisor (csrs g satp) (rd g sp) KV_SIZE pa /\ (forall r, r <> sp -> rd g r = rd h r) /\
    forall r o, (r, o) ∈ kv_saves -> load64 (hmem g) (pa + o) = rd h r.
Proof.
  intros Hsp Hm Hw Hr. set (h1 := wr sp (rd h sp - 256) h).
  change kernelvec_save with ([Addi sp sp (-256)] ++ saves sp kv_saves). rewrite (exec_app _ _ h h1).
  2:{ cbn [exec exec1]. unfold h1. replace (rd h sp + -256) with (rd h sp - 256) by lia. by rewrite u64_small by lia. }
  assert (rd h1 sp = rd h sp - 256) as Es by (by apply rd_wr_eq).
  rewrite (exec_saves sp kv_saves h1 KV_SIZE pa); [|rewrite Es; cbn [h1 mode wr csrs hmem]; by rewrite Hm|intros r o Hin; by apply (kv_slots r)].
  set (m1 := saved _ _ _ _). assert (forall r, r <> sp -> rd h1 r = rd h r) as Er by (intros r Hne; by apply rd_wr_ne).
  assert (forall r o, (r, o) ∈ kv_saves -> load64 m1 (pa + o) = rd h r) as Hs.
  { intros r o Hi. destruct (kv_slots r o Hi) as [_ Hne]. rewrite <- (Er r Hne). apply saved_in; [done|apply kv_nodup| |by rewrite Er].
    intros r' o' [(_ & _ & ?) _]%kv_slots. done. }
  assert (window m1 Supervisor (csrs h satp) (rd h sp - 256) KV_SIZE pa) as Hw1.
  { apply (window_mem (hmem h)); [|done]. intros a Ha. apply (saved_out _ _ _ _ KV_SIZE); [|done].
    intros r o Hin. by apply (kv_slots r). }
  clearbody m1. eexists. split; [reflexivity|]. change (rd (wmem m1 h1)) with (rd h1). rewrite Es. by split_and!.
Qed.

Lemma kernelvec_restore_spec g pa :
  0 <= rd g sp < 2 ^ 64 - 256 -> mode g = Supervisor -> window (hmem g) Supervisor (csrs g satp) (rd g sp) KV_SIZE pa ->
  exists h, exec kernelvec_restore g = Some h /\ rd h sp = rd g sp + 256 /\ csrs h = csrs g /\
    (forall r o, (r, o) ∈ kv_loads -> rd h r = load64 (hmem g) (pa + o)) /\
    forall r, r ∈ callee_saved -> r <> sp -> rd h r = rd g r.
Proof.
  intros Hsp Hm Hw. change kernelvec_restore with (loads sp kv_loads ++ [Addi sp sp 256]).
  erewrite exec_app by (apply (exec_loads sp kv_loads g KV_SIZE pa); [by rewrite Hm|apply kv_load_slots]).
  set (f := loaded _ _ _ _).
  assert (forall r o, (r, o) ∈ kv_loads -> f r = load64 (hmem g) (pa + o)) as Hf by (intros r o Hi; apply loaded_in; [done|apply kv_nodup]).
  assert (forall r, r ∈ callee_saved -> f r = regs g r) as Hc by (intros r Hi; by apply loaded_out, callee_not_loaded).
  clearbody f. cbn [exec exec1].
  assert (rd (wregs f g) sp = rd g sp) as -> by (apply Hc; apply list_elem_of_here).
  rewrite u64_small by lia. eexists. split; [reflexivity|]. split_and!; try done.
  - intros r o Hi. destruct (kv_load_slots r o Hi) as [_ Hne]. rewrite rd_wr_ne by done. rewrite <- (Hf r o Hi).
    unfold rd. rewrite decide_False; [done|]. by apply (slots_ok_spec KV_SIZE zero kv_loads eq_refl r o).
  - intros r Hi Hne. rewrite rd_wr_ne by done. unfold rd. case_decide; [done|]. by apply Hc.
Qed.

(** C28: A trap taken in the kernel is transparent to the interrupted code: when
    [kerneltrap] keeps the calling convention and restores [sepc] and [sstatus],
    the code continues where it was, in supervisor mode, with its interrupts
    enabled as before and all registers but [tp], which holds the number of the
    hart it continues on. *)
Theorem kernelvec_transparent kerneltrap h pc cause tval pa :
  mode h = Supervisor -> 256 <= rd h sp < 2 ^ 64 -> (forall r, 0 <= rd h r < 2 ^ 64) ->
  window (hmem h) Supervisor (csrs h satp) (rd h sp - 256) KV_SIZE pa -> c_function kerneltrap pa ->
  (forall g g', kerneltrap g = Some g' -> csrs g' sepc = csrs g sepc /\ csrs g' mstatus = csrs g mstatus) ->
  exists h3, kernelvec kerneltrap (take_trap pc cause tval h).1 = Some (h3, pc) /\ mode h3 = Supervisor /\
    Z.testbit (csrs h3 mstatus) SIE_BIT = Z.testbit (csrs h mstatus) SIE_BIT /\ forall r, r <> tp -> rd h3 r = rd h r.
Proof.
  intros Hm Hsp Hr Hw Hk Hres. set (h0 := (take_trap pc cause tval h).1).
  destruct (take_trap_bits pc cause tval h) as (_ & Hspp & Hspie). rewrite Hm in Hspp. fold h0 in Hspp, Hspie.
  destruct (kernelvec_save_spec h0 pa) as (g & E & Eg & Hmg & Hcg & Hwg & Hrg & Hsv); [exact Hsp|done|exact Hw|exact Hr|].
  destruct (Hk g Hmg Hwg) as (g' & E' & Hm' & Hcs & Hfr & Hw'). destruct (Hres g g' E') as [Hpc Hst].
  assert (rd g' sp = rd g sp) as Hsp' by (apply Hcs; apply list_elem_of_here).
  assert (rd g sp = rd h sp - 256) as Eg' by (rewrite Eg; done).
  destruct (kernelvec_restore_spec g' pa) as (h1 & E1 & Es1 & Hc1 & Hl1 & Hcl1); [lia|done|by rewrite Hsp'|].
  unfold kernelvec. rewrite E, E', E1. exists (sret h1).1.
  assert (csrs h1 mstatus = csrs h0 mstatus) as Hst1 by (by rewrite Hc1, Hst, Hcg).
  split_and!.
  - unfold sret. cbn [fst]. by rewrite Hc1, Hpc, Hcg.
  - unfold sret. cbn [fst mode wmode]. by rewrite Hst1, Hspp.
  - rewrite sret_bits, Hst1. exact Hspie.
  - intros r Htp. change (rd (sret h1).1 r) with (rd h1 r). change (rd h r) with (rd h0 r).
    destruct (kv_regs r) as [->|[->|[Hi|[o Hi]]]]; [done|done| |].
    + destruct (decide (r = sp)) as [->|Hne]; [rewrite Es1, Hsp', Eg; lia|]. by rewrite Hcl1, Hcs, Hrg.
    + destruct (kv_load_slots r o Hi) as [(? & ? & _) _]. rewrite (Hl1 r o Hi), Hfr by lia. by apply Hsv, kv_loads_saved.
Qed.
#[local] Transparent load store translate.

(** A handler that only changes [a0], for code with its stack at 0x2000. *)
Definition ex_handler (g : hart) : option hart := Some (wr a0 99 g).
Definition ex_kernel : hart :=
  mkhart (fun r => if decide (r = sp) then 0x2000 else 3) (fun _ => 0) Supervisor (fun _ => 0).

Lemma kernelvec_transparent_witness :
  exists h3, kernelvec ex_handler (take_trap 0x100 (2 ^ 63 + 5) 0 ex_kernel).1 = Some (h3, 0x100) /\ rd h3 a0 = 3 /\ rd h3 sp = 0x2000.
Proof.
  destruct (kernelvec_transparent ex_handler ex_kernel 0x100 (2 ^ 63 + 5) 0 0x1F00) as (h3 & E & _ & _ & Hr).
  - done.
  - by vm_compute.
  - intros r. unfold rd. cbn. repeat case_decide; lia.
  - apply bare_window; by vm_compute.
  - intros g Hm Hw. exists (wr a0 99 g). split_and!; try done. intros r Hi. apply rd_wr_ne. intros ->.
    revert Hi. apply (bool_decide_unpack (~ _)). vm_compute. exact I.
  - intros g g' [= <-]. done.
  - exists h3. split; [exact E|]. split; by rewrite Hr.
Defined.
