(* ===== verification/Start.v ===== *)
(** * Boot in machine mode ([entry.S], [start.c], the accessors of [riscv.h])

    Every hart starts at [_entry] in machine mode, takes its stack, and runs
    [start], which sets the control registers up and enters [main] in supervisor
    mode. *)

From S2P Require Import Prelude Machine KState Riscv.
Local Open Scope Z_scope.

(* ------------------------------------------------------------------ *)
(** ** [riscv.h] *)

Definition r_mhartid (h : hart) : Z := csr_read mhartid h.
Definition r_mstatus (h : hart) : Z := csr_read mstatus h.
Definition w_mstatus (v : Z) (h : hart) : hart := csr_write mstatus v h.
Definition w_mepc (v : Z) (h : hart) : hart := csr_write mepc v h.
Definition r_sstatus (h : hart) : Z := csr_read sstatus h.
Definition w_sstatus (v : Z) (h : hart) : hart := csr_write sstatus v h.
Definition r_sip (h : hart) : Z := csr_read sip h.
Definition w_sip (v : Z) (h : hart) : hart := csr_write sip v h.
Definition r_sie (h : hart) : Z := csr_read sie h.
Definition w_sie (v : Z) (h : hart) : hart := csr_write sie v h.
Definition r_mie (h : hart) : Z := csr_read mie h.
Definition w_mie (v : Z) (h : hart) : hart := csr_write mie v h.
Definition w_sepc (v : Z) (h : hart) : hart := csr_write sepc v h.
Definition r_sepc (h : hart) : Z := csr_read sepc h.
Definition r_medeleg (h : hart) : Z := csr_read medeleg h.
Definition w_medeleg (v : Z) (h : hart) : hart := csr_write medeleg v h.
Definition r_mideleg (h : hart) : Z := csr_read mideleg h.
Definition w_mideleg (v : Z) (h : hart) : hart := csr_write mideleg v h.
Definition w_stvec (v : Z) (h : hart) : hart := csr_write stvec v h.
Definition r_stvec (h : hart) : Z := csr_read stvec h.
Definition r_stimecmp (h : hart) : Z := csr_read stimecmp h.
Definition w_stimecmp (v : Z) (h : hart) : hart := csr_write stimecmp v h.
Definition r_menvcfg (h : hart) : Z := csr_read menvcfg h.
Definition w_menvcfg (v : Z) (h : hart) : hart := csr_write menvcfg v h.
Definition w_pmpcfg0 (v : Z) (h : hart) : hart := csr_write pmpcfg0 v h.
Definition w_pmpaddr0 (v : Z) (h : hart) : hart := csr_write pmpaddr0 v h.
Definition w_satp (v : Z) (h : hart) : hart := csr_write satp v h.
Definition r_satp (h : hart) : Z := csr_read satp h.
Definition r_scause (h : hart) : Z := csr_read scause h.
Definition r_stval (h : hart) : Z := csr_read stval h.
Definition w_mcounteren (v : Z) (h : hart) : hart := csr_write mcounteren v h.
Definition r_mcounteren (h : hart) : Z := csr_read mcounteren h.
Definition r_time (h : hart) : Z := csr_read time h.
Definition r_sp (h : hart) : Z := rd h sp.
Definition r_tp (h : hart) : Z := rd h tp.
Definition w_tp (v : Z) (h : hart) : hart := wr tp v h.
Definition r_ra (h : hart) : Z := rd h ra.

Abbreviation MSTATUS_MPP_MASK := (Z.shiftl 3 11).
Abbreviation MSTATUS_MPP_S := (Z.shiftl 1 11).
Abbreviation SIE_SEIE := (Z.shiftl 1 9).
Abbreviation SIE_STIE := (Z.shiftl 1 5).
Abbreviation MIE_STIE := (Z.shiftl 1 5).

(* ------------------------------------------------------------------ *)
(** ** The code *)

(** entry.S, up to [call start]. *)
Definition entry_code (stack0 : Z) : list instr := [
  La sp stack0; Li a0 (1024 * 4); Csrr a1 mhartid; Addi a1 a1 1; Mul a0 a0 a1; Add sp sp a0].

Definition timerinit (h : hart) : hart :=
  let h := w_mie (Z.lor (r_mie h) MIE_STIE) h in
  let h := w_menvcfg (Z.lor (r_menvcfg h) (Z.shiftl 1 63)) h in
  let h := w_mcounteren (Z.lor (r_mcounteren h) 2) h in
  w_stimecmp (u64 (r_time h + 1000000)) h.

(** [start], given the address of [main]: the hart and the next program counter. *)
Definition start (main : Z) (h : hart) : hart * Z :=
  let v := r_mstatus h in
  let v := Z.land v (Z.lnot MSTATUS_MPP_MASK) in
  let v := Z.lor v MSTATUS_MPP_S in
  let h := w_mstatus v h in
  let h := w_mepc main h in
  let h := w_satp 0 h in
  let h := w_medeleg 0xffff h in
  let h := w_mideleg 0xffff h in
  let h := w_sie (Z.lor (Z.lor (r_sie h) SIE_SEIE) SIE_STIE) h in
  let h := w_pmpaddr0 0x3fffffffffffff h in
  let h := w_pmpcfg0 0xf h in
  let h := timerinit h in
  let id := i32 (r_mhartid h) in
  let h := w_tp (u64 id) h in
  mret h.

Definition boot (stack0 main : Z) (h : hart) : option (hart * Z) :=
  match exec (entry_code stack0) h with Some h => Some (start main h) | None => None end.

(* ------------------------------------------------------------------ *)
(** ** Correctness *)

Lemma mpp_supervisor v : mpp (Z.lor (Z.land v (Z.lnot MSTATUS_MPP_MASK)) MSTATUS_MPP_S) = Supervisor.
Proof.
  unfold mpp. enough (Z.shiftr (Z.lor (Z.land v (Z.lnot MSTATUS_MPP_MASK)) MSTATUS_MPP_S) 11 mod 4 = 1) as -> by done.
  change 4 with (2 ^ 2). rewrite <- Z.land_ones, Z.shiftr_lor, Z.shiftr_land by lia.
  rewrite Z.land_lor_distr_l, <- Z.land_assoc. change (Z.land (Z.shiftr (Z.lnot MSTATUS_MPP_MASK) 11) (Z.ones 2)) with 0.
  by rewrite Z.land_0_r.
Qed.

(** Bits 9 and 5 of [sie] as [start] leaves it. *)
Lemma sie_bits v b : b = 9 \/ b = 5 ->
  Z.testbit (Z.land (Z.lor (mask_write v (Z.lor (Z.lor (Z.land v 0xffff) SIE_SEIE) SIE_STIE) 0xffff) MIE_STIE) 0xffff) b = true.
Proof.
  intros Hb. unfold mask_write. rewrite !Z.land_spec, !Z.lor_spec, !Z.land_spec, !Z.lor_spec.
  destruct Hb as [-> | ->]; change (Z.testbit 0xffff _) with true; rewrite !andb_true_r;
    [change (Z.testbit SIE_SEIE 9) with true|change (Z.testbit MIE_STIE 5) with true];
    by rewrite ?orb_true_r, ?orb_true_l, ?orb_true_r.
Qed.

(** The registers after [start]. *)
Lemma start_regs main h r : r <> tp -> rd (start main h).1 r = rd h r.
Proof. intros Hr. unfold start. cbn zeta. change (rd (wr tp (u64 (i32 (csrs h mhartid))) h) r = rd h r). by apply rd_wr_ne. Qed.
Lemma start_tp main h : rd (start main h).1 tp = u64 (i32 (csrs h mhartid)).
Proof. reflexivity. Qed.
Lemma start_pc main h : start main h = ((start main h).1, main).
Proof. rewrite (surjective_pairing (start main h)) at 1. f_equal. Qed.
Lemma start_mode main h : mode (start main h).1 = Supervisor.
Proof. apply mpp_supervisor. Qed.
Lemma start_sie main h :
  csr_read sie (start main h).1 =
  Z.land (Z.lor (mask_write (csrs h mie) (Z.lor (Z.lor (Z.land (csrs h mie) 0xffff) SIE_SEIE) SIE_STIE) 0xffff) MIE_STIE) 0xffff.
Proof. reflexivity. Qed.
Lemma start_csrs main h :
  let c := csrs (start main h).1 in
  c satp = 0 /\ c medeleg = 0xffff /\ c mideleg = 0xffff /\ c menvcfg = Z.lor (csrs h menvcfg) (Z.shiftl 1 63) /\
  c mcounteren = Z.lor (csrs h mcounteren) 2 /\ c stimecmp = u64 (csrs h time + 1000000) /\ c pmpcfg0 = 0xf /\
  c pmpaddr0 = 0x3fffffffffffff.
Proof. cbv zeta. split_and!; reflexivity. Qed.

Lemma entry_spec stack0 h :
  0 <= csrs h mhartid < Z.of_nat NCPU -> 0 <= stack0 -> stack0 + 4096 * Z.of_nat NCPU < 2 ^ 64 ->
  exists h1, exec (entry_code stack0) h = Some h1 /\ csrs h1 = csrs h /\ rd h1 sp = stack0 + 4096 * csrs h mhartid + 4096.
Proof.
  intros Hi Hs Hn. eexists. split; [reflexivity|]. split; [done|].
  change (u64 (stack0 + u64 (1024 * 4 * u64 (csrs h mhartid + 1))) = stack0 + 4096 * csrs h mhartid + 4096).
  set (i := csrs h mhartid) in *. clearbody i.
  rewrite (u64_small (i + 1)), (u64_small (1024 * 4 * (i + 1))), u64_small by lia. lia.
Qed.

(** C33: Boot: every hart enters [main] in supervisor mode without paging, with
    its number in [tp] and a stack of its own of 4096 bytes inside [stack0];
    exceptions and interrupts go to supervisor mode, external and timer
    interrupts are enabled, the timer is armed, and supervisor mode may access
    all of memory. *)
Theorem boot_enters_main stack0 main h :
  mode h = MachineMode -> 0 <= csrs h mhartid < Z.of_nat NCPU -> 0 <= stack0 -> stack0 + 4096 * Z.of_nat NCPU < 2 ^ 64 ->
  let i := csrs h mhartid in
  exists h', boot stack0 main h = Some (h', main) /\ mode h' = Supervisor /\ rd h' tp = i /\
    rd h' sp = stack0 + 4096 * i + 4096 /\ csrs h' satp = 0 /\
    csrs h' medeleg = 0xffff /\ csrs h' mideleg = 0xffff /\
    Z.testbit (csr_read sie h') 9 = true /\ Z.testbit (csr_read sie h') 5 = true /\
    Z.testbit (csrs h' menvcfg) 63 = true /\ Z.testbit (csrs h' mcounteren) 1 = true /\
    csrs h' stimecmp = u64 (csrs h time + 1000000) /\ csrs h' pmpcfg0 = 0xf /\ csrs h' pmpaddr0 = 0x3fffffffffffff.
Proof.
  intros Hm Hi Hs Hn i. destruct (entry_spec stack0 h Hi Hs Hn) as (h1 & E & Hc & Hsp). fold i in Hsp.
  exists (start main h1).1. unfold boot. rewrite E, start_sie, start_tp, start_regs, start_mode by done.
  destruct (start_csrs main h1) as (-> & -> & -> & -> & -> & -> & -> & ->). rewrite !Hc. fold i.
  split_and!; [exact (f_equal Some (start_pc main h1))|done| |exact Hsp|done|done|done| | | | |done|done|done].
  - rewrite i32_small, u64_small; unfold i in *; lia.
  - apply sie_bits. by left.
  - apply sie_bits. by right.
  - by rewrite Z.lor_spec, orb_true_r.
  - by rewrite Z.lor_spec, orb_true_r.
Qed.

Definition ex_reset : hart := mkhart (fun _ => 0) (fun c => if decide (c = mhartid) then 2 else 0) MachineMode (fun _ => 0).

Lemma boot_enters_main_witness :
  exists h', boot 0x80008000 0x80000f00 ex_reset = Some (h', 0x80000f00) /\ rd h' tp = 2 /\ rd h' sp = 0x8000B000.
Proof.
  destruct (boot_enters_main 0x80008000 0x80000f00 ex_reset) as (h' & E & _ & Ht & Hs & _); [done|by vm_compute..|].
  exists h'. split; [exact E|]. split; [exact Ht|]. rewrite Hs. reflexivity.
Defined.
