(* ===== verification/Sh.v ===== *)
(** * The shell's parser ([user/sh.c])

    A pointer into the line is the rest of the text from there to its end [es];
    the pointers a command keeps are offsets into the line. The nodes of a command
    are allocated by [malloc], which is assumed not to fail here. *)

From S2P Require Import Prelude Machine Strings Sysfile.
Local Open Scope Z_scope.

Abbreviation MAXARGS := 10%nat.

(** A command whose strings are of type [S]. *)
Inductive cmd (S : Type) : Type :=
| EXEC (argv : list S)
| REDIR (c : cmd S) (file : S) (mode fd : Z)
| PIPE (left right : cmd S)
| LIST (left right : cmd S)
| BACK (c : cmd S).
Arguments EXEC {S}. Arguments REDIR {S}. Arguments PIPE {S}. Arguments LIST {S}. Arguments BACK {S}.

(** The constructors. *)
Abbreviation execcmd := (EXEC []).
Abbreviation redircmd c file mode fd := (REDIR c file mode fd).
Abbreviation pipecmd l r := (PIPE l r).
Abbreviation listcmd l r := (LIST l r).
Abbreviation backcmd c := (BACK c).

(** A string of the line that is being parsed: where it starts ([argv[i]],
    [file]) and where it ends ([eargv[i]], [efile]). *)
Definition span : Type := nat * nat.

(** [panic] prints a message and exits; [Loop] is a parse that did not end. *)
Inductive presult (A : Type) : Type :=
| Ok (a : A)
| Syntax (msg : string)
| Loop.
Arguments Ok {A}. Arguments Syntax {A}. Arguments Loop {A}.

Definition pbind {A B} (m : presult A) (k : A -> presult B) : presult B :=
  match m with Ok a => k a | Syntax e => Syntax e | Loop => Loop end.
Declare Scope parse_scope.
Notation "'let!' p := m 'in' k" := (pbind m (fun p => k)) (at level 10, p pattern, k at level 200) : parse_scope.
Local Open Scope parse_scope.

(* ------------------------------------------------------------------ *)
(** ** Tokens *)

Definition whitespace : list Z := [32; 9; 13; 10; 11].
Definition symbols : list Z := [60; 124; 62; 38; 59; 40; 41].
Abbreviation LT := 60%Z.
Abbreviation GT := 62%Z.
Abbreviation BAR := 124%Z.
Abbreviation AMP := 38%Z.
Abbreviation SEMI := 59%Z.
Abbreviation LPAR := 40%Z.
Abbreviation RPAR := 41%Z.
Abbreviation PLUS := 43%Z.
Abbreviation WORD := 97%Z.

(** [strchr(toks, c)] for a character that is not NUL. *)
Definition has_chr (toks : list Z) (c : Z) : bool := bool_decide (c ∈ toks).
Definition word_chr (c : Z) : bool := negb (has_chr whitespace c) && negb (has_chr symbols c).

Fixpoint skip (p : Z -> bool) (s : list Z) : list Z :=
  match s with
  | [] => []
  | c :: s' => if p c then skip p s' else s
  end.

(** The token's type, where it starts and ends, and [*ps] after it. *)
Definition gettoken (s : list Z) : Z * list Z * list Z * list Z :=
  let q := skip (has_chr whitespace) s in
  let '(r, e) :=
    match q with
    | [] => (0, [])
    | c :: s =>
        if has_chr [BAR; LPAR; RPAR; SEMI; AMP; LT] c then (c, s)
        else if c =? GT then
          match s with
          | c' :: s' => if c' =? GT then (PLUS, s') else (GT, s)
          | [] => (GT, [])
          end
        else (WORD, skip word_chr q)
    end in
  (r, q, e, skip (has_chr whitespace) e).

Definition peek (s : list Z) (toks : list Z) : bool * list Z :=
  let s := skip (has_chr whitespace) s in
  (match s with [] => false | c :: _ => has_chr toks c end, s).

(* ------------------------------------------------------------------ *)
(** ** The parser *)

Section Parse.
(** The length of the line. *)
Context (n : nat).

Definition off (s : list Z) : nat := n - length s.

Definition redir_mode (tok : Z) : Z * Z :=
  if tok =? LT then (O_RDONLY, 0)
  else if tok =? GT then (Z.lor (Z.lor O_WRONLY O_CREATE) O_TRUNC, 1)
  else (Z.lor O_WRONLY O_CREATE, 1).

Fixpoint redirs_loop (fuel : nat) (c : cmd span) (s : list Z) : presult (cmd span * list Z) :=
  match fuel with
  | O => Loop
  | S fuel =>
      let '(b, s) := peek s [LT; GT] in
      if b then
        let '(tok, _, _, s) := gettoken s in
        let '(t, q, eq, s) := gettoken s in
        if t =? WORD then
          let '(mode, fd) := redir_mode tok in
          redirs_loop fuel (redircmd c (off q, off eq) mode fd) s
        else Syntax "missing file for redirection"
      else Ok (c, s)
  end.
Definition parseredirs (c : cmd span) (s : list Z) : presult (cmd span * list Z) := redirs_loop (S (length s)) c s.

(** Stores into the [execcmd] that is inside of the redirections so far. *)
Fixpoint add_arg (a : span) (c : cmd span) : cmd span :=
  match c with
  | EXEC argv => EXEC (argv ++ [a])
  | REDIR c f mode fd => REDIR (add_arg a c) f mode fd
  | c => c
  end.

Fixpoint args_loop (fuel argc : nat) (c : cmd span) (s : list Z) : presult (cmd span * list Z) :=
  match fuel with
  | O => Loop
  | S fuel =>
      let '(b, s) := peek s [BAR; RPAR; AMP; SEMI] in
      if b then Ok (c, s)
      else
        let '(tok, q, eq, s) := gettoken s in
        if tok =? 0 then Ok (c, s)
        else if tok =? WORD then
          let c := add_arg (off q, off eq) c in
          if (MAXARGS <=? S argc)%nat then Syntax "too many args"
          else
            let! (c, s) := parseredirs c s in
            args_loop fuel (S argc) c s
        else Syntax "syntax"
  end.

Fixpoint back_loop (fuel : nat) (c : cmd span) (s : list Z) : presult (cmd span * list Z) :=
  match fuel with
  | O => Loop
  | S fuel =>
      let '(b, s) := peek s [AMP] in
      if b then let '(_, _, _, s) := gettoken s in back_loop fuel (backcmd c) s
      else Ok (c, s)
  end.

Fixpoint parseline (fuel : nat) (s : list Z) : presult (cmd span * list Z) :=
  match fuel with
  | O => Loop
  | S fuel =>
      let! (c, s) := parsepipe fuel s in
      let! (c, s) := back_loop (S (length s)) c s in
      let '(b, s) := peek s [SEMI] in
      if b then
        let '(_, _, _, s) := gettoken s in
        let! (r, s) := parseline fuel s in
        Ok (listcmd c r, s)
      else Ok (c, s)
  end
with parsepipe (fuel : nat) (s : list Z) : presult (cmd span * list Z) :=
  match fuel with
  | O => Loop
  | S fuel =>
      let! (c, s) := parseexec fuel s in
      let '(b, s) := peek s [BAR] in
      if b then
        let '(_, _, _, s) := gettoken s in
        let! (r, s) := parsepipe fuel s in
        Ok (pipecmd c r, s)
      else Ok (c, s)
  end
with parseexec (fuel : nat) (s : list Z) : presult (cmd span * list Z) :=
  match fuel with
  | O => Loop
  | S fuel =>
      let '(b, s) := peek s [LPAR] in
      if b then parseblock fuel s
      else
        let! (c, s) := parseredirs execcmd s in
        args_loop (S (length s)) 0 c s
  end
with parseblock (fuel : nat) (s : list Z) : presult (cmd span * list Z) :=
  match fuel with
  | O => Loop
  | S fuel =>
      let '(b, s) := peek s [LPAR] in
      if b then
        let '(_, _, _, s) := gettoken s in
        let! (c, s) := parseline fuel s in
        let '(b, s) := peek s [RPAR] in
        if b then let '(_, _, _, s) := gettoken s in parseredirs c s
        else Syntax "syntax - missing )"
      else Syntax "parseblock"
  end.
End Parse.

(** Writes a NUL at the end of every string of the command. *)
Fixpoint nulterminate (c : cmd span) (buf : list Z) : list Z :=
  match c with
  | EXEC argv => fold_left (fun buf a => <[a.2 := 0]> buf) argv buf
  | REDIR c f _ _ => <[f.2 := 0]> (nulterminate c buf)
  | PIPE l r => nulterminate r (nulterminate l buf)
  | LIST l r => nulterminate r (nulterminate l buf)
  | BACK c => nulterminate c buf
  end.

(** The command and the line it points into, NUL at the end included. *)
Definition parsecmd (fuel : nat) (s : list Z) : presult (cmd span * list Z) :=
  let! (c, s') := parseline (length s) fuel s in
  let '(_, s') := peek s' [] in
  match s' with
  | [] => Ok (c, nulterminate c (s ++ [0]))
  | _ :: _ => Syntax "syntax"
  end.

(** The C strings of a command. *)
Fixpoint cmd_map {A B} (f : A -> B) (c : cmd A) : cmd B :=
  match c with
  | EXEC argv => EXEC (map f argv)
  | REDIR c file mode fd => REDIR (cmd_map f c) (f file) mode fd
  | PIPE l r => PIPE (cmd_map f l) (cmd_map f r)
  | LIST l r => LIST (cmd_map f l) (cmd_map f r)
  | BACK c => BACK (cmd_map f c)
  end.
Definition strings (buf : list Z) (c : cmd span) : cmd (list Z) := cmd_map (fun a => cstr (drop a.1 buf)) c.

(* ------------------------------------------------------------------ *)
(** ** Every parse ends *)

Lemma skip_suffix p s : skip p s `suffix_of` s.
Proof. induction s as [|c s IH]; [done|]. cbn. destruct (p c); [|done]. by apply suffix_cons_r. Qed.

Lemma skip_skip p s : skip p (skip p s) = skip p s.
Proof. induction s as [|c s IH]; [done|]. cbn. destruct (p c) eqn:E; [done|]. cbn. by rewrite E. Qed.

Lemma skip_head p s c s' : skip p s = c :: s' -> p c = false.
Proof. induction s as [|d s IH]; [done|]. cbn. destruct (p d) eqn:E; [done|]. intros [= -> ->]. done. Qed.

Lemma skip_length p s : (length (skip p s) <= length s)%nat.
Proof. apply suffix_length, skip_suffix. Qed.

Lemma word_chr_sym c : has_chr whitespace c = false -> has_chr [BAR; LPAR; RPAR; SEMI; AMP; LT] c = false -> c <> GT -> word_chr c = true.
Proof.
  unfold word_chr, has_chr. intros -> Hs Hg. rewrite bool_decide_eq_false in Hs. cbn. rewrite negb_true_iff, bool_decide_eq_false.
  unfold symbols. set_solver.
Qed.

(** What [gettoken] reads. *)
Lemma gettoken_spec s :
  let '(tok, q, e, s') := gettoken s in
  q `suffix_of` s /\ e `suffix_of` q /\ s' `suffix_of` e /\
  (tok = 0 -> s' = []) /\ (q <> [] -> (length s' < length q)%nat) /\
  (tok = WORD -> e = skip word_chr q /\ exists c r, q = c :: r /\ word_chr c = true).
Proof.
  unfold gettoken. set (q := skip (has_chr whitespace) s). pose proof (skip_suffix (has_chr whitespace) s) as Hq. fold q in Hq.
  destruct q as [|c r] eqn:Eq; [by split_and!|].
  pose proof (skip_head _ _ _ _ Eq) as Hc.
  pose proof (fun l => suffix_length _ _ (skip_suffix (has_chr whitespace) l)) as Hl.
  destruct (has_chr [BAR; LPAR; RPAR; SEMI; AMP; LT] c) eqn:E1.
  { split_and!; try done; [by apply suffix_cons_r|apply skip_suffix|..].
    - intros ->. done.
    - intros _. specialize (Hl r). cbn. lia.
    - intros ->. done. }
  destruct (Z.eqb_spec c GT) as [->|Hg].
  { destruct r as [|c' r']; [by split_and!; try apply skip_suffix; try apply suffix_nil; cbn; intros; try lia|].
    destruct (Z.eqb_spec c' GT) as [->|Hg']; split_and!; try done; try apply skip_suffix.
    - by do 2 apply suffix_cons_r.
    - intros _. specialize (Hl r'). cbn. lia.
    - by apply suffix_cons_r.
    - intros _. specialize (Hl (c' :: r')). cbn in *. lia. }
  pose proof (word_chr_sym c Hc E1 Hg) as Hw. split_and!; try done; try apply skip_suffix.
  - intros _. specialize (Hl (skip word_chr (c :: r))). cbn [skip] in *. rewrite Hw in *. pose proof (skip_length word_chr r). cbn. lia.
  - intros _. split; [done|]. by exists c, r.
Qed.

(** The strings of a command, in the order of [nulterminate]. *)
Fixpoint cmd_spans {A} (c : cmd A) : list A :=
  match c with
  | EXEC argv => argv
  | REDIR c f _ _ => cmd_spans c ++ [f]
  | PIPE l r => cmd_spans l ++ cmd_spans r
  | LIST l r => cmd_spans l ++ cmd_spans r
  | BACK c => cmd_spans c
  end.

Definition word_at (text : list Z) (a : span) : list Z := take (a.2 - a.1) (drop a.1 text).

(** A word of the text: it is not empty, and ends where the text does or at a
    character that is no part of words. *)
Definition span_ok (text : list Z) (a : span) : Prop :=
  (a.1 < a.2 <= length text)%nat /\ Forall (fun c => word_chr c = true) (word_at text a) /\
  forall c, text !! a.2 = Some c -> word_chr c = false.

Section Safe.
Context (text : list Z).
Abbreviation n := (length text).

Lemma off_drop s : s `suffix_of` text -> drop (off n s) text = s.
Proof.
  intros [k Hk]. unfold off. rewrite Hk, length_app, Nat.add_sub. apply drop_app_length.
Qed.

Lemma skip_split p s : exists w, s = w ++ skip p s /\ Forall (fun c => p c = true) w.
Proof.
  induction s as [|c s (w & E & Hw)]; [by exists []|]. cbn. destruct (p c) eqn:Ec; [|by exists []].
  exists (c :: w). split; [cbn; by rewrite <- E|by constructor].
Qed.

Lemma word_at_off w r : w ++ r `suffix_of` text -> word_at text (off n (w ++ r), off n r) = w /\ (off n (w ++ r) + length w = off n r)%nat.
Proof.
  intros Hs. unfold word_at. cbn [fst snd]. rewrite off_drop by done. pose proof (suffix_length _ _ Hs) as Hl.
  unfold off. rewrite length_app in *. split; [|lia].
  replace (n - length r - (n - (length w + length r)))%nat with (length w) by lia. apply take_app_length.
Qed.

Lemma word_span s : s `suffix_of` text -> (exists c r, s = c :: r /\ word_chr c = true) -> span_ok text (off n s, off n (skip word_chr s)).
Proof.
  intros Hs (c & r & -> & Hc). destruct (skip_split word_chr (c :: r)) as (w & E & Hw).
  set (e := skip word_chr (c :: r)) in *. rewrite E in Hs |- *. destruct (word_at_off w e Hs) as [Hwa Hoff].
  assert (e `suffix_of` text) as He by (etrans; [|exact Hs]; by exists w).
  split_and!; cbn [fst snd].
  - assert (w <> []) as Hne. { intros ->. cbn in E. unfold e in E. cbn in E. rewrite Hc in E. pose proof (skip_length word_chr r).
      apply (f_equal length) in E. cbn in E. lia. }
    assert (0 < length w)%nat by (destruct w; [done|cbn; lia]). lia.
  - unfold off. lia.
  - by rewrite Hwa.
  - intros d Hd. rewrite <- (Nat.add_0_r (off n e)), <- lookup_drop, (off_drop e He) in Hd.
    destruct e as [|d' e'] eqn:Ee; [done|]. cbn in Hd. injection Hd as <-. by eapply skip_head.
Qed.

Definition spans_ok (c : cmd span) : Prop := Forall (span_ok text) (cmd_spans c).

(** A parse that ends, with strings of the text. *)
Definition good (s : list Z) (r : presult (cmd span * list Z)) : Prop :=
  match r with
  | Ok (c, s') => s' `suffix_of` s /\ spans_ok c
  | Syntax _ => True
  | Loop => False
  end.

Lemma good_weaken s s' r : s' `suffix_of` s -> good s' r -> good s r.
Proof. intros Hs. destruct r as [[c s'']| |]; cbn; [|done..]. intros [H1 H2]. split; [by etrans|done]. Qed.

Lemma good_bind s m k :
  good s m -> (forall c s', s' `suffix_of` s -> spans_ok c -> good s (k (c, s'))) -> good s (pbind m k).
Proof. destruct m as [[c s']| |]; cbn; [|done..]. intros [H1 H2] Hk. by apply Hk. Qed.

Lemma peek_suffix s toks : (peek s toks).2 `suffix_of` s.
Proof. apply skip_suffix. Qed.
Lemma peek_true s toks : (peek s toks).1 = true -> (peek s toks).2 <> [].
Proof. unfold peek. cbn. by destruct (skip _ s). Qed.

(** [gettoken] after a successful [peek]. *)
Lemma gettoken_step s :
  let '(tok, q, e, s') := gettoken s in
  s' `suffix_of` s /\ (tok <> 0 -> (length s' < length s)%nat) /\
  (s `suffix_of` text -> tok = WORD -> span_ok text (off n q, off n e)).
Proof.
  pose proof (gettoken_spec s) as H. destruct (gettoken s) as [[[tok q] e] s'] eqn:E. destruct H as (H1 & H2 & H3 & H4 & H5 & H6).
  split_and!.
  - by repeat (etrans; [eassumption|]).
  - intros Ht. apply suffix_length in H1. assert (q <> []) as Hq; [|specialize (H5 Hq); lia]. intros ->. apply Ht.
    unfold gettoken in E. destruct (skip (has_chr whitespace) s); cbn in E; [congruence|].
    repeat case_match; simplify_eq.
  - intros Hs [-> Hc]%H6. apply word_span; [by etrans|done].
Qed.

Local Ltac suf :=
  solve [done | eassumption
        | match goal with H : ?a `suffix_of` ?b |- ?a `suffix_of` _ => transitivity b; [exact H|suf] end].

Lemma gettoken_peek s toks :
  (peek s toks).1 = true -> let '(_, _, _, s') := gettoken (peek s toks).2 in s' `suffix_of` s /\ (length s' < length s)%nat.
Proof.
  intros Hp. pose proof (peek_true s toks Hp) as Hne. pose proof (peek_suffix s toks) as Hs. unfold peek in *. cbn [fst snd] in *.
  set (s1 := skip (has_chr whitespace) s) in *. pose proof (gettoken_spec s1) as H.
  destruct (gettoken s1) as [[[tok q] e] s'] eqn:E. destruct H as (H1 & H2 & H3 & _ & H5 & _).
  assert (q = s1) as ->. { unfold gettoken in E. unfold s1 in E. rewrite skip_skip in E. fold s1 in E. clearbody s1. repeat case_match; congruence. }
  specialize (H5 Hne). apply suffix_length in Hs as Hl. split; [suf|lia].
Qed.

Lemma redirs_good fuel c s : s `suffix_of` text -> spans_ok c -> (length s < fuel)%nat -> good s (redirs_loop n fuel c s).
Proof.
  revert c s. induction fuel as [|fuel IH]; intros c s Hs Hc Hf; [lia|]. cbn [redirs_loop].
  destruct (peek s [LT; GT]) as [b s1] eqn:Ep. pose proof (peek_suffix s [LT; GT]) as Hp. rewrite Ep in Hp. cbn in Hp.
  destruct b; [|by split]. pose proof (gettoken_step s1) as H1. destruct (gettoken s1) as [[[tok ?] ?] s2] eqn:E1.
  destruct H1 as (H1 & _ & _). pose proof (gettoken_step s2) as H2. destruct (gettoken s2) as [[[t q] e] s3] eqn:E2.
  destruct H2 as (H2 & H2l & H2w). destruct (Z.eqb_spec t WORD) as [->|]; [|done]. destruct (redir_mode tok) as [mode fd].
  assert (s2 `suffix_of` text) as Hs2 by (suf).
  apply (good_weaken s s3); [suf|]. apply IH.
  - suf.
  - unfold spans_ok. cbn. apply Forall_app. split; [done|]. constructor; [by apply H2w|done].
  - apply suffix_length in Hp, H1. specialize (H2l ltac:(done)). lia.
Qed.

Lemma parseredirs_good c s : s `suffix_of` text -> spans_ok c -> good s (parseredirs n c s).
Proof. intros Hs Hc. apply redirs_good; [done|done|lia]. Qed.

Lemma add_arg_spans a c : span_ok text a -> spans_ok c -> spans_ok (add_arg a c).
Proof.
  intros Ha. unfold spans_ok. induction c; cbn [add_arg cmd_spans]; intros Hc; try done.
  - apply Forall_app. by split; [|constructor].
  - apply Forall_app in Hc as [H1 H2]. apply Forall_app. by split; [apply IHc|].
Qed.

Lemma args_good fuel argc c s : s `suffix_of` text -> spans_ok c -> (length s < fuel)%nat -> good s (args_loop n fuel argc c s).
Proof.
  revert argc c s. induction fuel as [|fuel IH]; intros argc c s Hs Hc Hf; [lia|]. cbn [args_loop].
  set (toks := [BAR; RPAR; AMP; SEMI]). destruct (peek s toks) as [b s1] eqn:Ep.
  pose proof (peek_suffix s toks) as Hp. rewrite Ep in Hp. cbn in Hp. destruct b; [by split|].
  pose proof (gettoken_step s1) as H1. destruct (gettoken s1) as [[[tok q] e] s2] eqn:E1. destruct H1 as (H1 & H1l & H1w).
  assert (s2 `suffix_of` s) as Hs2 by (suf).
  destruct (Z.eqb_spec tok 0) as [->|Ht]; [by split|]. destruct (Z.eqb_spec tok WORD) as [->|]; [|done].
  case_match; [done|]. assert (span_ok text (off n q, off n e)) as Hq by (apply H1w; [suf|done]).
  apply (good_weaken s s2); [done|]. apply good_bind.
  - apply parseredirs_good; [suf|by apply add_arg_spans].
  - intros c' s3 Hs3 Hc'. apply (good_weaken s2 s3); [done|]. apply IH; [suf|done|].
    apply suffix_length in Hp, Hs3. specialize (H1l Ht). lia.
Qed.

Lemma back_good fuel c s : spans_ok c -> (length s < fuel)%nat -> good s (back_loop fuel c s).
Proof.
  revert c s. induction fuel as [|fuel IH]; intros c s Hc Hf; [lia|]. cbn [back_loop].
  pose proof (gettoken_peek s [AMP]) as Hg. pose proof (peek_suffix s [AMP]) as Hp. destruct (peek s [AMP]) as [b s1].
  cbn [fst snd] in *. destruct b; [|by split]. specialize (Hg eq_refl). destruct (gettoken s1) as [[[tok q] e] s2]. destruct Hg as [Hg Hl].
  apply (good_weaken s s2); [done|]. apply IH; [done|lia].
Qed.

(** A successful [peek] and the [gettoken] after it. *)
Local Ltac peeked s toks Hg Hl :=
  let Hp := fresh "Hp" in
  pose proof (gettoken_peek s toks) as Hg; pose proof (peek_suffix s toks) as Hp;
  let b := fresh "b" in let s1 := fresh "s" in destruct (peek s toks) as [b s1]; cbn [fst snd] in *;
  destruct b; [specialize (Hg eq_refl); let s2 := fresh "s" in destruct (gettoken s1) as [[[? ?] ?] s2]; destruct Hg as [Hg Hl]|clear Hg].

(** The four parsers; each level of a block uses four units of fuel. *)
Lemma parse_good fuel s : s `suffix_of` text ->
  ((4 * length s + 4 <= fuel)%nat -> good s (parseline n fuel s)) /\
  ((4 * length s + 3 <= fuel)%nat -> good s (parsepipe n fuel s)) /\
  ((4 * length s + 2 <= fuel)%nat -> good s (parseexec n fuel s)) /\
  ((4 * length s + 1 <= fuel)%nat -> good s (parseblock n fuel s)).
Proof.
  revert s. induction fuel as [|fuel IH]; intros s Hs; [split_and!; lia|].
  split_and!; intros Hf; cbn [parseline parsepipe parseexec parseblock].
  - apply good_bind; [apply IH; [done|lia]|]. intros c s1 Hs1 Hc.
    apply good_bind; [apply (good_weaken s s1); [done|]; by apply back_good; [|lia]|]. intros c2 s2 Hs2 Hc2.
    peeked s2 [SEMI] Hg Hl; [|split; [suf|done]].
    apply suffix_length in Hs2 as Hl2. apply (good_weaken s s3); [suf|]. apply good_bind.
    + apply IH; [suf|lia].
    + intros r s5 Hs5 Hr. split; [done|]. by apply Forall_app.
  - apply good_bind; [apply IH; [done|lia]|]. intros c s2 Hs2 Hc2.
    peeked s2 [BAR] Hg Hl; [|split; [suf|done]].
    apply suffix_length in Hs2 as Hl2. apply (good_weaken s s1); [suf|]. apply good_bind.
    + apply IH; [suf|lia].
    + intros r s5 Hs5 Hr. split; [done|]. by apply Forall_app.
  - pose proof (peek_suffix s [LPAR]) as Hp. destruct (peek s [LPAR]) as [b s1]. cbn [fst snd] in *.
    apply suffix_length in Hp as Hl. apply (good_weaken s s1); [done|]. destruct b; [apply IH; [suf|lia]|].
    apply good_bind; [apply parseredirs_good; [suf|by constructor]|].
    intros c s2 Hs2 Hc. apply (good_weaken s1 s2); [done|]. apply args_good; [suf|done|lia].
  - peeked s [LPAR] Hg Hl; [|done].
    apply (good_weaken s s1); [done|]. apply good_bind; [apply IH; [suf|lia]|]. intros c s3 Hs3 Hc.
    peeked s3 [RPAR] Hg3 Hl3; [|done]. apply (good_weaken s1 s4); [suf|]. apply parseredirs_good; [suf|done].
Qed.
End Safe.

(* ------------------------------------------------------------------ *)
(** ** The strings of a command *)

Lemma fold_insert_lookup (l : list span) (buf : list Z) i :
  fold_left (fun buf a => <[a.2 := 0]> buf) l buf !! i =
  if decide (i ∈ map snd l) then (if decide (i < length buf)%nat then Some 0 else None) else buf !! i.
Proof.
  revert buf. induction l as [|a l IH]; intros buf; [done|]. cbn [fold_left map]. rewrite IH, length_insert.
  destruct (decide (i ∈ map snd l)) as [Hi|Hi]; [by rewrite (decide_True (P := i ∈ a.2 :: map snd l)) by set_solver|].
  destruct (decide (i = a.2)) as [->|Hne].
  - rewrite (decide_True (P := a.2 ∈ a.2 :: map snd l)) by set_solver.
    case_decide; [by apply list_lookup_insert_eq|]. apply lookup_ge_None. rewrite length_insert. lia.
  - rewrite (decide_False (P := i ∈ a.2 :: map snd l)) by set_solver. by apply list_lookup_insert_ne.
Qed.

Lemma nulterminate_fold c buf : nulterminate c buf = fold_left (fun buf a => <[a.2 := 0]> buf) (cmd_spans c) buf.
Proof.
  revert buf. induction c as [a|c IH f mode fd|l IHl r IHr|l IHl r IHr|c IH]; intros buf; cbn [nulterminate cmd_spans]; try done;
    rewrite ?fold_left_app.
  - by rewrite IH.
  - by rewrite IHl, IHr.
  - by rewrite IHl, IHr.
Qed.

Lemma cstr_at w l q :
  (forall j, (j < length w)%nat -> l !! (q + j)%nat = w !! j) -> 0 ∉ w -> l !! (q + length w)%nat = Some 0 -> cstr (drop q l) = w.
Proof.
  revert q. induction w as [|c w IH]; intros q Hw H0 He.
  - cbn in He. rewrite Nat.add_0_r in He. by rewrite (drop_S _ _ _ He).
  - specialize (Hw 0%nat) as Hc. rewrite Nat.add_0_r in Hc. rewrite (drop_S _ c _ (Hc ltac:(cbn; lia))). cbn [cstr].
    unfold nz. rewrite (proj2 (Z.eqb_neq c 0)) by set_solver. cbn [negb]. f_equal. apply IH; [|set_solver|by rewrite <- He; f_equal; cbn; lia].
    intros j Hj. specialize (Hw (S j) ltac:(cbn; lia)). change ((c :: w) !! S j) with (w !! j) in Hw. rewrite <- Hw. f_equal. lia.
Qed.

Lemma word_at_lookup text a j : span_ok text a -> (j < a.2 - a.1)%nat -> word_at text a !! j = text !! (a.1 + j)%nat.
Proof. intros _ Hj. unfold word_at. by rewrite lookup_take_lt, lookup_drop. Qed.
Lemma word_at_length text a : span_ok text a -> length (word_at text a) = (a.2 - a.1)%nat.
Proof. intros [H _]. unfold word_at. rewrite length_take, length_drop. lia. Qed.

(** The ends of strings are not inside of strings, so each string is
    terminated where it ends. *)
Lemma nulterminate_string text c a :
  0 ∉ text -> Forall (span_ok text) (cmd_spans c) -> a ∈ cmd_spans c ->
  cstr (drop a.1 (nulterminate c (text ++ [0]))) = word_at text a.
Proof.
  intros H0 Hall Ha. rewrite nulterminate_fold. rewrite Forall_forall in Hall. pose proof (Hall a Ha) as Hok.
  pose proof Hok as ([Hlt Hle] & Hw & _). rewrite Forall_forall in Hw. pose proof (word_at_length text a Hok) as Hlen.
  apply cstr_at.
  - intros j Hj. rewrite Hlen in Hj. rewrite (word_at_lookup text a j Hok Hj), fold_insert_lookup.
    assert (a.1 + j < length text)%nat as Hin by lia. rewrite decide_False; [by apply lookup_app_l|].
    intros (b & Eb & Hb)%list_elem_of_fmap. destruct (Hall b Hb) as (_ & _ & Hend).
    destruct (lookup_lt_is_Some_2 text (a.1 + j) Hin) as [c' Hc']. rewrite Eb in Hc'. specialize (Hend c' Hc').
    assert (c' ∈ word_at text a) as Hc.
    { apply (list_elem_of_lookup_2 _ j). rewrite (word_at_lookup text a j Hok Hj). by rewrite Eb. }
    rewrite (Hw c' Hc) in Hend. done.
  - intros Hz. apply H0. unfold word_at in Hz. apply elem_of_take in Hz as (i & Hz & _). rewrite lookup_drop in Hz.
    by eapply list_elem_of_lookup_2.
  - rewrite Hlen, fold_insert_lookup. replace (a.1 + (a.2 - a.1))%nat with a.2 by lia.
    rewrite decide_True by (by apply list_elem_of_fmap_2). rewrite decide_True; [done|]. rewrite length_app. cbn. lia.
Qed.

Lemma cmd_map_ext {A B} (f g : A -> B) c : (forall a, a ∈ cmd_spans c -> f a = g a) -> cmd_map f c = cmd_map g c.
Proof.
  induction c as [a|c IH f' mode fd|l IHl r IHr|l IHl r IHr|c IH]; cbn [cmd_spans cmd_map]; intros H.
  - f_equal. apply map_ext_in. intros x Hx. apply H. by apply list_elem_of_In.
  - rewrite IH, H by set_solver. done.
  - rewrite IHl, IHr by set_solver. done.
  - rewrite IHl, IHr by set_solver. done.
  - by rewrite IH.
Qed.


(* ------------------------------------------------------------------ *)
(** ** Printing and parsing *)

Definition redir_tok (mode fd : Z) : Z :=
  if fd =? 0 then LT else if Z.land mode O_TRUNC =? 0 then PLUS else GT.
Definition tok_text (tok : Z) : list Z := if tok =? PLUS then [GT; GT] else [tok].
Definition word_text (w : list Z) : list Z := w ++ [32].
Definition words_text (ws : list (list Z)) : list Z := concat (map word_text ws).
Definition redir_text (f : list Z) (mode fd : Z) : list Z := tok_text (redir_tok mode fd) ++ 32 :: word_text f.
Definition paren (b : bool) (s : list Z) : list Z := if b then [LPAR; 32] ++ s ++ [RPAR; 32] else s.

(** The text of a command where a line (0), the operand of an ampersand (1), a
    pipeline (2) or an element of one (3) is expected. *)
Fixpoint print (level : nat) (c : cmd (list Z)) : list Z :=
  match c with
  | EXEC argv => words_text argv
  | REDIR c f mode fd => print 3 c ++ redir_text f mode fd
  | PIPE l r => paren (3 <=? level)%nat (print 3 l ++ [BAR; 32] ++ print 2 r)
  | BACK c => paren (2 <=? level)%nat (print 1 c ++ [AMP; 32])
  | LIST l r => paren (1 <=? level)%nat (print 1 l ++ [SEMI; 32] ++ print 0 r)
  end.

Definition word_ok (w : list Z) : Prop := w <> [] /\ Forall (fun c => word_chr c = true /\ c <> 0) w.

(** The commands the shell can express: words, fewer than ten arguments, and
    the three kinds of redirection. *)
Fixpoint cmd_ok (c : cmd (list Z)) : Prop :=
  match c with
  | EXEC argv => (length argv < MAXARGS)%nat /\ Forall word_ok argv
  | REDIR c f mode fd => cmd_ok c /\ word_ok f /\ redir_mode (redir_tok mode fd) = (mode, fd)
  | PIPE l r | LIST l r => cmd_ok l /\ cmd_ok r
  | BACK c => cmd_ok c
  end.

(** Text that does not start with white space, and starts with one of [toks]
    unless it is empty. *)
Definition starts (toks s : list Z) : Prop := match s with [] => True | c :: _ => c ∈ toks end.
Definition clean (s : list Z) : Prop := skip (has_chr whitespace) s = s.

Lemma has_chr_true toks c : c ∈ toks -> has_chr toks c = true.
Proof. apply bool_decide_eq_true_2. Qed.
Lemma has_chr_false toks c : c ∉ toks -> has_chr toks c = false.
Proof. apply bool_decide_eq_false_2. Qed.

Lemma starts_clean s : starts symbols s -> clean s.
Proof.
  unfold starts, clean. destruct s as [|c s]; [done|]. intros Hc. cbn [skip]. rewrite has_chr_false; [done|].
  unfold symbols, whitespace in *. set_solver.
Qed.

Lemma word_starts w s : word_ok w -> exists c r, w ++ s = c :: r /\ word_chr c = true /\ has_chr whitespace c = false /\ has_chr symbols c = false.
Proof.
  intros [Hne Hw]. destruct w as [|c w]; [done|]. exists c, (w ++ s). apply Forall_cons in Hw as [[Hc _] _].
  split_and!; [done|done|..]; unfold word_chr in Hc; rewrite andb_true_iff, !negb_true_iff in Hc; by destruct Hc.
Qed.

Lemma word_clean w s : word_ok w -> clean (w ++ s).
Proof. intros Hw. destruct (word_starts w s Hw) as (c & r & -> & _ & Hc & _). unfold clean. cbn. by rewrite Hc. Qed.

Lemma clean_space s : clean s -> skip (has_chr whitespace) (32 :: s) = s.
Proof. done. Qed.

Lemma peek_clean s toks : clean s -> peek s toks = (match s with [] => false | c :: _ => has_chr toks c end, s).
Proof. intros Hs. unfold peek. by rewrite Hs. Qed.

Lemma skip_word w s : Forall (fun c => word_chr c = true /\ c <> 0) w -> skip word_chr (w ++ 32 :: s) = 32 :: s.
Proof. induction 1 as [|c w [Hc _] _ IH]; [done|]. cbn [app skip]. by rewrite Hc. Qed.

Lemma gettoken_word w s : word_ok w -> clean s -> gettoken (w ++ 32 :: s) = (WORD, w ++ 32 :: s, 32 :: s, s).
Proof.
  intros Hw Hs. unfold gettoken. rewrite (word_clean w (32 :: s) Hw).
  pose proof (skip_word w s (proj2 Hw)) as Hsk. destruct (word_starts w (32 :: s) Hw) as (c & r & E & _ & _ & Hc).
  rewrite E in Hsk |- *. unfold has_chr, symbols in Hc. rewrite bool_decide_eq_false in Hc.
  rewrite has_chr_false by set_solver. rewrite (proj2 (Z.eqb_neq c GT)) by set_solver. rewrite Hsk. by rewrite clean_space.
Qed.

Lemma gettoken_sym c s : c ∈ [BAR; LPAR; RPAR; SEMI; AMP; LT] -> clean s -> gettoken (c :: 32 :: s) = (c, c :: 32 :: s, 32 :: s, s).
Proof.
  intros Hc Hs. unfold gettoken. assert (clean (c :: 32 :: s)) as Hq by (apply starts_clean; unfold symbols; cbn; set_solver).
  unfold clean in Hq. rewrite Hq, (has_chr_true _ c Hc), (clean_space s Hs). done.
Qed.

Lemma gettoken_redir tok s : tok = LT \/ tok = GT \/ tok = PLUS -> clean s -> exists q e, gettoken (tok_text tok ++ 32 :: s) = (tok, q, e, s).
Proof.
  unfold clean. intros Ht Hs. exists (tok_text tok ++ 32 :: s), (32 :: s). rewrite <- Hs at 4. by destruct Ht as [->|[->| ->]].
Qed.

Abbreviation redir := (list Z * Z * Z)%type.
Definition wrap (c : cmd (list Z)) (rs : list redir) : cmd (list Z) := fold_left (fun c '(f, mode, fd) => REDIR c f mode fd) rs c.
Definition redirs_text (rs : list redir) : list Z := concat (map (fun '(f, mode, fd) => redir_text f mode fd) rs).
Definition redir_ok (r : redir) : Prop := let '(f, mode, fd) := r in word_ok f /\ redir_mode (redir_tok mode fd) = (mode, fd).

Lemma redirs_starts rs s : clean s -> clean (redirs_text rs ++ s).
Proof.
  intros Hs. destruct rs as [|[[f mode] fd] rs]; [done|]. apply starts_clean. unfold redirs_text, redir_text, tok_text, redir_tok, symbols. cbn.
  repeat case_match; cbn; set_solver.
Qed.

Lemma redirs_cons f mode fd rs s :
  redirs_text ((f, mode, fd) :: rs) ++ s = tok_text (redir_tok mode fd) ++ 32 :: f ++ 32 :: redirs_text rs ++ s.
Proof. unfold redirs_text, redir_text, word_text. cbn. rewrite <- !app_assoc. cbn. by rewrite <- !app_assoc. Qed.
Lemma redir_tok_cases mode fd : redir_tok mode fd = LT \/ redir_tok mode fd = GT \/ redir_tok mode fd = PLUS.
Proof. unfold redir_tok. repeat case_match; tauto. Qed.

Lemma words_clean ws s : Forall word_ok ws -> clean s -> clean (words_text ws ++ s).
Proof.
  intros Hw Hs. destruct Hw as [|w ws Hw _]; [done|]. unfold words_text, word_text. cbn. rewrite <- !app_assoc. by apply word_clean.
Qed.

Lemma print_clean level c s : cmd_ok c -> clean s -> clean (print level c ++ s).
Proof.
  revert level s. induction c as [a|c IH f mode fd|l IHl r _|l IHl r _|c IH]; intros level s Hok Hs; cbn [print cmd_ok] in *.
  - apply words_clean; [apply Hok|done].
  - rewrite <- app_assoc. apply IH; [apply Hok|]. pose proof (redirs_starts [(f, mode, fd)] s Hs) as H. unfold redirs_text in H. cbn in H.
    by rewrite app_nil_r in H.
  - unfold paren. case_match; [by apply starts_clean; cbn; set_solver|]. rewrite <- app_assoc. apply IHl; [apply Hok|]. by apply starts_clean; cbn; set_solver.
  - unfold paren. case_match; [by apply starts_clean; cbn; set_solver|]. rewrite <- app_assoc. apply IHl; [apply Hok|]. by apply starts_clean; cbn; set_solver.
  - unfold paren. case_match; [by apply starts_clean; cbn; set_solver|]. rewrite <- app_assoc. apply IH; [done|]. by apply starts_clean; cbn; set_solver.
Qed.

Section Roundtrip.
Context (text : list Z).
Abbreviation n := (length text).
Abbreviation strs := (cmd_map (word_at text)).

Definition no_redir (s : list Z) : Prop := match s with [] => True | c :: _ => has_chr [LT; GT] c = false end.

Lemma redirs_print rs c0 rest fuel :
  redirs_text rs ++ rest `suffix_of` text -> Forall redir_ok rs -> clean rest -> no_redir rest -> (length rs < fuel)%nat ->
  exists c, redirs_loop n fuel c0 (redirs_text rs ++ rest) = Ok (c, rest) /\ strs c = wrap (strs c0) rs.
Proof.
  intros Hs Hok Hr Hn. revert c0 fuel Hs. induction Hok as [|[[f mode] fd] rs [Hf Hm] Hok IH]; intros c0 fuel Hs Hl;
    (destruct fuel as [|fuel]; [cbn in Hl; lia|]); cbn [redirs_loop].
  - cbn [redirs_text map concat app]. rewrite (peek_clean rest) by done. destruct rest as [|c rest]; [by exists c0|].
    cbn in Hn. rewrite Hn. by exists c0.
  - rewrite (peek_clean (redirs_text ((f, mode, fd) :: rs) ++ rest)) by (by apply redirs_starts).
    set (s1 := redirs_text rs ++ rest) in *. assert (clean s1) as Hs1 by (by apply redirs_starts).
    rewrite redirs_cons in Hs |- *. fold s1 in Hs |- *. pose proof (redir_tok_cases mode fd) as Htok.
    replace (match tok_text (redir_tok mode fd) ++ 32 :: f ++ 32 :: s1 with [] => false | c :: _ => has_chr [LT; GT] c end) with true
      by (by destruct Htok as [->|[->| ->]]).
    destruct (gettoken_redir (redir_tok mode fd) (f ++ 32 :: s1) Htok) as (q & e & ->); [by apply word_clean|].
    rewrite (gettoken_word f s1 Hf Hs1). cbn [Z.eqb]. rewrite Hm.
    assert (f ++ 32 :: s1 `suffix_of` text) as Hfs 
      by (etrans; [|exact Hs]; exists (tok_text (redir_tok mode fd) ++ [32]); by rewrite <- app_assoc).
    destruct (word_at_off text f (32 :: s1) Hfs) as [Hw _].
    destruct (IH (REDIR c0 (off n (f ++ 32 :: s1), off n (32 :: s1)) mode fd) fuel) as (c & Ec & Hc); [|cbn in Hl; lia|].
    + etrans; [|exact Hfs]. exists (f ++ [32]). by rewrite <- app_assoc.
    + exists c. split; [exact Ec|]. rewrite Hc. cbn [cmd_map]. by rewrite Hw.
Qed.

(** Text that ends a command: a symbol that [parseexec] stops at, or nothing. *)
Abbreviation ends := (starts [BAR; RPAR; AMP; SEMI]).

Lemma ends_clean s : ends s -> clean s /\ no_redir s.
Proof.
  intros Hs. split; [apply starts_clean; destruct s; [done|]; unfold symbols; cbn in *; set_solver|].
  destruct s as [|c s]; [done|]. cbn in *. apply has_chr_false. set_solver.
Qed.

Lemma parseredirs_print rs c0 rest :
  redirs_text rs ++ rest `suffix_of` text -> Forall redir_ok rs -> clean rest -> no_redir rest ->
  exists c, parseredirs n c0 (redirs_text rs ++ rest) = Ok (c, rest) /\ strs c = wrap (strs c0) rs.
Proof.
  intros Hs Hok Hc Hn. apply redirs_print; try done. rewrite length_app.
  enough (length rs <= length (redirs_text rs))%nat by lia. clear. induction rs as [|[[f mode] fd] rs IH]; [done|].
  change (redirs_text _) with (redir_text f mode fd ++ redirs_text rs). unfold redir_text. rewrite !length_app. cbn [length]. lia.
Qed.

Lemma parseredirs_none c0 rest : clean rest -> no_redir rest -> parseredirs n c0 rest = Ok (c0, rest).
Proof.
  intros Hc Hn. unfold parseredirs. cbn [redirs_loop]. rewrite peek_clean by done. destruct rest; [done|]. cbn in Hn. by rewrite Hn.
Qed.

Lemma args_end fuel argc c rest : ends rest -> args_loop n (S fuel) argc c rest = Ok (c, rest).
Proof.
  intros He. destruct (ends_clean rest He) as [Hc _]. cbn [args_loop]. rewrite peek_clean by done.
  destruct rest as [|d rest]; [done|]. cbn in He. by rewrite has_chr_true.
Qed.

Lemma word_head w s : word_ok w -> no_redir (w ++ s) /\ peek (w ++ s) [BAR; RPAR; AMP; SEMI] = (false, w ++ s) /\ peek (w ++ s) [LPAR] = (false, w ++ s).
Proof.
  intros Hw. rewrite !peek_clean by (by apply word_clean). destruct (word_starts w s Hw) as (c & r & -> & _ & _ & Hc).
  unfold has_chr, symbols in Hc. rewrite bool_decide_eq_false in Hc. unfold no_redir.
  rewrite !has_chr_false by set_solver. done.
Qed.

Lemma words_cons w ws s : words_text (w :: ws) ++ s = w ++ 32 :: words_text ws ++ s.
Proof. unfold words_text, word_text. cbn. by rewrite <- !app_assoc. Qed.

Lemma args_print args l rs rest fuel argc :
  words_text args ++ redirs_text rs ++ rest `suffix_of` text -> args <> [] -> Forall word_ok args -> Forall redir_ok rs -> ends rest ->
  (argc + length args < MAXARGS)%nat -> (length args < fuel)%nat ->
  exists c, args_loop n fuel argc (EXEC l) (words_text args ++ redirs_text rs ++ rest) = Ok (c, rest) /\
    strs c = wrap (EXEC (map (word_at text) l ++ args)) rs.
Proof.
  intros Hs Hne Hw Hrs Hend. revert l fuel argc Hs. destruct (ends_clean rest Hend) as [Hrc Hrn].
  induction Hw as [|w args Hw Hws IH]; [done|]. intros l fuel argc Hs Ha Hf. destruct fuel as [|fuel]; [cbn in Hf; lia|].
  set (s1 := words_text args ++ redirs_text rs ++ rest) in *. assert (clean s1) as Hs1 by (by apply words_clean, redirs_starts).
  rewrite words_cons in Hs |- *. fold s1 in Hs |- *. destruct (word_head w (32 :: s1) Hw) as (_ & Hp & _).
  destruct (word_at_off text w (32 :: s1) Hs) as [Hwa _].
  assert (s1 `suffix_of` text) as Hs1t by (etrans; [|exact Hs]; exists (w ++ [32]); by rewrite <- app_assoc).
  cbn [args_loop]. rewrite Hp, (gettoken_word w s1 Hw Hs1). cbn [Z.eqb add_arg]. cbn in Ha, Hf.
  rewrite (proj2 (Nat.leb_gt _ _)) by lia. set (l' := l ++ [_]).
  assert (map (word_at text) l' = map (word_at text) l ++ [w]) as El by (unfold l'; rewrite map_app; cbn [map]; by rewrite Hwa).
  destruct args as [|w' args].
  - destruct (parseredirs_print rs (EXEC l') rest) as (c & Ec & Hc); try done. unfold s1. cbn [words_text map concat app].
    rewrite Ec. cbn [pbind]. destruct fuel as [|fuel]; [lia|]. rewrite args_end by done. exists c. split; [done|]. rewrite Hc. cbn [cmd_map]. by rewrite El.
  - apply Forall_cons in Hws as [Hw' Hws']. assert (no_redir s1) as Hn.
    { unfold s1. rewrite words_cons. by apply word_head. }
    rewrite parseredirs_none by done. cbn [pbind]. destruct (IH ltac:(done) l' fuel (S argc)) as (c & Ec & Hc); [done|cbn in *; lia|lia|].
    exists c. split; [exact Ec|]. rewrite Hc, El, <- app_assoc. done.
Qed.

(** [parseexec] on the arguments and redirections of a simple command. *)
Lemma exec_print args rs rest fuel :
  words_text args ++ redirs_text rs ++ rest `suffix_of` text -> (length args < MAXARGS)%nat -> Forall word_ok args ->
  Forall redir_ok rs -> ends rest ->
  exists c, parseexec n (S fuel) (words_text args ++ redirs_text rs ++ rest) = Ok (c, rest) /\ strs c = wrap (EXEC args) rs.
Proof.
  intros Hs Hl Hw Hrs Hend. destruct (ends_clean rest Hend) as [Hrc Hrn]. cbn [parseexec]. destruct args as [|w args].
  - cbn [words_text map concat app] in *. assert (peek (redirs_text rs ++ rest) [LPAR] = (false, redirs_text rs ++ rest)) as ->.
    { rewrite peek_clean by (by apply redirs_starts). destruct rs as [|[[f mode] fd] rs].
      - cbn. destruct rest; [done|]. cbn in *. rewrite has_chr_false; [done|]. set_solver.
      - rewrite redirs_cons. by destruct (redir_tok_cases mode fd) as [->|[->| ->]]. }
    destruct (parseredirs_print rs (EXEC []) rest) as (c & Ec & Hc); try done. rewrite Ec. cbn [pbind]. rewrite args_end by done. by exists c.
  - pose proof (Forall_inv Hw) as Hw1. set (s1 := words_text (w :: args) ++ redirs_text rs ++ rest) in *.
    assert (no_redir s1 /\ peek s1 [LPAR] = (false, s1)) as [Hn Hp] by (unfold s1; rewrite words_cons; by destruct (word_head w (32 :: words_text args ++ redirs_text rs ++ rest) Hw1) as (? & ? & ?)).
    rewrite Hp, parseredirs_none by (done || by apply words_clean, redirs_starts). cbn [pbind].
    destruct (args_print (w :: args) [] rs rest (S (length s1)) 0) as (c & Ec & Hc); try done; [|by exists c].
    unfold s1. rewrite !length_app. enough (length (w :: args) <= length (words_text (w :: args)))%nat by lia.
    generalize (w :: args). clear. intros l. induction l as [|x l IH]; [done|]. change (words_text (x :: l)) with (word_text x ++ words_text l).
    unfold word_text. rewrite !length_app. cbn [length]. lia.
Qed.

(** [parseline] after its first pipeline. *)
Definition line_tail (fuel : nat) (c : cmd span) (s : list Z) : presult (cmd span * list Z) :=
  let! (c, s) := back_loop (S (length s)) c s in
  let '(b, s) := peek s [SEMI] in
  if b then
    let '(_, _, _, s) := gettoken s in
    let! (r, s) := parseline n fuel s in
    Ok (LIST c r, s)
  else Ok (c, s).

(** What the four parsers do with the text of [c] at their level. *)
Definition exec_ok (c : cmd (list Z)) : Prop := forall rs fuel rest,
  print 3 c ++ redirs_text rs ++ rest `suffix_of` text -> Forall redir_ok rs -> ends rest ->
  (4 * length (print 3 c ++ redirs_text rs ++ rest) + 2 <= fuel)%nat ->
  exists c', parseexec n fuel (print 3 c ++ redirs_text rs ++ rest) = Ok (c', rest) /\ strs c' = wrap c rs.
Definition pipe_ok (c : cmd (list Z)) : Prop := forall fuel rest,
  print 2 c ++ rest `suffix_of` text -> starts [RPAR; AMP; SEMI] rest -> (4 * length (print 2 c ++ rest) + 3 <= fuel)%nat ->
  exists c', parsepipe n fuel (print 2 c ++ rest) = Ok (c', rest) /\ strs c' = c.
Definition back_ok (c : cmd (list Z)) : Prop := forall fuel rest,
  print 1 c ++ rest `suffix_of` text -> starts [RPAR; AMP; SEMI] rest -> (4 * length (print 1 c ++ rest) + 4 <= S fuel)%nat ->
  exists c', parseline n (S fuel) (print 1 c ++ rest) = line_tail fuel c' rest /\ strs c' = c.
Definition line_ok (c : cmd (list Z)) : Prop := forall fuel rest,
  print 0 c ++ rest `suffix_of` text -> starts [RPAR] rest -> (4 * length (print 0 c ++ rest) + 4 <= fuel)%nat ->
  exists c', parseline n fuel (print 0 c ++ rest) = Ok (c', rest) /\ strs c' = c.

Lemma starts_mono t1 t2 s : (forall c, c ∈ t1 -> c ∈ t2) -> starts t1 s -> starts t2 s.
Proof. intros H. destruct s; [done|]. apply H. Qed.

Lemma peek_starts t1 t2 s : starts t1 s -> (forall c, c ∈ t1 -> c ∈ symbols) -> (forall c, c ∈ t1 -> c ∉ t2) -> peek s t2 = (false, s).
Proof.
  intros Hs H1 H2. rewrite peek_clean by (apply starts_clean; by eapply starts_mono). destruct s as [|c s]; [done|].
  by rewrite has_chr_false by (by apply H2).
Qed.

Lemma exec_to_pipe c : print 2 c = print 3 c -> exec_ok c -> pipe_ok c.
Proof.
  intros Ep He fuel rest Hs Hr Hf. rewrite Ep in *. destruct fuel as [|fuel]; [lia|].
  destruct (He [] fuel rest Hs) as (c' & Ec & Hc); [done|eapply starts_mono; [|exact Hr]; set_solver|cbn [redirs_text map concat app]; lia|].
  cbn [redirs_text map concat app] in Ec.
  exists c'. split; [|done]. cbn [parsepipe]. rewrite Ec. cbn [pbind]. by rewrite (peek_starts _ [BAR] rest Hr) by (unfold symbols; set_solver).
Qed.

Lemma pipe_to_back c : print 1 c = print 2 c -> pipe_ok c -> back_ok c.
Proof.
  intros Ep Hp fuel rest Hs Hr Hf. rewrite Ep in *. destruct (Hp fuel rest Hs Hr) as (c' & Ec & Hc); [lia|].
  exists c'. split; [|done]. cbn [parseline]. by rewrite Ec.
Qed.

Lemma back_none fuel c rest : starts [RPAR; SEMI] rest -> back_loop (S fuel) c rest = Ok (c, rest).
Proof. intros Hr. cbn [back_loop]. by rewrite (peek_starts _ [AMP] rest Hr) by (unfold symbols; set_solver). Qed.

Lemma back_to_line c : print 0 c = print 1 c -> back_ok c -> line_ok c.
Proof.
  intros Ep Hb fuel rest Hs Hr Hf. rewrite Ep in *. destruct fuel as [|fuel]; [lia|].
  destruct (Hb fuel rest Hs) as (c' & Ec & Hc); [eapply starts_mono; [|exact Hr]; set_solver|lia|].
  exists c'. split; [|done]. rewrite Ec. unfold line_tail. rewrite back_none by (eapply starts_mono; [|exact Hr]; set_solver). cbn [pbind].
  by rewrite (peek_starts _ [SEMI] rest Hr) by (unfold symbols; set_solver).
Qed.

(** A block with its redirections. *)
Lemma line_to_exec c : print 3 c = paren true (print 0 c) -> cmd_ok c -> line_ok c -> exec_ok c.
Proof.
  intros Ep Hok Hl rs fuel rest Hs Hrs Hend Hf. rewrite Ep in *. destruct (ends_clean rest Hend) as [Hrc Hrn].
  set (s1 := redirs_text rs ++ rest) in *. assert (clean s1) as Hs1 by (by apply redirs_starts).
  assert (paren true (print 0 c) ++ s1 = LPAR :: 32 :: print 0 c ++ RPAR :: 32 :: s1) as E.
  { unfold paren. cbn. by rewrite <- app_assoc. }
  rewrite E in *. assert (clean (RPAR :: 32 :: s1)) as Hrp by done. assert (clean (print 0 c ++ RPAR :: 32 :: s1)) as Hpc by (by apply print_clean).
  assert (print 0 c ++ RPAR :: 32 :: s1 `suffix_of` text) as Hs2 by (etrans; [|exact Hs]; by exists [LPAR; 32]).
  assert (s1 `suffix_of` text) as Hs3 by (etrans; [|exact Hs2]; exists (print 0 c ++ [RPAR; 32]); by rewrite <- app_assoc).
  destruct fuel as [|[|fuel]]; [lia..|]. cbn [parseexec parseblock]. 
  do 2 (rewrite (peek_clean (LPAR :: _)) by done; change (has_chr [LPAR] LPAR) with true; cbv iota beta). rewrite (gettoken_sym LPAR) by (done || set_solver).
  destruct (Hl fuel (RPAR :: 32 :: s1) Hs2) as (c' & Ec & Hc); [cbn; set_solver|cbn in Hf; lia|]. rewrite Ec. cbn [pbind].
  rewrite (peek_clean (RPAR :: _)) by done. change (has_chr [RPAR] RPAR) with true. cbv iota beta.
  rewrite (gettoken_sym RPAR) by (done || set_solver). destruct (parseredirs_print rs c' rest) as (c2 & Ec2 & Hc2); try done.
  exists c2. split; [exact Ec2|]. by rewrite Hc2, Hc.
Qed.

Lemma back_loop_fuel f1 f2 c s : (length s < f1)%nat -> (length s < f2)%nat -> back_loop f1 c s = back_loop f2 c s.
Proof.
  revert f2 c s. induction f1 as [|f1 IH]; intros f2 c s H1 H2; [lia|]. destruct f2 as [|f2]; [lia|]. cbn [back_loop].
  pose proof (gettoken_peek s [AMP]) as Hg. destruct (peek s [AMP]) as [b s1]. cbn [fst snd] in Hg. destruct b; [|done].
  specialize (Hg eq_refl). destruct (gettoken s1) as [[[? ?] ?] s2]. destruct Hg as [_ Hl]. apply IH; lia.
Qed.

Lemma back_back c : back_ok c -> back_ok (BACK c).
Proof.
  intros Hb fuel rest Hs Hr Hf. cbn [print paren Nat.leb] in *. rewrite <- app_assoc in *.
  destruct (Hb fuel (AMP :: 32 :: rest) Hs) as (c' & Ec & Hc); [cbn; set_solver|exact Hf|]. exists (BACK c'). cbn [app].
  split; [|cbn; by rewrite Hc]. rewrite Ec. unfold line_tail. cbn [length]. set (k := length rest). remember (S (S k)) as k'. cbn [back_loop].
  rewrite (peek_clean (AMP :: 32 :: rest)) by done. change (has_chr [AMP] AMP) with true. cbv iota beta.
  rewrite gettoken_sym by (set_solver || (apply starts_clean; eapply starts_mono; [|exact Hr]; unfold symbols; set_solver)).
  subst k'. by rewrite (back_loop_fuel (S (S k)) (S k)) by (unfold k; lia).
Qed.

Lemma symbol_suffix c s1 s2 : s1 ++ c :: 32 :: s2 `suffix_of` text -> s2 `suffix_of` text.
Proof. intros Hs. etrans; [|exact Hs]. exists (s1 ++ [c; 32]). by rewrite <- app_assoc. Qed.

Lemma list_line l r : cmd_ok r -> back_ok l -> line_ok r -> line_ok (LIST l r).
Proof.
  intros Hok Hl Hr fuel rest Hs Hst Hf. cbn [print paren Nat.leb] in *. rewrite <- !app_assoc in *. cbn [app] in *.
  destruct fuel as [|fuel]; [lia|]. set (s1 := print 0 r ++ rest) in *.
  assert (clean s1) as Hs1 by (apply print_clean; [done|]; apply starts_clean; eapply starts_mono; [|exact Hst]; unfold symbols; set_solver).
  destruct (Hl fuel (SEMI :: 32 :: s1) Hs) as (l' & El & Hl'); [cbn; set_solver|lia|]. rewrite El. unfold line_tail.
  rewrite back_none by (cbn; set_solver). cbn [pbind]. rewrite (peek_clean (SEMI :: _)) by done. change (has_chr [SEMI] SEMI) with true. cbv iota beta.
  rewrite (gettoken_sym SEMI) by (done || set_solver). destruct (Hr fuel rest) as (r' & Er & Hr'); [by eapply symbol_suffix|done| |].
  - fold s1. rewrite length_app in Hf. cbn [length] in Hf. lia.
  - unfold s1. rewrite Er. exists (LIST l' r'). split; [done|]. cbn [cmd_map]. by rewrite Hl', Hr'.
Qed.

Lemma pipe_pipe l r : cmd_ok r -> exec_ok l -> pipe_ok r -> pipe_ok (PIPE l r).
Proof.
  intros Hok Hl Hr fuel rest Hs Hst Hf. cbn [print paren Nat.leb] in *. rewrite <- !app_assoc in *. cbn [app] in *.
  destruct fuel as [|fuel]; [lia|]. set (s1 := print 2 r ++ rest) in *.
  assert (clean s1) as Hs1 by (apply print_clean; [done|]; apply starts_clean; eapply starts_mono; [|exact Hst]; unfold symbols; set_solver).
  destruct (Hl [] fuel (BAR :: 32 :: s1) Hs) as (l' & El & Hl'); [done|cbn; set_solver|cbn [redirs_text map concat app]; lia|].
  cbn [parsepipe redirs_text map concat app] in *. rewrite El. cbn [pbind].
  rewrite (peek_clean (BAR :: _)) by done. change (has_chr [BAR] BAR) with true. cbv iota beta.
  rewrite (gettoken_sym BAR) by (done || set_solver). destruct (Hr fuel rest) as (r' & Er & Hr'); [by eapply symbol_suffix|done| |].
  - fold s1. rewrite length_app in Hf. cbn [length] in Hf. lia.
  - unfold s1. rewrite Er. exists (PIPE l' r'). split; [done|]. cbn [cmd_map]. by rewrite Hl', Hr'.
Qed.

Lemma parse_print c : cmd_ok c -> exec_ok c /\ pipe_ok c /\ back_ok c /\ line_ok c.
Proof.
  induction c as [a|c IH f mode fd|l IHl r IHr|l IHl r IHr|c IH]; cbn [cmd_ok]; intros Hok.
  - assert (exec_ok (EXEC a)) as He.
    { intros rs fuel rest Hs Hrs Hend Hf. destruct fuel as [|fuel]; [lia|]. destruct Hok. by apply exec_print. }
    assert (pipe_ok (EXEC a)) as Hp by (by apply exec_to_pipe). assert (back_ok (EXEC a)) as Hb by (by apply pipe_to_back).
    split_and!; try done. by apply back_to_line.
  - destruct Hok as (Hc & Hf & Hm). destruct (IH Hc) as (He & _). assert (exec_ok (REDIR c f mode fd)) as He'.
    { intros rs fuel rest Hs Hrs Hend Hfl. cbn [print] in *.
      assert (forall s, (print 3 c ++ redir_text f mode fd) ++ redirs_text rs ++ s = print 3 c ++ redirs_text ((f, mode, fd) :: rs) ++ s) as E.
      { intros s. unfold redirs_text. cbn. by rewrite <- !app_assoc. }
      rewrite E in *. by apply (He ((f, mode, fd) :: rs)); [|constructor|..]. }
    assert (pipe_ok (REDIR c f mode fd)) as Hp by (by apply exec_to_pipe).
    assert (back_ok (REDIR c f mode fd)) as Hb by (by apply pipe_to_back). split_and!; try done. by apply back_to_line.
  - destruct (IHl (proj1 Hok)) as (Hle & _). destruct (IHr (proj2 Hok)) as (_ & Hrp & _).
    assert (pipe_ok (PIPE l r)) as Hp by (apply pipe_pipe; [apply Hok|done..]).
    assert (back_ok (PIPE l r)) as Hb by (by apply pipe_to_back). assert (line_ok (PIPE l r)) as Hl by (by apply back_to_line).
    split_and!; try done. by apply line_to_exec.
  - destruct (IHl (proj1 Hok)) as (_ & _ & Hlb & _). destruct (IHr (proj2 Hok)) as (_ & _ & _ & Hrl).
    assert (line_ok (LIST l r)) as Hl by (apply list_line; [apply Hok|done..]). assert (exec_ok (LIST l r)) as He by (by apply line_to_exec).
    assert (pipe_ok (LIST l r)) as Hp by (by apply exec_to_pipe). split_and!; try done. by apply pipe_to_back.
  - destruct (IH Hok) as (_ & _ & Hcb & _). assert (back_ok (BACK c)) as Hb by (by apply back_back).
    assert (line_ok (BACK c)) as Hl by (by apply back_to_line). assert (exec_ok (BACK c)) as He by (by apply line_to_exec).
    split_and!; try done. by apply exec_to_pipe.
Qed.
End Roundtrip.

Lemma no_nul_app (l1 l2 : list Z) : 0 ∉ l1 -> 0 ∉ l2 -> 0 ∉ l1 ++ l2.
Proof. set_solver. Qed.

Lemma word_no_nul w : word_ok w -> 0 ∉ word_text w.
Proof.
  intros [_ Hw]. apply no_nul_app; [|set_solver]. rewrite Forall_forall in Hw. intros H. by destruct (Hw 0 H).
Qed.

Lemma paren_no_nul b s : 0 ∉ s -> 0 ∉ paren b s.
Proof. intros Hs. destruct b; [|done]. unfold paren. set_solver. Qed.

Lemma print_no_nul level c : cmd_ok c -> 0 ∉ print level c.
Proof.
  revert level. induction c as [a|c IH f mode fd|l IHl r IHr|l IHl r IHr|c IH]; intros level Hok; cbn [print cmd_ok] in *;
    try (apply paren_no_nul); try (apply no_nul_app; [by apply IHl|apply no_nul_app; [set_solver|by apply IHr]]).
  - destruct Hok as [_ Hw]. unfold words_text. induction Hw as [|w ws Hw _ IH]; [set_solver|]. cbn. apply no_nul_app; [by apply word_no_nul|done].
  - destruct Hok as (Hc & Hf & _). apply no_nul_app; [by apply IH|]. unfold redir_text. apply no_nul_app.
    + by destruct (redir_tok_cases mode fd) as [->|[->| ->]]; cbn; set_solver.
    + pose proof (word_no_nul f Hf). set_solver.
  - destruct Hok. apply no_nul_app; [by apply IHl|apply no_nul_app; [set_solver|by apply IHr]].
  - destruct Hok. apply no_nul_app; [by apply IHl|apply no_nul_app; [set_solver|by apply IHr]].
  - apply no_nul_app; [by apply IH|set_solver].
Qed.

(** C15: Parsing inverts printing: the shell reads the text of any command that
    it can express - lists, background commands, pipelines, redirections and
    nested blocks - back as that command, with its strings. *)
Theorem parsecmd_print c fuel :
  cmd_ok c -> (4 * length (print 0 c) + 4 <= fuel)%nat ->
  exists c' buf, parsecmd fuel (print 0 c) = Ok (c', buf) /\ strings buf c' = c.
Proof.
  intros Hok Hf. set (s := print 0 c) in *. destruct (parse_print s c Hok) as (_ & _ & _ & Hl).
  destruct (Hl fuel []) as (c' & E & Hc); [fold s; by rewrite app_nil_r|done|fold s; by rewrite app_nil_r|].
  fold s in E. rewrite app_nil_r in E. destruct (parse_good s fuel s) as (Hg & _); [done|]. specialize (Hg Hf). rewrite E in Hg.
  destruct Hg as [_ Hsp]. exists c', (nulterminate c' (s ++ [0])). unfold parsecmd. rewrite E. split; [done|].
  transitivity (cmd_map (word_at s) c'); [|exact Hc]. apply cmd_map_ext. intros a Ha. apply nulterminate_string; [by apply print_no_nul|exact Hsp|done].
Qed.

(** [ls x | wc > n & ; echo] *)
Definition ex_cmd : cmd (list Z) :=
  LIST (BACK (PIPE (EXEC [[108; 115]; [120]]) (REDIR (EXEC [[119; 99]]) [110] 0x601 1))) (EXEC [[101; 99; 104; 111]]).

Lemma ex_cmd_ok : cmd_ok ex_cmd.
Proof.
  assert (forall w, w <> [] -> forallb (fun c => word_chr c && negb (c =? 0)) w = true -> word_ok w) as Hw.
  { intros w Hne Hf. split; [done|]. rewrite Forall_forall. intros x Hx. rewrite forallb_forall in Hf.
    apply list_elem_of_In in Hx. specialize (Hf x Hx). rewrite andb_true_iff, negb_true_iff, Z.eqb_neq in Hf. done. }
  cbn. split_and!; try lia; repeat (apply Forall_cons; split); try apply Forall_nil; (done || by apply Hw).
Qed.

Lemma parsecmd_print_witness :
  exists c' buf, parsecmd 200 (print 0 ex_cmd) = Ok (c', buf) /\ strings buf c' = ex_cmd.
Proof. apply (parsecmd_print ex_cmd 200 ex_cmd_ok). vm_compute. lia. Defined.

