(* ===== verification/ShRun.v ===== *)
(** * How the shell runs commands ([user/sh.c])

    [runcmd] as the tree of the system calls it makes, in the processes that it
    forks; a small model of file descriptor tables gives the programs that are
    executed, each with its descriptors. *)

From S2P Require Import Prelude Machine Strings Sh.
Local Open Scope Z_scope.

(* ------------------------------------------------------------------ *)
(** ** The code *)

(** What a process does: a tree of system calls. [Exec] returns only when it
    fails; [Fork] continues with 0 in the child, with the child's number in the
    parent, and with -1 when it fails. *)
Inductive process : Type :=
| Exit (code : Z)
| Exec (path : list Z) (argv : list (list Z)) (k : process)
| Close (fd : Z) (k : process)
| Open (file : list Z) (mode : Z) (k : Z -> process)
| Pipe (k : option (Z * Z) -> process)
| Dup (fd : Z) (k : process)
| Fork (k : Z -> process)
| Wait (k : process)
| Err (msg : string) (arg : list Z) (k : process).

Definition panic (msg : string) : process := Err msg [] (Exit 1).

Definition fork1 (k : Z -> process) : process := Fork (fun pid => if pid =? -1 then panic "fork" else k pid).

Fixpoint runcmd (c : cmd (list Z)) : process :=
  match c with
  | EXEC argv =>
      match argv with
      | [] => Exit 1
      | a :: _ => Exec a argv (Err "exec %s failed" a (Exit 0))
      end
  | REDIR c file mode fd =>
      Close fd (Open file mode (fun r => if r <? 0 then Err "open %s failed" file (Exit 1) else runcmd c))
  | LIST l r => fork1 (fun pid => if pid =? 0 then runcmd l else Wait (runcmd r))
  | PIPE l r =>
      Pipe (fun p =>
        match p with
        | None => panic "pipe"
        | Some (p0, p1) =>
            fork1 (fun pid =>
              if pid =? 0 then Close 1 (Dup p1 (Close p0 (Close p1 (runcmd l))))
              else fork1 (fun pid =>
                if pid =? 0 then Close 0 (Dup p0 (Close p0 (Close p1 (runcmd r))))
                else Close p0 (Close p1 (Wait (Wait (Exit 0))))))
        end)
  | BACK c => fork1 (fun pid => if pid =? 0 then runcmd c else Exit 0)
  end.

(** [gets(buf, max)]: the line, with its newline, and the rest of the input. *)
Fixpoint gets (max : nat) (input : list Z) : list Z * list Z :=
  match max with
  | O | S O => ([], input)
  | S max =>
      match input with
      | [] => ([], [])
      | c :: input =>
          if (c =? 10) || (c =? 13) then ([c], input)
          else let '(l, input) := gets max input in (c :: l, input)
      end
  end.

(** What [main] does with a line. *)
Inductive action : Type :=
| Blank
| Chdir (path : list Z)
| Run (line : list Z).

Definition line_action (buf : list Z) : action :=
  let cmd := skip (has_chr [32; 9]) (cstr buf) in
  match cmd with
  | 10 :: _ => Blank
  | 99 :: 100 :: 32 :: path => Chdir (removelast path)
  | _ => Run cmd
  end.

(** The loop of [main] until [getcmd] fails: at the end of the input, or at a
    line that starts with a NUL. *)
Fixpoint main_loop (fuel : nat) (input : list Z) : option (list action) :=
  match fuel with
  | O => None
  | S fuel =>
      let '(buf, input) := gets 100 input in
      match cstr buf with
      | [] => Some []
      | _ :: _ => match main_loop fuel input with Some l => Some (line_action buf :: l) | None => None end
      end
  end.

(* ------------------------------------------------------------------ *)
(** ** File descriptors *)

(** Pipes are named by where in the tree of processes they were made. *)
Inductive fdesc : Type :=
| Console
| FileAt (file : list Z) (mode : Z)
| PipeR (id : list bool)
| PipeW (id : list bool).

Abbreviation table := (list (option fdesc)).

(** The lowest descriptor that is free. *)
Fixpoint lowest (t : table) : option nat :=
  match t with
  | [] => None
  | None :: _ => Some 0%nat
  | Some _ :: t => S <$> lowest t
  end.

Definition is_open (t : table) (i : nat) : bool := match t !! i with Some (Some _) => true | _ => false end.

(** The first loop of [main], which opens the console until 0, 1 and 2 are open. *)
Fixpoint open_std (fuel : nat) (t : table) : table :=
  match fuel with
  | O => t
  | S fuel =>
      match lowest t with
      | Some i =>
          let t := <[i := Some Console]> t in
          if (3 <=? i)%nat then <[i := None]> t else open_std fuel t
      | None => t
      end
  end.

Section Run.
(** Which programs can be executed and which files opened. *)
Context (can_exec : list Z -> bool) (can_open : list Z -> Z -> bool).

(** The programs that the processes of [p] execute, with their descriptors. *)
Fixpoint runs (p : process) (t : table) (here : list bool) : list (list (list Z) * table) :=
  match p with
  | Exit _ => []
  | Exec path argv k => if can_exec path then [(argv, t)] else runs k t here
  | Close fd k => runs k (<[Z.to_nat fd := None]> t) here
  | Open file mode k =>
      match lowest t with
      | Some i => if can_open file mode then runs (k (Z.of_nat i)) (<[i := Some (FileAt file mode)]> t) here else runs (k (-1)) t here
      | None => runs (k (-1)) t here
      end
  | Pipe k =>
      match lowest t with
      | Some i =>
          let t1 := <[i := Some (PipeR here)]> t in
          match lowest t1 with
          | Some j => runs (k (Some (Z.of_nat i, Z.of_nat j))) (<[j := Some (PipeW here)]> t1) here
          | None => runs (k None) t here
          end
      | None => runs (k None) t here
      end
  | Dup fd k =>
      match t !! Z.to_nat fd, lowest t with
      | Some (Some d), Some i => runs k (<[i := Some d]> t) here
      | _, _ => runs k t here
      end
  | Fork k => runs (k 0) t (here ++ [true]) ++ runs (k 1) t (here ++ [false])
  | Wait k => runs k t here
  | Err _ _ k => runs k t here
  end.

(** What a command means: a redirection replaces a descriptor, the left side of
    a pipeline writes into a new pipe and the right side reads from it, and
    nothing else of the descriptors changes. *)
Fixpoint denote (c : cmd (list Z)) (t : table) (here : list bool) : list (list (list Z) * table) :=
  match c with
  | EXEC argv => match argv with [] => [] | a :: _ => if can_exec a then [(argv, t)] else [] end
  | REDIR c file mode fd => if can_open file mode then denote c (<[Z.to_nat fd := Some (FileAt file mode)]> t) here else []
  | LIST l r => denote l t (here ++ [true]) ++ denote r t (here ++ [false])
  | PIPE l r =>
      denote l (<[1%nat := Some (PipeW here)]> t) (here ++ [true]) ++
      denote r (<[0%nat := Some (PipeR here)]> t) (here ++ [false] ++ [true])
  | BACK c => denote c t (here ++ [true])
  end.

(** The descriptors 0, 1 and 2 are open and two others are free. *)
Definition std (t : table) : Prop :=
  is_open t 0 = true /\ is_open t 1 = true /\ is_open t 2 = true /\
  exists i j, (i < j)%nat /\ t !! i = Some None /\ t !! j = Some None.

(** Redirections are of standard input or output, as the parser makes them. *)
Fixpoint redirs_std (c : cmd (list Z)) : Prop :=
  match c with
  | EXEC _ => True
  | REDIR c _ _ fd => (fd = 0 \/ fd = 1) /\ redirs_std c
  | PIPE l r | LIST l r => redirs_std l /\ redirs_std r
  | BACK c => redirs_std c
  end.

Lemma lowest_spec t i : lowest t = Some i <-> t !! i = Some None /\ forall k, (k < i)%nat -> is_open t k = true.
Proof.
  revert i. induction t as [|[d|] t IH]; intros i; cbn [lowest].
  - split; [done|]. by intros [H _].
  - destruct i as [|i].
    + destruct (lowest t); cbn; (split; [done|by intros [H _]]).
    + rewrite fmap_Some. split.
      * intros (j & Hj & [= ->]). apply IH in Hj as [H1 H2]. split; [done|]. intros [|k] Hk; [done|]. apply H2. lia.
      * intros [H1 H2]. exists i. split; [|done]. apply IH. split; [done|]. intros k Hk. apply (H2 (S k)). lia.
  - split; [intros [= <-]; split; [done|lia]|]. intros [H1 H2]. destruct i as [|i]; [done|]. specialize (H2 0%nat ltac:(lia)). done.
Qed.

Lemma lowest_exists t i : t !! i = Some None -> exists j, lowest t = Some j /\ (j <= i)%nat.
Proof.
  revert i. induction t as [|[d|] t IH]; intros i Hi; [done|..]; cbn [lowest].
  - destruct i as [|i]; [done|]. destruct (IH i Hi) as (j & -> & Hj). exists (S j). split; [done|lia].
  - exists 0%nat. split; [done|lia].
Qed.

Lemma is_open_insert t i d k : (i < length t)%nat -> is_open (<[i := Some d]> t) k = (bool_decide (k = i) || is_open t k).
Proof.
  intros Hi. unfold is_open. case_bool_decide as E; [subst; by rewrite list_lookup_insert_eq|]. by rewrite list_lookup_insert_ne.
Qed.

Lemma is_open_lt t i : is_open t i = true -> (i < length t)%nat.
Proof. unfold is_open. intros H. apply lookup_lt_is_Some. destruct (t !! i); [done|done]. Qed.

(** After the first loop of [main], which opens at most four times, commands
    can be run. *)
Lemma open_std_std t a b :
  (3 <= a < b)%nat -> t !! a = Some None -> t !! b = Some None -> std (open_std 4 t).
Proof.
  intros Hab. enough (forall fuel t, (3 < fuel + length (filter (fun k => is_open t k = true) [0; 1; 2]%nat))%nat ->
    t !! a = Some None -> t !! b = Some None -> std (open_std fuel t)) as H by (apply H; lia).
  clear t. induction fuel as [|fuel IH]; intros t Hf Ha Hb.
  { exfalso. pose proof (length_filter (fun k => is_open t k = true) [0; 1; 2]%nat). cbn in *. lia. }
  cbn [open_std]. destruct (lowest_exists t a Ha) as (i & Ei & Hia). rewrite Ei. apply lowest_spec in Ei as [Hi Hbelow].
  pose proof (lookup_lt_Some _ _ _ Hi) as Hl. destruct (Nat.leb_spec 3 i) as [H3|H3].
  - rewrite list_insert_insert_eq, list_insert_id by done. split_and!; [apply Hbelow; lia..|]. exists a, b. split; [lia|done].
  - apply IH; [|rewrite list_lookup_insert_ne by lia; done..].
    assert (is_open t i = false) as Hc by (unfold is_open; by rewrite Hi).
    destruct i as [|[|[|i]]]; [..|lia]; cbn in Hf |- *; rewrite !is_open_insert by done; cbn; rewrite Hc in Hf;
      repeat (case_decide; cbn in *); try lia; congruence.
Qed.

(** Replacing an open descriptor keeps the others. *)
Lemma std_replace t i d : std t -> is_open t i = true -> std (<[i := Some d]> t).
Proof.
  intros (H0 & H1 & H2 & a & b & Hab & Ha & Hb) Hi. pose proof (is_open_lt t i Hi) as Hl. unfold std.
  rewrite !is_open_insert, H0, H1, H2, !orb_true_r by done. split_and!; try done. exists a, b. unfold is_open in Hi.
  split; [done|]. by rewrite !list_lookup_insert_ne by (intros ->; rewrite ?Ha, ?Hb in Hi; done).
Qed.

(** [close(i)] of a standard descriptor, and what takes its place. *)
Lemma close_lowest t i : is_open t 0 = true -> is_open t 1 = true -> (i < 2)%nat -> lowest (<[i := None]> t) = Some i.
Proof.
  intros H0 H1 Hi. apply lowest_spec. assert (i < length t)%nat as Hl.
  { apply is_open_lt in H0, H1. lia. }
  split; [by rewrite list_lookup_insert_eq|]. intros k Hk. assert (k = 0%nat) as -> by lia.
  unfold is_open in *. rewrite list_lookup_insert_ne by lia. done.
Qed.

(** The two descriptors of a new pipe. *)
Lemma pipe_slots t d : std t ->
  exists i j, lowest t = Some i /\ lowest (<[i := Some d]> t) = Some j /\ (3 <= i < j)%nat /\ t !! i = Some None /\ t !! j = Some None.
Proof.
  intros (H0 & H1 & H2 & a & b & Hab & Ha & Hb). destruct (lowest_exists t a Ha) as (i & Hi & Hia). exists i.
  apply lowest_spec in Hi as Hi'. destruct Hi' as [Hin Hbelow].
  assert (3 <= i)%nat as H3.
  { destruct i as [|[|[|i]]]; [..|lia]; unfold is_open in *; by rewrite Hin in *. }
  assert (<[i := Some d]> t !! b = Some None) as Hb1 by (rewrite list_lookup_insert_ne by lia; done).
  destruct (lowest_exists _ b Hb1) as (j & Hj & _). exists j. apply lowest_spec in Hj as Hj'. destruct Hj' as [Hjn _].
  assert (i < length t)%nat as Hl by (apply lookup_lt_is_Some; by rewrite Hin).
  assert (j <> i) as Hne by (intros ->; by rewrite list_lookup_insert_eq in Hjn).
  rewrite list_lookup_insert_ne in Hjn by done. split_and!; try done.
  destruct (decide (i < j)%nat) as [|Hlt]; [done|]. specialize (Hbelow j ltac:(lia)). unfold is_open in Hbelow. by rewrite Hjn in Hbelow.
Qed.

(** A child of a pipeline: its end of the pipe is in the place of [fd], and the
    two descriptors of the pipe are closed again. *)
Lemma child_table (t : table) i j fd (dr dw d : fdesc) :
  (3 <= i < j)%nat -> (fd < 2)%nat -> t !! i = Some None -> t !! j = Some None ->
  <[j := None]> (<[i := None]> (<[fd := Some d]> (<[fd := None]> (<[j := Some dw]> (<[i := Some dr]> t))))) = <[fd := Some d]> t.
Proof.
  intros Hij Hfd Hi Hj. pose proof (lookup_lt_Some _ _ _ Hi) as Hli. pose proof (lookup_lt_Some _ _ _ Hj) as Hlj.
  apply list_eq. intros k. rewrite !list_lookup_insert, !length_insert. repeat case_decide; naive_solver lia.
Qed.

Lemma runs_fork1 k t here :
  runs (fork1 k) t here = runs (k 0) t (here ++ [true]) ++ runs (k 1) t (here ++ [false]).
Proof. done. Qed.

Lemma child_runs p t here i j k fd d h :
  std t -> (3 <= i < j)%nat -> t !! i = Some None -> t !! j = Some None -> fd = 0 \/ fd = 1 ->
  let t2 := <[j := Some (PipeW here)]> (<[i := Some (PipeR here)]> t) in
  (2 <= k)%nat -> t2 !! k = Some (Some d) ->
  runs (Close fd (Dup (Z.of_nat k) (Close (Z.of_nat i) (Close (Z.of_nat j) p)))) t2 h = runs p (<[Z.to_nat fd := Some d]> t) h.
Proof.
  intros (H0 & H1 & _) Hij Hi Hj Hfd t2 Hk Ht2. assert (Z.to_nat fd < 2)%nat as Hlt by (destruct Hfd as [->| ->]; cbn; lia).
  pose proof (lookup_lt_Some _ _ _ Hi) as Hli. pose proof (lookup_lt_Some _ _ _ Hj) as Hlj.
  assert (forall x, is_open t x = true -> is_open t2 x = true) as Ho.
  { intros x Hx. unfold t2. rewrite !is_open_insert, Hx, !orb_true_r by (rewrite ?length_insert; done). done. }
  cbn [runs]. rewrite !Nat2Z.id, list_lookup_insert_ne, Ht2, close_lowest by (by apply Ho || lia).
  unfold t2. by rewrite (child_table t i j).
Qed.

End Run.

Definition ex_table : table := [Some Console; Some Console; Some Console; None; None; None].


(** [main] takes the last character of the argument of [cd] for the newline:
    when the input ends without one, the name is cut short. *)
Theorem cd_cuts_last_line : main_loop 2 [99; 100; 32; 97; 98] = Some [Chdir [97]].
Proof. reflexivity. Qed.
